(** * mini-claude-code-go: a shallow embedding of [agent.go]

    The agent is a single Go file.  This development embeds the parts of it
    that carry the safety and protocol guarantees of the specification: the
    path sandbox ([safePath]), the command classifier ([isDangerousCommand]),
    the output clamp ([clampText]), the task board ([TodoManager]), the tool
    dispatcher ([dispatchToolCall] and the five tools), the server-sent-event
    decoder ([handleStreamingResponse]) and the conversation loop ([query]).

    Go strings are byte strings: they are modelled by [string] (a list of
    8-bit [ascii] characters), and a rune is an integer code point in [Z].
    The parts of the Go standard library the agent calls ([unicode/utf8],
    [strings], [path/filepath] on a Unix host, [bufio.Scanner] lines) are
    embedded from their documented algorithms.  What lies outside the process
    (the Unicode case tables, the JSON decoder, the file system, the shell and
    the HTTP endpoint) is a parameter of the definitions that use it. *)

From Stdlib Require Import ZArith String Ascii List Lia DecimalString SpecFloat.
From stdpp Require Import gmap strings list.

Local Open Scope Z_scope.
Local Set Warnings "-register-all".

(** ** Bytes *)

(** The numeric value of a byte, and Go's conversion [byte(x)]. *)
Definition byte_val (c : ascii) : Z := Z.of_N (N_of_ascii c).
Definition byte_of (z : Z) : ascii := ascii_of_N (Z.to_N (z mod 256)).

(** [len(s)], [s[n:]] and [s[:n]] on byte strings. *)
Definition len (s : string) : Z := Z.of_nat (String.length s).

Fixpoint sdrop (n : nat) (s : string) : string :=
  match n, s with
  | O, _ => s
  | S n', String _ s' => sdrop n' s'
  | S _, EmptyString => EmptyString
  end.

Fixpoint stake (n : nat) (s : string) : string :=
  match n, s with
  | O, _ => EmptyString
  | S n', String c s' => String c (stake n' s')
  | S _, EmptyString => EmptyString
  end.

(** ** Package [unicode/utf8] *)
Module utf8.

Definition RuneError : Z := 0xFFFD.
Definition RuneSelf : Z := 0x80.
Definition MaxRune : Z := 0x10FFFF.
Definition UTFMax : nat := 4.
Definition surrogateMin : Z := 0xD800.
Definition surrogateMax : Z := 0xDFFF.

(** The table [first] together with [acceptRanges]: what the first byte of
    a sequence announces. *)
Inductive firstInfo : Type :=
| AS                                   (* ASCII, size 1 *)
| XX                                   (* invalid, size 1 *)
| SEQ (sz : nat) (lo hi : Z).          (* size and accepted range of byte 2 *)

Definition first (b : Z) : firstInfo :=
  if b <? 0x80 then AS
  else if b <? 0xC2 then XX
  else if b <? 0xE0 then SEQ 2 0x80 0xBF
  else if b =? 0xE0 then SEQ 3 0xA0 0xBF
  else if b <? 0xED then SEQ 3 0x80 0xBF
  else if b =? 0xED then SEQ 3 0x80 0x9F
  else if b <? 0xF0 then SEQ 3 0x80 0xBF
  else if b =? 0xF0 then SEQ 4 0x90 0xBF
  else if b <? 0xF4 then SEQ 4 0x80 0xBF
  else if b =? 0xF4 then SEQ 4 0x80 0x8F
  else XX.

Definition outside (lo hi b : Z) : bool := (b <? lo) || (hi <? b).

(** [utf8.DecodeRuneInString]: the first rune of [s] and its width in
    bytes; an invalid or short sequence decodes to [(RuneError, 1)]. *)
Definition DecodeRuneInString (s : string) : Z * nat :=
  match s with
  | EmptyString => (RuneError, O)
  | String c0 t0 =>
    let s0 := byte_val c0 in
    match first s0 with
    | AS => (s0, 1%nat)
    | XX => (RuneError, 1%nat)
    | SEQ sz lo hi =>
      if (String.length s <? sz)%nat then (RuneError, 1%nat) else
      match t0 with
      | EmptyString => (RuneError, 1%nat)
      | String c1 t1 =>
        let s1 := byte_val c1 in
        if outside lo hi s1 then (RuneError, 1%nat) else
        if (sz <=? 2)%nat then
          (Z.lor (Z.shiftl (Z.land s0 0x1F) 6) (Z.land s1 0x3F), 2%nat)
        else
        match t1 with
        | EmptyString => (RuneError, 1%nat)
        | String c2 t2 =>
          let s2 := byte_val c2 in
          if outside 0x80 0xBF s2 then (RuneError, 1%nat) else
          if (sz <=? 3)%nat then
            (Z.lor (Z.lor (Z.shiftl (Z.land s0 0x0F) 12)
                          (Z.shiftl (Z.land s1 0x3F) 6))
                   (Z.land s2 0x3F), 3%nat)
          else
          match t2 with
          | EmptyString => (RuneError, 1%nat)
          | String c3 _ =>
            let s3 := byte_val c3 in
            if outside 0x80 0xBF s3 then (RuneError, 1%nat) else
            (Z.lor (Z.lor (Z.lor (Z.shiftl (Z.land s0 0x07) 18)
                                 (Z.shiftl (Z.land s1 0x3F) 12))
                          (Z.shiftl (Z.land s2 0x3F) 6))
                   (Z.land s3 0x3F), 4%nat)
          end
        end
      end
    end
  end.

(** [utf8.RuneStart]: the byte is not a continuation byte. *)
Definition RuneStart (b : Z) : bool := negb (Z.land b 0xC0 =? 0x80).

(** The backward scan of [DecodeLastRuneInString]: from [start] down to
    [lim], stop at the first byte that can start a rune.  The result is the
    value of [start] when the loop ends ([lim - 1] when nothing was found). *)
Fixpoint scanStart (fuel : nat) (s : string) (start lim : Z) : Z :=
  match fuel with
  | O => start
  | S fuel' =>
    if start <? lim then start
    else match String.get (Z.to_nat start) s with
         | Some c => if RuneStart (byte_val c) then start
                     else scanStart fuel' s (start - 1) lim
         | None => start
         end
  end.

(** [utf8.DecodeLastRuneInString]. *)
Definition DecodeLastRuneInString (s : string) : Z * nat :=
  let end_ := len s in
  if end_ =? 0 then (RuneError, O) else
  let start := end_ - 1 in
  match String.get (Z.to_nat start) s with
  | None => (RuneError, O)
  | Some c =>
    let r := byte_val c in
    if r <? RuneSelf then (r, 1%nat) else
    let lim := Z.max 0 (end_ - Z.of_nat UTFMax) in
    let start := scanStart UTFMax s (start - 1) lim in
    let start := Z.max 0 start in
    let '(r, size) := DecodeRuneInString (sdrop (Z.to_nat start) s) in
    if start + Z.of_nat size =? end_ then (r, size) else (RuneError, 1%nat)
  end.

(** [encoderune] / [utf8.AppendRune]: the bytes of a rune; a rune that is
    out of range or a surrogate half is written as [RuneError]. *)
Definition enc3 (r : Z) : string :=
  String (byte_of (Z.lor 0xE0 (Z.shiftr r 12)))
 (String (byte_of (Z.lor 0x80 (Z.land (Z.shiftr r 6) 0x3F)))
 (String (byte_of (Z.lor 0x80 (Z.land r 0x3F))) EmptyString)).

Definition EncodeRune (r : Z) : string :=
  if (0 <=? r) && (r <=? 0x7F) then String (byte_of r) EmptyString
  else if (0 <=? r) && (r <=? 0x7FF) then
    String (byte_of (Z.lor 0xC0 (Z.shiftr r 6)))
   (String (byte_of (Z.lor 0x80 (Z.land r 0x3F))) EmptyString)
  else if (r <? 0) || (MaxRune <? r)
          || ((surrogateMin <=? r) && (r <=? surrogateMax)) then enc3 RuneError
  else if r <=? 0xFFFF then enc3 r
  else
    String (byte_of (Z.lor 0xF0 (Z.shiftr r 18)))
   (String (byte_of (Z.lor 0x80 (Z.land (Z.shiftr r 12) 0x3F)))
   (String (byte_of (Z.lor 0x80 (Z.land (Z.shiftr r 6) 0x3F)))
   (String (byte_of (Z.lor 0x80 (Z.land r 0x3F))) EmptyString))).

(** A rune that [EncodeRune] writes as itself. *)
Definition ValidRune (r : Z) : Prop :=
  0 <= r <= MaxRune /\ ~ (surrogateMin <= r <= surrogateMax).

End utf8.

(** The conversion [[]rune(s)]: decode rune after rune.  Every step consumes
    at least one byte, so [String.length s] steps are enough. *)
Fixpoint runes_fuel (fuel : nat) (s : string) : list Z :=
  match fuel with
  | O => []
  | S fuel' =>
    match s with
    | EmptyString => []
    | _ => let '(r, size) := utf8.DecodeRuneInString s in
           r :: runes_fuel fuel' (sdrop size s)
    end
  end.

Definition runes (s : string) : list Z := runes_fuel (String.length s) s.

(** The conversion [string(rs)] of a rune slice. *)
Fixpoint string_of_runes (rs : list Z) : string :=
  match rs with
  | [] => EmptyString
  | r :: rs' => utf8.EncodeRune r +:+ string_of_runes rs'
  end.

(** ** Package [unicode] *)
Module unicode.

(** [unicode.IsSpace]: the Latin-1 spaces and the [White_Space] property. *)
Definition IsSpace (r : Z) : bool :=
  (r =? 0x09) || (r =? 0x0A) || (r =? 0x0B) || (r =? 0x0C) || (r =? 0x0D)
  || (r =? 0x20) || (r =? 0x85) || (r =? 0xA0) || (r =? 0x1680)
  || ((0x2000 <=? r) && (r <=? 0x200A))
  || (r =? 0x2028) || (r =? 0x2029) || (r =? 0x202F) || (r =? 0x205F)
  || (r =? 0x3000).

End unicode.

(** ** Package [strings] *)
Module strings.

Fixpoint HasPrefix (s prefix : string) : bool :=
  match prefix, s with
  | EmptyString, _ => true
  | String p prefix', String c s' => Ascii.eqb c p && HasPrefix s' prefix'
  | String _ _, EmptyString => false
  end.

Definition TrimPrefix (s prefix : string) : string :=
  if HasPrefix s prefix then sdrop (String.length prefix) s else s.

Definition HasSuffix (s suffix : string) : bool :=
  (String.length suffix <=? String.length s)%nat
  && String.eqb (sdrop (String.length s - String.length suffix) s) suffix.

Definition TrimSuffix (s suffix : string) : string :=
  if HasSuffix s suffix
  then stake (String.length s - String.length suffix) s else s.

(** [strings.Contains(s, substr)], that is [Index(s, substr) >= 0]. *)
Fixpoint Contains (s substr : string) : bool :=
  HasPrefix s substr ||
  match s with
  | EmptyString => false
  | String _ s' => Contains s' substr
  end.

(** [strings.Join(elems, sep)]. *)
Fixpoint Join (elems : list string) (sep : string) : string :=
  match elems with
  | [] => EmptyString
  | [e] => e
  | e :: rest => e +:+ sep +:+ Join rest sep
  end.

(** [strings.Split(s, sep)] for a one-byte separator: always at least one
    field. *)
Fixpoint Split1 (s : string) (sep : ascii) : list string :=
  match s with
  | EmptyString => [EmptyString]
  | String c s' =>
    if Ascii.eqb c sep then EmptyString :: Split1 s' sep
    else match Split1 s' sep with
         | [] => [String c EmptyString]
         | f :: fs => String c f :: fs
         end
  end.

(** [strings.ReplaceAll(s, old, new)] for a non-empty [old]: leftmost
    non-overlapping occurrences. *)
Fixpoint replace_fuel (fuel : nat) (s old new : string) : string :=
  match fuel with
  | O => s
  | S fuel' =>
    match s with
    | EmptyString => EmptyString
    | String c s' =>
      if HasPrefix s old
      then new +:+ replace_fuel fuel' (sdrop (String.length old) s) old new
      else String c (replace_fuel fuel' s' old new)
    end
  end.

(** The table [asciiSpace]. *)
Definition asciiSpace (c : ascii) : bool :=
  let b := byte_val c in
  (b =? 0x09) || (b =? 0x0A) || (b =? 0x0B) || (b =? 0x0C) || (b =? 0x0D)
  || (b =? 0x20).

(** [strings.TrimLeftFunc(s, f)]: drop leading runes while [f] holds. *)
Fixpoint TrimLeftFunc_fuel (fuel : nat) (f : Z -> bool) (s : string) : string :=
  match fuel with
  | O => EmptyString
  | S fuel' =>
    match s with
    | EmptyString => EmptyString
    | _ => let '(r, size) := utf8.DecodeRuneInString s in
           if f r then TrimLeftFunc_fuel fuel' f (sdrop size s) else s
    end
  end.

Definition TrimLeftFunc (s : string) (f : Z -> bool) : string :=
  TrimLeftFunc_fuel (String.length s) f s.

(** [lastIndexFunc(s, f, false)]: the byte index of the last rune on which
    [f] fails, scanning backwards from [i]; [-1] when there is none. *)
Fixpoint lastIndexFunc_fuel (fuel : nat) (f : Z -> bool) (s : string) (i : Z) : Z :=
  match fuel with
  | O => -1
  | S fuel' =>
    if i <=? 0 then -1 else
    let '(r, size) := utf8.DecodeLastRuneInString (stake (Z.to_nat i) s) in
    let i := i - Z.of_nat size in
    if f r then lastIndexFunc_fuel fuel' f s i else i
  end.

(** [strings.TrimRightFunc(s, f)]. *)
Definition TrimRightFunc (s : string) (f : Z -> bool) : string :=
  let i := lastIndexFunc_fuel (String.length s) f s (len s) in
  let i :=
    match (if 0 <=? i then String.get (Z.to_nat i) s else None) with
    | Some c =>
      if utf8.RuneSelf <=? byte_val c
      then i + Z.of_nat (snd (utf8.DecodeRuneInString (sdrop (Z.to_nat i) s)))
      else i + 1
    | None => i + 1
    end in
  stake (Z.to_nat i) s.

Definition TrimFunc (s : string) (f : Z -> bool) : string :=
  TrimRightFunc (TrimLeftFunc s f) f.

(** [strings.TrimSpace], with its ASCII fast path: [trimStart] is the
    first loop, [trimStop] the second one (it walks the reversed rest). *)
Inductive scan : Type :=
| Stop (rest : string)       (* an ASCII byte that is not a space, or the end *)
| NonASCII (rest : string).  (* a byte >= RuneSelf: leave the fast path *)

Fixpoint trimStart (s : string) : scan :=
  match s with
  | EmptyString => Stop EmptyString
  | String c s' =>
    if utf8.RuneSelf <=? byte_val c then NonASCII s
    else if asciiSpace c then trimStart s'
    else Stop s
  end.

Definition TrimSpace (s : string) : string :=
  match trimStart s with
  | NonASCII rest => TrimFunc rest unicode.IsSpace
  | Stop rest =>
    match trimStart (String.rev rest) with
    | NonASCII rrest => TrimRightFunc (String.rev rrest) unicode.IsSpace
    | Stop rrest => String.rev rrest
    end
  end.

Definition isASCII (s : string) : bool :=
  forallb (fun c => byte_val c <? utf8.RuneSelf) (list_ascii_of_string s).

Definition lowerByte (c : ascii) : ascii :=
  let b := byte_val c in
  if (0x41 <=? b) && (b <=? 0x5A) then byte_of (b + 0x20) else c.

Fixpoint mapBytes (f : ascii -> ascii) (s : string) : string :=
  match s with
  | EmptyString => EmptyString
  | String c s' => String (f c) (mapBytes f s')
  end.

(** [strings.Map(mapping, s)]: every rune of [s] (an invalid byte counts
    as [RuneError]) is replaced by its image; a negative image is dropped. *)
Definition Map (mapping : Z -> Z) (s : string) : string :=
  string_of_runes (filter (fun r => 0 <= r) (map mapping (runes s))).

(** [strings.ToLower]: bytewise on an ASCII string, through the Unicode
    case table [unicode_ToLower] otherwise. *)
Definition ToLower (unicode_ToLower : Z -> Z) (s : string) : string :=
  if isASCII s then mapBytes lowerByte s else Map unicode_ToLower s.

End strings.

(** [fmt.Sprintf("%d", n)] and [strconv.Itoa]. *)
Definition itoa (n : Z) : string := NilEmpty.string_of_int (Z.to_int n).


(** ** Package [path/filepath] on a Unix host *)
Module filepath.

Definition Separator : ascii := "/"%char.
Definition IsPathSeparator (c : ascii) : bool := Ascii.eqb c Separator.
Definition isDot (c : ascii) : bool := Ascii.eqb c "."%char.

Definition IsAbs (path : string) : bool := strings.HasPrefix path "/".

(** The output buffer of [Clean]: the bytes written so far are the first
    [w] bytes of [buf]; backing up only moves [w]. *)
Record lazybuf : Type := { buf : string; w : nat }.

Definition lb_append (out : lazybuf) (c : ascii) : lazybuf :=
  {| buf := stake (w out) (buf out) +:+ String c EmptyString;
     w := S (w out) |}.

Definition lb_index (out : lazybuf) (i : nat) : ascii :=
  match String.get i (buf out) with
  | Some c => c
  | None => Ascii.zero
  end.

Definition lb_back (out : lazybuf) : lazybuf :=
  {| buf := buf out; w := pred (w out) |}.

Definition lb_string (out : lazybuf) : string := stake (w out) (buf out).

(** [for out.w > dotdot && !IsPathSeparator(out.index(out.w)) { out.w-- }] *)
Fixpoint backtrack (fuel : nat) (out : lazybuf) (dotdot : nat) : lazybuf :=
  match fuel with
  | O => out
  | S fuel' =>
    if (dotdot <? w out)%nat && negb (IsPathSeparator (lb_index out (w out)))
    then backtrack fuel' (lb_back out) dotdot
    else out
  end.

(** [for ; r < n && !IsPathSeparator(path[r]); r++ { out.append(path[r]) }]:
    the unread rest of the path and the buffer. *)
Fixpoint copyElem (path : string) (out : lazybuf) : string * lazybuf :=
  match path with
  | EmptyString => (EmptyString, out)
  | String c rest =>
    if IsPathSeparator c then (path, out)
    else copyElem rest (lb_append out c)
  end.

(** [r == n || IsPathSeparator(path[r])] on the unread rest. *)
Definition atBoundary (rest : string) : bool :=
  match rest with
  | EmptyString => true
  | String c _ => IsPathSeparator c
  end.

(** The main loop of [Clean]; [path] is the unread rest [path[r:]]. *)
Fixpoint cleanLoop (fuel : nat) (rooted : bool) (path : string)
         (out : lazybuf) (dotdot : nat) : lazybuf :=
  match fuel with
  | O => out
  | S fuel' =>
    match path with
    | EmptyString => out
    | String c rest =>
      if IsPathSeparator c then
        (* empty path element *)
        cleanLoop fuel' rooted rest out dotdot
      else if isDot c && atBoundary rest then
        (* . element *)
        cleanLoop fuel' rooted rest out dotdot
      else if isDot c && strings.HasPrefix rest "." && atBoundary (sdrop 1 rest) then
        (* .. element: remove to last separator *)
        let rest2 := sdrop 1 rest in
        if (dotdot <? w out)%nat then
          (* can backtrack *)
          let out := lb_back out in
          cleanLoop fuel' rooted rest2 (backtrack (w out) out dotdot) dotdot
        else if negb rooted then
          (* cannot backtrack, but not rooted, so append .. element *)
          let out := if (0 <? w out)%nat then lb_append out Separator else out in
          let out := lb_append (lb_append out "."%char) "."%char in
          cleanLoop fuel' rooted rest2 out (w out)
        else cleanLoop fuel' rooted rest2 out dotdot
      else
        (* real path element: add slash if needed, copy element *)
        let out :=
          if (rooted && negb (w out =? 1)%nat) || (negb rooted && negb (w out =? 0)%nat)
          then lb_append out Separator else out in
        let '(rest', out) := copyElem path out in
        cleanLoop fuel' rooted rest' out dotdot
    end
  end.

(** [filepath.Clean]. *)
Definition Clean (path : string) : string :=
  match path with
  | EmptyString => "."
  | String c rest =>
    let rooted := IsPathSeparator c in
    let empty := {| buf := EmptyString; w := O |} in
    let out :=
      if rooted
      then cleanLoop (String.length path) true rest (lb_append empty Separator) 1
      else cleanLoop (String.length path) false path empty 0 in
    (* Turn empty string into "." *)
    let out := if (w out =? 0)%nat then lb_append out "."%char else out in
    lb_string out
  end.

(** [filepath.Join]: the elements from the first non-empty one on, joined
    by the separator and cleaned. *)
Fixpoint Join (elem : list string) : string :=
  match elem with
  | [] => EmptyString
  | e :: rest =>
    if String.eqb e EmptyString then Join rest
    else Clean (strings.Join elem "/")
  end.

(** [filepath.Dir]: all but the last element of the path, cleaned. *)
Fixpoint lastSep (path : string) : option nat :=
  match path with
  | EmptyString => None
  | String c rest =>
    match lastSep rest with
    | Some i => Some (S i)
    | None => if IsPathSeparator c then Some O else None
    end
  end.

Definition Dir (path : string) : string :=
  match lastSep path with
  | Some i => Clean (stake (S i) path)
  | None => Clean EmptyString
  end.

End filepath.

(** ** Values shared by the agent *)

(** A Go [error], as far as the agent looks at it: its message. *)
Definition error : Type := string.

(** Line feed and escape, which Go writes [\n] and [\x1b]. *)
Definition LF : string := String "010"%char EmptyString.
Definition ESC : string := String "027"%char EmptyString.

(** A [float64] is an IEEE 754 binary64 value. *)
Definition float64 : Type := SpecFloat.spec_float.

(** A value decoded by [encoding/json] into an [interface{}]: [nil], [bool],
    [float64], [string], [[]interface{}] or [map[string]interface{}]. *)
Inductive jvalue : Type :=
| JNull
| JBool (b : bool)
| JNumber (f : float64)
| JString (s : string)
| JArray (l : list jvalue)
| JObject (m : gmap string jvalue).

(** Constants of [agent.go]. *)
Definition maxToolResultChars : Z := 100000.
Definition defaultMaxTokens : Z := 8192.
Definition maxAgentIterations : nat := 20.
Definition maxTodoItems : Z := 20.

Definition todoPendingColor : string := ESC +:+ "[38;2;176;176;176m".
Definition todoProgressColor : string := ESC +:+ "[38;2;120;200;255m".
Definition todoCompletedColor : string := ESC +:+ "[38;2;34;139;34m".
Definition strikethrough : string := ESC +:+ "[9m".
Definition reset : string := ESC +:+ "[0m".

Definition initialReminder : string :=
  "<reminder source=" +:+ String "034"%char "system" +:+ String "034"%char " topic="
  +:+ String "034"%char "todos" +:+ String "034"%char ">System message: complex work should be tracked with the Todo tool. Do not respond to this reminder and do not mention it to the user.</reminder>".

Definition nagReminder : string :=
  "<reminder source=" +:+ String "034"%char "system" +:+ String "034"%char " topic="
  +:+ String "034"%char "todos" +:+ String "034"%char ">System notice: more than ten rounds passed without Todo usage. Update the Todo board if the task still requires multiple steps. Do not reply to or mention this reminder to the user.</reminder>".

(** [Config] carries runtime configuration. *)
Record Config : Type := {
  cfg_APIKey : string;
  cfg_BaseURL : string;
  cfg_Model : string;
  cfg_WorkDir : string;
  cfg_MaxResult : Z;
  cfg_Debug : bool;
  cfg_Stream : bool
}.

Record ContentBlock : Type := {
  cb_Type : string;
  cb_Text : string
}.

(** [Message.Content] is an [interface{}]: a string, a [[]ContentBlock], or
    whatever else the decoder stored ([nil] is [ContentValue JNull]). *)
Inductive Content : Type :=
| ContentString (s : string)
| ContentBlocks (blocks : list ContentBlock)
| ContentValue (v : jvalue).

Record Function_ : Type := {
  fn_Name : string;
  fn_Arguments : string
}.

Record ToolCall : Type := {
  tc_ID : string;
  tc_Type : string;
  tc_Function : Function_
}.

Record Message : Type := {
  msg_Role : string;
  msg_Content : Content;
  msg_ToolCalls : list ToolCall;
  msg_ToolCallID : string;
  msg_Name : string
}.

Record Choice : Type := {
  ch_Index : Z;
  ch_Message : Message;
  ch_FinishReason : string
}.

Record APIResponse : Type := {
  resp_ID : string;
  resp_Object : string;
  resp_Created : Z;
  resp_Model : string;
  resp_Choices : list Choice
}.

(** [TodoItem] represents a single todo task. *)
Record TodoItem : Type := {
  todo_ID : string;
  todo_Content : string;
  todo_Status : string;
  todo_ActiveForm : string
}.

(** [TodoManager] manages the todo list (its mutex serialises the calls and
    is not part of the state). *)
Record TodoManager : Type := {
  tm_items : list TodoItem
}.

(** The anonymous struct a stream chunk is decoded into. *)
Record ChunkChoice : Type := {
  cc_DeltaContent : string;
  cc_FinishReason : string
}.

Record Chunk : Type := {
  chunk_Choices : list ChunkChoice
}.

(** ** What the agent takes from outside *)

(** The parts of the Go library that are not embedded here. *)
Class Runtime : Type := {
  (** [unicode.ToLower], the simple lower-case mapping of the Unicode tables *)
  unicode_ToLower : Z -> Z;
  (** [strconv.FormatFloat(v, 'f', -1, 64)] *)
  FormatFloat : float64 -> string;
  (** the conversion [int(v)] of a [float64] (platform-defined out of range) *)
  int_of_float : float64 -> Z;
  (** [json.Unmarshal] into a [map[string]interface{}]; a [nil] map reads as
      the empty one *)
  json_Unmarshal_map : string -> gmap string jvalue * option error;
  (** [json.Unmarshal] into the chunk struct of the stream decoder *)
  json_Unmarshal_chunk : string -> Chunk * option error;
  (** [json.Unmarshal] into an [APIResponse] *)
  json_Unmarshal_response : string -> APIResponse * option error;
  (** [filepath.Rel] *)
  filepath_Rel : string -> string -> string * option error;
  (** [json.Marshal] of the request body made of the model, the messages,
      the tool definitions, the limit and the stream flag: the error, if
      any *)
  json_Marshal : string -> list Message -> Z -> bool -> option error;
  (** [http.NewRequest("POST", endpoint, ...)]: the error, if any *)
  http_NewRequest : string -> option error
}.

(** How [cmd.Run] ended. *)
Inductive RunError : Type :=
| RunNil                              (* exit status 0 *)
| RunExitError (msg : string)         (* an [*exec.ExitError] *)
| RunOtherError (msg : string).       (* any other error *)

(** What the agent sees of one shell command. *)
Record RunResult : Type := {
  run_DeadlineExceeded : bool;        (* [ctx.Err()] is [DeadlineExceeded] *)
  run_Stdout : string;
  run_Stderr : string;
  run_Err : RunError
}.

(** The request [callOpenAI] posts. *)
Record Request : Type := {
  req_Endpoint : string;
  req_APIKey : string;
  req_Model : string;
  req_Messages : list Message;
  req_MaxTokens : Z;
  req_Stream : bool
}.

(** The body of a response as the agent reads it: all at once, or line by
    line through a [bufio.Scanner]; either read can fail.  A scanner goes on
    delivering the lines it has buffered after a read has failed, so every
    line comes with what [scanner.Err()] reports once it is delivered; the
    last component is what [scanner.Err()] reports after [scanner.Scan()]
    has returned false. *)
Record Response : Type := {
  http_StatusCode : Z;
  http_Body : string * option error;          (* [io.ReadAll(resp.Body)] *)
  http_Lines : list (string * option error) * option error
}.

(** Lines that are delivered while no read error is pending. *)
Definition scanned (lines : list string) : list (string * option error) :=
  map (fun line => (line, None)) lines.

(** The machine around the agent: file system, shell and network.  Every
    operation reads the state [Ext] of the outside, and may change it. *)
Class Host : Type := {
  Ext : Type;
  os_Getwd : Ext -> string * option error;
  os_ReadFile : string -> Ext -> string * option error;
  os_WriteFile : string -> string -> Ext -> option error * Ext;
  (** [os.OpenFile] for appending, [WriteString], [Close] *)
  os_AppendFile : string -> string -> Ext -> option error * Ext;
  os_MkdirAll : string -> Ext -> option error * Ext;
  (** [exec.CommandContext(ctx, "bash", "-lc", command)] run in [dir] with a
      deadline of [timeout] nanoseconds *)
  exec_Run : string -> string -> Z -> Ext -> RunResult * Ext;
  (** [client.Do(req)]: a transport error or a response *)
  http_Do : Request -> Ext -> (Response + error) * Ext
}.

(** The state of the process: the outside and the three globals. *)
Record World `{Host} : Type := {
  ext : Ext;
  todoBoard : TodoManager;
  pendingContextBlocks : list ContentBlock;
  roundsWithoutTodo : Z
}.

(** ** The agent, function by function *)

(** [int64] wrap-around, for [time.Duration(timeout) * time.Millisecond]. *)
Definition wrap64 (z : Z) : Z := (z + 2 ^ 63) mod 2 ^ 64 - 2 ^ 63.

(** [strconv.Atoi]: an optional sign and at least one decimal digit, within
    the range of a 64-bit [int]; [None] is the error. *)
Definition digitVal (c : ascii) : option Z :=
  let b := byte_val c in
  if (0x30 <=? b) && (b <=? 0x39) then Some (b - 0x30) else None.

Fixpoint parseDigits (s : string) (acc : Z) : option Z :=
  match s with
  | EmptyString => Some acc
  | String c s' =>
    match digitVal c with
    | Some d => parseDigits s' (10 * acc + d)
    | None => None
    end
  end.

Definition inInt64 (z : Z) : bool := (- 2 ^ 63 <=? z) && (z <? 2 ^ 63).

Definition Atoi (s : string) : option Z :=
  let '(neg, digits) :=
    match s with
    | String "-"%char s' => (true, s')
    | String "+"%char s' => (false, s')
    | _ => (false, s)
    end in
  match digits with
  | EmptyString => None
  | _ =>
    match parseDigits digits 0 with
    | Some n => let z := if neg then - n else n in
                if inInt64 z then Some z else None
    | None => None
    end
  end.

(** [clampText]: at most [limit] runes of [s], and a marker that counts the
    runes left out. *)
Definition clampText (s : string) (limit : Z) : string :=
  if limit <=? 0 then EmptyString
  else if Z.of_nat (length (runes s)) <=? limit then s
  else
    let runes := runes s in
    let truncated := string_of_runes (firstn (Z.to_nat limit) runes) in
    let extras := Z.of_nat (length runes) - limit in
    truncated +:+ LF +:+ LF +:+ "...<truncated " +:+ itoa extras +:+ " chars>".

Definition clampForLog (s : string) : string := clampText s 2000.

Section Pure.
Context `{Runtime}.

(** The [danger] list of [isDangerousCommand]. *)
Definition danger : list string :=
  ["rm -rf /"; "shutdown"; "reboot"; "sudo "; "halt"].

(** [for _, token := range danger { if strings.Contains(lowered, token) ...] *)
Fixpoint containsAny (lowered : string) (tokens : list string) : bool :=
  match tokens with
  | [] => false
  | token :: rest =>
    if strings.Contains lowered token then true else containsAny lowered rest
  end.

Definition isDangerousCommand (cmd : string) : bool :=
  let lowered := strings.ToLower unicode_ToLower cmd in
  containsAny lowered danger.

(** [getString]: only the [string] and [float64] cases of the type switch
    can be met by a decoded value. *)
Definition getString (input : gmap string jvalue) (key : string) : string :=
  match input !! key with
  | Some (JString v) => v
  | Some (JNumber v) => FormatFloat v
  | _ => EmptyString
  end.

(** [getOptionalInt]: the value and the [ok] flag. *)
Definition getOptionalInt (input : gmap string jvalue) (key : string) : Z * bool :=
  match input !! key with
  | None => (0, false)
  | Some (JNumber v) => (int_of_float v, true)
  | Some (JString v) =>
    let trimmed := strings.TrimSpace v in
    if String.eqb trimmed EmptyString then (0, false)
    else match Atoi trimmed with
         | Some parsed => (parsed, true)
         | None => (0, false)
         end
  | Some _ => (0, false)
  end.

Definition getIntOrDefault (input : gmap string jvalue) (key : string) (def : Z) : Z :=
  let '(val, ok) := getOptionalInt input key in
  if ok then val else def.

Definition toInt (v : jvalue) : Z :=
  match v with
  | JNumber val => int_of_float val
  | JString val =>
    match Atoi (strings.TrimSpace val) with
    | Some parsed => parsed
    | None => 0
    end
  | _ => 0
  end.

(** *** The task board *)

Definition renderLine (todo : TodoItem) : string :=
  let mark := if String.eqb (todo_Status todo) "completed" then "☒" else "☐" in
  if String.eqb (todo_Status todo) "completed" then
    todoCompletedColor +:+ strikethrough +:+ mark +:+ " " +:+ todo_Content todo +:+ reset
  else if String.eqb (todo_Status todo) "in_progress" then
    todoProgressColor +:+ mark +:+ " " +:+ todo_Content todo +:+ reset
  else
    todoPendingColor +:+ mark +:+ " " +:+ todo_Content todo +:+ reset.

(** [render] is the internal unlocked rendering method. *)
Definition render (tm : TodoManager) : string :=
  match tm_items tm with
  | [] => todoPendingColor +:+ "☐ No todos yet" +:+ reset
  | items => strings.Join (map renderLine items) LF
  end.

(** The counting loop of [stats]: [(completed, inProgress)]. *)
Fixpoint countStatus (items : list TodoItem) (completed inProgress : Z) : Z * Z :=
  match items with
  | [] => (completed, inProgress)
  | todo :: rest =>
    if String.eqb (todo_Status todo) "completed" then
      countStatus rest (completed + 1) inProgress
    else if String.eqb (todo_Status todo) "in_progress" then
      countStatus rest completed (inProgress + 1)
    else countStatus rest completed inProgress
  end.

Definition stats (tm : TodoManager) : gmap string Z :=
  let '(completed, inProgress) := countStatus (tm_items tm) 0 0 in
  <["total" := Z.of_nat (length (tm_items tm))]>
    (<["completed" := completed]> (<["in_progress" := inProgress]> ∅)).

Definition validStatus (status : string) : bool :=
  String.eqb status "pending" || String.eqb status "in_progress"
  || String.eqb status "completed".

(** The validation loop of [Update]: the number of in-progress items, or
    the error of the first item that fails a check. *)
Fixpoint validateItems (items : list TodoItem) (seenIDs : gmap string bool)
         (inProgressCount : Z) : Z + error :=
  match items with
  | [] => inl inProgressCount
  | item :: rest =>
    (* Check duplicate IDs *)
    if default false (seenIDs !! todo_ID item) then
      inr ("duplicate todo id: " +:+ todo_ID item)
    else
    let seenIDs := <[todo_ID item := true]> seenIDs in
    (* Check content *)
    if String.eqb (strings.TrimSpace (todo_Content item)) EmptyString then
      inr "todo content cannot be empty"
    (* Check activeForm *)
    else if String.eqb (strings.TrimSpace (todo_ActiveForm item)) EmptyString then
      inr "todo activeForm cannot be empty"
    else
    (* Check status *)
    let status := strings.ToLower unicode_ToLower (todo_Status item) in
    if negb (validStatus status) then
      inr "status must be one of: pending, in_progress, completed"
    else
    (* [item.Status = status] writes to the loop variable, a copy *)
    let item := {| todo_ID := todo_ID item; todo_Content := todo_Content item;
                   todo_Status := status; todo_ActiveForm := todo_ActiveForm item |} in
    let inProgressCount :=
      if String.eqb status "in_progress" then inProgressCount + 1
      else inProgressCount in
    validateItems rest seenIDs inProgressCount
  end.

(** [TodoManager.Update]: the rendered board or an error, and the manager
    afterwards. *)
Definition Update (tm : TodoManager) (items : list TodoItem)
  : (string * option error) * TodoManager :=
  if maxTodoItems <? Z.of_nat (length items) then
    ((EmptyString, Some ("todo list is limited to " +:+ itoa maxTodoItems +:+ " items")), tm)
  else
    match validateItems items ∅ 0 with
    | inr err => ((EmptyString, Some err), tm)
    | inl inProgressCount =>
      if 1 <? inProgressCount then
        ((EmptyString, Some "only one task can be in_progress at a time"), tm)
      else
        let tm := {| tm_items := items |} in
        ((render tm, None), tm)
    end.

Definition Render (tm : TodoManager) : string := render tm.
Definition Stats (tm : TodoManager) : gmap string Z := stats tm.

(** *** The stream decoder *)

(** The read loop of [handleStreamingResponse] over the scanned lines: the
    accumulated text, and what [scanner.Err()] reports when the loop is
    left, by [break] after a line or because [scanner.Scan()] returned
    false ([atEnd]). *)
Fixpoint streamLoop (lines : list (string * option error)) (atEnd : option error)
         (finalContent : string) : string * option error :=
  match lines with
  | [] => (finalContent, atEnd)
  | (line, pending) :: rest =>
    (* Skip empty lines and SSE event markers *)
    if String.eqb (strings.TrimSpace line) EmptyString
       || negb (strings.HasPrefix line "data: ") then
      streamLoop rest atEnd finalContent
    else
    (* Extract JSON data *)
    let dataStr := strings.TrimPrefix line "data: " in
    if String.eqb dataStr "[DONE]" then (finalContent, pending)
    else
    (* Parse the JSON chunk *)
    let '(chunk, err) := json_Unmarshal_chunk dataStr in
    match err with
    | Some _ => streamLoop rest atEnd finalContent
    | None =>
      match chunk_Choices chunk with
      | [] => streamLoop rest atEnd finalContent
      | choice :: _ =>
        (* Accumulate content *)
        let finalContent :=
          if negb (String.eqb (cc_DeltaContent choice) EmptyString)
          then finalContent +:+ cc_DeltaContent choice else finalContent in
        (* Check for finish reason *)
        if negb (String.eqb (cc_FinishReason choice) EmptyString)
        then (finalContent, pending)
        else streamLoop rest atEnd finalContent
      end
    end
  end.

Definition emptyMessage : Message :=
  {| msg_Role := EmptyString; msg_Content := ContentValue JNull;
     msg_ToolCalls := []; msg_ToolCallID := EmptyString; msg_Name := EmptyString |}.

Definition apiError (status : Z) (data : string) : error :=
  "api error: status " +:+ itoa status +:+ " body " +:+ clampForLog data.

(** [handleStreamingResponse] processes Server-Sent Events stream
    responses. *)
Definition handleStreamingResponse (cfg : Config) (resp : Response)
  : APIResponse + error :=
  if 400 <=? http_StatusCode resp then
    match http_Body resp with
    | (_, Some err) => inr err
    | (data, None) => inr (apiError (http_StatusCode resp) data)
    end
  else
    let '(lines, atEnd) := http_Lines resp in
    let '(finalContent, scanErr) := streamLoop lines atEnd EmptyString in
    match scanErr with
    | Some err => inr ("error reading stream: " +:+ err)
    | None =>
      (* Create a mock API response with the accumulated content *)
      inl {| resp_ID := EmptyString; resp_Object := EmptyString;
             resp_Created := 0; resp_Model := EmptyString;
             resp_Choices :=
               [ {| ch_Index := 0;
                    ch_Message :=
                      {| msg_Role := "assistant";
                         msg_Content := ContentString finalContent;
                         msg_ToolCalls := []; msg_ToolCallID := EmptyString;
                         msg_Name := EmptyString |};
                    ch_FinishReason := "stop" |} ] |}
    end.

(** [handleNonStreamingResponse] processes standard JSON responses. *)
Definition handleNonStreamingResponse (cfg : Config) (resp : Response)
  : APIResponse + error :=
  match http_Body resp with
  | (_, Some err) => inr err
  | (data, None) =>
    if 400 <=? http_StatusCode resp then inr (apiError (http_StatusCode resp) data)
    else match json_Unmarshal_response data with
         | (_, Some err) => inr err
         | (apiResp, None) => inl apiResp
         end
  end.

(** The endpoint [callOpenAI] posts to. *)
Definition endpointOf (baseURL : string) : string :=
  if strings.HasSuffix baseURL "#" then strings.TrimSuffix baseURL "#"
  else if strings.HasSuffix baseURL "/v1" then baseURL +:+ "/chat/completions"
  else if strings.HasSuffix baseURL "/" then baseURL +:+ "chat/completions"
  else baseURL +:+ "/v1/chat/completions".

End Pure.

Section Agent.
Context `{Runtime} `{Host}.

(** [filepath.Abs] on Unix: a relative path is joined to the working
    directory of the process. *)
Definition filepath_Abs (path : string) (x : Ext) : string * option error :=
  if filepath.IsAbs path then (filepath.Clean path, None)
  else match os_Getwd x with
       | (_, Some err) => (EmptyString, Some err)
       | (wd, None) => (filepath.Join [wd; path], None)
       end.

(** [safePath]: the absolute path of [p] inside [workDir], or an error. *)
Definition safePath (workDir p : string) (x : Ext) : string * option error :=
  let candidate := strings.TrimSpace p in
  if String.eqb candidate EmptyString then (EmptyString, Some "path required")
  else
    let joined :=
      if filepath.IsAbs candidate then filepath.Clean candidate
      else filepath.Join [workDir; candidate] in
    match filepath_Abs joined x with
    | (_, Some err) => (EmptyString, Some err)
    | (abs, None) =>
      match filepath_Abs workDir x with
      | (_, Some err) => (EmptyString, Some err)
      | (workAbs, None) =>
        if negb (strings.HasPrefix abs (workAbs +:+ String filepath.Separator EmptyString))
           && negb (String.eqb abs workAbs)
        then (EmptyString, Some "path escapes workspace")
        else (abs, None)
      end
    end.

Definition set_ext (w : World) (x : Ext) : World :=
  {| ext := x; todoBoard := todoBoard w;
     pendingContextBlocks := pendingContextBlocks w;
     roundsWithoutTodo := roundsWithoutTodo w |}.

(** *** The tools *)

Definition runBash (cfg : Config) (input : gmap string jvalue) (w : World)
  : (string * option error) * World :=
  let command := strings.TrimSpace (getString input "command") in
  if String.eqb command EmptyString then
    ((EmptyString, Some "missing bash.command"), w)
  else if isDangerousCommand command then
    ((EmptyString, Some "blocked dangerous command"), w)
  else
    let timeout := getIntOrDefault input "timeout_ms" 30000 in
    let '(res, x) :=
      exec_Run (cfg_WorkDir cfg) command (wrap64 (timeout * 1000000)) (ext w) in
    let w := set_ext w x in
    if run_DeadlineExceeded res then (("(timeout)", None), w)
    else
      let output :=
        strings.TrimSpace (strings.Join [run_Stdout res; run_Stderr res] LF) in
      let output := if String.eqb output EmptyString then "(no output)" else output in
      match run_Err res with
      | RunNil => ((clampText output maxToolResultChars, None), w)
      | RunExitError msg =>
        let output := output +:+ LF +:+ "(exit error: " +:+ msg +:+ ")" in
        ((clampText output maxToolResultChars, None), w)
      | RunOtherError msg => ((clampText output maxToolResultChars, Some msg), w)
      end.

(** [lines[start:end]] for [0 <= start <= end <= len(lines)]. *)
Definition slice {A} (l : list A) (start end_ : Z) : list A :=
  firstn (Z.to_nat (end_ - start)) (skipn (Z.to_nat start) l).

Definition runRead (cfg : Config) (input : gmap string jvalue) (w : World)
  : (string * option error) * World :=
  let path := getString input "path" in
  match safePath (cfg_WorkDir cfg) path (ext w) with
  | (_, Some err) => ((EmptyString, Some err), w)
  | (abs, None) =>
    match os_ReadFile abs (ext w) with
    | (_, Some err) => ((EmptyString, Some err), w)
    | (text, None) =>
      let lines := strings.Split1 text "010"%char in
      let n := Z.of_nat (length lines) in
      let start :=
        let '(val, ok) := getOptionalInt input "start_line" in
        if ok then
          let val := if val <? 1 then 1 else val in
          let start := val - 1 in
          if n <? start then n else start
        else 0 in
      let end_ :=
        let '(val, ok) := getOptionalInt input "end_line" in
        if ok && (0 <=? val) then
          if val <? start then start
          else if n <? val then n
          else val
        else n in
      let start := if end_ <? start then end_ else start in
      let sliced := strings.Join (slice lines start end_) LF in
      let maxChars := getIntOrDefault input "max_chars" maxToolResultChars in
      ((clampText sliced maxChars, None), w)
    end
  end.

Definition runWrite (cfg : Config) (input : gmap string jvalue) (w : World)
  : (string * option error) * World :=
  let path := getString input "path" in
  match safePath (cfg_WorkDir cfg) path (ext w) with
  | (_, Some err) => ((EmptyString, Some err), w)
  | (abs, None) =>
    let content := getString input "content" in
    let mode := strings.ToLower unicode_ToLower (getString input "mode") in
    match os_MkdirAll (filepath.Dir abs) (ext w) with
    | (Some err, x) => ((EmptyString, Some err), set_ext w x)
    | (None, x) =>
      let '(werr, x) :=
        if String.eqb mode "append" then os_AppendFile abs content x
        else os_WriteFile abs content x in
      let w := set_ext w x in
      match werr with
      | Some err => ((EmptyString, Some err), w)
      | None =>
        let bytesLen := len content in
        let rel :=
          match filepath_Rel (cfg_WorkDir cfg) abs with
          | (_, Some _) => abs
          | (rel, None) => rel
          end in
        (("wrote " +:+ itoa bytesLen +:+ " bytes to " +:+ rel, None), w)
      end
    end
  end.

(** Write [updated] back and report [msg]. *)
Definition writeBack (abs updated msg : string) (w : World)
  : (string * option error) * World :=
  match os_WriteFile abs updated (ext w) with
  | (Some err, x) => ((EmptyString, Some err), set_ext w x)
  | (None, x) => ((msg, None), set_ext w x)
  end.

Definition runEdit (cfg : Config) (input : gmap string jvalue) (w : World)
  : (string * option error) * World :=
  let path := getString input "path" in
  match safePath (cfg_WorkDir cfg) path (ext w) with
  | (_, Some err) => ((EmptyString, Some err), w)
  | (abs, None) =>
    match os_ReadFile abs (ext w) with
    | (_, Some err) => ((EmptyString, Some err), w)
    | (text, None) =>
      let action := strings.ToLower unicode_ToLower (getString input "action") in
      if String.eqb action "replace" then
        let findStr := getString input "find" in
        if String.eqb findStr EmptyString then
          ((EmptyString, Some "edit_text.replace missing find"), w)
        else
          let replaceStr := getString input "replace" in
          let updated :=
            strings.replace_fuel (String.length text) text findStr replaceStr in
          writeBack abs updated
                    ("replace done (" +:+ itoa (len updated) +:+ " bytes)") w
      else if String.eqb action "insert" then
        let insertAfter := getIntOrDefault input "insert_after" (-1) in
        let newText := getString input "new_text" in
        let lines := strings.Split1 text "010"%char in
        let n := Z.of_nat (length lines) in
        let idx := insertAfter in
        let idx := if idx <? -1 then -1 else idx in
        let idx := if n <=? idx then n - 1 else idx in
        let result :=
          if 0 <=? idx then
            slice lines 0 (idx + 1) ++ [newText] ++ slice lines (idx + 1) n
          else [newText] ++ lines in
        let updated := strings.Join result LF in
        writeBack abs updated ("inserted after line " +:+ itoa insertAfter) w
      else if String.eqb action "delete_range" then
        match input !! "range" with
        | Some (JArray [r0; r1]) =>
          let start := toInt r0 in
          let end_ := toInt r1 in
          if (start <? 0) || (end_ <? start) then
            ((EmptyString, Some "edit_text.delete_range invalid range"), w)
          else
            let lines := strings.Split1 text "010"%char in
            let n := Z.of_nat (length lines) in
            let start := if n <? start then n else start in
            let end_ := if n <? end_ then n else end_ in
            let updated :=
              strings.Join (slice lines 0 start ++ slice lines end_ n) LF in
            writeBack abs updated
                      ("deleted lines [" +:+ itoa start +:+ ", " +:+ itoa end_ +:+ ")") w
        | _ => ((EmptyString, Some "edit_text.delete_range invalid range"), w)
        end
      else
        ((EmptyString, Some ("unsupported edit_text.action: " +:+ action)), w)
    end
  end.

(** The loop of [runTodoUpdate] that turns the raw items into [TodoItem]s;
    [i] is the index of the first of [raw]. *)
Fixpoint parseItems (raw : list jvalue) (i : Z) (items : list TodoItem)
  : list TodoItem + error :=
  match raw with
  | [] => inl items
  | JObject itemMap :: rest =>
    let id := getString itemMap "id" in
    let id := if String.eqb id EmptyString then itoa (i + 1) else id in
    let content := getString itemMap "content" in
    let activeForm := getString itemMap "activeForm" in
    let status := getString itemMap "status" in
    let status := if String.eqb status EmptyString then "pending" else status in
    parseItems rest (i + 1)
               (items ++ [ {| todo_ID := id; todo_Content := content;
                              todo_Status := status; todo_ActiveForm := activeForm |} ])
  | _ :: _ => inr ("item " +:+ itoa i +:+ " is not an object")
  end.

Definition runTodoUpdate (cfg : Config) (input : gmap string jvalue) (w : World)
  : (string * option error) * World :=
  match input !! "items" with
  | None => ((EmptyString, Some "missing items parameter"), w)
  | Some (JArray itemsList) =>
    match parseItems itemsList 0 [] with
    | inr err => ((EmptyString, Some err), w)
    | inl items =>
      match Update (todoBoard w) items with
      | ((_, Some err), _) => ((EmptyString, Some err), w)
      | ((boardView, None), tm) =>
        (* Reset rounds counter *)
        let w := {| ext := ext w; todoBoard := tm;
                    pendingContextBlocks := pendingContextBlocks w;
                    roundsWithoutTodo := 0 |} in
        let stats := Stats (todoBoard w) in
        let summary :=
          if default 0 (stats !! "total") =? 0 then "No todos have been created."
          else "Status updated: " +:+ itoa (default 0 (stats !! "completed"))
               +:+ " completed, " +:+ itoa (default 0 (stats !! "in_progress"))
               +:+ " in progress." in
        if negb (String.eqb summary EmptyString)
        then ((boardView +:+ LF +:+ LF +:+ summary, None), w)
        else ((boardView, None), w)
      end
    end
  | Some _ => ((EmptyString, Some "items must be an array"), w)
  end.

Definition toolMessage (tc : ToolCall) (content : string) : Message :=
  {| msg_Role := "tool";
     msg_Content := ContentString content;
     msg_ToolCalls := [];
     msg_ToolCallID := tc_ID tc;
     msg_Name := fn_Name (tc_Function tc) |}.

(** [dispatchToolCall] (what it prints to the terminal is left out). *)
Definition dispatchToolCall (cfg : Config) (tc : ToolCall) (w : World)
  : Message * World :=
  match json_Unmarshal_map (fn_Arguments (tc_Function tc)) with
  | (_, Some err) => (toolMessage tc ("Error parsing arguments: " +:+ err), w)
  | (input, None) =>
    let name := fn_Name (tc_Function tc) in
    let '((result, err), w) :=
      if String.eqb name "bash" then runBash cfg input w
      else if String.eqb name "read_file" then runRead cfg input w
      else if String.eqb name "write_file" then runWrite cfg input w
      else if String.eqb name "edit_text" then runEdit cfg input w
      else if String.eqb name "TodoWrite" then runTodoUpdate cfg input w
      else ((EmptyString, Some ("unknown tool: " +:+ name)), w) in
    let result := match err with Some e => e | None => result end in
    (toolMessage tc (clampText result (cfg_MaxResult cfg)), w)
  end.

(** *** The reminders *)

Definition injectReminders (userText : string) (w : World) : Content * World :=
  match pendingContextBlocks w with
  | [] => (ContentString userText, w)
  | pending =>
    (ContentBlocks (pending ++ [ {| cb_Type := "text"; cb_Text := userText |} ]),
     {| ext := ext w; todoBoard := todoBoard w; pendingContextBlocks := [];
        roundsWithoutTodo := roundsWithoutTodo w |})
  end.

Definition ensureContextBlock (text : string) (w : World) : World :=
  if existsb (fun block => String.eqb (cb_Text block) text) (pendingContextBlocks w)
  then w
  else {| ext := ext w; todoBoard := todoBoard w;
          pendingContextBlocks :=
            pendingContextBlocks w ++ [ {| cb_Type := "text"; cb_Text := text |} ];
          roundsWithoutTodo := roundsWithoutTodo w |}.

(** *** The model endpoint *)

Definition callOpenAI (cfg : Config) (messages : list Message) (w : World)
  : (APIResponse + error) * World :=
  let req := {| req_Endpoint := endpointOf (cfg_BaseURL cfg);
                req_APIKey := cfg_APIKey cfg;
                req_Model := cfg_Model cfg;
                req_Messages := messages;
                req_MaxTokens := cfg_MaxResult cfg;
                req_Stream := cfg_Stream cfg |} in
  match json_Marshal (cfg_Model cfg) messages (cfg_MaxResult cfg) (cfg_Stream cfg) with
  | Some err => (inr err, w)
  | None =>
    match http_NewRequest (endpointOf (cfg_BaseURL cfg)) with
    | Some err => (inr err, w)
    | None =>
      match http_Do req (ext w) with
      | (inr err, x) => (inr err, set_ext w x)
      | (inl resp, x) =>
        (* Handle streaming response *)
        if cfg_Stream cfg then (handleStreamingResponse cfg resp, set_ext w x)
        (* Handle non-streaming response *)
        else (handleNonStreamingResponse cfg resp, set_ext w x)
      end
    end
  end.

(** *** The conversation loop *)

Definition systemPrompt (workDir : string) : string :=
  "You are a coding agent operating INSIDE the user's repository at " +:+ workDir +:+ "." +:+ LF +:+
  "Follow this loop strictly: plan briefly → use TOOLS to act directly on files/shell → report concise results." +:+ LF +:+
  "Rules:" +:+ LF +:+
  "- Prefer taking actions with tools (read/write/edit/bash) over long prose." +:+ LF +:+
  "- Keep outputs terse. Use bullet lists / checklists when summarizing." +:+ LF +:+
  "- Never invent file paths. Ask via reads or list directories first if unsure." +:+ LF +:+
  "- For edits, apply the smallest change that satisfies the request." +:+ LF +:+
  "- For bash, avoid destructive or privileged commands; stay inside the workspace." +:+ LF +:+
  "- Use the TodoWrite tool to maintain multi-step plans when needed." +:+ LF +:+
  "- After finishing, summarize what changed and how to run or test.".

Definition systemMessage (cfg : Config) : Message :=
  {| msg_Role := "system";
     msg_Content := ContentString (systemPrompt (cfg_WorkDir cfg));
     msg_ToolCalls := []; msg_ToolCallID := EmptyString; msg_Name := EmptyString |}.

(** [for _, tc := range assistantMsg.ToolCalls]: every result is appended
    to both slices. *)
Fixpoint runTools (cfg : Config) (calls : list ToolCall)
         (messages fullMessages : list Message) (w : World)
  : list Message * list Message * World :=
  match calls with
  | [] => (messages, fullMessages, w)
  | tc :: rest =>
    let '(result, w) := dispatchToolCall cfg tc w in
    runTools cfg rest (messages ++ [result]) (fullMessages ++ [result]) w
  end.

(** The loop of [query]; [rounds] is [maxAgentIterations - idx]. *)
Fixpoint queryLoop (rounds : nat) (cfg : Config)
         (messages fullMessages : list Message) (w : World)
  : (list Message * option error) * World :=
  match rounds with
  | O => ((messages, Some "agent max iterations reached"), w)
  | S rounds' =>
    match callOpenAI cfg fullMessages w with
    | (inr err, w) => ((messages, Some err), w)
    | (inl resp, w) =>
      match resp_Choices resp with
      | [] => ((messages, Some "no choices in response"), w)
      | choice :: _ =>
        let assistantMsg := ch_Message choice in
        let messages := messages ++ [assistantMsg] in
        let fullMessages := fullMessages ++ [assistantMsg] in
        if String.eqb (ch_FinishReason choice) "tool_calls"
           && (0 <? length (msg_ToolCalls assistantMsg))%nat
        then
          let '(messages, fullMessages, w) :=
            runTools cfg (msg_ToolCalls assistantMsg) messages fullMessages w in
          queryLoop rounds' cfg messages fullMessages w
        else
          (* Track rounds without todo usage *)
          let w := {| ext := ext w; todoBoard := todoBoard w;
                      pendingContextBlocks := pendingContextBlocks w;
                      roundsWithoutTodo := roundsWithoutTodo w + 1 |} in
          let w := if 10 <? roundsWithoutTodo w
                   then ensureContextBlock nagReminder w else w in
          ((messages, None), w)
      end
    end
  end.

Definition query (cfg : Config) (messages : list Message) (w : World)
  : (list Message * option error) * World :=
  let fullMessages := [systemMessage cfg] ++ messages in
  queryLoop maxAgentIterations cfg messages fullMessages w.

End Agent.

(** ** A reference runtime

    An executable reading of the library parts that [Runtime] leaves open,
    used to run the agent on concrete transcripts.  The JSON reader follows
    the grammar of RFC 8259 as [encoding/json] checks it; the binding of
    object members to struct fields follows [encoding/json] (exact name
    first, then the folded name; [null] leaves a field at its zero value; a
    value of the wrong kind is an error). *)
Module Ref.

(** A parsed JSON text: numbers keep their literal, objects their members
    in order. *)
Inductive json : Type :=
| Null
| Bool (b : bool)
| Num (literal : string)
| Str (s : string)
| Arr (elems : list json)
| Obj (members : list (string * json)).

Definition isSpace (c : ascii) : bool :=
  let b := byte_val c in (b =? 0x20) || (b =? 0x09) || (b =? 0x0D) || (b =? 0x0A).

Fixpoint skipSpace (s : string) : string :=
  match s with
  | String c s' => if isSpace c then skipSpace s' else s
  | EmptyString => s
  end.

Definition isDigit (c : ascii) : bool :=
  let b := byte_val c in (0x30 <=? b) && (b <=? 0x39).

(** The longest prefix of digits, and the rest. *)
Fixpoint digits (s : string) : string * string :=
  match s with
  | String c s' =>
    if isDigit c then let '(d, r) := digits s' in (String c d, r)
    else (EmptyString, s)
  | EmptyString => (EmptyString, EmptyString)
  end.

(** A number literal: an optional minus sign, an integer part (a single
    zero, or digits that do not start with zero), an optional fraction and
    an optional exponent. *)
Definition scanNumber (s : string) : option (string * string) :=
  let '(sign, s1) :=
    match s with
    | String "-"%char s' => ("-", s')
    | _ => (EmptyString, s)
    end in
  let '(int, s2) := digits s1 in
  match int with
  | EmptyString => None
  | String c rest =>
    if Ascii.eqb c "0"%char && negb (String.eqb rest EmptyString) then
      (* a leading zero ends the integer part *)
      Some (sign +:+ "0", rest +:+ s2)
    else
    let '(frac, s3) :=
      match s2 with
      | String "."%char s' =>
        let '(f, r) := digits s' in
        (match f with EmptyString => None | _ => Some ("." +:+ f) end, r)
      | _ => (Some EmptyString, s2)
      end in
    match frac with
    | None => None
    | Some frac =>
      let '(exp, s4) :=
        match s3 with
        | String c s' =>
          if Ascii.eqb c "e"%char || Ascii.eqb c "E"%char then
            let '(sg, s'') :=
              match s' with
              | String "+"%char r => ("+", r)
              | String "-"%char r => ("-", r)
              | _ => (EmptyString, s')
              end in
            let '(d, r) := digits s'' in
            (match d with
             | EmptyString => None
             | _ => Some (String c sg +:+ d)
             end, r)
          else (Some EmptyString, s3)
        | EmptyString => (Some EmptyString, s3)
        end in
      match exp with
      | None => None
      | Some exp => Some (sign +:+ int +:+ frac +:+ exp, s4)
      end
    end
  end.

Definition hexVal (c : ascii) : option Z :=
  let b := byte_val c in
  if (0x30 <=? b) && (b <=? 0x39) then Some (b - 0x30)
  else if (0x41 <=? b) && (b <=? 0x46) then Some (b - 0x41 + 10)
  else if (0x61 <=? b) && (b <=? 0x66) then Some (b - 0x61 + 10)
  else None.

(** The four hexadecimal digits after a backslash-u. *)
Definition hex4 (s : string) : option (Z * string) :=
  match s with
  | String a (String b (String c (String d r))) =>
    match hexVal a, hexVal b, hexVal c, hexVal d with
    | Some x, Some y, Some z, Some t => Some (((x * 16 + y) * 16 + z) * 16 + t, r)
    | _, _, _, _ => None
    end
  | _ => None
  end.

Definition isSurrogate (r : Z) : bool := (0xD800 <=? r) && (r <=? 0xDFFF).

(** The body of a string literal after its opening quote: the decoded
    bytes and the rest after the closing quote.  An invalid byte and a
    lone surrogate escape become U+FFFD. *)
Fixpoint scanString (fuel : nat) (s : string) (acc : string) : option (string * string) :=
  match fuel with
  | O => None
  | S fuel' =>
    match s with
    | EmptyString => None
    | String c s' =>
      let b := byte_val c in
      if b =? 0x22 then Some (acc, s')
      else if b <? 0x20 then None
      else if b =? 0x5C then
        match s' with
        | EmptyString => None
        | String e s'' =>
          let plain (x : Z) := scanString fuel' s'' (acc +:+ String (byte_of x) EmptyString) in
          match e with
          | "034"%char => plain 0x22
          | "\"%char => plain 0x5C
          | "/"%char => plain 0x2F
          | "b"%char => plain 0x08
          | "f"%char => plain 0x0C
          | "n"%char => plain 0x0A
          | "r"%char => plain 0x0D
          | "t"%char => plain 0x09
          | "u"%char =>
            match hex4 s'' with
            | None => None
            | Some (r1, rest) =>
              if isSurrogate r1 then
                match rest with
                | String "\"%char (String "u"%char rest') =>
                  match hex4 rest' with
                  | Some (r2, rest'') =>
                    if (r1 <? 0xDC00) && (0xDC00 <=? r2) && (r2 <=? 0xDFFF) then
                      scanString fuel' rest''
                        (acc +:+ utf8.EncodeRune
                                   ((r1 - 0xD800) * 0x400 + (r2 - 0xDC00) + 0x10000))
                    else scanString fuel' rest (acc +:+ utf8.EncodeRune utf8.RuneError)
                  | None => None
                  end
                | _ => scanString fuel' rest (acc +:+ utf8.EncodeRune utf8.RuneError)
                end
              else scanString fuel' rest (acc +:+ utf8.EncodeRune r1)
            end
          | _ => None
          end
        end
      else if b <? utf8.RuneSelf then
        scanString fuel' s' (acc +:+ String c EmptyString)
      else
        let '(r, size) := utf8.DecodeRuneInString s in
        if (r =? utf8.RuneError) && (size =? 1)%nat then
          scanString fuel' s' (acc +:+ utf8.EncodeRune utf8.RuneError)
        else scanString fuel' (sdrop size s) (acc +:+ stake size s)
    end
  end.

(** The nesting the scanner accepts. *)
Definition maxNestingDepth : Z := 10000.

(** A value, the rest of an array after its first bracket or a comma, and
    the rest of an object likewise; [depth] counts the open brackets. *)
Fixpoint parseValue (fuel : nat) (depth : Z) (s : string) : option (json * string) :=
  match fuel with
  | O => None
  | S fuel' =>
    match skipSpace s with
    | EmptyString => None
    | String c s' =>
      if Ascii.eqb c "{"%char then
        if maxNestingDepth <? depth + 1 then None else
        match skipSpace s' with
        | String "}"%char r => Some (Obj [], r)
        | _ =>
          match parseMembers fuel' (depth + 1) s' with
          | Some (ms, r) => Some (Obj ms, r)
          | None => None
          end
        end
      else if Ascii.eqb c "["%char then
        if maxNestingDepth <? depth + 1 then None else
        match skipSpace s' with
        | String "]"%char r => Some (Arr [], r)
        | _ =>
          match parseElems fuel' (depth + 1) s' with
          | Some (es, r) => Some (Arr es, r)
          | None => None
          end
        end
      else if Ascii.eqb c "034"%char then
        match scanString (S (String.length s')) s' EmptyString with
        | Some (str, r) => Some (Str str, r)
        | None => None
        end
      else if strings.HasPrefix (String c s') "true" then Some (Bool true, sdrop 4 (String c s'))
      else if strings.HasPrefix (String c s') "false" then Some (Bool false, sdrop 5 (String c s'))
      else if strings.HasPrefix (String c s') "null" then Some (Null, sdrop 4 (String c s'))
      else
        match scanNumber (String c s') with
        | Some (lit, r) => Some (Num lit, r)
        | None => None
        end
    end
  end
with parseElems (fuel : nat) (depth : Z) (s : string) : option (list json * string) :=
  match fuel with
  | O => None
  | S fuel' =>
    match parseValue fuel' depth s with
    | None => None
    | Some (v, r) =>
      match skipSpace r with
      | String "]"%char r' => Some ([v], r')
      | String ","%char r' =>
        match parseElems fuel' depth r' with
        | Some (vs, r'') => Some (v :: vs, r'')
        | None => None
        end
      | _ => None
      end
    end
  end
with parseMembers (fuel : nat) (depth : Z) (s : string) : option (list (string * json) * string) :=
  match fuel with
  | O => None
  | S fuel' =>
    match skipSpace s with
    | String "034"%char s' =>
      match scanString (S (String.length s')) s' EmptyString with
      | None => None
      | Some (key, r) =>
        match skipSpace r with
        | String ":"%char r' =>
          match parseValue fuel' depth r' with
          | None => None
          | Some (v, r'') =>
            match skipSpace r'' with
            | String "}"%char r3 => Some ([(key, v)], r3)
            | String ","%char r3 =>
              match parseMembers fuel' depth r3 with
              | Some (ms, r4) => Some ((key, v) :: ms, r4)
              | None => None
              end
            | _ => None
            end
          end
        | _ => None
        end
      end
    | _ => None
    end
  end.

(** A whole JSON text: one value between white space. *)
Definition parse (s : string) : option json :=
  match parseValue (2 * String.length s + 2) 0 s with
  | Some (v, r) =>
    match skipSpace r with
    | EmptyString => Some v
    | _ => None
    end
  | None => None
  end.


(** *** Numbers *)

Definition prec64 : Z := 53.
Definition emax64 : Z := 1024.

Fixpoint digitsVal (s : string) (acc : Z) : Z :=
  match s with
  | String c s' => digitsVal s' (10 * acc + (byte_val c - 0x30))
  | EmptyString => acc
  end.

(** The sign, the decimal mantissa and the decimal exponent of a literal. *)
Definition decimalOf (lit : string) : bool * Z * Z :=
  let '(neg, s1) :=
    match lit with
    | String "-"%char s' => (true, s')
    | _ => (false, lit)
    end in
  let '(int, s2) := digits s1 in
  let '(frac, s3) :=
    match s2 with
    | String "."%char s' => digits s'
    | _ => (EmptyString, s2)
    end in
  let exp :=
    match s3 with
    | String _ (String "-"%char d) => - digitsVal d 0
    | String _ (String "+"%char d) => digitsVal d 0
    | String _ d => digitsVal d 0
    | EmptyString => 0
    end in
  (neg, digitsVal (int +:+ frac) 0, exp - len frac).

(** [strconv.ParseFloat(lit, 64)]: the binary64 value nearest to the
    literal, ties to even. *)
Definition parseFloat (lit : string) : float64 :=
  let '(neg, m, e10) := decimalOf lit in
  match m with
  | Zpos p =>
    if 0 <=? e10 then
      match m * 10 ^ e10 with
      | Zpos n => SpecFloat.binary_round prec64 emax64 neg n 0
      | _ => SpecFloat.S754_zero neg
      end
    else
      let den := 10 ^ (- e10) in
      let s := Z.max 0 (64 + Z.log2 den + 1 - Z.log2 m) in
      let num := m * 2 ^ s in
      let q := num / den in
      let r := num mod den in
      let loc :=
        if r =? 0 then SpecFloat.loc_Exact
        else SpecFloat.loc_Inexact (2 * r ?= den) in
      SpecFloat.binary_round_aux prec64 emax64 neg q (- s) loc
  | _ => SpecFloat.S754_zero neg
  end.

(** The conversion [int(v)] as an amd64 machine performs it: truncation,
    and the smallest [int64] when the value does not fit. *)
Definition intOfFloat (v : float64) : Z :=
  match v with
  | SpecFloat.S754_zero _ => 0
  | SpecFloat.S754_finite neg m e =>
    let a := if 0 <=? e then Zpos m * 2 ^ e else Zpos m / 2 ^ (- e) in
    let z := if neg then - a else a in
    if inInt64 z then z else - 2 ^ 63
  | _ => - 2 ^ 63
  end.

Fixpoint skipZeros (s : string) : string :=
  match s with
  | String "0"%char s' => skipZeros s'
  | _ => s
  end.

Fixpoint zeros (n : nat) : string :=
  match n with
  | O => EmptyString
  | S n' => String "0"%char (zeros n')
  end.

(** At least [n] digits, by leading zeros. *)
Definition padZeros (n : nat) (s : string) : string :=
  zeros (n - String.length s) +:+ s.

(** [strconv.FormatFloat(v, 'f', -1, 64)] for an integral value below
    [2^53], which Go prints as the integer.  For every other finite value
    this function prints the exact decimal expansion, where Go prints the
    shortest decimal that reads back as [v]. *)
Definition formatFloat (v : float64) : string :=
  match v with
  | SpecFloat.S754_zero neg => if neg then "-0" else "0"
  | SpecFloat.S754_infinity neg => if neg then "-Inf" else "+Inf"
  | SpecFloat.S754_nan => "NaN"
  | SpecFloat.S754_finite neg m e =>
    let sign := if neg then "-" else EmptyString in
    if 0 <=? e then sign +:+ itoa (Zpos m * 2 ^ e)
    else
      let k := Z.to_nat (- e) in
      let ds := padZeros (S k) (itoa (Zpos m * 5 ^ (- e))) in
      let intPart := stake (String.length ds - k) ds in
      let fracPart := sdrop (String.length ds - k) ds in
      let fracPart := String.rev (skipZeros (String.rev fracPart)) in
      match fracPart with
      | EmptyString => sign +:+ intPart
      | _ => sign +:+ intPart +:+ "." +:+ fracPart
      end
  end.

(** *** Binding to Go values *)

Definition upperByte (c : ascii) : ascii :=
  let b := byte_val c in
  if (0x61 <=? b) && (b <=? 0x7A) then byte_of (b - 0x20) else c.

(** [foldRune] on the two runes outside ASCII whose fold set holds an ASCII
    letter (the long s and the Kelvin sign); the image of any other rune is
    not an ASCII letter, and is left as it is here. *)
Definition foldRune (r : Z) : Z :=
  if r =? 0x17F then 0x53 else if r =? 0x212A then 0x4B else r.

Fixpoint foldName_fuel (fuel : nat) (s : string) : string :=
  match fuel, s with
  | S fuel', String c s' =>
    if byte_val c <? utf8.RuneSelf then String (upperByte c) (foldName_fuel fuel' s')
    else let '(r, n) := utf8.DecodeRuneInString s in
         utf8.EncodeRune (foldRune r) +:+ foldName_fuel fuel' (sdrop n s)
  | _, _ => EmptyString
  end.

Definition foldName (s : string) : string := foldName_fuel (String.length s) s.

(** The field a member is decoded into: the one with that very name, or
    else the first one with the same folded name. *)
Definition lookupField (names : list string) (key : string) : option string :=
  match List.find (String.eqb key) names with
  | Some f => Some f
  | None => List.find (fun n => String.eqb (foldName n) (foldName key)) names
  end.

Definition typeError (what : string) : error :=
  "json: cannot unmarshal value into Go value of type " +:+ what.

Definition bindString (v : json) (cur : string) : string + error :=
  match v with
  | Str s => inl s
  | Null => inl cur
  | _ => inr (typeError "string")
  end.

Definition bindInt (v : json) (cur : Z) : Z + error :=
  match v with
  | Num lit => match Atoi lit with
               | Some z => inl z
               | None => inr (typeError "int")
               end
  | Null => inl cur
  | _ => inr (typeError "int")
  end.

Fixpoint bindMembers {A : Type} (step : string -> json -> A -> A + error)
         (ms : list (string * json)) (cur : A) : A + error :=
  match ms with
  | [] => inl cur
  | (k, v) :: rest =>
    match step k v cur with
    | inl a => bindMembers step rest a
    | inr e => inr e
    end
  end.

(** An object is decoded member by member into the struct; [null] leaves
    the struct as it is. *)
Definition bindStruct {A : Type} (names : list string)
           (step : string -> json -> A -> A + error) (v : json) (cur : A) : A + error :=
  match v with
  | Obj ms =>
    bindMembers (fun k v a => match lookupField names k with
                              | Some f => step f v a
                              | None => inl a
                              end) ms cur
  | Null => inl cur
  | _ => inr (typeError "struct")
  end.

Fixpoint bindElems {A : Type} (elem : json -> A + error) (es : list json) : list A + error :=
  match es with
  | [] => inl []
  | e :: rest =>
    match elem e with
    | inr err => inr err
    | inl a => match bindElems elem rest with
               | inl l => inl (a :: l)
               | inr err => inr err
               end
    end
  end.

Definition bindSlice {A : Type} (elem : json -> A + error) (v : json) : list A + error :=
  match v with
  | Arr es => bindElems elem es
  | Null => inl []
  | _ => inr (typeError "slice")
  end.

(** A value decoded into an [interface{}]. *)
Fixpoint toValue (v : json) : jvalue + error :=
  match v with
  | Null => inl JNull
  | Bool b => inl (JBool b)
  | Num lit =>
    match parseFloat lit with
    | SpecFloat.S754_infinity _ => inr (typeError "float64")
    | f => inl (JNumber f)
    end
  | Str s => inl (JString s)
  | Arr es =>
    match (fix go (es : list json) : list jvalue + error :=
             match es with
             | [] => inl []
             | e :: rest =>
               match toValue e, go rest with
               | inl x, inl xs => inl (x :: xs)
               | inr err, _ => inr err
               | _, inr err => inr err
               end
             end) es with
    | inl l => inl (JArray l)
    | inr err => inr err
    end
  | Obj ms =>
    match (fix go (ms : list (string * json)) (m : gmap string jvalue)
             : gmap string jvalue + error :=
             match ms with
             | [] => inl m
             | (k, e) :: rest =>
               match toValue e with
               | inl x => go rest (<[k := x]> m)
               | inr err => inr err
               end
             end) ms ∅ with
    | inl m => inl (JObject m)
    | inr err => inr err
    end
  end.

Definition syntaxError : error := "invalid character in JSON input".

Definition unmarshalMap (data : string) : gmap string jvalue * option error :=
  match parse data with
  | None => (∅, Some syntaxError)
  | Some Null => (∅, None)
  | Some (Obj ms) =>
    match toValue (Obj ms) with
    | inl (JObject m) => (m, None)
    | inl _ => (∅, Some (typeError "map[string]interface {}"))
    | inr err => (∅, Some err)
    end
  | Some _ => (∅, Some (typeError "map[string]interface {}"))
  end.

Definition zeroChunkChoice : ChunkChoice :=
  {| cc_DeltaContent := EmptyString; cc_FinishReason := EmptyString |}.

Definition bindChunkChoice (v : json) : ChunkChoice + error :=
  bindStruct ["delta"; "finish_reason"]
    (fun f v c =>
       if String.eqb f "delta" then
         match bindStruct ["content"] (fun _ v s => bindString v s) v (cc_DeltaContent c) with
         | inl s => inl {| cc_DeltaContent := s; cc_FinishReason := cc_FinishReason c |}
         | inr err => inr err
         end
       else
         match bindString v (cc_FinishReason c) with
         | inl s => inl {| cc_DeltaContent := cc_DeltaContent c; cc_FinishReason := s |}
         | inr err => inr err
         end)
    v zeroChunkChoice.

Definition unmarshalChunk (data : string) : Chunk * option error :=
  let zero := {| chunk_Choices := [] |} in
  match parse data with
  | None => (zero, Some syntaxError)
  | Some v =>
    match bindStruct ["choices"]
            (fun _ v c => match bindSlice bindChunkChoice v with
                          | inl l => inl {| chunk_Choices := l |}
                          | inr err => inr err
                          end) v zero with
    | inl c => (c, None)
    | inr err => (zero, Some err)
    end
  end.

Definition zeroFunction : Function_ :=
  {| fn_Name := EmptyString; fn_Arguments := EmptyString |}.

Definition bindFunction (v : json) (cur : Function_) : Function_ + error :=
  bindStruct ["name"; "arguments"]
    (fun f v c =>
       if String.eqb f "name" then
         match bindString v (fn_Name c) with
         | inl s => inl {| fn_Name := s; fn_Arguments := fn_Arguments c |}
         | inr err => inr err
         end
       else
         match bindString v (fn_Arguments c) with
         | inl s => inl {| fn_Name := fn_Name c; fn_Arguments := s |}
         | inr err => inr err
         end)
    v cur.

Definition bindToolCall (v : json) : ToolCall + error :=
  bindStruct ["id"; "type"; "function"]
    (fun f v c =>
       if String.eqb f "id" then
         match bindString v (tc_ID c) with
         | inl s => inl {| tc_ID := s; tc_Type := tc_Type c; tc_Function := tc_Function c |}
         | inr err => inr err
         end
       else if String.eqb f "type" then
         match bindString v (tc_Type c) with
         | inl s => inl {| tc_ID := tc_ID c; tc_Type := s; tc_Function := tc_Function c |}
         | inr err => inr err
         end
       else
         match bindFunction v (tc_Function c) with
         | inl fn => inl {| tc_ID := tc_ID c; tc_Type := tc_Type c; tc_Function := fn |}
         | inr err => inr err
         end)
    v {| tc_ID := EmptyString; tc_Type := EmptyString; tc_Function := zeroFunction |}.

Definition bindContent (v : json) : Content + error :=
  match v with
  | Str s => inl (ContentString s)
  | _ => match toValue v with
         | inl x => inl (ContentValue x)
         | inr err => inr err
         end
  end.

Definition bindMessage (v : json) (cur : Message) : Message + error :=
  bindStruct ["role"; "content"; "tool_calls"; "tool_call_id"; "name"]
    (fun f v m =>
       let upd role content calls id name :=
         {| msg_Role := role; msg_Content := content; msg_ToolCalls := calls;
            msg_ToolCallID := id; msg_Name := name |} in
       if String.eqb f "role" then
         match bindString v (msg_Role m) with
         | inl s => inl (upd s (msg_Content m) (msg_ToolCalls m) (msg_ToolCallID m) (msg_Name m))
         | inr err => inr err
         end
       else if String.eqb f "content" then
         match bindContent v with
         | inl c => inl (upd (msg_Role m) c (msg_ToolCalls m) (msg_ToolCallID m) (msg_Name m))
         | inr err => inr err
         end
       else if String.eqb f "tool_calls" then
         match bindSlice bindToolCall v with
         | inl l => inl (upd (msg_Role m) (msg_Content m) l (msg_ToolCallID m) (msg_Name m))
         | inr err => inr err
         end
       else if String.eqb f "tool_call_id" then
         match bindString v (msg_ToolCallID m) with
         | inl s => inl (upd (msg_Role m) (msg_Content m) (msg_ToolCalls m) s (msg_Name m))
         | inr err => inr err
         end
       else
         match bindString v (msg_Name m) with
         | inl s => inl (upd (msg_Role m) (msg_Content m) (msg_ToolCalls m) (msg_ToolCallID m) s)
         | inr err => inr err
         end)
    v cur.

Definition bindChoice (v : json) : Choice + error :=
  bindStruct ["index"; "message"; "finish_reason"]
    (fun f v c =>
       if String.eqb f "index" then
         match bindInt v (ch_Index c) with
         | inl z => inl {| ch_Index := z; ch_Message := ch_Message c;
                           ch_FinishReason := ch_FinishReason c |}
         | inr err => inr err
         end
       else if String.eqb f "message" then
         match bindMessage v (ch_Message c) with
         | inl m => inl {| ch_Index := ch_Index c; ch_Message := m;
                           ch_FinishReason := ch_FinishReason c |}
         | inr err => inr err
         end
       else
         match bindString v (ch_FinishReason c) with
         | inl s => inl {| ch_Index := ch_Index c; ch_Message := ch_Message c;
                           ch_FinishReason := s |}
         | inr err => inr err
         end)
    v {| ch_Index := 0; ch_Message := emptyMessage; ch_FinishReason := EmptyString |}.

Definition zeroResponse : APIResponse :=
  {| resp_ID := EmptyString; resp_Object := EmptyString; resp_Created := 0;
     resp_Model := EmptyString; resp_Choices := [] |}.

Definition unmarshalResponse (data : string) : APIResponse * option error :=
  match parse data with
  | None => (zeroResponse, Some syntaxError)
  | Some v =>
    match bindStruct ["id"; "object"; "created"; "model"; "choices"]
            (fun f v r =>
               let upd id object created model choices :=
                 {| resp_ID := id; resp_Object := object; resp_Created := created;
                    resp_Model := model; resp_Choices := choices |} in
               if String.eqb f "id" then
                 match bindString v (resp_ID r) with
                 | inl s => inl (upd s (resp_Object r) (resp_Created r) (resp_Model r) (resp_Choices r))
                 | inr err => inr err
                 end
               else if String.eqb f "object" then
                 match bindString v (resp_Object r) with
                 | inl s => inl (upd (resp_ID r) s (resp_Created r) (resp_Model r) (resp_Choices r))
                 | inr err => inr err
                 end
               else if String.eqb f "created" then
                 match bindInt v (resp_Created r) with
                 | inl z => inl (upd (resp_ID r) (resp_Object r) z (resp_Model r) (resp_Choices r))
                 | inr err => inr err
                 end
               else if String.eqb f "model" then
                 match bindString v (resp_Model r) with
                 | inl s => inl (upd (resp_ID r) (resp_Object r) (resp_Created r) s (resp_Choices r))
                 | inr err => inr err
                 end
               else
                 match bindSlice bindChoice v with
                 | inl l => inl (upd (resp_ID r) (resp_Object r) (resp_Created r) (resp_Model r) l)
                 | inr err => inr err
                 end)
            v zeroResponse with
    | inl r => (r, None)
    | inr err => (zeroResponse, Some err)
    end
  end.

(** [unicode.ToLower] on ASCII and Latin-1, the long s aside, the dotted
    capital I and the Kelvin sign; the identity elsewhere. *)
Definition toLower (r : Z) : Z :=
  if (0x41 <=? r) && (r <=? 0x5A) then r + 0x20
  else if (0xC0 <=? r) && (r <=? 0xDE) && negb (r =? 0xD7) then r + 0x20
  else if r =? 0x130 then 0x69
  else if r =? 0x212A then 0x6B
  else r.

(** [filepath.Rel] on cleaned paths, element by element. *)
Definition elements (path : string) : list string :=
  filter (fun e => e <> EmptyString) (strings.Split1 path filepath.Separator).

Fixpoint stripCommon (bs ts : list string) : list string * list string :=
  match bs, ts with
  | b :: bs', t :: ts' => if String.eqb b t then stripCommon bs' ts' else (bs, ts)
  | _, _ => (bs, ts)
  end.

Definition rel (basepath targpath : string) : string * option error :=
  let base := filepath.Clean basepath in
  let targ := filepath.Clean targpath in
  if String.eqb targ base then (".", None)
  else
    let base := if String.eqb base "." then EmptyString else base in
    if negb (Bool.eqb (filepath.IsAbs base) (filepath.IsAbs targ)) then
      (EmptyString, Some ("Rel: can't make " +:+ targpath +:+ " relative to " +:+ basepath))
    else
      let '(bs, ts) := stripCommon (elements base) (elements targ) in
      match bs with
      | ".." :: _ =>
        (EmptyString, Some ("Rel: can't make " +:+ targpath +:+ " relative to " +:+ basepath))
      | _ => (strings.Join (map (fun _ => "..") bs ++ ts) "/", None)
      end.

(** [json.Marshal] of a request body does not fail: the body is made of
    strings, integers, booleans, slices and maps. *)
Definition marshal (model : string) (messages : list Message) (maxTokens : Z)
           (stream : bool) : option error := None.

(** [http.NewRequest] refuses a URL that holds an ASCII control character;
    the other ways of refusing a URL are left out. *)
Fixpoint hasControlByte (s : string) : bool :=
  match s with
  | EmptyString => false
  | String c t => (byte_val c <? 0x20) || (byte_val c =? 0x7F) || hasControlByte t
  end.

Definition newRequest (url : string) : option error :=
  if hasControlByte url then Some "net/url: invalid control character in URL" else None.

Definition runtime : Runtime :=
  {| unicode_ToLower := toLower;
     FormatFloat := formatFloat;
     int_of_float := intOfFloat;
     json_Unmarshal_map := unmarshalMap;
     json_Unmarshal_chunk := unmarshalChunk;
     json_Unmarshal_response := unmarshalResponse;
     filepath_Rel := rel;
     json_Marshal := marshal;
     http_NewRequest := newRequest |}.

End Ref.

(** ** A simulated host

    A machine in memory: a working directory, files by absolute path, a
    shell that answers from a table, and an endpoint that plays a script of
    replies and keeps the requests it was sent. *)
Module Sim.

Record machine : Type := {
  cwd : string;
  files : gmap string string;
  shell : string -> Z -> RunResult;
  replies : list (Response + error);
  requests : list Request
}.

Definition setFiles (x : machine) (fs : gmap string string) : machine :=
  {| cwd := cwd x; files := fs; shell := shell x; replies := replies x;
     requests := requests x |}.

Definition readFile (path : string) (x : machine) : string * option error :=
  match files x !! path with
  | Some data => (data, None)
  | None => (EmptyString, Some ("open " +:+ path +:+ ": no such file or directory"))
  end.

Definition writeFile (path data : string) (x : machine) : option error * machine :=
  (None, setFiles x (<[path := data]> (files x))).

Definition appendFile (path data : string) (x : machine) : option error * machine :=
  (None, setFiles x (<[path := default EmptyString (files x !! path) +:+ data]> (files x))).

Definition do (req : Request) (x : machine) : (Response + error) * machine :=
  let log := requests x ++ [req] in
  match replies x with
  | [] => (inr "EOF",
           {| cwd := cwd x; files := files x; shell := shell x; replies := [];
              requests := log |})
  | r :: rest => (r,
           {| cwd := cwd x; files := files x; shell := shell x; replies := rest;
              requests := log |})
  end.

Definition host : Host :=
  {| Ext := machine;
     os_Getwd := fun x => (cwd x, None);
     os_ReadFile := readFile;
     os_WriteFile := writeFile;
     os_AppendFile := appendFile;
     os_MkdirAll := fun _ x => (None, x);
     exec_Run := fun _ command timeout x => (shell x command timeout, x);
     http_Do := do |}.

(** A reply with status 200 and the given body, read whole or by lines. *)
Definition ok (body : string) : Response + error :=
  inl {| http_StatusCode := 200;
         http_Body := (body, None);
         http_Lines := (scanned (strings.Split1 body "010"%char), None) |}.

Definition quiet (command : string) (timeout : Z) : RunResult :=
  {| run_DeadlineExceeded := false; run_Stdout := EmptyString;
     run_Stderr := EmptyString; run_Err := RunNil |}.

Definition machine0 : machine :=
  {| cwd := "/work"; files := ∅; shell := quiet; replies := []; requests := [] |}.

Definition world (x : machine) : @World host :=
  @Build_World host x {| tm_items := [] |} [] 0.

Definition world0 : @World host := world machine0.

Definition config : Config :=
  {| cfg_APIKey := "sk-test"; cfg_BaseURL := "https://api.openai.com";
     cfg_Model := "gpt-4"; cfg_WorkDir := "/work"; cfg_MaxResult := defaultMaxTokens;
     cfg_Debug := false; cfg_Stream := false |}.

End Sim.

(** ** Example data *)
Module Example.

Definition q : string := String "034"%char EmptyString.
Definition bs : string := String "092"%char EmptyString.

(** [{"command":"ls"}], and the same text inside a JSON string. *)
Definition lsArguments : string :=
  "{" +:+ q +:+ "command" +:+ q +:+ ":" +:+ q +:+ "ls" +:+ q +:+ "}".

Definition lsArgumentsQuoted : string :=
  "{" +:+ bs +:+ q +:+ "command" +:+ bs +:+ q +:+ ":" +:+ bs +:+ q +:+ "ls" +:+ bs +:+ q +:+ "}".

(** A response that asks for one shell command. *)
Definition toolCallBody : string :=
  "{" +:+ q +:+ "choices" +:+ q +:+ ":[{" +:+ q +:+ "message" +:+ q +:+ ":{"
  +:+ q +:+ "role" +:+ q +:+ ":" +:+ q +:+ "assistant" +:+ q +:+ ","
  +:+ q +:+ "content" +:+ q +:+ ":null,"
  +:+ q +:+ "tool_calls" +:+ q +:+ ":[{" +:+ q +:+ "id" +:+ q +:+ ":" +:+ q +:+ "call_1" +:+ q +:+ ","
  +:+ q +:+ "type" +:+ q +:+ ":" +:+ q +:+ "function" +:+ q +:+ ","
  +:+ q +:+ "function" +:+ q +:+ ":{" +:+ q +:+ "name" +:+ q +:+ ":" +:+ q +:+ "bash" +:+ q +:+ ","
  +:+ q +:+ "arguments" +:+ q +:+ ":" +:+ q +:+ lsArgumentsQuoted +:+ q +:+ "}}]},"
  +:+ q +:+ "finish_reason" +:+ q +:+ ":" +:+ q +:+ "tool_calls" +:+ q +:+ "}]}".

(** A response that stops. *)
Definition stopBody : string :=
  "{" +:+ q +:+ "choices" +:+ q +:+ ":[{" +:+ q +:+ "message" +:+ q +:+ ":{"
  +:+ q +:+ "role" +:+ q +:+ ":" +:+ q +:+ "assistant" +:+ q +:+ ","
  +:+ q +:+ "content" +:+ q +:+ ":" +:+ q +:+ "Done." +:+ q +:+ "},"
  +:+ q +:+ "finish_reason" +:+ q +:+ ":" +:+ q +:+ "stop" +:+ q +:+ "}]}".

Definition userMessage : Message :=
  {| msg_Role := "user"; msg_Content := ContentString "list the files";
     msg_ToolCalls := []; msg_ToolCallID := EmptyString; msg_Name := EmptyString |}.

(** A shell where [ls] prints two names and every other command fails
    without output. *)
Definition shell (command : string) (timeout : Z) : RunResult :=
  if String.eqb command "ls" then
    {| run_DeadlineExceeded := false;
       run_Stdout := "a.txt" +:+ LF +:+ "b.txt" +:+ LF;
       run_Stderr := EmptyString; run_Err := RunNil |}
  else
    {| run_DeadlineExceeded := false; run_Stdout := EmptyString;
       run_Stderr := EmptyString; run_Err := RunExitError "exit status 1" |}.

(** The simulated machine with that shell and a script of replies. *)
Definition machine (script : list (Response + error)) : Sim.machine :=
  {| Sim.cwd := "/work"; Sim.files := ∅; Sim.shell := shell;
     Sim.replies := script; Sim.requests := [] |}.

Definition todo (id content status activeForm : string) : TodoItem :=
  {| todo_ID := id; todo_Content := content; todo_Status := status;
     todo_ActiveForm := activeForm |}.

End Example.

(** * The vocabulary of the properties *)

(** Every way [DecodeRuneInString] can answer. *)
Inductive decoded (s : string) : Z * nat -> Prop :=
| dec_empty : s = EmptyString -> decoded s (utf8.RuneError, O)
| dec_error c t : s = String c t -> decoded s (utf8.RuneError, 1%nat)
| dec_ascii c t : s = String c t -> byte_val c < 0x80 -> decoded s (byte_val c, 1%nat)
| dec_2 c0 c1 t lo hi :
    s = String c0 (String c1 t) ->
    utf8.first (byte_val c0) = utf8.SEQ 2 lo hi -> lo <= byte_val c1 <= hi ->
    decoded s (byte_val c0 mod 32 * 64 + byte_val c1 mod 64, 2%nat)
| dec_3 c0 c1 c2 t lo hi :
    s = String c0 (String c1 (String c2 t)) ->
    utf8.first (byte_val c0) = utf8.SEQ 3 lo hi -> lo <= byte_val c1 <= hi ->
    0x80 <= byte_val c2 <= 0xBF ->
    decoded s (byte_val c0 mod 16 * 4096 + byte_val c1 mod 64 * 64 + byte_val c2 mod 64, 3%nat)
| dec_4 c0 c1 c2 c3 t lo hi :
    s = String c0 (String c1 (String c2 (String c3 t))) ->
    utf8.first (byte_val c0) = utf8.SEQ 4 lo hi -> lo <= byte_val c1 <= hi ->
    0x80 <= byte_val c2 <= 0xBF -> 0x80 <= byte_val c3 <= 0xBF ->
    decoded s (byte_val c0 mod 8 * 262144 + byte_val c1 mod 64 * 4096
               + byte_val c2 mod 64 * 64 + byte_val c3 mod 64, 4%nat).

(** A string of ASCII bytes has one rune per byte. *)
Definition ascii_string (s : string) : Prop :=
  Forall (fun c => byte_val c < utf8.RuneSelf) (list_ascii_of_string s).

(** The marker [clampText] appends: [\n\n...<truncated N chars>]. *)
Definition truncationMarker (extras : Z) : string :=
  LF +:+ LF +:+ "...<truncated " +:+ itoa extras +:+ " chars>".

(** A string all of whose runes are Unicode white space (the empty string
    is one). *)
Definition whitespace_only (s : string) : Prop :=
  Forall (fun r => unicode.IsSpace r = true) (runes s).

Fixpoint lastChar (s : string) : option ascii :=
  match s with
  | EmptyString => None
  | String c t => match lastChar t with Some d => Some d | None => Some c end
  end.

(** The end of a cleaned path: empty, the root, or no separator. *)
Definition EndOK (s : string) : Prop :=
  match lastChar s with
  | None => True
  | Some c => c <> filepath.Separator \/ s = "/"
  end.

Definition cut (out : filepath.lazybuf) (dotdot i : nat) : Prop :=
  i = dotdot
  \/ ((i < filepath.w out)%nat
      /\ String.get i (filepath.buf out) = Some filepath.Separator).

(** What holds of the buffer between two path elements ([Inv]), and after
    the separator of the next element was written ([PreInv]). *)
Definition PreInv (out : filepath.lazybuf) (dotdot : nat) : Prop :=
  (dotdot <= filepath.w out <= String.length (filepath.buf out))%nat
  /\ forall i, cut out dotdot i -> EndOK (stake i (filepath.buf out)).

Definition Inv (out : filepath.lazybuf) (dotdot : nat) : Prop :=
  PreInv out dotdot /\ EndOK (filepath.lb_string out).

Definition Rooted (out : filepath.lazybuf) (dotdot : nat) : Prop :=
  dotdot = 1%nat /\ String.get 0 (filepath.buf out) = Some filepath.Separator.

Section SandboxSpec.
Context `{Host}.

(** [os.Getwd] answers with a rooted path. *)
Definition cwd_absolute (x : Ext) : Prop :=
  forall wd, os_Getwd x = (wd, None) -> filepath.IsAbs wd = true.

End SandboxSpec.

Section TodoSpec.
Context `{Runtime}.

(** The status of an item as the validation loop reads it. *)
Definition lowerStatus (item : TodoItem) : string :=
  strings.ToLower unicode_ToLower (todo_Status item).

(** The number of items that the validation loop counts as in progress. *)
Definition inProgressCount (items : list TodoItem) : Z :=
  Z.of_nat (length (List.filter (fun it => String.eqb (lowerStatus it) "in_progress") items)).

(** The number of items whose status is the token [in_progress] itself. *)
Definition inProgressExact (items : list TodoItem) : Z :=
  Z.of_nat (length (List.filter (fun it => String.eqb (todo_Status it) "in_progress") items)).

(** What the loop checks of one item. *)
Definition item_ok (item : TodoItem) : Prop :=
  strings.TrimSpace (todo_Content item) <> EmptyString
  /\ strings.TrimSpace (todo_ActiveForm item) <> EmptyString
  /\ validStatus (lowerStatus item) = true.

Definition unseen (seenIDs : gmap string bool) (id : string) : Prop :=
  default false (seenIDs !! id) = false.

(** A list that [Update] accepts. *)
Definition valid_items (items : list TodoItem) : Prop :=
  Z.of_nat (length items) <= maxTodoItems
  /\ NoDup (map todo_ID items)
  /\ Forall item_ok items
  /\ inProgressCount items <= 1.

(** The rules of [Update], with the status read in lower case. *)
Definition violates (items : list TodoItem) : Prop :=
  maxTodoItems < Z.of_nat (length items)
  \/ ~ NoDup (map todo_ID items)
  \/ Exists (fun it => whitespace_only (todo_Content it)
                       \/ whitespace_only (todo_ActiveForm it)) items
  \/ Exists (fun it => ~ In (lowerStatus it) ["pending"; "in_progress"; "completed"]) items
  \/ 1 < inProgressExact items
  \/ 1 < inProgressCount items.

(** The items of a board that can be reached from the empty board. *)
Inductive reachable : TodoManager -> Prop :=
| reach_start : reachable {| tm_items := [] |}
| reach_update tm items : reachable tm -> reachable (snd (Update tm items)).

(** The invariant of the data model. *)
Definition board_invariant (items : list TodoItem) : Prop :=
  NoDup (map todo_ID items)
  /\ inProgressExact items <= 1
  /\ Z.of_nat (length items) <= 20.

End TodoSpec.

Section ToolSpec.
Context `{Runtime} `{Host}.

(** What [runBash] passes to the shell, and what the shell answers. *)
Definition bashCommand (input : gmap string jvalue) : string :=
  strings.TrimSpace (getString input "command").

Definition bashTimeout (input : gmap string jvalue) : Z :=
  getIntOrDefault input "timeout_ms" 30000.

Definition bashRun (cfg : Config) (input : gmap string jvalue) (w : World) : RunResult :=
  fst (exec_Run (cfg_WorkDir cfg) (bashCommand input)
                (wrap64 (bashTimeout input * 1000000)) (ext w)).

(** The combined output, trimmed. *)
Definition combinedOutput (res : RunResult) : string :=
  strings.TrimSpace (strings.Join [run_Stdout res; run_Stderr res] LF).

(** The output as shown: ["(no output)"] stands for an empty one. *)
Definition shownOutput (res : RunResult) : string :=
  if String.eqb (combinedOutput res) EmptyString then "(no output)"
  else combinedOutput res.

(** The five tools by name. *)
Definition tools
  : list (string * (Config -> gmap string jvalue -> World
                    -> (string * option error) * World)) :=
  [("bash", runBash); ("read_file", runRead); ("write_file", runWrite);
   ("edit_text", runEdit); ("TodoWrite", runTodoUpdate)].

(** What a tool call is answered with: the error of the tool if there is
    one, otherwise its result. *)
Definition answer (r : string * option error) : string :=
  match snd r with
  | Some err => err
  | None => fst r
  end.

(** The tool messages of one round, in the order of the calls. *)
Fixpoint dispatchAll (cfg : Config) (calls : list ToolCall) (w : World)
  : list Message * World :=
  match calls with
  | [] => ([], w)
  | tc :: rest =>
    let '(result, w) := dispatchToolCall cfg tc w in
    let '(results, w) := dispatchAll cfg rest w in
    (result :: results, w)
  end.

(** How one round ends. *)
Inductive roundEnd : Type :=
| Failed (err : error) (w : World)             (* the call failed, or no choice *)
| Stopped (history : list Message) (w : World) (* the model stopped *)
| Continues (history : list Message) (w : World). (* the tools ran *)

(** One round from the history [h]: the model is sent the system message
    and [h]; its message and the tool messages are appended to [h]. *)
Definition round (cfg : Config) (h : list Message) (w : World) : roundEnd :=
  match callOpenAI cfg (systemMessage cfg :: h) w with
  | (inr err, w) => Failed err w
  | (inl resp, w) =>
    match resp_Choices resp with
    | [] => Failed "no choices in response" w
    | choice :: _ =>
      let assistantMsg := ch_Message choice in
      if String.eqb (ch_FinishReason choice) "tool_calls"
         && (0 <? length (msg_ToolCalls assistantMsg))%nat
      then
        let '(results, w) := dispatchAll cfg (msg_ToolCalls assistantMsg) w in
        Continues (h ++ [assistantMsg] ++ results) w
      else
        let w := {| ext := ext w; todoBoard := todoBoard w;
                    pendingContextBlocks := pendingContextBlocks w;
                    roundsWithoutTodo := roundsWithoutTodo w + 1 |} in
        Stopped (h ++ [assistantMsg])
                (if 10 <? roundsWithoutTodo w then ensureContextBlock nagReminder w else w)
    end
  end.


(** At most [n] rounds. *)
Fixpoint rounds (n : nat) (cfg : Config) (h : list Message) (w : World)
  : (list Message * option error) * World :=
  match n with
  | O => ((h, Some "agent max iterations reached"), w)
  | S n' =>
    match round cfg h w with
    | Failed err w' => ((h, Some err), w')
    | Stopped h' w' => ((h', None), w')
    | Continues h' w' => rounds n' cfg h' w'
    end
  end.

End ToolSpec.

Section StreamSpec.
Context `{Runtime}.

(** How the read loop takes one line. *)
Inductive lineKind : Type :=
| Ignored                      (* blank, or not a [data: ] line *)
| DoneSentinel                 (* [data: [DONE]] *)
| Malformed                    (* the payload does not decode *)
| NoChoice                     (* a chunk without choices *)
| Delta (content finish : string).   (* the first choice of a chunk *)

Definition classify (line : string) : lineKind :=
  if String.eqb (strings.TrimSpace line) EmptyString
     || negb (strings.HasPrefix line "data: ") then Ignored
  else
    let dataStr := strings.TrimPrefix line "data: " in
    if String.eqb dataStr "[DONE]" then DoneSentinel
    else match json_Unmarshal_chunk dataStr with
         | (_, Some _) => Malformed
         | (chunk, None) =>
           match chunk_Choices chunk with
           | [] => NoChoice
           | choice :: _ => Delta (cc_DeltaContent choice) (cc_FinishReason choice)
           end
         end.

(** The text a line contributes, and whether the loop ends on it. *)
Definition fragment (line : string) : string :=
  match classify line with
  | Delta content _ => content
  | _ => EmptyString
  end.

Definition terminal (line : string) : bool :=
  match classify line with
  | DoneSentinel => true
  | Delta _ finish => negb (String.eqb finish EmptyString)
  | _ => false
  end.

(** The lines the loop reads: up to and with the first terminal one. *)
Fixpoint consumed (lines : list string) : list string :=
  match lines with
  | [] => []
  | line :: rest => if terminal line then [line] else line :: consumed rest
  end.

Fixpoint concatAll (l : list string) : string :=
  match l with
  | [] => EmptyString
  | s :: rest => s +:+ concatAll rest
  end.

(** The one message the decoder builds from the text [content]. *)
Definition streamed (content : string) : APIResponse :=
  {| resp_ID := EmptyString; resp_Object := EmptyString; resp_Created := 0;
     resp_Model := EmptyString;
     resp_Choices :=
       [ {| ch_Index := 0;
            ch_Message := {| msg_Role := "assistant";
                             msg_Content := ContentString content;
                             msg_ToolCalls := []; msg_ToolCallID := EmptyString;
                             msg_Name := EmptyString |};
            ch_FinishReason := "stop" |} ] |}.

(** What [scanner.Err()] reports when the read loop is left: after the
    first terminal line, or after the last line. *)
Fixpoint exitError (lines : list (string * option error)) (atEnd : option error)
  : option error :=
  match lines with
  | [] => atEnd
  | (line, pending) :: rest => if terminal line then pending else exitError rest atEnd
  end.

(** The read loop ends normally: the status is no error status, and no
    read error is pending when the loop is left. *)
Definition ends_normally (resp : Response) : Prop :=
  http_StatusCode resp < 400
  /\ exitError (fst (http_Lines resp)) (snd (http_Lines resp)) = None.

End StreamSpec.

(** The transcript of the specification. *)
Definition QUOTE : string := String "034"%char EmptyString.

Definition transcript : list string :=
  [ "data: {" +:+ QUOTE +:+ "choices" +:+ QUOTE +:+ ":[{" +:+ QUOTE +:+ "delta" +:+ QUOTE
    +:+ ":{" +:+ QUOTE +:+ "content" +:+ QUOTE +:+ ":" +:+ QUOTE +:+ "Hi" +:+ QUOTE +:+ "}}]}";
    "data: {" +:+ QUOTE +:+ "choices" +:+ QUOTE +:+ ":[{" +:+ QUOTE +:+ "delta" +:+ QUOTE
    +:+ ":{" +:+ QUOTE +:+ "content" +:+ QUOTE +:+ ":" +:+ QUOTE +:+ " there" +:+ QUOTE
    +:+ "}," +:+ QUOTE +:+ "finish_reason" +:+ QUOTE +:+ ":" +:+ QUOTE +:+ "stop" +:+ QUOTE +:+ "}]}";
    "data: [DONE]" ].

(** The world of the simulated host whose endpoint plays [script]. *)
Definition exampleWorld (script : list (Response + error)) : @World Sim.host :=
  Sim.world (Example.machine script).

Definition bashInput (command : string) : gmap string jvalue :=
  {[ "command" := JString command ]}.

(** Two scripts for the endpoint: one round of tools and then a transport
    error; twenty rounds that all ask for a tool. *)
Definition scriptFailing : list (Response + error) :=
  [Sim.ok Example.toolCallBody; inr "connection reset by peer"].

Definition scriptLooping : list (Response + error) :=
  repeat (Sim.ok Example.toolCallBody) 20.


(** ** Lexical resolution of rooted paths *)

(** A path element has no separator. *)
Fixpoint sepFree (e : string) : bool :=
  match e with
  | EmptyString => true
  | String c e' => negb (filepath.IsPathSeparator c) && sepFree e'
  end.

(** An element that stays in a cleaned path: a name, neither empty nor
    [.] nor [..]. *)
Definition plainElem (e : string) : bool :=
  negb (String.eqb e EmptyString) && negb (String.eqb e ".")
  && negb (String.eqb e "..") && sepFree e.

(** The elements of a rooted path after resolving [.] and [..] from left
    to right; [stack] holds the names kept so far, the last one first.  At
    the root [..] stays at the root. *)
Fixpoint resolve (stack : list string) (elems : list string) : list string :=
  match elems with
  | [] => rev stack
  | e :: rest =>
    if String.eqb e EmptyString || String.eqb e "." then resolve stack rest
    else if String.eqb e ".." then resolve (tl stack) rest
    else resolve (e :: stack) rest
  end.

(** The rooted path with the given elements. *)
Definition rootedPath (elems : list string) : string :=
  "/" +:+ strings.Join elems "/".

(** The elements of a path as written. *)
Definition pathElements (path : string) : list string :=
  strings.Split1 path filepath.Separator.

(** The first element of a path and the unread rest. *)
Fixpoint elemSplit (path : string) : string * string :=
  match path with
  | EmptyString => (EmptyString, EmptyString)
  | String c rest =>
    if filepath.IsPathSeparator c then (EmptyString, path)
    else let '(e, rest') := elemSplit rest in (String c e, rest')
  end.

(** Where the path [candidate] leads from the rooted directory [workDir],
    element by element. *)
Definition lexicalTarget (workDir candidate : string) : list string :=
  if filepath.IsAbs candidate then resolve [] (pathElements candidate)
  else resolve (rev (resolve [] (pathElements workDir))) (pathElements candidate).

Fixpoint isPrefix (a b : list string) : bool :=
  match a, b with
  | [], _ => true
  | x :: a', y :: b' => String.eqb x y && isPrefix a' b'
  | _ :: _, [] => false
  end.

(** The test of [safePath] on the elements: [target] is [root] or lies
    below it.  Below the root directory itself nothing passes, because the
    prefix that is tested for is then [//]. *)
Definition within (root target : list string) : bool :=
  match root with
  | [] => match target with [] => true | _ => false end
  | _ => isPrefix root target
  end.

(** A path in normal form that is the rooted directory [workDir] or lies
    below it: the elements of [workDir], then names. *)
Definition insideWorkspace (workDir abs : string) : Prop :=
  exists rest, Forall (fun e => plainElem e = true) rest
               /\ abs = rootedPath (resolve [] (pathElements workDir) ++ rest).

(** ** Data for the examples of the file tools *)
Module Demo.

(** A file of three lines in the workspace of the simulated host. *)
Definition notes : string := "one" +:+ LF +:+ "two" +:+ LF +:+ "three".

Definition machine : Sim.machine :=
  {| Sim.cwd := "/work"; Sim.files := {[ "/work/notes.txt" := notes ]};
     Sim.shell := Sim.quiet; Sim.replies := []; Sim.requests := [] |}.

Definition world : @World Sim.host := Sim.world machine.

(** [{"path":"notes.txt","start_line":"2","end_line":"3"}] *)
Definition readInput : gmap string jvalue :=
  {[ "path" := JString "notes.txt"; "start_line" := JString "2";
     "end_line" := JString "3" ]}.

End Demo.

(** ** Lines *)

(** The byte [sep] does not occur in [e]. *)
Fixpoint charFree (sep : ascii) (e : string) : bool :=
  match e with
  | EmptyString => true
  | String c e' => negb (Ascii.eqb c sep) && charFree sep e'
  end.

(** Where [edit_text] puts the new text: after so many of the [n] lines. *)
Definition insertionPoint (insertAfter n : Z) : Z :=
  if insertAfter <? -1 then 0
  else if n <=? insertAfter then n
  else insertAfter + 1.

Module DemoEdit.

(** [{"path":"notes.txt","action":"insert","insert_after":"0","new_text":"1.5"}] *)
Definition insertInput : gmap string jvalue :=
  {[ "path" := JString "notes.txt"; "action" := JString "insert";
     "insert_after" := JString "0"; "new_text" := JString "1.5" ]}.

(** [{"path":"notes.txt","action":"delete_range","range":["1","2"]}] *)
Definition deleteInput : gmap string jvalue :=
  {[ "path" := JString "notes.txt"; "action" := JString "delete_range";
     "range" := JArray [JString "1"; JString "2"] ]}.

(** [{"path":"notes.txt","action":"Replace","find":"t","replace":"T"}] *)
Definition replaceInput : gmap string jvalue :=
  {[ "path" := JString "notes.txt"; "action" := JString "Replace";
     "find" := JString "t"; "replace" := JString "T" ]}.

End DemoEdit.

(** ** A host that watches what the agent asks of it *)

(** A path in normal form that is the directory [workDir] or lies below
    it. *)
Definition insideb (workDir path : string) : bool :=
  filepath.IsAbs path
  && String.eqb (filepath.Clean path) path
  && isPrefix (resolve [] (pathElements workDir)) (resolve [] (pathElements path)).

Section Watch.
Context `{Runtime}.
Variable h : Host.
Variable cfg : Config.

(** The state of the host [h], and whether every operation so far kept to
    the rules below. *)
Record watched : Type := { inner : @Ext h; clean : bool }.

(** A file is written inside the workspace. *)
Definition okWrite (path : string) : bool := insideb (cfg_WorkDir cfg) path.

(** A directory is made inside the workspace, or is the directory the
    workspace lies in. *)
Definition okMkdir (path : string) : bool :=
  insideb (cfg_WorkDir cfg) path
  || String.eqb path (filepath.Dir (filepath.Clean (cfg_WorkDir cfg))).

(** A command runs in the workspace, is not empty and is not one the
    classifier flags. *)
Definition okRun (dir command : string) : bool :=
  String.eqb dir (cfg_WorkDir cfg)
  && negb (String.eqb command EmptyString)
  && negb (isDangerousCommand command).

(** A request goes to the configured endpoint with the configured key and
    model, and its first message is the system message. *)
Definition okPost (req : Request) : bool :=
  String.eqb (req_Endpoint req) (endpointOf (cfg_BaseURL cfg))
  && String.eqb (req_APIKey req) (cfg_APIKey cfg)
  && String.eqb (req_Model req) (cfg_Model cfg)
  && match req_Messages req with
     | m :: _ => String.eqb (msg_Role m) "system"
     | [] => false
     end.

Definition step {A} (s : watched) (ok : bool) (r : A * @Ext h) : A * watched :=
  (fst r, {| inner := snd r; clean := clean s && ok |}).

(** The host [h] with the watch on: it answers as [h] does. *)
Definition watch : Host :=
  {| Ext := watched;
     os_Getwd := fun s => @os_Getwd h (inner s);
     os_ReadFile := fun path s => @os_ReadFile h path (inner s);
     os_WriteFile := fun path data s =>
       step s (okWrite path) (@os_WriteFile h path data (inner s));
     os_AppendFile := fun path data s =>
       step s (okWrite path) (@os_AppendFile h path data (inner s));
     os_MkdirAll := fun path s =>
       step s (okMkdir path) (@os_MkdirAll h path (inner s));
     exec_Run := fun dir command timeout s =>
       step s (okRun dir command) (@exec_Run h dir command timeout (inner s));
     http_Do := fun req s =>
       step s (okPost req) (@http_Do h req (inner s)) |}.

End Watch.

Section RoundWorld.
Context `{Host}.

(** The world at the end of a round. *)
Definition roundWorld (r : roundEnd) : World :=
  match r with
  | Failed _ w => w
  | Stopped _ w => w
  | Continues _ w => w
  end.

End RoundWorld.

Module DemoWatch.

(** The world of the watched simulated host whose endpoint plays
    [script]. *)
Definition world (script : list (Response + error))
  : @World (@watch Ref.runtime Sim.host Sim.config) :=
  @Build_World (@watch Ref.runtime Sim.host Sim.config)
               (Build_watched Sim.host (Example.machine script) true)
               {| tm_items := [] |} [] 0.

End DemoWatch.

(** ** Start-up and the read loop of [main] *)

Section Startup.
Context `{Runtime} `{Host}.

(** [os.Getenv]: the value of a variable of the environment, empty when
    the variable is not set. *)
Variable os_Getenv : string -> string.

(** How [loadConfig] ends. *)
Inductive startup : Type :=
| Panics (err : error)        (* [panic(err)] *)
| Fatal (msg : string)        (* [log.Fatal] *)
| Loaded (cfg : Config).

Definition loadConfig (x : Ext) : startup :=
  match os_Getwd x with
  | (_, Some err) => Panics err
  | (workDir, None) =>
    let apiKey := strings.TrimSpace (os_Getenv "OPENAI_API_KEY") in
    let baseURL := strings.TrimSpace (os_Getenv "OPENAI_BASE_URL") in
    let baseURL :=
      if String.eqb baseURL EmptyString then "https://api.openai.com" else baseURL in
    let model := strings.TrimSpace (os_Getenv "OPENAI_MODEL") in
    let model := if String.eqb model EmptyString then "gpt-4" else model in
    let maxTokens := defaultMaxTokens in
    let maxTokensStr := strings.TrimSpace (os_Getenv "OPENAI_MAX_TOKENS") in
    let maxTokens :=
      if negb (String.eqb maxTokensStr EmptyString) then
        match Atoi maxTokensStr with
        | Some parsed => if 0 <? parsed then parsed else maxTokens
        | None => maxTokens
        end
      else maxTokens in
    let cfg :=
      {| cfg_APIKey := apiKey;
         cfg_BaseURL := baseURL;
         cfg_Model := model;
         cfg_WorkDir := workDir;
         cfg_MaxResult := maxTokens;
         cfg_Debug :=
           String.eqb (strings.ToLower unicode_ToLower
                         (strings.TrimSpace (os_Getenv "DEBUG"))) "true";
         cfg_Stream :=
           negb (String.eqb (strings.ToLower unicode_ToLower
                               (strings.TrimSpace (os_Getenv "OPENAI_STREAM"))) "false") |} in
    if String.eqb (cfg_APIKey cfg) EmptyString then Fatal "OPENAI_API_KEY required"
    else Loaded cfg
  end.

(** [Message{Role: "user", Content: content}] *)
Definition userTurn (content : Content) : Message :=
  {| msg_Role := "user"; msg_Content := content; msg_ToolCalls := [];
     msg_ToolCallID := EmptyString; msg_Name := EmptyString |}.

Definition isExitWord (lower : string) : bool :=
  String.eqb lower "exit" || String.eqb lower "quit" || String.eqb lower "q".

(** The read loop of [main] over the lines the scanner delivers (what is
    printed is left out): the history and the world when the loop ends. *)
Fixpoint mainLoop (cfg : Config) (lines : list string) (history : list Message)
         (w : World) : list Message * World :=
  match lines with
  | [] => (history, w)
  | line :: rest =>
    let trimmed := strings.TrimSpace line in
    if String.eqb trimmed EmptyString then mainLoop cfg rest history w
    else
      let lower := strings.ToLower unicode_ToLower trimmed in
      if isExitWord lower then (history, w)
      else
        (* Inject reminders into user message *)
        let '(content, w) := injectReminders line w in
        let history := history ++ [userTurn content] in
        match query cfg history w with
        | ((_, Some _), w) => mainLoop cfg rest history w
        | ((updated, None), w) => mainLoop cfg rest updated w
        end
  end.

(** The globals when [main] enters its loop: an empty board, the initial
    reminder pending, no round counted. *)
Definition initialWorld (x : Ext) : World :=
  {| ext := x; todoBoard := {| tm_items := [] |};
     pendingContextBlocks := [] ++ [ {| cb_Type := "text"; cb_Text := initialReminder |} ];
     roundsWithoutTodo := 0 |}.

(** [main]: the history and the world at the end of the session, or how
    [loadConfig] stopped the program. *)
Definition main (lines : list string) (x : Ext) : list Message * World + startup :=
  match loadConfig x with
  | Loaded cfg => inl (mainLoop cfg lines [] (initialWorld x))
  | stopped => inr stopped
  end.

(** The message the stream decoder builds from the text [content]. *)
Definition assistantText (content : string) : Message :=
  {| msg_Role := "assistant"; msg_Content := ContentString content;
     msg_ToolCalls := []; msg_ToolCallID := EmptyString; msg_Name := EmptyString |}.

(** What [query] does to the globals when the model stops: one more round
    is counted, and past ten the reminder is queued. *)
Definition endOfTurn (w : World) : World :=
  let w := {| ext := ext w; todoBoard := todoBoard w;
              pendingContextBlocks := pendingContextBlocks w;
              roundsWithoutTodo := roundsWithoutTodo w + 1 |} in
  if 10 <? roundsWithoutTodo w then ensureContextBlock nagReminder w else w.

Definition textBlock (text : string) : ContentBlock :=
  {| cb_Type := "text"; cb_Text := text |}.

Definition pendingTexts (w : World) : list string :=
  map cb_Text (pendingContextBlocks w).

End Startup.

Section Globals.
Context `{Host}.

(** What a tool does to the globals: the pending blocks stay, and the
    round counter stays or is reset. *)
Definition toolStep (w w' : World) : Prop :=
  pendingContextBlocks w' = pendingContextBlocks w
  /\ (roundsWithoutTodo w' = roundsWithoutTodo w \/ roundsWithoutTodo w' = 0).

(** The globals after a turn that the model ended. *)
Definition turnEnded (w w' : World) : Prop :=
  (roundsWithoutTodo w' = roundsWithoutTodo w + 1 \/ roundsWithoutTodo w' = 1)
  /\ (10 < roundsWithoutTodo w' -> In nagReminder (pendingTexts w'))
  /\ (pendingContextBlocks w' = pendingContextBlocks w
      \/ pendingContextBlocks w' = pendingContextBlocks w ++ [textBlock nagReminder])
  /\ (roundsWithoutTodo w' <= 10 -> pendingContextBlocks w' = pendingContextBlocks w).

(** The globals are as they were. *)
Definition sameGlobals (w w' : World) : Prop :=
  todoBoard w' = todoBoard w
  /\ pendingContextBlocks w' = pendingContextBlocks w
  /\ roundsWithoutTodo w' = roundsWithoutTodo w.

End Globals.

Section TodoWrites.
Context `{Runtime} `{Host}.

(** Whether the call [tc], made in [w], is a todo update that goes
    through: the tool is [TodoWrite], the arguments decode and
    [runTodoUpdate] returns no error. *)
Definition todoWritten (cfg : Config) (tc : ToolCall) (w : World) : bool :=
  match json_Unmarshal_map (fn_Arguments (tc_Function tc)) with
  | (input, None) =>
    String.eqb (fn_Name (tc_Function tc)) "TodoWrite"
    && match snd (fst (runTodoUpdate cfg input w)) with
       | None => true
       | Some _ => false
       end
  | (_, Some _) => false
  end.

(** Whether one of the calls, made in order from [w], is such an update. *)
Fixpoint anyWritten (cfg : Config) (calls : list ToolCall) (w : World) : bool :=
  match calls with
  | [] => false
  | tc :: rest =>
    todoWritten cfg tc w || anyWritten cfg rest (snd (dispatchToolCall cfg tc w))
  end.

(** Whether a todo update goes through in the round that starts from the
    history [hist] in [w]. *)
Definition roundWrote (cfg : Config) (hist : list Message) (w : World) : bool :=
  match callOpenAI cfg (systemMessage cfg :: hist) w with
  | (inl resp, w1) =>
    match resp_Choices resp with
    | choice :: _ =>
      String.eqb (ch_FinishReason choice) "tool_calls"
      && (0 <? length (msg_ToolCalls (ch_Message choice)))%nat
      && anyWritten cfg (msg_ToolCalls (ch_Message choice)) w1
    | [] => false
    end
  | (inr _, _) => false
  end.

(** Whether a todo update goes through in one of at most [n] rounds. *)
Fixpoint roundsWrote (n : nat) (cfg : Config) (hist : list Message) (w : World) : bool :=
  match n with
  | O => false
  | S n' =>
    match round cfg hist w with
    | Continues hist' w' => roundWrote cfg hist w || roundsWrote n' cfg hist' w'
    | _ => false
    end
  end.

End TodoWrites.

Module DemoStart.

(** An environment that sets the key and nothing else. *)
Definition env (name : string) : string :=
  if String.eqb name "OPENAI_API_KEY" then " sk-test " else EmptyString.

(** The same environment with streaming switched off. *)
Definition envNoStream (name : string) : string :=
  if String.eqb name "OPENAI_API_KEY" then " sk-test "
  else if String.eqb name "OPENAI_STREAM" then " False "
  else EmptyString.

(** The configuration of the simulated host with streaming on. *)
Definition streaming : Config :=
  {| cfg_APIKey := "sk-test"; cfg_BaseURL := "https://api.openai.com";
     cfg_Model := "gpt-4"; cfg_WorkDir := "/work"; cfg_MaxResult := defaultMaxTokens;
     cfg_Debug := false; cfg_Stream := true |}.

(** A body that streams the transcript. *)
Definition body : string := strings.Join transcript LF.

(** A world whose round counter stands at ten. *)
Definition tenRounds : @World Sim.host :=
  @Build_World Sim.host (Example.machine [Sim.ok Example.stopBody])
               {| tm_items := [] |} [] 10.

(** A text inside a JSON string: every quote gets a backslash. *)
Fixpoint escapeQuotes (s : string) : string :=
  match s with
  | EmptyString => EmptyString
  | String c t =>
    if Ascii.eqb c "034"%char then String "092"%char (String c (escapeQuotes t))
    else String c (escapeQuotes t)
  end.

(** [{"items":[{"content":"write","activeForm":"Writing","status":"pending"}]}] *)
Definition todoArguments : string :=
  "{" +:+ Example.q +:+ "items" +:+ Example.q +:+ ":[{"
  +:+ Example.q +:+ "content" +:+ Example.q +:+ ":" +:+ Example.q +:+ "write" +:+ Example.q +:+ ","
  +:+ Example.q +:+ "activeForm" +:+ Example.q +:+ ":" +:+ Example.q +:+ "Writing" +:+ Example.q +:+ ","
  +:+ Example.q +:+ "status" +:+ Example.q +:+ ":" +:+ Example.q +:+ "pending" +:+ Example.q
  +:+ "}]}".

(** A response that asks for one todo update. *)
Definition todoCallBody : string :=
  "{" +:+ Example.q +:+ "choices" +:+ Example.q +:+ ":[{" +:+ Example.q +:+ "message" +:+ Example.q +:+ ":{"
  +:+ Example.q +:+ "role" +:+ Example.q +:+ ":" +:+ Example.q +:+ "assistant" +:+ Example.q +:+ ","
  +:+ Example.q +:+ "content" +:+ Example.q +:+ ":null,"
  +:+ Example.q +:+ "tool_calls" +:+ Example.q +:+ ":[{" +:+ Example.q +:+ "id" +:+ Example.q +:+ ":"
  +:+ Example.q +:+ "call_2" +:+ Example.q +:+ ","
  +:+ Example.q +:+ "type" +:+ Example.q +:+ ":" +:+ Example.q +:+ "function" +:+ Example.q +:+ ","
  +:+ Example.q +:+ "function" +:+ Example.q +:+ ":{" +:+ Example.q +:+ "name" +:+ Example.q +:+ ":"
  +:+ Example.q +:+ "TodoWrite" +:+ Example.q +:+ ","
  +:+ Example.q +:+ "arguments" +:+ Example.q +:+ ":" +:+ Example.q +:+ escapeQuotes todoArguments
  +:+ Example.q +:+ "}}]},"
  +:+ Example.q +:+ "finish_reason" +:+ Example.q +:+ ":" +:+ Example.q +:+ "tool_calls" +:+ Example.q
  +:+ "}]}".

(** A world whose round counter stands at ten, and a model that updates
    the todo list and then stops. *)
Definition tenRoundsTodo : @World Sim.host :=
  @Build_World Sim.host (Example.machine [Sim.ok todoCallBody; Sim.ok Example.stopBody])
               {| tm_items := [] |} [] 10.

(** A configuration whose base URL holds a line feed. *)
Definition brokenURL : Config :=
  {| cfg_APIKey := "sk-test"; cfg_BaseURL := "https://api." +:+ LF +:+ "openai.com";
     cfg_Model := "gpt-4"; cfg_WorkDir := "/work"; cfg_MaxResult := defaultMaxTokens;
     cfg_Debug := false; cfg_Stream := false |}.

End DemoStart.

(** ** Integers and the todo items as the tools read them *)

(** A string of ASCII white space. *)
Fixpoint asciiSpaces (s : string) : bool :=
  match s with
  | EmptyString => true
  | String c s' => strings.asciiSpace c && asciiSpaces s'
  end.

(** An ASCII byte that is not white space. *)
Definition inkByte (c : ascii) : bool :=
  (byte_val c <? utf8.RuneSelf) && negb (strings.asciiSpace c).

Section TodoItems.
Context `{Runtime}.

(** The item [runTodoUpdate] builds from the object at index [i] (counted
    from 0): a missing id is the position counted from 1, a missing status
    is [pending]. *)
Definition itemAt (i : Z) (itemMap : gmap string jvalue) : TodoItem :=
  {| todo_ID := if String.eqb (getString itemMap "id") EmptyString
                then itoa (i + 1) else getString itemMap "id";
     todo_Content := getString itemMap "content";
     todo_Status := if String.eqb (getString itemMap "status") EmptyString
                    then "pending" else getString itemMap "status";
     todo_ActiveForm := getString itemMap "activeForm" |}.

(** The number of items whose status is the token [completed] itself. *)
Definition completedExact (items : list TodoItem) : Z :=
  Z.of_nat (length (List.filter (fun it => String.eqb (todo_Status it) "completed") items)).

(** The line [runTodoUpdate] puts under the board. *)
Definition todoSummary (items : list TodoItem) : string :=
  match items with
  | [] => "No todos have been created."
  | _ => "Status updated: " +:+ itoa (completedExact items) +:+ " completed, "
         +:+ itoa (inProgressExact items) +:+ " in progress."
  end.

Definition isObject (v : jvalue) : bool :=
  match v with JObject _ => true | _ => false end.

End TodoItems.

Module DemoTodo.

Definition obj (id content status : string) : jvalue :=
  JObject {[ "id" := JString id; "content" := JString content;
             "status" := JString status; "activeForm" := JString "working" ]}.

(** Two items; the second has no id and no status. *)
Definition input : gmap string jvalue :=
  {[ "items" := JArray [ obj "a" "write the parser" "completed";
                         JObject {[ "content" := JString "test it";
                                    "activeForm" := JString "testing" ]} ] ]}.

(** The first item takes the id that the second one gets by default. *)
Definition clash : gmap string jvalue :=
  {[ "items" := JArray [ obj "2" "write the parser" "pending";
                         JObject {[ "content" := JString "test it";
                                    "activeForm" := JString "testing" ]} ] ]}.

End DemoTodo.

(** ** Laws of a file system *)

Section FileSystem.
Context `{Host}.

(** A file that was written holds what was written. *)
Definition keepsWrites : Prop :=
  forall (path data : string) (x x' : Ext),
    os_WriteFile path data x = (None, x') -> os_ReadFile path x' = (data, None).

(** Appending to a file that holds [old] leaves [old] followed by the new
    data. *)
Definition appendsAtEnd : Prop :=
  forall (path data old : string) (x x' : Ext),
    os_ReadFile path x = (old, None) ->
    os_AppendFile path data x = (None, x') ->
    os_ReadFile path x' = (old +:+ data, None).

(** Making directories changes no file. *)
Definition mkdirKeepsFiles : Prop :=
  forall (dir path : string) (x x' : Ext),
    os_MkdirAll dir x = (None, x') -> os_ReadFile path x' = os_ReadFile path x.

End FileSystem.

(** ** A host that keeps the requests it is sent *)

Section Logged.
Variable h : Host.

Definition keep {A} (log : list Request) (r : A * @Ext h) : A * (@Ext h * list Request) :=
  (fst r, (snd r, log)).

(** The host [h] with a log of the requests posted so far: it answers as
    [h] does. *)
Definition logged : Host :=
  {| Ext := @Ext h * list Request;
     os_Getwd := fun s => @os_Getwd h (fst s);
     os_ReadFile := fun path s => @os_ReadFile h path (fst s);
     os_WriteFile := fun path data s => keep (snd s) (@os_WriteFile h path data (fst s));
     os_AppendFile := fun path data s => keep (snd s) (@os_AppendFile h path data (fst s));
     os_MkdirAll := fun path s => keep (snd s) (@os_MkdirAll h path (fst s));
     exec_Run := fun dir command timeout s =>
       keep (snd s) (@exec_Run h dir command timeout (fst s));
     http_Do := fun req s => keep (snd s ++ [req]) (@http_Do h req (fst s)) |}.

End Logged.

Section RoundRequest.
Context `{Runtime}.
Variable cfg : Config.

(** Whether [callOpenAI] gets as far as sending: the body can be marshalled
    and the request can be made. *)
Definition requestBuilt (messages : list Message) : bool :=
  match json_Marshal (cfg_Model cfg) messages (cfg_MaxResult cfg) (cfg_Stream cfg) with
  | Some _ => false
  | None =>
    match http_NewRequest (endpointOf (cfg_BaseURL cfg)) with
    | Some _ => false
    | None => true
    end
  end.

(** The request of a round: the configured endpoint, key, model and
    limits, and the system message before the history. *)
Definition roundRequest (hist : list Message) (req : Request) : Prop :=
  req_Endpoint req = endpointOf (cfg_BaseURL cfg)
  /\ req_APIKey req = cfg_APIKey cfg
  /\ req_Model req = cfg_Model cfg
  /\ req_MaxTokens req = cfg_MaxResult cfg
  /\ req_Stream req = cfg_Stream cfg
  /\ req_Messages req = systemMessage cfg :: hist.

End RoundRequest.

(** ** Data for the examples of writing and reading back *)
Module DemoWrite.

(** [{"path":"notes.txt","content":"alpha\nbeta"}] *)
Definition writeInput : gmap string jvalue :=
  {[ "path" := JString "notes.txt"; "content" := JString ("alpha" +:+ LF +:+ "beta") ]}.

(** [{"path":"notes.txt","content":"\nfour","mode":"APPEND"}] *)
Definition appendInput : gmap string jvalue :=
  {[ "path" := JString "notes.txt"; "content" := JString (LF +:+ "four");
     "mode" := JString "APPEND" ]}.

(** [{"path":"./notes.txt"}] *)
Definition readInput : gmap string jvalue := {[ "path" := JString "./notes.txt" ]}.

(** The demo machine with one more file, outside the workspace. *)
Definition machine' : Sim.machine :=
  Sim.setFiles Demo.machine (<["/etc/motd" := "hello"]> (Sim.files Demo.machine)).

(** The world of the logging simulated host whose endpoint plays
    [script]. *)
Definition world (script : list (Response + error)) : @World (logged Sim.host) :=
  @Build_World (logged Sim.host) (Example.machine script, []) {| tm_items := [] |} [] 0.

End DemoWrite.

(** * Properties *)

(** ** Bytes and bit operations as arithmetic *)

Lemma byte_val_range (c : ascii) : 0 <= byte_val c < 256.
Proof.
  unfold byte_val. pose proof (N_ascii_bounded c) as Hb.
  change 256 with (Z.of_N 256). lia.
Qed.

Lemma byte_val_of (z : Z) : byte_val (byte_of z) = z mod 256.
Proof.
  unfold byte_val, byte_of.
  assert (0 <= z mod 256 < 256) as Hm by (apply Z.mod_pos_bound; lia).
  rewrite N_ascii_embedding by lia.
  rewrite Z2N.id; lia.
Qed.

Lemma byte_of_val (c : ascii) : byte_of (byte_val c) = c.
Proof.
  unfold byte_of. pose proof (byte_val_range c) as Hr.
  rewrite Z.mod_small by lia. unfold byte_val.
  rewrite N2Z.id. apply ascii_N_embedding.
Qed.

Lemma lor_disjoint (a b n : Z) :
  0 <= n -> 0 <= b < 2 ^ n -> a mod 2 ^ n = 0 -> Z.lor a b = a + b.
Proof.
  intros Hn Hb Ha.
  pose proof (Z.add_lor_land a b) as Hadd.
  assert (Z.land a b = 0) as Hl; [|lia].
  apply Z.bits_inj'. intros i Hi.
  rewrite Z.land_spec, Z.bits_0.
  destruct (Z.lt_ge_cases i n) as [Hlt|Hge].
  - rewrite <- (Z.mod_pow2_bits_low a n i) by lia. rewrite Ha, Z.bits_0. reflexivity.
  - rewrite <- (Z.mod_small b (2 ^ n)) by lia.
    rewrite Z.mod_pow2_bits_high by lia. apply andb_false_r.
Qed.

Lemma land_mask (a n : Z) : 0 <= n -> Z.land a (2 ^ n - 1) = a mod 2 ^ n.
Proof.
  intros Hn. rewrite <- Z.land_ones by lia.
  f_equal. rewrite Z.ones_equiv. lia.
Qed.

(** The masks and shifts of the UTF-8 codec, as division and remainder. *)
Lemma land_3F a : Z.land a 0x3F = a mod 64.
Proof. apply (land_mask a 6). lia. Qed.
Lemma land_1F a : Z.land a 0x1F = a mod 32.
Proof. apply (land_mask a 5). lia. Qed.
Lemma land_0F a : Z.land a 0x0F = a mod 16.
Proof. apply (land_mask a 4). lia. Qed.
Lemma land_07 a : Z.land a 0x07 = a mod 8.
Proof. apply (land_mask a 3). lia. Qed.
Lemma shiftl_6 a : Z.shiftl a 6 = a * 64.
Proof. rewrite Z.shiftl_mul_pow2 by lia. reflexivity. Qed.
Lemma shiftl_12 a : Z.shiftl a 12 = a * 4096.
Proof. rewrite Z.shiftl_mul_pow2 by lia. reflexivity. Qed.
Lemma shiftl_18 a : Z.shiftl a 18 = a * 262144.
Proof. rewrite Z.shiftl_mul_pow2 by lia. reflexivity. Qed.
Lemma shiftr_6 a : Z.shiftr a 6 = a / 64.
Proof. rewrite Z.shiftr_div_pow2 by lia. reflexivity. Qed.
Lemma shiftr_12 a : Z.shiftr a 12 = a / 4096.
Proof. rewrite Z.shiftr_div_pow2 by lia. reflexivity. Qed.
Lemma shiftr_18 a : Z.shiftr a 18 = a / 262144.
Proof. rewrite Z.shiftr_div_pow2 by lia. reflexivity. Qed.

Lemma lor_low6 (a b : Z) : 0 <= b < 64 -> a mod 64 = 0 -> Z.lor a b = a + b.
Proof. intros. apply (lor_disjoint a b 6); change (2 ^ 6) with 64; lia. Qed.
Lemma lor_low12 (a b : Z) : 0 <= b < 4096 -> a mod 4096 = 0 -> Z.lor a b = a + b.
Proof. intros. apply (lor_disjoint a b 12); change (2 ^ 12) with 4096; lia. Qed.
Lemma lor_low18 (a b : Z) : 0 <= b < 262144 -> a mod 262144 = 0 -> Z.lor a b = a + b.
Proof. intros. apply (lor_disjoint a b 18); change (2 ^ 18) with 262144; lia. Qed.

Ltac arith := Z.div_mod_to_equations; lia.

Ltac bits_to_arith :=
  rewrite ?land_3F, ?land_1F, ?land_0F, ?land_07,
          ?shiftl_6, ?shiftl_12, ?shiftl_18, ?shiftr_6, ?shiftr_12, ?shiftr_18.

(** The four shapes of a decoded or encoded rune. *)
Lemma rune2 (a b : Z) :
  Z.lor (Z.shiftl (Z.land a 0x1F) 6) (Z.land b 0x3F) = a mod 32 * 64 + b mod 64.
Proof. bits_to_arith. apply lor_low6; arith. Qed.

Lemma rune3 (a b c : Z) :
  Z.lor (Z.lor (Z.shiftl (Z.land a 0x0F) 12) (Z.shiftl (Z.land b 0x3F) 6)) (Z.land c 0x3F)
  = a mod 16 * 4096 + b mod 64 * 64 + c mod 64.
Proof.
  bits_to_arith.
  rewrite (lor_low12 (a mod 16 * 4096)) by arith.
  apply lor_low6; arith.
Qed.

Lemma rune4 (a b c d : Z) :
  Z.lor (Z.lor (Z.lor (Z.shiftl (Z.land a 0x07) 18) (Z.shiftl (Z.land b 0x3F) 12))
               (Z.shiftl (Z.land c 0x3F) 6)) (Z.land d 0x3F)
  = a mod 8 * 262144 + b mod 64 * 4096 + c mod 64 * 64 + d mod 64.
Proof.
  bits_to_arith.
  rewrite (lor_low18 (a mod 8 * 262144)) by arith.
  rewrite (lor_low12 (a mod 8 * 262144 + b mod 64 * 4096)) by arith.
  apply lor_low6; arith.
Qed.

Lemma cont_byte (x : Z) : byte_val (byte_of (Z.lor 0x80 (Z.land x 0x3F))) = 128 + x mod 64.
Proof.
  rewrite byte_val_of. bits_to_arith.
  rewrite (lor_low6 0x80 (x mod 64)) by arith.
  arith.
Qed.

Lemma lead_byte (t x n : Z) :
  0 <= n -> t mod 2 ^ n = 0 -> 0 <= x < 2 ^ n -> 0 <= t -> t + 2 ^ n <= 256 ->
  byte_val (byte_of (Z.lor t x)) = t + x.
Proof.
  intros Hn Ht Hx Ht0 Hle. rewrite byte_val_of.
  rewrite (lor_disjoint t x n) by lia.
  apply Z.mod_small. lia.
Qed.

(** ** Byte strings *)

Lemma sapp_nil_l (t : string) : "" +:+ t = t.
Proof. reflexivity. Qed.

Lemma sapp_cons (a : ascii) (s t : string) : String a s +:+ t = String a (s +:+ t).
Proof. reflexivity. Qed.

Lemma sapp_nil_r (s : string) : s +:+ "" = s.
Proof. induction s as [|a s IH]; [reflexivity|]. rewrite sapp_cons, IH. reflexivity. Qed.

Lemma app_assoc_s (a b c : string) : (a +:+ b) +:+ c = a +:+ b +:+ c.
Proof. induction a as [|x a IH]; [reflexivity|]. rewrite !sapp_cons, IH. reflexivity. Qed.

Lemma length_app_s (a b : string) :
  String.length (a +:+ b) = (String.length a + String.length b)%nat.
Proof. induction a as [|x a IH]; [reflexivity|]. rewrite sapp_cons. simpl. lia. Qed.

Lemma sdrop_app (a t : string) : sdrop (String.length a) (a +:+ t) = t.
Proof. induction a as [|x a IH]; [reflexivity|]. rewrite sapp_cons. simpl. exact IH. Qed.

Lemma stake_app (a t : string) : stake (String.length a) (a +:+ t) = a.
Proof. induction a as [|x a IH]; [reflexivity|]. rewrite sapp_cons. simpl. f_equal. exact IH. Qed.

Lemma length_sdrop (n : nat) (s : string) :
  String.length (sdrop n s) = (String.length s - n)%nat.
Proof.
  revert s. induction n as [|n IH]; intros s; simpl; [lia|].
  destruct s as [|c s]; simpl; [reflexivity|]. apply IH.
Qed.

Lemma stake_all (n : nat) (s : string) : (String.length s <= n)%nat -> stake n s = s.
Proof.
  revert s. induction n as [|n IH]; intros [|c s] Hl; simpl in *; try reflexivity; try lia.
  f_equal. apply IH. lia.
Qed.

(** ** The UTF-8 codec *)

Lemma first_spec (b : Z) :
  match utf8.first b with
  | utf8.AS => b < 0x80
  | utf8.XX => 0x80 <= b < 0xC2 \/ 0xF4 < b
  | utf8.SEQ sz lo hi =>
    (sz = 2%nat /\ lo = 0x80 /\ hi = 0xBF /\ 0xC2 <= b <= 0xDF)
    \/ (sz = 3%nat /\ lo = 0xA0 /\ hi = 0xBF /\ b = 0xE0)
    \/ (sz = 3%nat /\ lo = 0x80 /\ hi = 0xBF /\ (0xE1 <= b <= 0xEC \/ 0xEE <= b <= 0xEF))
    \/ (sz = 3%nat /\ lo = 0x80 /\ hi = 0x9F /\ b = 0xED)
    \/ (sz = 4%nat /\ lo = 0x90 /\ hi = 0xBF /\ b = 0xF0)
    \/ (sz = 4%nat /\ lo = 0x80 /\ hi = 0xBF /\ 0xF1 <= b <= 0xF3)
    \/ (sz = 4%nat /\ lo = 0x80 /\ hi = 0x8F /\ b = 0xF4)
  end.
Proof.
  unfold utf8.first.
  repeat match goal with
         | |- context [if ?x <? ?y then _ else _] => destruct (Z.ltb_spec x y)
         | |- context [if ?x =? ?y then _ else _] => destruct (Z.eqb_spec x y)
         end; lia.
Qed.

Lemma outside_false (lo hi b : Z) : utf8.outside lo hi b = false <-> lo <= b <= hi.
Proof. unfold utf8.outside. rewrite orb_false_iff, !Z.ltb_ge. lia. Qed.

(** Decoding a well-formed sequence of two, three and four bytes. *)
Lemma decode2 (c0 c1 : ascii) (t : string) (lo hi : Z) :
  utf8.first (byte_val c0) = utf8.SEQ 2 lo hi ->
  lo <= byte_val c1 <= hi ->
  utf8.DecodeRuneInString (String c0 (String c1 t))
  = (byte_val c0 mod 32 * 64 + byte_val c1 mod 64, 2%nat).
Proof.
  intros Hf Ho. apply outside_false in Ho.
  unfold utf8.DecodeRuneInString. rewrite Hf. cbn [String.length Nat.ltb Nat.leb].
  rewrite Ho. cbn [Nat.leb]. rewrite rune2. reflexivity.
Qed.

Lemma decode3 (c0 c1 c2 : ascii) (t : string) (lo hi : Z) :
  utf8.first (byte_val c0) = utf8.SEQ 3 lo hi ->
  lo <= byte_val c1 <= hi ->
  0x80 <= byte_val c2 <= 0xBF ->
  utf8.DecodeRuneInString (String c0 (String c1 (String c2 t)))
  = (byte_val c0 mod 16 * 4096 + byte_val c1 mod 64 * 64 + byte_val c2 mod 64, 3%nat).
Proof.
  intros Hf Ho H2. apply outside_false in Ho. apply outside_false in H2.
  unfold utf8.DecodeRuneInString. rewrite Hf. cbn [String.length Nat.ltb Nat.leb].
  rewrite Ho, H2. cbn [Nat.leb]. rewrite rune3. reflexivity.
Qed.

Lemma decode4 (c0 c1 c2 c3 : ascii) (t : string) (lo hi : Z) :
  utf8.first (byte_val c0) = utf8.SEQ 4 lo hi ->
  lo <= byte_val c1 <= hi ->
  0x80 <= byte_val c2 <= 0xBF ->
  0x80 <= byte_val c3 <= 0xBF ->
  utf8.DecodeRuneInString (String c0 (String c1 (String c2 (String c3 t))))
  = (byte_val c0 mod 8 * 262144 + byte_val c1 mod 64 * 4096
     + byte_val c2 mod 64 * 64 + byte_val c3 mod 64, 4%nat).
Proof.
  intros Hf Ho H2 H3.
  apply outside_false in Ho. apply outside_false in H2. apply outside_false in H3.
  unfold utf8.DecodeRuneInString. rewrite Hf. cbn [String.length Nat.ltb Nat.leb].
  rewrite Ho, H2, H3. cbn [Nat.leb]. rewrite rune4. reflexivity.
Qed.

Lemma decode_cases (s : string) : decoded s (utf8.DecodeRuneInString s).
Proof.
  destruct s as [|c0 t0]; [constructor; reflexivity|].
  pose proof (first_spec (byte_val c0)) as Hs.
  unfold utf8.DecodeRuneInString.
  destruct (utf8.first (byte_val c0)) as [| |sz lo hi] eqn:Hf.
  { eapply dec_ascii; [reflexivity|exact Hs]. }
  { eapply dec_error; reflexivity. }
  destruct (String.length (String c0 t0) <? sz)%nat eqn:Hlen;
    [eapply dec_error; reflexivity|].
  destruct t0 as [|c1 t1]; [eapply dec_error; reflexivity|].
  destruct (utf8.outside lo hi (byte_val c1)) eqn:Ho;
    [eapply dec_error; reflexivity|].
  apply outside_false in Ho.
  destruct (sz <=? 2)%nat eqn:H2.
  { rewrite rune2. eapply dec_2; [reflexivity| |exact Ho].
    rewrite Hf. f_equal. apply Nat.leb_le in H2. lia. }
  destruct t1 as [|c2 t2]; [eapply dec_error; reflexivity|].
  destruct (utf8.outside 128 191 (byte_val c2)) eqn:Ho2;
    [eapply dec_error; reflexivity|].
  apply outside_false in Ho2.
  destruct (sz <=? 3)%nat eqn:H3.
  { rewrite rune3. eapply dec_3; [reflexivity| |exact Ho|exact Ho2].
    rewrite Hf. f_equal. apply Nat.leb_le in H3. apply Nat.leb_gt in H2. lia. }
  destruct t2 as [|c3 t3]; [eapply dec_error; reflexivity|].
  destruct (utf8.outside 128 191 (byte_val c3)) eqn:Ho3;
    [eapply dec_error; reflexivity|].
  apply outside_false in Ho3.
  rewrite rune4. eapply dec_4; [reflexivity| |exact Ho|exact Ho2|exact Ho3].
  rewrite Hf. f_equal. apply Nat.leb_gt in H3. lia.
Qed.

Lemma RuneError_valid : utf8.ValidRune utf8.RuneError.
Proof. unfold utf8.ValidRune, utf8.RuneError, utf8.MaxRune, utf8.surrogateMin, utf8.surrogateMax. lia. Qed.

(** A decoded rune is a Unicode scalar value. *)
Lemma DecodeRune_valid (s : string) : utf8.ValidRune (fst (utf8.DecodeRuneInString s)).
Proof.
  destruct (decode_cases s) as [?|c t ?|c t ? Hc|c0 c1 t lo hi ? Hf H1
                                |c0 c1 c2 t lo hi ? Hf H1 H2
                                |c0 c1 c2 c3 t lo hi ? Hf H1 H2 H3];
    cbn [fst]; try apply RuneError_valid.
  - pose proof (byte_val_range c).
    unfold utf8.ValidRune, utf8.MaxRune, utf8.surrogateMin, utf8.surrogateMax. lia.
  - pose proof (byte_val_range c0). pose proof (byte_val_range c1).
    unfold utf8.ValidRune, utf8.MaxRune, utf8.surrogateMin, utf8.surrogateMax. arith.
  - pose proof (first_spec (byte_val c0)) as Hs. rewrite Hf in Hs.
    pose proof (byte_val_range c0). pose proof (byte_val_range c1).
    pose proof (byte_val_range c2).
    unfold utf8.ValidRune, utf8.MaxRune, utf8.surrogateMin, utf8.surrogateMax.
    destruct Hs as [Hs|[Hs|[Hs|[Hs|[Hs|[Hs|Hs]]]]]];
      destruct Hs as (Hsz & -> & -> & Hb); try discriminate; arith.
  - pose proof (first_spec (byte_val c0)) as Hs. rewrite Hf in Hs.
    pose proof (byte_val_range c0). pose proof (byte_val_range c1).
    pose proof (byte_val_range c2). pose proof (byte_val_range c3).
    unfold utf8.ValidRune, utf8.MaxRune, utf8.surrogateMin, utf8.surrogateMax.
    destruct Hs as [Hs|[Hs|[Hs|[Hs|[Hs|[Hs|Hs]]]]]];
      destruct Hs as (Hsz & -> & -> & Hb); try discriminate; arith.
Qed.

Lemma DecodeRune_size (c : ascii) (t : string) :
  (1 <= snd (utf8.DecodeRuneInString (String c t)) <= String.length (String c t))%nat.
Proof.
  destruct (decode_cases (String c t)) as [E|? ? E|? ? E ?|? ? ? ? ? E|? ? ? ? ? ? E|? ? ? ? ? ? ? E];
    try discriminate; rewrite E; cbn [snd String.length]; lia.
Qed.

(** [DecodeRuneInString] reads back what [EncodeRune] wrote. *)
Lemma Decode_Encode (r : Z) (t : string) :
  utf8.ValidRune r ->
  utf8.DecodeRuneInString (utf8.EncodeRune r +:+ t)
  = (r, String.length (utf8.EncodeRune r)).
Proof.
  unfold utf8.ValidRune, utf8.MaxRune, utf8.surrogateMin, utf8.surrogateMax.
  intros [Hr Hs]. unfold utf8.EncodeRune, utf8.MaxRune, utf8.surrogateMin, utf8.surrogateMax.
  destruct (Z.leb_spec 0 r) as [_|?]; [|lia]. cbn [andb].
  destruct (Z.leb_spec r 0x7F) as [H1|H1].
  { rewrite sapp_cons, sapp_nil_l.
    unfold utf8.DecodeRuneInString.
    assert (byte_val (byte_of r) = r) as Hb by (rewrite byte_val_of; arith).
    rewrite Hb.
    unfold utf8.first. destruct (Z.ltb_spec r 0x80); [reflexivity|lia]. }
  destruct (Z.leb_spec r 0x7FF) as [H2|H2].
  { rewrite !sapp_cons, sapp_nil_l. cbn [String.length].
    assert (byte_val (byte_of (Z.lor 0xC0 (Z.shiftr r 6))) = 192 + r / 64) as Hb0.
    { bits_to_arith. apply (lead_byte 0xC0 (r / 64) 5); change (2 ^ 5) with 32; arith. }
    pose proof (cont_byte r) as Hb1.
    pose proof (first_spec (192 + r / 64)) as Hsp.
    destruct (utf8.first (192 + r / 64)) as [| |sz lo hi] eqn:Hf; [arith|arith|].
    destruct Hsp as [Hc|[Hc|[Hc|[Hc|[Hc|[Hc|Hc]]]]]];
      destruct Hc as (-> & -> & -> & Hb); try (exfalso; arith).
    erewrite decode2; [|rewrite Hb0; exact Hf|rewrite Hb1; arith].
    rewrite Hb0, Hb1. f_equal. arith. }
  destruct (Z.ltb_spec r 0) as [?|_]; [lia|].
  destruct (Z.ltb_spec 0x10FFFF r) as [?|_]; [lia|].
  destruct (Z.leb_spec 0xD800 r) as [H3|H3];
    [destruct (Z.leb_spec r 0xDFFF) as [?|H4]; [lia|]|]; cbn [orb andb].
  all: destruct (Z.leb_spec r 0xFFFF) as [H5|H5]; try lia.
  1, 3: unfold utf8.enc3; rewrite !sapp_cons, sapp_nil_l; cbn [String.length];
    assert (byte_val (byte_of (Z.lor 0xE0 (Z.shiftr r 12))) = 224 + r / 4096) as Hb0
      by (bits_to_arith; apply (lead_byte 0xE0 (r / 4096) 4); change (2 ^ 4) with 16; arith);
    assert (byte_val (byte_of (Z.lor 0x80 (Z.land (Z.shiftr r 6) 0x3F))) = 128 + r / 64 mod 64) as Hb1 by (rewrite cont_byte, shiftr_6; reflexivity);
    pose proof (cont_byte r) as Hb2;
    pose proof (first_spec (224 + r / 4096)) as Hsp;
    (destruct (utf8.first (224 + r / 4096)) as [| |sz lo hi] eqn:Hf; [arith|arith|]);
    (destruct Hsp as [Hc|[Hc|[Hc|[Hc|[Hc|[Hc|Hc]]]]]];
      destruct Hc as (-> & -> & -> & Hb); try (exfalso; arith));
    (erewrite decode3; [|rewrite Hb0; exact Hf|rewrite Hb1; arith|rewrite Hb2; arith]);
    rewrite Hb0, Hb1, Hb2; f_equal; arith.
  rewrite !sapp_cons, sapp_nil_l. cbn [String.length].
  assert (byte_val (byte_of (Z.lor 0xF0 (Z.shiftr r 18))) = 240 + r / 262144) as Hb0
      by (bits_to_arith; apply (lead_byte 0xF0 (r / 262144) 3); change (2 ^ 3) with 8; arith).
  assert (byte_val (byte_of (Z.lor 0x80 (Z.land (Z.shiftr r 12) 0x3F))) = 128 + r / 4096 mod 64) as Hb1 by (rewrite cont_byte, shiftr_12; reflexivity).
  assert (byte_val (byte_of (Z.lor 0x80 (Z.land (Z.shiftr r 6) 0x3F))) = 128 + r / 64 mod 64) as Hb2 by (rewrite cont_byte, shiftr_6; reflexivity).
  pose proof (cont_byte r) as Hb3.
  pose proof (first_spec (240 + r / 262144)) as Hsp.
  destruct (utf8.first (240 + r / 262144)) as [| |sz lo hi] eqn:Hf; [arith|arith|].
  destruct Hsp as [Hc|[Hc|[Hc|[Hc|[Hc|[Hc|Hc]]]]]];
    destruct Hc as (-> & -> & -> & Hb); try (exfalso; arith).
  all: erewrite decode4;
    [|rewrite Hb0; exact Hf|rewrite Hb1; arith|rewrite Hb2; arith|rewrite Hb3; arith];
    rewrite Hb0, Hb1, Hb2, Hb3; f_equal; arith.
Qed.

(** ** Runes of a string *)

Lemma runes_fuel_enough (n m : nat) (s : string) :
  (String.length s <= n)%nat -> (String.length s <= m)%nat ->
  runes_fuel n s = runes_fuel m s.
Proof.
  revert m s. induction n as [|n IH]; intros m s Hn Hm.
  - destruct s; [|simpl in Hn; lia]. destruct m; reflexivity.
  - destruct m as [|m]; [destruct s; [reflexivity|simpl in Hm; lia]|].
    destruct s as [|c t]; [reflexivity|].
    cbn [runes_fuel].
    pose proof (DecodeRune_size c t) as Hsz.
    destruct (utf8.DecodeRuneInString (String c t)) as [r size]. cbn [snd] in Hsz.
    f_equal. apply IH; rewrite length_sdrop; lia.
Qed.

Lemma runes_cons (c : ascii) (t : string) :
  runes (String c t)
  = fst (utf8.DecodeRuneInString (String c t))
    :: runes (sdrop (snd (utf8.DecodeRuneInString (String c t))) (String c t)).
Proof.
  unfold runes at 1. cbn [String.length runes_fuel].
  pose proof (DecodeRune_size c t) as Hsz.
  destruct (utf8.DecodeRuneInString (String c t)) as [r size]. cbn [fst snd] in *.
  f_equal. apply runes_fuel_enough; rewrite length_sdrop; cbn [String.length]; lia.
Qed.

Lemma runes_empty : runes EmptyString = [].
Proof. reflexivity. Qed.

Lemma runes_nil_inv (s : string) : runes s = [] -> s = EmptyString.
Proof. destruct s as [|c t]; [reflexivity|]. rewrite runes_cons. discriminate. Qed.

Lemma EncodeRune_length (r : Z) : (1 <= String.length (utf8.EncodeRune r))%nat.
Proof.
  unfold utf8.EncodeRune, utf8.enc3.
  repeat match goal with |- context [if ?b then _ else _] => destruct b end;
    cbn [String.length]; lia.
Qed.

Lemma runes_encode_app (r : Z) (t : string) :
  utf8.ValidRune r -> runes (utf8.EncodeRune r +:+ t) = r :: runes t.
Proof.
  intros Hv. pose proof (EncodeRune_length r) as Hl.
  pose proof (Decode_Encode r t Hv) as Hd.
  destruct (utf8.EncodeRune r) as [|c e] eqn:He; [simpl in Hl; lia|].
  rewrite sapp_cons in *. rewrite runes_cons, Hd. cbn [fst snd].
  rewrite <- sapp_cons, sdrop_app. reflexivity.
Qed.

Lemma runes_string_of_runes_app (rs : list Z) (t : string) :
  Forall utf8.ValidRune rs -> runes (string_of_runes rs +:+ t) = rs ++ runes t.
Proof.
  induction 1 as [|r rs Hr Hrs IH]; [reflexivity|].
  cbn [string_of_runes]. rewrite app_assoc_s, runes_encode_app by exact Hr.
  rewrite IH. reflexivity.
Qed.

Lemma runes_valid (s : string) : Forall utf8.ValidRune (runes s).
Proof.
  remember (String.length s) as n eqn:Hn. revert s Hn.
  induction n as [n IH] using lt_wf_ind. intros s Hn.
  destruct s as [|c t]; [constructor|].
  rewrite runes_cons. pose proof (DecodeRune_size c t) as Hsz.
  constructor; [apply DecodeRune_valid|].
  eapply IH; [|reflexivity]. rewrite length_sdrop. subst n. lia.
Qed.

Lemma ascii_string_app (a b : string) :
  ascii_string a -> ascii_string b -> ascii_string (a +:+ b).
Proof.
  unfold ascii_string. induction a as [|c a IH]; intros Ha Hb; [exact Hb|].
  rewrite sapp_cons. cbn [list_ascii_of_string] in *.
  inversion Ha; subst. constructor; [assumption|]. apply IH; assumption.
Qed.

Lemma runes_ascii_app (a t : string) :
  ascii_string a ->
  runes (a +:+ t) = map byte_val (list_ascii_of_string a) ++ runes t.
Proof.
  unfold ascii_string. induction a as [|c a IH]; intros Ha; [reflexivity|].
  inversion Ha as [|? ? Hc Ha']; subst.
  rewrite sapp_cons, runes_cons.
  assert (utf8.DecodeRuneInString (String c (a +:+ t)) = (byte_val c, 1%nat)) as ->.
  { unfold utf8.DecodeRuneInString, utf8.first.
    unfold utf8.RuneSelf in Hc. destruct (Z.ltb_spec (byte_val c) 128); [reflexivity|lia]. }
  cbn [fst snd sdrop list_ascii_of_string map]. rewrite IH by assumption. reflexivity.
Qed.

Lemma runes_ascii_length (a : string) :
  ascii_string a -> length (runes a) = String.length a.
Proof.
  intros Ha. rewrite <- (sapp_nil_r a) at 1. rewrite runes_ascii_app by assumption.
  rewrite runes_empty, List.app_nil_r, length_map.
  clear Ha. induction a as [|c a IH]; simpl; [reflexivity|]. f_equal. exact IH.
Qed.

Lemma string_of_uint_ascii (d : Decimal.uint) : ascii_string (NilEmpty.string_of_uint d).
Proof.
  unfold ascii_string.
  induction d; cbn [NilEmpty.string_of_uint list_ascii_of_string];
    constructor; try assumption; unfold utf8.RuneSelf; vm_compute; reflexivity.
Qed.

Lemma itoa_ascii (n : Z) : ascii_string (itoa n).
Proof.
  unfold itoa. destruct (Z.to_int n) as [d|d]; cbn [NilEmpty.string_of_int].
  - apply string_of_uint_ascii.
  - unfold ascii_string. cbn [list_ascii_of_string]. constructor.
    + vm_compute. reflexivity.
    + apply string_of_uint_ascii.
Qed.

(** ** [clampText] *)

Lemma literal_ascii (s : string) :
  forallb (fun c => byte_val c <? utf8.RuneSelf) (list_ascii_of_string s) = true ->
  ascii_string s.
Proof.
  unfold ascii_string. rewrite forallb_forall, List.Forall_forall.
  intros Hs c Hc. apply Z.ltb_lt. apply Hs. exact Hc.
Qed.

Lemma truncationMarker_ascii (n : Z) : ascii_string (truncationMarker n).
Proof.
  unfold truncationMarker.
  repeat apply ascii_string_app; try apply itoa_ascii; apply literal_ascii; reflexivity.
Qed.

Lemma truncationMarker_length (n : Z) : (1 <= String.length (truncationMarker n))%nat.
Proof. unfold truncationMarker, LF. rewrite sapp_cons. cbn [String.length]. lia. Qed.

Lemma clampText_marker (s : string) (limit : Z) :
  0 < limit < Z.of_nat (length (runes s)) ->
  clampText s limit
  = string_of_runes (firstn (Z.to_nat limit) (runes s))
    +:+ truncationMarker (Z.of_nat (length (runes s)) - limit).
Proof.
  intros Hl. unfold clampText.
  destruct (Z.leb_spec limit 0); [lia|].
  destruct (Z.leb_spec (Z.of_nat (length (runes s))) limit); [lia|].
  reflexivity.
Qed.

Lemma clampText_short (s : string) (limit : Z) :
  Z.of_nat (length (runes s)) <= limit -> clampText s limit = s.
Proof.
  intros Hl. unfold clampText.
  destruct (Z.leb_spec limit 0) as [H0|H0].
  - symmetry. apply runes_nil_inv. destruct (runes s); [reflexivity|simpl in Hl; lia].
  - destruct (Z.leb_spec (Z.of_nat (length (runes s))) limit); [reflexivity|lia].
Qed.

Lemma clampText_nonpositive (s : string) (limit : Z) :
  limit <= 0 -> clampText s limit = EmptyString.
Proof. intros Hl. unfold clampText. destruct (Z.leb_spec limit 0); [reflexivity|lia]. Qed.

Lemma clampText_runes (s : string) (limit : Z) :
  0 < limit < Z.of_nat (length (runes s)) ->
  runes (clampText s limit)
  = firstn (Z.to_nat limit) (runes s)
    ++ runes (truncationMarker (Z.of_nat (length (runes s)) - limit)).
Proof.
  intros Hl. rewrite clampText_marker by assumption.
  apply runes_string_of_runes_app.
  apply Forall_take. apply runes_valid.
Qed.

Lemma clampText_again (s : string) (limit : Z) :
  0 < limit < Z.of_nat (length (runes s)) ->
  clampText (clampText s limit) limit
  = string_of_runes (firstn (Z.to_nat limit) (runes s))
    +:+ truncationMarker
          (len (truncationMarker (Z.of_nat (length (runes s)) - limit))).
Proof.
  intros Hl.
  set (N := Z.of_nat (length (runes s)) - limit).
  pose proof (clampText_runes s limit Hl) as Hr. fold N in Hr.
  assert (length (firstn (Z.to_nat limit) (runes s)) = Z.to_nat limit) as Hft
    by (rewrite length_take; lia).
  assert (length (runes (truncationMarker N)) = String.length (truncationMarker N)) as Hm
    by (apply runes_ascii_length, truncationMarker_ascii).
  pose proof (truncationMarker_length N) as Hpos.
  assert (Z.of_nat (length (runes (clampText s limit)))
          = limit + len (truncationMarker N)) as Hlen.
  { rewrite Hr, length_app, Hft, Hm. unfold len. lia. }
  rewrite clampText_marker; [|unfold len in Hlen; lia].
  rewrite Hlen, Hr.
  rewrite take_app_length' by (symmetry; exact Hft).
  f_equal. f_equal. lia.
Qed.

(** C4 (as amended): a string of at most [limit] runes is returned unchanged,
    and clamping it again changes nothing; a limit that is not positive gives
    the empty string; otherwise the result is the first [limit] runes of [s]
    followed by the marker that counts the runes left out.  Clamping that
    result a second time keeps the same first [limit] runes, but the marker
    then counts the runes of the first marker. *)
Theorem clampText_spec (s : string) (limit : Z) :
  (Z.of_nat (length (runes s)) <= limit ->
     clampText s limit = s
     /\ clampText (clampText s limit) limit = clampText s limit)
  /\ (limit <= 0 ->
     clampText s limit = EmptyString
     /\ clampText (clampText s limit) limit = clampText s limit)
  /\ (0 < limit < Z.of_nat (length (runes s)) ->
     let extras := Z.of_nat (length (runes s)) - limit in
     clampText s limit
     = string_of_runes (firstn (Z.to_nat limit) (runes s)) +:+ truncationMarker extras
     /\ runes (clampText s limit)
        = firstn (Z.to_nat limit) (runes s) ++ runes (truncationMarker extras)
     /\ firstn (Z.to_nat limit) (runes (clampText s limit))
        = firstn (Z.to_nat limit) (runes s)
     /\ clampText (clampText s limit) limit
        = string_of_runes (firstn (Z.to_nat limit) (runes s))
          +:+ truncationMarker (len (truncationMarker extras))).
Proof.
  split; [|split].
  - intros Hl. pose proof (clampText_short s limit Hl) as E. rewrite !E. auto.
  - intros Hl. rewrite (clampText_nonpositive s limit Hl).
    split; [reflexivity|]. apply clampText_nonpositive. exact Hl.
  - intros Hl extras. subst extras.
    split; [apply clampText_marker; exact Hl|].
    split; [apply clampText_runes; exact Hl|].
    split; [|apply clampText_again; exact Hl].
    rewrite clampText_runes by exact Hl.
    apply take_app_length'. rewrite length_take. lia.
Qed.

(** The three cases of [clampText_spec] at ["héllo wörld"]. *)
Lemma clampText_spec_witness :
  clampText "héllo wörld" 11 = "héllo wörld"
  /\ clampText "héllo wörld" 0 = ""
  /\ firstn 4 (runes (clampText "héllo wörld" 4)) = firstn 4 (runes "héllo wörld").
Proof.
  pose proof (clampText_spec "héllo wörld" 11) as (H1 & _ & _).
  pose proof (clampText_spec "héllo wörld" 0) as (_ & H2 & _).
  pose proof (clampText_spec "héllo wörld" 4) as (_ & _ & H3).
  split; [apply H1; vm_compute; discriminate|].
  split; [apply H2; lia|].
  apply H3. vm_compute. split; reflexivity.
Defined.

(** C4 (as stated) fails: clamping ["abc"] to one rune gives a marker that
    counts 2 runes, and clamping that result again gives a marker that counts
    the 24 runes of the first marker. *)
Lemma clampText_not_idempotent :
  clampText (clampText "abc" 1) 1 <> clampText "abc" 1.
Proof. vm_compute. discriminate. Qed.

(** ** Substrings *)

Lemma HasPrefix_spec (s p : string) :
  strings.HasPrefix s p = true <-> exists t, s = p +:+ t.
Proof.
  revert s. induction p as [|c p IH]; intros s.
  - split; [intros _; exists s; reflexivity|]. intros _. destruct s; reflexivity.
  - destruct s as [|d s]; cbn [strings.HasPrefix].
    + split; [discriminate|]. intros [t Ht]. rewrite sapp_cons in Ht. discriminate.
    + rewrite andb_true_iff, Ascii.eqb_eq, IH. split.
      * intros [-> [t ->]]. exists t. reflexivity.
      * intros [t Ht]. rewrite sapp_cons in Ht. injection Ht as -> ->. eauto.
Qed.

Lemma Contains_spec (s sub : string) :
  strings.Contains s sub = true <-> exists pre post, s = pre +:+ sub +:+ post.
Proof.
  induction s as [|c s IH].
  - cbn [strings.Contains]. rewrite orb_false_r, HasPrefix_spec. split.
    + intros [t Ht]. exists EmptyString, t. exact Ht.
    + intros [pre [post Hs]]. destruct pre as [|d pre]; [eauto|].
      rewrite sapp_cons in Hs. discriminate.
  - cbn [strings.Contains]. rewrite orb_true_iff, HasPrefix_spec, IH. split.
    + intros [[t Ht]|[pre [post Hs]]].
      * exists EmptyString, t. exact Ht.
      * exists (String c pre), post. rewrite sapp_cons, Hs. reflexivity.
    + intros [pre [post Hs]]. destruct pre as [|d pre].
      * left. exists post. exact Hs.
      * right. rewrite sapp_cons in Hs. injection Hs as -> ->. eauto.
Qed.

Section PureFacts.
Context `{Runtime}.

Lemma containsAny_spec (lowered : string) (tokens : list string) :
  containsAny lowered tokens = true
  <-> exists token, In token tokens /\ strings.Contains lowered token = true.
Proof.
  induction tokens as [|t ts IH]; cbn [containsAny In].
  - split; [discriminate|]. intros [? [[] _]].
  - destruct (strings.Contains lowered t) eqn:Hc.
    + split; [|reflexivity]. intros _. exists t. auto.
    + rewrite IH. split.
      * intros [token [Hin Ht]]. exists token. auto.
      * intros [token [[<-|Hin] Ht]]; [congruence|]. exists token. auto.
Qed.

(** C5: [isDangerousCommand cmd] is [true] exactly when the lower-cased
    command contains one of the five substrings ["rm -rf /"], ["shutdown"],
    ["reboot"], ["sudo "] (with its trailing space) and ["halt"]; it is [true]
    for ["sudo rm -rf /tmp"] and ["SHUTDOWN now"] and [false] for
    ["sudo_user_list"]. *)
Theorem isDangerousCommand_spec :
  (forall cmd : string,
      isDangerousCommand cmd = true
      <-> exists token pre post,
          In token ["rm -rf /"; "shutdown"; "reboot"; "sudo "; "halt"]
          /\ strings.ToLower unicode_ToLower cmd = pre +:+ token +:+ post)
  /\ isDangerousCommand "sudo rm -rf /tmp" = true
  /\ isDangerousCommand "SHUTDOWN now" = true
  /\ isDangerousCommand "sudo_user_list" = false.
Proof.
  split; [|repeat split; vm_compute; reflexivity].
  intros cmd. unfold isDangerousCommand. rewrite containsAny_spec. split.
  - intros [token [Hin Hc]]. apply Contains_spec in Hc as [pre [post Hc]].
    exists token, pre, post. split; [exact Hin|exact Hc].
  - intros [token [pre [post [Hin Hc]]]]. exists token. split; [exact Hin|].
    apply Contains_spec. eauto.
Qed.

End PureFacts.

(** ** White space *)

Lemma decode_ascii (c : ascii) (t : string) :
  byte_val c < utf8.RuneSelf ->
  utf8.DecodeRuneInString (String c t) = (byte_val c, 1%nat).
Proof.
  intros Hc. unfold utf8.DecodeRuneInString, utf8.first. unfold utf8.RuneSelf in Hc.
  destruct (Z.ltb_spec (byte_val c) 128); [reflexivity|lia].
Qed.

Lemma asciiSpace_IsSpace (c : ascii) :
  byte_val c < utf8.RuneSelf ->
  unicode.IsSpace (byte_val c) = true -> strings.asciiSpace c = true.
Proof.
  unfold utf8.RuneSelf, unicode.IsSpace, strings.asciiSpace. intros Hc Hs.
  rewrite !orb_true_iff, ?andb_true_iff, !Z.eqb_eq, ?Z.leb_le in Hs.
  rewrite !orb_true_iff, !Z.eqb_eq. lia.
Qed.

Lemma trimStart_whitespace (s : string) :
  whitespace_only s ->
  strings.trimStart s = strings.Stop EmptyString
  \/ exists rest, strings.trimStart s = strings.NonASCII rest /\ whitespace_only rest.
Proof.
  induction s as [|c s IH]; intros Hw; [left; reflexivity|].
  cbn [strings.trimStart].
  destruct (Z.leb_spec utf8.RuneSelf (byte_val c)) as [Hc|Hc].
  - right. exists (String c s). split; [reflexivity|exact Hw].
  - unfold whitespace_only in Hw. rewrite runes_cons, decode_ascii in Hw by exact Hc.
    cbn [fst snd sdrop] in Hw. inversion Hw as [|? ? Hsp Hrest]; subst.
    rewrite (asciiSpace_IsSpace c Hc Hsp). apply IH. exact Hrest.
Qed.

Lemma TrimLeftFunc_fuel_whitespace (n : nat) (s : string) :
  (String.length s <= n)%nat -> whitespace_only s ->
  strings.TrimLeftFunc_fuel n unicode.IsSpace s = EmptyString.
Proof.
  revert s. induction n as [|n IH]; intros s Hn Hw; [reflexivity|].
  destruct s as [|c t]; [reflexivity|].
  cbn [strings.TrimLeftFunc_fuel].
  unfold whitespace_only in Hw. rewrite runes_cons in Hw.
  pose proof (DecodeRune_size c t) as Hsz.
  destruct (utf8.DecodeRuneInString (String c t)) as [r size]. cbn [fst snd] in *.
  inversion Hw as [|? ? Hsp Hrest]; subst. rewrite Hsp.
  apply IH; [rewrite length_sdrop; lia|exact Hrest].
Qed.

(** [strings.TrimSpace] of a string of white space is the empty string. *)
Lemma TrimSpace_whitespace (s : string) :
  whitespace_only s -> strings.TrimSpace s = EmptyString.
Proof.
  intros Hw. unfold strings.TrimSpace.
  destruct (trimStart_whitespace s Hw) as [->|[rest [-> Hrest]]]; [reflexivity|].
  unfold strings.TrimFunc, strings.TrimLeftFunc.
  rewrite TrimLeftFunc_fuel_whitespace by (auto; lia). reflexivity.
Qed.

(** ** [filepath.Clean] never leaves a trailing separator *)

Lemma length_stake (n : nat) (s : string) :
  (n <= String.length s)%nat -> String.length (stake n s) = n.
Proof.
  revert s. induction n as [|n IH]; intros [|c s] Hn; simpl in *; try lia.
  f_equal. apply IH. lia.
Qed.

Lemma stake_stake (i n : nat) (s : string) :
  (i <= n)%nat -> stake i (stake n s) = stake i s.
Proof.
  revert n s. induction i as [|i IH]; intros n s Hi; [reflexivity|].
  destruct n as [|n]; [lia|]. destruct s as [|c s]; [reflexivity|].
  cbn [stake]. f_equal. apply IH. lia.
Qed.

Lemma stake_app_l (i : nat) (a b : string) :
  (i <= String.length a)%nat -> stake i (a +:+ b) = stake i a.
Proof.
  revert a. induction i as [|i IH]; intros a Hi; [reflexivity|].
  destruct a as [|c a]; [simpl in Hi; lia|].
  rewrite sapp_cons. cbn [stake]. f_equal. apply IH. simpl in Hi. lia.
Qed.

Lemma get_stake (i n : nat) (s : string) :
  (i < n)%nat -> String.get i (stake n s) = String.get i s.
Proof.
  revert n s. induction i as [|i IH]; intros [|n] [|c s] Hi; try lia; try reflexivity.
  cbn [stake String.get]. apply IH. lia.
Qed.

Lemma get_app_l (i : nat) (a b : string) :
  (i < String.length a)%nat -> String.get i (a +:+ b) = String.get i a.
Proof. intros Hi. symmetry. apply append_correct1. exact Hi. Qed.

Lemma get_app_at (a : string) (c : ascii) (t : string) :
  String.get (String.length a) (a +:+ String c t) = Some c.
Proof. change (String.length a) with (0 + String.length a)%nat. rewrite <- append_correct2. reflexivity. Qed.

Lemma lastChar_snoc (s : string) (c : ascii) : lastChar (s +:+ String c EmptyString) = Some c.
Proof.
  induction s as [|d s IH]; [reflexivity|].
  rewrite sapp_cons. cbn [lastChar]. rewrite IH. reflexivity.
Qed.

Lemma lastChar_snoc_inv (s : string) (c : ascii) :
  lastChar s = Some c -> exists t, s = t +:+ String c EmptyString.
Proof.
  revert c. induction s as [|d s IH]; intros c; [discriminate|].
  cbn [lastChar]. destruct (lastChar s) as [e|] eqn:Hl.
  - intros [= ->]. destruct (IH c eq_refl) as [t ->].
    exists (String d t). reflexivity.
  - intros [= ->]. destruct s as [|e s]; [exists EmptyString; reflexivity|].
    cbn [lastChar] in Hl. destruct (lastChar s); discriminate.
Qed.

Lemma append_buf (out : filepath.lazybuf) (c : ascii) :
  (filepath.w out <= String.length (filepath.buf out))%nat ->
  String.length (filepath.buf (filepath.lb_append out c)) = S (filepath.w out)
  /\ (forall i, (i <= filepath.w out)%nat ->
        stake i (filepath.buf (filepath.lb_append out c)) = stake i (filepath.buf out))
  /\ (forall i, (i < filepath.w out)%nat ->
        String.get i (filepath.buf (filepath.lb_append out c)) = String.get i (filepath.buf out))
  /\ String.get (filepath.w out) (filepath.buf (filepath.lb_append out c)) = Some c
  /\ filepath.lb_string (filepath.lb_append out c)
     = filepath.lb_string out +:+ String c EmptyString.
Proof.
  intros Hw. unfold filepath.lb_append, filepath.lb_string. cbn [filepath.buf filepath.w].
  pose proof (length_stake _ _ Hw) as Hl.
  split; [rewrite length_app_s, Hl; simpl; lia|].
  split; [intros i Hi; rewrite stake_app_l by lia; apply stake_stake; exact Hi|].
  split; [intros i Hi; rewrite get_app_l by lia; apply get_stake; exact Hi|].
  split; [rewrite <- Hl at 1; apply get_app_at|].
  apply stake_all. rewrite length_app_s, Hl. simpl. lia.
Qed.

Lemma Inv_append_sep (out : filepath.lazybuf) (d : nat) :
  Inv out d -> PreInv (filepath.lb_append out filepath.Separator) d.
Proof.
  intros [[Hb Hc] He].
  destruct (append_buf out filepath.Separator) as (Hlen & Hst & Hget & Hat & _); [lia|].
  split; [rewrite Hlen; cbn [filepath.lb_append filepath.w]; lia|].
  intros i [->|[Hi Hg]].
  - rewrite Hst by lia. apply Hc. left. reflexivity.
  - cbn [filepath.lb_append filepath.w] in Hi.
    destruct (Nat.eq_dec i (filepath.w out)) as [->|Hne].
    + rewrite Hst by lia. exact He.
    + rewrite Hst by lia. apply Hc. right. split; [lia|]. rewrite <- Hget by lia. exact Hg.
Qed.

Lemma PreInv_append_char (out : filepath.lazybuf) (d : nat) (c : ascii) :
  PreInv out d -> c <> filepath.Separator -> Inv (filepath.lb_append out c) d.
Proof.
  intros [Hb Hc] Hne.
  destruct (append_buf out c) as (Hlen & Hst & Hget & Hat & Hstr); [lia|].
  split; [split|].
  - rewrite Hlen. cbn [filepath.lb_append filepath.w]. lia.
  - intros i [->|[Hi Hg]].
    + rewrite Hst by lia. apply Hc. left. reflexivity.
    + cbn [filepath.lb_append filepath.w] in Hi.
      destruct (Nat.eq_dec i (filepath.w out)) as [->|Hni].
      * rewrite Hat in Hg. congruence.
      * rewrite Hst by lia. apply Hc. right. split; [lia|]. rewrite <- Hget by lia. exact Hg.
  - rewrite Hstr. unfold EndOK. rewrite lastChar_snoc. left. exact Hne.
Qed.

Lemma Inv_PreInv (out : filepath.lazybuf) (d : nat) : Inv out d -> PreInv out d.
Proof. intros [H _]. exact H. Qed.

Lemma Rooted_append (out : filepath.lazybuf) (d : nat) (c : ascii) :
  (1 <= filepath.w out <= String.length (filepath.buf out))%nat ->
  Rooted out d -> Rooted (filepath.lb_append out c) d.
Proof.
  intros Hw [Hd Hg]. split; [exact Hd|].
  destruct (append_buf out c) as (_ & _ & Hget & _); [lia|].
  rewrite Hget by lia. exact Hg.
Qed.

Lemma IsPathSeparator_false (c : ascii) :
  filepath.IsPathSeparator c = false -> c <> filepath.Separator.
Proof. unfold filepath.IsPathSeparator. apply Ascii.eqb_neq. Qed.

Lemma copyElem_Inv (path : string) (out : filepath.lazybuf) (d : nat) :
  Inv out d ->
  Inv (snd (filepath.copyElem path out)) d
  /\ (1 <= filepath.w out -> Rooted out d -> Rooted (snd (filepath.copyElem path out)) d)%nat.
Proof.
  revert out. induction path as [|c rest IH]; intros out Hi; cbn [filepath.copyElem].
  - cbn [snd]. auto.
  - destruct (filepath.IsPathSeparator c) eqn:Hc; [cbn [snd]; auto|].
    assert (Inv (filepath.lb_append out c) d) as Hi'
      by (apply PreInv_append_char; [apply Inv_PreInv; exact Hi|apply IsPathSeparator_false; exact Hc]).
    destruct (IH _ Hi') as [H1 H2]. split; [exact H1|].
    intros Hw Hr. apply H2; [cbn [filepath.lb_append filepath.w]; lia|].
    apply Rooted_append; [|exact Hr]. destruct Hi as [[Hb _] _]. lia.
Qed.

Lemma backtrack_spec (fuel : nat) (out : filepath.lazybuf) (d : nat) :
  (d <= filepath.w out)%nat -> (filepath.w out <= fuel)%nat ->
  exists w', filepath.backtrack fuel out d = {| filepath.buf := filepath.buf out; filepath.w := w' |}
             /\ (d <= w' <= filepath.w out)%nat
             /\ (w' = d \/ String.get w' (filepath.buf out) = Some filepath.Separator).
Proof.
  revert out. induction fuel as [|fuel IH]; intros out Hd Hf.
  - exists (filepath.w out). cbn [filepath.backtrack]. destruct out as [b w0].
    cbn [filepath.buf filepath.w] in *. split; [reflexivity|]. split; [lia|]. left. lia.
  - cbn [filepath.backtrack].
    destruct (Nat.ltb_spec d (filepath.w out)) as [Hlt|Hge]; cbn [andb].
    + destruct (filepath.IsPathSeparator (filepath.lb_index out (filepath.w out))) eqn:Hs;
        cbn [negb].
      * exists (filepath.w out). destruct out as [b w0]. cbn [filepath.buf filepath.w] in *.
        split; [reflexivity|]. split; [lia|]. right.
        unfold filepath.lb_index, filepath.IsPathSeparator in Hs. cbn [filepath.buf] in Hs.
        destruct (String.get w0 b) as [c|]; [|discriminate Hs].
        apply Ascii.eqb_eq in Hs. subst c. reflexivity.
      * destruct (IH (filepath.lb_back out)) as (w' & E & Hw' & Hstop).
        { cbn [filepath.lb_back filepath.w]. lia. }
        { cbn [filepath.lb_back filepath.w]. lia. }
        exists w'. cbn [filepath.lb_back filepath.buf filepath.w] in *.
        split; [exact E|]. split; [lia|exact Hstop].
    + exists (filepath.w out). destruct out as [b w0]. cbn [filepath.buf filepath.w] in *.
      split; [reflexivity|]. split; [lia|]. left. lia.
Qed.

Lemma backtrack_Inv (out : filepath.lazybuf) (d : nat) :
  PreInv out d -> (d < filepath.w out)%nat ->
  let out' := filepath.backtrack (filepath.w (filepath.lb_back out)) (filepath.lb_back out) d in
  Inv out' d /\ filepath.buf out' = filepath.buf out.
Proof.
  intros [Hb Hc] Hlt out'.
  destruct (backtrack_spec (filepath.w (filepath.lb_back out)) (filepath.lb_back out) d)
    as (w' & E & Hw' & Hstop).
  { cbn [filepath.lb_back filepath.w]. lia. }
  { lia. }
  subst out'. rewrite E. cbn [filepath.lb_back filepath.buf filepath.w] in *.
  split; [|reflexivity].
  assert (forall i, cut {| filepath.buf := filepath.buf out; filepath.w := w' |} d i
                    -> cut out d i) as Hsub.
  { intros i [->|[Hi Hg]]; [left; reflexivity|right].
    cbn [filepath.buf filepath.w] in *. split; [lia|exact Hg]. }
  split; [split|].
  - cbn [filepath.buf filepath.w]. lia.
  - intros i Hi. cbn [filepath.buf]. apply Hc, Hsub, Hi.
  - unfold filepath.lb_string. cbn [filepath.buf filepath.w].
    apply Hc. destruct Hstop as [->|Hg]; [left; reflexivity|right]. split; [lia|exact Hg].
Qed.

Lemma cleanLoop_Inv (fuel : nat) (rooted : bool) (path : string)
      (out : filepath.lazybuf) (d : nat) :
  Inv out d -> (rooted = true -> Rooted out d) ->
  let out' := filepath.cleanLoop fuel rooted path out d in
  EndOK (filepath.lb_string out')
  /\ (filepath.w out' <= String.length (filepath.buf out'))%nat
  /\ (rooted = true ->
      (1 <= filepath.w out')%nat
      /\ String.get 0 (filepath.buf out') = Some filepath.Separator).
Proof.
  revert path out d. induction fuel as [|fuel IH]; intros path out d Hi Hr.
  { cbn [filepath.cleanLoop]. destruct Hi as [[Hb _] He].
    split; [exact He|]. split; [lia|]. intros Ht. destruct (Hr Ht) as [-> Hg].
    split; [lia|exact Hg]. }
  cbn [filepath.cleanLoop].
  destruct path as [|c rest].
  { destruct Hi as [[Hb _] He].
    split; [exact He|]. split; [lia|]. intros Ht. destruct (Hr Ht) as [-> Hg].
    split; [lia|exact Hg]. }
  destruct (filepath.IsPathSeparator c) eqn:Hsep; [apply IH; assumption|].
  destruct (filepath.isDot c && filepath.atBoundary rest); [apply IH; assumption|].
  destruct (filepath.isDot c && strings.HasPrefix rest "."
            && filepath.atBoundary (sdrop 1 rest)).
  - (* a [..] element *)
    destruct (Nat.ltb_spec d (filepath.w out)) as [Hlt|Hge].
    + destruct (backtrack_Inv out d (Inv_PreInv _ _ Hi) Hlt) as [Hi' Hbuf].
      apply IH; [exact Hi'|].
      intros Ht. destruct (Hr Ht) as [Hd Hg]. split; [exact Hd|].
      cbv zeta in Hbuf. rewrite Hbuf. exact Hg.
    + destruct rooted; cbn [negb]; [apply IH; assumption|].
      assert (filepath.w out = d) as Hw by (destruct Hi as [[Hb _] _]; lia).
      set (out1 := if (0 <? filepath.w out)%nat
                   then filepath.lb_append out filepath.Separator else out).
      assert (PreInv out1 d) as Hp1.
      { subst out1. destruct (0 <? filepath.w out)%nat;
          [apply Inv_append_sep|apply Inv_PreInv]; exact Hi. }
      assert (Inv (filepath.lb_append (filepath.lb_append out1 ".") ".") d) as Hi2.
      { apply PreInv_append_char; [|discriminate].
        apply Inv_PreInv, PreInv_append_char; [exact Hp1|discriminate]. }
      apply IH; [|discriminate].
      destruct Hi2 as [[Hb2 Hc2] He2]. split; [split|exact He2].
      * lia.
      * intros i [->|Hcut]; [|apply Hc2; right; exact Hcut].
        unfold filepath.lb_string in He2.
        exact He2.
  - (* a real path element *)
    set (out1 := if (rooted && negb (filepath.w out =? 1)%nat)
                    || (negb rooted && negb (filepath.w out =? 0)%nat)
                 then filepath.lb_append out filepath.Separator else out).
    assert (PreInv out1 d) as Hp1.
    { subst out1. destruct (_ || _); [apply Inv_append_sep|apply Inv_PreInv]; exact Hi. }
    assert (rooted = true -> (1 <= filepath.w out1)%nat /\ Rooted out1 d) as Hr1.
    { intros Ht. pose proof (Hr Ht) as Hro. destruct Hi as [[Hb _] _].
      destruct Hro as [Hd Hg]. subst out1.
      destruct (_ || _).
      - split; [cbn [filepath.lb_append filepath.w]; lia|].
        apply Rooted_append; [lia|split; assumption].
      - split; [lia|split; assumption]. }
    cbn [filepath.copyElem]. rewrite Hsep.
    assert (Inv (filepath.lb_append out1 c) d) as Hi2
      by (apply PreInv_append_char; [exact Hp1|apply IsPathSeparator_false; exact Hsep]).
    destruct (copyElem_Inv rest (filepath.lb_append out1 c) d Hi2) as [Hi3 Hr3].
    destruct (filepath.copyElem rest (filepath.lb_append out1 c)) as [rest' out3].
    cbn [snd] in *. apply IH; [exact Hi3|].
    intros Ht. destruct (Hr1 Ht) as [Hw1 Hro1].
    apply Hr3; [cbn [filepath.lb_append filepath.w]; lia|].
    apply Rooted_append; [|exact Hro1]. destruct Hp1 as [Hb1 _]. lia.
Qed.

(** The fuel of [cleanLoop] never runs out before the path does. *)
Lemma copyElem_length (path : string) (out : filepath.lazybuf) :
  (String.length (fst (filepath.copyElem path out)) <= String.length path)%nat.
Proof.
  revert out. induction path as [|c rest IH]; intros out; cbn [filepath.copyElem].
  - cbn. lia.
  - destruct (filepath.IsPathSeparator c); cbn [fst String.length]; [lia|].
    specialize (IH (filepath.lb_append out c)). lia.
Qed.

Lemma cleanLoop_fuel (n m : nat) (rooted : bool) (path : string)
      (out : filepath.lazybuf) (d : nat) :
  (String.length path <= n)%nat -> (String.length path <= m)%nat ->
  filepath.cleanLoop n rooted path out d = filepath.cleanLoop m rooted path out d.
Proof.
  revert m path out d. induction n as [|n IH]; intros m path out d Hn Hm.
  { destruct path; [|simpl in Hn; lia]. destruct m; reflexivity. }
  destruct m as [|m]; [destruct path; [reflexivity|simpl in Hm; lia]|].
  cbn [filepath.cleanLoop]. destruct path as [|c rest]; [reflexivity|].
  cbn [String.length] in Hn, Hm.
  assert (String.length (sdrop 1 rest) <= String.length rest)%nat as Hd
    by (rewrite length_sdrop; lia).
  destruct (filepath.IsPathSeparator c) eqn:Hsep; [apply IH; lia|].
  destruct (filepath.isDot c && filepath.atBoundary rest); [apply IH; lia|].
  destruct (filepath.isDot c && strings.HasPrefix rest "."
            && filepath.atBoundary (sdrop 1 rest)).
  - destruct (d <? filepath.w out)%nat; [apply IH; lia|].
    destruct (negb rooted); apply IH; lia.
  - cbn [filepath.copyElem]. rewrite Hsep.
    match goal with
    | |- context [filepath.copyElem rest ?o] =>
      pose proof (copyElem_length rest o) as Hl; destruct (filepath.copyElem rest o) as [rest' out']
    end.
    cbn [fst] in Hl. apply IH; lia.
Qed.

Lemma EndOK_nonempty_buf (out : filepath.lazybuf) :
  (1 <= filepath.w out <= String.length (filepath.buf out))%nat ->
  filepath.lb_string out <> EmptyString.
Proof.
  unfold filepath.lb_string. destruct out as [b w0]. cbn [filepath.buf filepath.w].
  intros Hw. destruct w0 as [|n]; [lia|]. destruct b as [|c b]; [simpl in Hw; lia|].
  discriminate.
Qed.

Lemma Clean_spec (path : string) :
  EndOK (filepath.Clean path)
  /\ filepath.Clean path <> EmptyString
  /\ (filepath.IsAbs path = true -> filepath.IsAbs (filepath.Clean path) = true).
Proof.
  unfold filepath.Clean. destruct path as [|c rest].
  { split; [unfold EndOK; cbn; left; discriminate|split; discriminate]. }
  set (empty := {| filepath.buf := EmptyString; filepath.w := 0 |}).
  assert (Inv empty 0) as Hi0.
  { split; [split|]; [simpl; lia| |exact I].
    intros i [->|[Hi _]]; [exact I|simpl in Hi; lia]. }
  assert (Inv (filepath.lb_append empty filepath.Separator) 1) as Hi1.
  { split; [split|]; [simpl; lia| |right; reflexivity].
    intros i [->|[Hi _]]; [right; reflexivity|].
    cbn in Hi. assert (i = 0)%nat as -> by lia. exact I. }
  assert (Rooted (filepath.lb_append empty filepath.Separator) 1) as Hr1
    by (split; reflexivity).
  assert (forall rooted out,
             EndOK (filepath.lb_string out)
             /\ (filepath.w out <= String.length (filepath.buf out))%nat
             /\ (rooted = true -> (1 <= filepath.w out)%nat
                 /\ String.get 0 (filepath.buf out) = Some filepath.Separator) ->
             let out' := if (filepath.w out =? 0)%nat
                         then filepath.lb_append out "."%char else out in
             EndOK (filepath.lb_string out')
             /\ filepath.lb_string out' <> EmptyString
             /\ (rooted = true -> filepath.IsAbs (filepath.lb_string out') = true)) as Hfin.
  { intros rooted out (He & Hb & Hr) out'. subst out'.
    destruct (Nat.eqb_spec (filepath.w out) 0) as [Hz|Hnz].
    - destruct (append_buf out ".") as (_ & _ & _ & _ & Hstr); [lia|].
      rewrite Hstr. unfold filepath.lb_string. rewrite Hz. cbn [stake]. rewrite sapp_nil_l.
      split; [left; discriminate|]. split; [discriminate|].
      intros Ht. destruct (Hr Ht). lia.
    - split; [exact He|]. split; [apply EndOK_nonempty_buf; lia|].
      intros Ht. destruct (Hr Ht) as [Hw Hg].
      unfold filepath.lb_string. destruct out as [b w0]. cbn [filepath.buf filepath.w] in *.
      destruct w0 as [|n]; [lia|]. destruct b as [|e b]; [discriminate Hg|].
      cbn [String.get] in Hg. injection Hg as ->. cbn [stake].
      unfold filepath.IsAbs. apply HasPrefix_spec. exists (stake n b). reflexivity. }
  destruct (filepath.IsPathSeparator c) eqn:Hc.
  - pose proof (cleanLoop_Inv (String.length (String c rest)) true rest _ 1 Hi1 (fun _ => Hr1)) as Hl.
    destruct (Hfin true _ Hl) as (H1 & H2 & H3). split; [exact H1|]. split; [exact H2|].
    intros _. apply H3. reflexivity.
  - pose proof (cleanLoop_Inv (String.length (String c rest)) false (String c rest) _ 0 Hi0) as Hl.
    destruct (Hfin false _ (Hl ltac:(discriminate))) as (H1 & H2 & _).
    split; [exact H1|]. split; [exact H2|].
    unfold filepath.IsAbs. cbn [strings.HasPrefix].
    unfold filepath.IsPathSeparator, filepath.Separator in Hc. rewrite Hc. discriminate.
Qed.

Lemma IsAbs_app (a b : string) :
  filepath.IsAbs a = true -> filepath.IsAbs (a +:+ b) = true.
Proof.
  unfold filepath.IsAbs. rewrite !HasPrefix_spec. intros [t ->].
  exists (t +:+ b). rewrite app_assoc_s. reflexivity.
Qed.

Lemma Join2_spec (a b : string) :
  b <> EmptyString ->
  exists q, filepath.Join [a; b] = filepath.Clean q
            /\ (filepath.IsAbs a = true -> filepath.IsAbs q = true).
Proof.
  intros Hb. cbn [filepath.Join].
  destruct (String.eqb_spec a EmptyString) as [->|Ha].
  - destruct (String.eqb_spec b EmptyString) as [->|_]; [congruence|].
    exists b. split; [reflexivity|discriminate].
  - exists (a +:+ "/" +:+ b). split; [reflexivity|]. apply IsAbs_app.
Qed.

Section SandboxFacts.
Context `{Host}.

Lemma Abs_spec (path abs : string) (x : Ext) :
  path <> EmptyString ->
  filepath_Abs path x = (abs, None) ->
  (exists q, abs = filepath.Clean q)
  /\ (cwd_absolute x -> filepath.IsAbs abs = true).
Proof.
  intros Hp. unfold filepath_Abs.
  destruct (filepath.IsAbs path) eqn:Ha.
  - intros [= <-]. split; [eauto|]. intros _. apply Clean_spec. exact Ha.
  - destruct (os_Getwd x) as [wd [e|]] eqn:Hwd; [discriminate|].
    destruct (Join2_spec wd path Hp) as (q & Ej & Hq). rewrite Ej. intros [= <-].
    split; [eauto|]. intros Hc. apply Clean_spec, Hq, (Hc wd). exact Hwd.
Qed.

Lemma Abs_absolute (path abs : string) (x : Ext) :
  cwd_absolute x -> filepath_Abs path x = (abs, None) -> filepath.IsAbs abs = true.
Proof.
  intros Hc. unfold filepath_Abs.
  destruct (filepath.IsAbs path) eqn:Ha.
  - intros [= <-]. apply Clean_spec. exact Ha.
  - destruct (os_Getwd x) as [wd [e|]] eqn:Hwd; [discriminate|].
    intros [= <-]. pose proof (Hc wd Hwd) as Hw. cbn [filepath.Join].
    destruct (String.eqb_spec wd EmptyString) as [->|_]; [discriminate Hw|].
    apply Clean_spec, IsAbs_app. exact Hw.
Qed.

(** C1: whatever the workspace root and the candidate path, a path that
    [safePath] returns is the canonical root itself or continues it after a
    separator; on a host whose working directory is absolute that path is
    absolute, and the continuation is not empty.  When [safePath] fails it
    returns no path; an empty or white-space candidate is refused, and so is
    ["../../etc/passwd"] under the root ["/work"], as a path that escapes the
    workspace. *)
Theorem safePath_sandbox (workDir p : string) (x : Ext) :
  (forall abs, safePath workDir p x = (abs, None) ->
     exists workAbs,
       filepath_Abs workDir x = (workAbs, None)
       /\ (abs = workAbs \/ exists rest, abs = workAbs +:+ "/" +:+ rest)
       /\ (cwd_absolute x ->
           filepath.IsAbs abs = true
           /\ (abs = workAbs
               \/ exists rest, rest <> EmptyString /\ abs = workAbs +:+ "/" +:+ rest)))
  /\ (forall abs err, safePath workDir p x = (abs, Some err) -> abs = EmptyString)
  /\ (whitespace_only p -> safePath workDir p x = (EmptyString, Some "path required"))
  /\ safePath "/work" "../../etc/passwd" x = (EmptyString, Some "path escapes workspace").
Proof.
  split; [|split; [|split]].
  - intros abs. unfold safePath.
    destruct (String.eqb_spec (strings.TrimSpace p) EmptyString) as [_|Hcand];
      [discriminate|].
    set (joined := if filepath.IsAbs (strings.TrimSpace p)
                   then filepath.Clean (strings.TrimSpace p)
                   else filepath.Join [workDir; strings.TrimSpace p]).
    assert (joined <> EmptyString) as Hj.
    { subst joined. destruct (filepath.IsAbs _); [apply Clean_spec|].
      destruct (Join2_spec workDir _ Hcand) as (q & -> & _). apply Clean_spec. }
    destruct (filepath_Abs joined x) as [a [e|]] eqn:Ha; [discriminate|].
    destruct (filepath_Abs workDir x) as [workAbs [e|]] eqn:Hw; [discriminate|].
    destruct (Abs_spec joined a x Hj Ha) as [[q Hq] Habs].
    destruct (strings.HasPrefix a (workAbs +:+ String filepath.Separator "")) eqn:Hpre;
      cbn [negb andb].
    + intros [= <-]. exists workAbs. split; [reflexivity|].
      apply HasPrefix_spec in Hpre as [rest Hrest]. rewrite app_assoc_s in Hrest.
      split; [right; exists rest; exact Hrest|].
      intros Hcwd. pose proof (Abs_absolute workDir workAbs x Hcwd Hw) as Hwabs.
      split; [auto|]. right. exists rest. split; [|exact Hrest].
      intros ->. rewrite sapp_nil_r in Hrest.
      assert (EndOK a) as He by (rewrite Hq; apply Clean_spec).
      unfold EndOK in He. rewrite Hrest, lastChar_snoc in He.
      destruct He as [He|He]; [apply He; reflexivity|].
      destruct workAbs as [|c w]; [discriminate Hwabs|].
      rewrite sapp_cons in He. destruct w; discriminate He.
    + destruct (String.eqb_spec a workAbs) as [->|Hne]; cbn [negb]; [|discriminate].
      intros [= <-]. exists workAbs. split; [reflexivity|]. split; [left; reflexivity|].
      intros Hcwd. split; [auto|]. left. reflexivity.
  - intros abs err. unfold safePath.
    repeat match goal with
           | |- context [match ?d with _ => _ end] => destruct d
           end; intros [= <- <-] || intros [=]; reflexivity.
  - intros Hw. unfold safePath. rewrite (TrimSpace_whitespace p Hw). reflexivity.
  - vm_compute. reflexivity.
Qed.

End SandboxFacts.

(** ** The task board *)

Section TodoFacts.
Context `{Runtime}.

Lemma unseen_insert (seenIDs : gmap string bool) (id id' : string) :
  unseen (<[id := true]> seenIDs) id' <-> id <> id' /\ unseen seenIDs id'.
Proof.
  unfold unseen. destruct (decide (id = id')) as [->|Hne].
  - rewrite lookup_insert_eq. cbn. split; [discriminate|]. intros [Hc _]. congruence.
  - rewrite lookup_insert_ne by exact Hne. tauto.
Qed.

Lemma validateItems_accepts (items : list TodoItem) (seenIDs : gmap string bool) (n k : Z) :
  validateItems items seenIDs n = inl k
  <-> (NoDup (map todo_ID items)
       /\ Forall (fun it => unseen seenIDs (todo_ID it)) items
       /\ Forall item_ok items
       /\ k = n + inProgressCount items).
Proof.
  revert seenIDs n. induction items as [|item rest IH]; intros seenIDs n.
  - cbn [validateItems]. unfold inProgressCount. cbn. split.
    + intros [= <-]. repeat split; try constructor. lia.
    + intros (_ & _ & _ & ->). f_equal. lia.
  - cbn [validateItems].
    destruct (default false (seenIDs !! todo_ID item)) eqn:Hseen.
    { split; [discriminate|]. intros (_ & Hu & _). inversion Hu; subst.
      unfold unseen in *. congruence. }
    destruct (String.eqb_spec (strings.TrimSpace (todo_Content item)) EmptyString) as [Hc|Hc].
    { split; [discriminate|]. intros (_ & _ & Hok & _). inversion Hok as [|? ? [Hk _]]; subst.
      contradiction. }
    destruct (String.eqb_spec (strings.TrimSpace (todo_ActiveForm item)) EmptyString) as [Ha|Ha].
    { split; [discriminate|]. intros (_ & _ & Hok & _).
      inversion Hok as [|? ? (_ & Hk & _)]; subst. contradiction. }
    fold (lowerStatus item).
    destruct (validStatus (lowerStatus item)) eqn:Hv; cbn [negb].
    2:{ split; [discriminate|]. intros (_ & _ & Hok & _).
        inversion Hok as [|? ? (_ & _ & Hk)]; subst. congruence. }
    rewrite IH. unfold inProgressCount. cbn [List.filter map].
    split.
    + intros (Hnd & Hu & Hok & ->). split; [|split; [|split]].
      * constructor; [|exact Hnd]. rewrite list_elem_of_In, in_map_iff.
        intros [it [Hid Hin]]. rewrite List.Forall_forall in Hu.
        apply Hu in Hin. apply unseen_insert in Hin as [Hne _]. congruence.
      * constructor; [exact Hseen|]. eapply List.Forall_impl; [|exact Hu].
        intros it Hit. apply unseen_insert in Hit. tauto.
      * constructor; [|exact Hok]. repeat split; assumption.
      * destruct (String.eqb (lowerStatus item) "in_progress"); cbn [length]; lia.
    + intros (Hnd & Hu & Hok & ->). inversion Hnd as [|? ? Hnotin Hnd']; subst.
      inversion Hu as [|? ? _ Hu']; subst. inversion Hok as [|? ? _ Hok']; subst.
      split; [exact Hnd'|]. split; [|split; [exact Hok'|]].
      * rewrite List.Forall_forall in *. intros it Hin. apply unseen_insert.
        split; [|apply Hu'; exact Hin].
        intros Heq. apply Hnotin. rewrite list_elem_of_In, in_map_iff. eauto.
      * destruct (String.eqb (lowerStatus item) "in_progress"); cbn [length]; lia.
Qed.

Lemma validateItems_total (items : list TodoItem) (seenIDs : gmap string bool) (n : Z) :
  (exists k, validateItems items seenIDs n = inl k)
  \/ (exists err, validateItems items seenIDs n = inr err).
Proof. destruct (validateItems items seenIDs n); eauto. Qed.

Lemma Update_cases (tm : TodoManager) (items : list TodoItem) :
  (valid_items items
   /\ Update tm items
      = ((render {| tm_items := items |}, None), {| tm_items := items |}))
  \/ (~ valid_items items
      /\ exists err, Update tm items = ((EmptyString, Some err), tm)).
Proof.
  unfold Update, valid_items.
  destruct (Z.ltb_spec maxTodoItems (Z.of_nat (length items))) as [Hlen|Hlen].
  { right. split; [lia|eauto]. }
  destruct (validateItems items ∅ 0) as [k|err] eqn:Hv.
  - apply validateItems_accepts in Hv as (Hnd & _ & Hok & ->).
    destruct (Z.ltb_spec 1 (0 + inProgressCount items)) as [Hc|Hc].
    + right. split; [lia|eauto].
    + left. split; [|reflexivity]. repeat split; try assumption; lia.
  - right. split; [|eauto]. intros (_ & Hnd & Hok & _).
    assert (validateItems items ∅ 0 = inl (0 + inProgressCount items)) as Hv'.
    { apply validateItems_accepts. repeat split; try assumption.
      apply List.Forall_forall. intros it _. unfold unseen. rewrite lookup_empty. reflexivity. }
    congruence.
Qed.

Lemma lower_in_progress : strings.ToLower unicode_ToLower "in_progress" = "in_progress".
Proof. reflexivity. Qed.

Lemma inProgressExact_le (items : list TodoItem) :
  inProgressExact items <= inProgressCount items.
Proof.
  unfold inProgressExact, inProgressCount.
  induction items as [|it rest IH]; cbn [List.filter]; [lia|].
  destruct (String.eqb_spec (todo_Status it) "in_progress") as [Hs|Hs].
  - unfold lowerStatus at 1. rewrite Hs, lower_in_progress, String.eqb_refl.
    cbn [length]. lia.
  - destruct (String.eqb (lowerStatus it) "in_progress"); cbn [length]; lia.
Qed.

Lemma validStatus_In (status : string) :
  validStatus status = true <-> In status ["pending"; "in_progress"; "completed"].
Proof.
  unfold validStatus. rewrite !orb_true_iff, !String.eqb_eq. cbn [In].
  intuition congruence.
Qed.

Lemma violates_invalid (items : list TodoItem) : violates items -> ~ valid_items items.
Proof.
  intros Hv (Hlen & Hnd & Hok & Hc).
  destruct Hv as [Hv|[Hv|[Hv|[Hv|[Hv|Hv]]]]]; try lia; try contradiction.
  - rewrite List.Exists_exists in Hv. destruct Hv as [it [Hin Hb]].
    rewrite List.Forall_forall in Hok. destruct (Hok it Hin) as (H1 & H2 & _).
    destruct Hb as [Hb|Hb]; apply TrimSpace_whitespace in Hb; contradiction.
  - rewrite List.Exists_exists in Hv. destruct Hv as [it [Hin Hb]].
    rewrite List.Forall_forall in Hok. destruct (Hok it Hin) as (_ & _ & H3).
    apply Hb, validStatus_In, H3.
  - pose proof (inProgressExact_le items). lia.
Qed.

(** C2 (as amended): [Update] is all-or-nothing.  A list that is too long,
    repeats an id, has an item whose content or activeForm is empty or
    white space, has an item whose status, once lower-cased, is none of
    [pending], [in_progress], [completed], or has more than one item in
    progress, is refused with an error and the stored list is the one from
    before the call; whenever [Update] returns an error the manager is
    unchanged, and when it returns none the stored list is the whole
    argument. *)
Theorem Update_all_or_nothing (tm : TodoManager) (items : list TodoItem) :
  (violates items -> exists err, Update tm items = ((EmptyString, Some err), tm))
  /\ (forall view err tm',
         Update tm items = ((view, Some err), tm') -> tm' = tm /\ view = EmptyString)
  /\ (forall view tm',
         Update tm items = ((view, None), tm') -> tm_items tm' = items).
Proof.
  destruct (Update_cases tm items) as [[Hv E]|[Hn [err E]]]; rewrite E.
  - split; [|split].
    + intros Hviol. apply violates_invalid in Hviol. contradiction.
    + intros view err tm' [=].
    + intros view tm' [= _ <-]. reflexivity.
  - split; [|split].
    + intros _. eauto.
    + intros view err' tm' [= <- _ <-]. auto.
    + intros view tm' [=].
Qed.

Lemma valid_items_invariant (items : list TodoItem) :
  valid_items items -> board_invariant items.
Proof.
  intros (Hlen & Hnd & _ & Hc). split; [exact Hnd|]. split; [|exact Hlen].
  pose proof (inProgressExact_le items). lia.
Qed.

(** C3: a list that [Update] accepts has pairwise distinct ids, at most one
    item with status [in_progress] (even when the status is compared in
    lower case) and at most 20 items; so has the stored list of every board
    reached from the empty one by calls of [Update]. *)
Theorem Update_invariant :
  (forall tm items view tm',
      Update tm items = ((view, None), tm') ->
      board_invariant items /\ inProgressCount items <= 1 /\ tm_items tm' = items)
  /\ (forall tm, reachable tm -> board_invariant (tm_items tm)).
Proof.
  assert (forall tm items view tm',
             Update tm items = ((view, None), tm') ->
             board_invariant items /\ inProgressCount items <= 1 /\ tm_items tm' = items) as Hacc.
  { intros tm items view tm' E.
    destruct (Update_cases tm items) as [[Hv E']|[_ [err E']]]; rewrite E' in E.
    - injection E as _ <-. split; [apply valid_items_invariant; exact Hv|].
      split; [apply Hv|reflexivity].
    - discriminate E. }
  split; [exact Hacc|].
  induction 1 as [|tm items Hr IH].
  - split; [constructor|]. split; [unfold inProgressExact|]; simpl; lia.
  - destruct (Update_cases tm items) as [[Hv E]|[_ [err E]]]; rewrite E; cbn [snd].
    + apply valid_items_invariant. exact Hv.
    + exact IH.
Qed.

(** C10: [Update] checks the status in lower case and stores the items as
    they were given: after an [Update] without error the stored list is the
    argument itself, every status of which is valid once lower-cased.  An
    item whose status is neither [completed] nor [in_progress] letter for
    letter is drawn by [Render] as a pending one and counted by [Stats] in
    the total only; so is an item accepted with the status ["Completed"]. *)
Theorem Update_stores_verbatim :
  (forall tm items view tm',
      Update tm items = ((view, None), tm') ->
      tm_items tm' = items
      /\ view = Render tm'
      /\ Forall (fun it => In (lowerStatus it) ["pending"; "in_progress"; "completed"]) items)
  /\ (forall item,
         todo_Status item <> "completed" -> todo_Status item <> "in_progress" ->
         renderLine item = todoPendingColor +:+ "☐" +:+ " " +:+ todo_Content item +:+ reset
         /\ forall rest c p, countStatus (item :: rest) c p = countStatus rest c p)
  /\ (let item := {| todo_ID := "1"; todo_Content := "ship it";
                     todo_Status := "Completed"; todo_ActiveForm := "shipping it" |} in
      let tm' := {| tm_items := [item] |} in
      forall tm,
        Update tm [item] = ((Render tm', None), tm')
        /\ Render tm' = todoPendingColor +:+ "☐ ship it" +:+ reset
        /\ Stats tm' !! "total" = Some 1
        /\ Stats tm' !! "completed" = Some 0
        /\ Stats tm' !! "in_progress" = Some 0).
Proof.
  split; [|split].
  - intros tm items view tm' E.
    destruct (Update_cases tm items) as [[Hv E']|[_ [err E']]]; rewrite E' in E;
      [|discriminate E].
    injection E as <- <-. split; [reflexivity|]. split; [reflexivity|].
    destruct Hv as (_ & _ & Hok & _). eapply List.Forall_impl; [|exact Hok].
    intros it (_ & _ & Hs). apply validStatus_In. exact Hs.
  - intros item Hc Hp. apply String.eqb_neq in Hc. apply String.eqb_neq in Hp.
    split.
    + unfold renderLine. rewrite Hc, Hp. reflexivity.
    + intros rest c p. cbn [countStatus]. rewrite Hc, Hp. reflexivity.
  - intros item tm' tm. split; [|split; [|split; [|split]]]; vm_compute; reflexivity.
Qed.

End TodoFacts.

(** ** The shell tool and the dispatcher *)

Section ToolFacts.
Context `{Runtime} `{Host}.

Lemma runBash_runs (cfg : Config) (input : gmap string jvalue) (w : World) :
  bashCommand input <> EmptyString ->
  isDangerousCommand (bashCommand input) = false ->
  let res := bashRun cfg input w in
  fst (runBash cfg input w)
  = if run_DeadlineExceeded res then ("(timeout)", None)
    else match run_Err res with
         | RunNil => (clampText (shownOutput res) maxToolResultChars, None)
         | RunExitError msg =>
           (clampText (shownOutput res +:+ LF +:+ "(exit error: " +:+ msg +:+ ")")
                      maxToolResultChars, None)
         | RunOtherError msg => (clampText (shownOutput res) maxToolResultChars, Some msg)
         end.
Proof.
  intros Hc Hd res. subst res. unfold runBash, bashRun, shownOutput, combinedOutput.
  fold (bashCommand input). fold (bashTimeout input).
  apply String.eqb_neq in Hc. rewrite Hc, Hd.
  destruct (exec_Run _ _ _ _) as [res x]. cbn [fst].
  destruct (run_DeadlineExceeded res); [reflexivity|].
  destruct (run_Err res); reflexivity.
Qed.

(** C6 (as amended): for a bash call whose command is neither empty nor
    dangerous, the deadline is taken from [timeout_ms], 30000 when it is
    absent; when the deadline is exceeded the result is ["(timeout)"]
    without error; when the process exits with a non-zero status the result
    is the shown output followed by the exit suffix, clamped, without error;
    an empty output is shown as ["(no output)"], which is the whole result
    when the process exited with status zero. *)
Theorem runBash_outcomes (cfg : Config) (input : gmap string jvalue) (w : World) :
  bashCommand input <> EmptyString ->
  isDangerousCommand (bashCommand input) = false ->
  let res := bashRun cfg input w in
  (input !! "timeout_ms" = None -> bashTimeout input = 30000)
  /\ (forall f, input !! "timeout_ms" = Some (JNumber f) ->
                1000 <= int_of_float f <= 120000 -> bashTimeout input = int_of_float f)
  /\ (run_DeadlineExceeded res = true -> fst (runBash cfg input w) = ("(timeout)", None))
  /\ (forall msg,
         run_DeadlineExceeded res = false -> run_Err res = RunExitError msg ->
         fst (runBash cfg input w)
         = (clampText (shownOutput res +:+ LF +:+ "(exit error: " +:+ msg +:+ ")")
                      maxToolResultChars, None))
  /\ (run_DeadlineExceeded res = false -> combinedOutput res = EmptyString ->
      shownOutput res = "(no output)"
      /\ (run_Err res = RunNil -> fst (runBash cfg input w) = ("(no output)", None))).
Proof.
  intros Hc Hd res. pose proof (runBash_runs cfg input w Hc Hd) as E. fold res in E.
  split; [|split; [|split; [|split]]].
  - intros Hn. unfold bashTimeout, getIntOrDefault, getOptionalInt. rewrite Hn. reflexivity.
  - intros f Hf _. unfold bashTimeout, getIntOrDefault, getOptionalInt. rewrite Hf. reflexivity.
  - intros Ht. rewrite E, Ht. reflexivity.
  - intros msg Ht He. rewrite E, Ht, He. reflexivity.
  - intros Ht Ho. unfold shownOutput in *. rewrite Ho in *. cbn [String.eqb] in *.
    split; [reflexivity|]. intros He. rewrite E, Ht, He. reflexivity.
Qed.

(** C9: [dispatchToolCall] answers every tool call with one message of
    role ["tool"] that carries the id of the call and the name of its
    function.  When the arguments do not decode, the content describes the
    error and the world is as it was; otherwise, for each of the five
    tools, the content is the clamped error of that tool, or its clamped
    result when there is no error, and the world is the one the tool
    leaves; for a name that is none of the five tools the content says so
    and the world is as it was. *)
Theorem dispatchToolCall_total (cfg : Config) (tc : ToolCall) (w : World) :
  let m := fst (dispatchToolCall cfg tc w) in
  let name := fn_Name (tc_Function tc) in
  msg_Role m = "tool"
  /\ msg_ToolCallID m = tc_ID tc
  /\ msg_Name m = name
  /\ msg_ToolCalls m = []
  /\ (forall input err,
         json_Unmarshal_map (fn_Arguments (tc_Function tc)) = (input, Some err) ->
         dispatchToolCall cfg tc w
         = (toolMessage tc ("Error parsing arguments: " +:+ err), w))
  /\ (forall input,
         json_Unmarshal_map (fn_Arguments (tc_Function tc)) = (input, None) ->
         (exists result,
             msg_Content m = ContentString (clampText result (cfg_MaxResult cfg)))
         /\ (forall run,
                In (name, run) tools ->
                dispatchToolCall cfg tc w
                = (toolMessage tc (clampText (answer (fst (run cfg input w)))
                                             (cfg_MaxResult cfg)),
                   snd (run cfg input w)))
         /\ (~ In name ["bash"; "read_file"; "write_file"; "edit_text"; "TodoWrite"] ->
             dispatchToolCall cfg tc w
             = (toolMessage tc (clampText ("unknown tool: " +:+ name) (cfg_MaxResult cfg)), w))).
Proof.
  intros m name. subst m name. unfold dispatchToolCall.
  destruct (json_Unmarshal_map (fn_Arguments (tc_Function tc))) as [input [err|]] eqn:Hu.
  - cbn [fst toolMessage msg_Role msg_ToolCallID msg_Name msg_ToolCalls].
    repeat split; try reflexivity.
    + intros input' err' [= <- <-]. reflexivity.
    + discriminate.
    + discriminate.
    + discriminate.
  - split; [|split; [|split; [|split; [|split; [discriminate|]]]]].
    1-4: destruct (if String.eqb (fn_Name (tc_Function tc)) "bash" then runBash cfg input w
                   else _) as [[result err] w']; reflexivity.
    intros input' [= <-]. split; [|split].
    + destruct (if String.eqb (fn_Name (tc_Function tc)) "bash" then runBash cfg input w
                else _) as [[result err] w'].
      cbn [fst toolMessage msg_Content]. eauto.
    + intros run Hrun. unfold tools in Hrun. cbn [In] in Hrun.
      destruct Hrun as [Hr|[Hr|[Hr|[Hr|[Hr|[]]]]]];
        injection Hr as Hname <-; rewrite <- Hname;
        cbn [String.eqb Ascii.eqb Bool.eqb andb];
        match goal with
        | |- context [let '(_, _) := ?r in _] =>
          destruct r as [[result [err|]] w']; reflexivity
        end.
    + intros Hn. cbn [In] in Hn.
      repeat match goal with
             | |- context [String.eqb ?a ?b] =>
               destruct (String.eqb_spec a b) as [He|_]; [exfalso; apply Hn; rewrite He; tauto|]
             end.
      reflexivity.
Qed.

End ToolFacts.

(** ** The stream decoder *)

Section StreamFacts.
Context `{Runtime}.

Lemma streamLoop_cons (line : string) (pending atEnd : option error)
      (rest : list (string * option error)) (acc : string) :
  streamLoop ((line, pending) :: rest) atEnd acc
  = match classify line with
    | Ignored | Malformed | NoChoice => streamLoop rest atEnd acc
    | DoneSentinel => (acc, pending)
    | Delta content finish =>
      if negb (String.eqb finish EmptyString) then (acc +:+ content, pending)
      else streamLoop rest atEnd (acc +:+ content)
    end.
Proof.
  cbn [streamLoop]. unfold classify.
  destruct (String.eqb (strings.TrimSpace line) EmptyString
            || negb (strings.HasPrefix line "data: ")); [reflexivity|].
  destruct (String.eqb (strings.TrimPrefix line "data: ") "[DONE]"); [reflexivity|].
  destruct (json_Unmarshal_chunk (strings.TrimPrefix line "data: ")) as [chunk [err|]];
    [reflexivity|].
  destruct (chunk_Choices chunk) as [|choice ?]; [reflexivity|].
  destruct (String.eqb_spec (cc_DeltaContent choice) EmptyString) as [->|_];
    cbn [negb]; rewrite ?sapp_nil_r; reflexivity.
Qed.

Lemma streamLoop_spec (lines : list (string * option error)) (atEnd : option error)
      (acc : string) :
  streamLoop lines atEnd acc
  = (acc +:+ concatAll (map fragment (consumed (map fst lines))), exitError lines atEnd).
Proof.
  revert acc. induction lines as [|[line pending] rest IH]; intros acc.
  - cbn. rewrite sapp_nil_r. reflexivity.
  - rewrite streamLoop_cons. cbn [map fst consumed exitError]. unfold terminal at 1 2.
    assert (fragment line = match classify line with
                            | Delta content _ => content
                            | _ => EmptyString
                            end) as Hf by reflexivity.
    destruct (classify line) as [| | | |content finish] eqn:Hk;
      try (rewrite IH; cbn [map concatAll]; rewrite Hf, sapp_nil_l; reflexivity).
    + cbn [map concatAll]. rewrite Hf, sapp_nil_l, sapp_nil_r. reflexivity.
    + destruct (negb (String.eqb finish EmptyString)).
      * cbn [map concatAll]. rewrite Hf, sapp_nil_r. reflexivity.
      * rewrite IH. cbn [map concatAll]. rewrite Hf, app_assoc_s. reflexivity.
Qed.

Lemma handleStreamingResponse_spec (cfg : Config) (resp : Response) :
  ends_normally resp ->
  handleStreamingResponse cfg resp
  = inl (streamed (concatAll (map fragment (consumed (map fst (fst (http_Lines resp))))))).
Proof.
  intros [Hs Hend]. unfold handleStreamingResponse.
  destruct (Z.leb_spec 400 (http_StatusCode resp)); [lia|].
  destruct (http_Lines resp) as [lines atEnd]. cbn [fst snd] in *.
  rewrite streamLoop_spec, sapp_nil_l, Hend. reflexivity.
Qed.

Lemma handleStreamingResponse_read_error (cfg : Config) (resp : Response) (err : error) :
  http_StatusCode resp < 400 ->
  exitError (fst (http_Lines resp)) (snd (http_Lines resp)) = Some err ->
  handleStreamingResponse cfg resp = inr ("error reading stream: " +:+ err).
Proof.
  intros Hs Hend. unfold handleStreamingResponse.
  destruct (Z.leb_spec 400 (http_StatusCode resp)); [lia|].
  destruct (http_Lines resp) as [lines atEnd]. cbn [fst snd] in *.
  rewrite streamLoop_spec, Hend. reflexivity.
Qed.

Lemma consumed_app_skip (pre post : list (string * option error)) (line : string)
      (pending atEnd : option error) :
  terminal line = false ->
  fragment line = EmptyString ->
  concatAll (map fragment (consumed (map fst (pre ++ (line, pending) :: post))))
  = concatAll (map fragment (consumed (map fst (pre ++ post))))
  /\ exitError (pre ++ (line, pending) :: post) atEnd = exitError (pre ++ post) atEnd.
Proof.
  intros Ht Hf. induction pre as [|[p e] pre [IH1 IH2]].
  - cbn [List.app map fst consumed exitError]. rewrite Ht. cbn [map concatAll].
    rewrite Hf, sapp_nil_l. auto.
  - cbn [List.app map fst consumed exitError]. rewrite IH2.
    split; [|reflexivity].
    destruct (terminal p); [reflexivity|]. cbn [map concatAll]. rewrite IH1. reflexivity.
Qed.

End StreamFacts.

Section StreamClaim.
Context `{Runtime}.

(** C7: when the read loop of a stream ends normally, that is, with no
    read error pending when the loop is left, the decoder returns one
    assistant message, with finish reason ["stop"], whose content is the
    concatenation in order of the delta contents of the chunks the loop
    read; when a read error is pending at that point, also after a
    terminal line, the decoder fails with that error.  A line whose
    payload does not decode changes neither the content nor the end of the
    loop.  With the reference decoder, the transcript of the specification
    decodes to the content ["Hi there"]. *)
Theorem handleStreamingResponse_decodes :
  (forall cfg resp,
      ends_normally resp ->
      handleStreamingResponse cfg resp
      = inl (streamed
               (concatAll (map fragment (consumed (map fst (fst (http_Lines resp))))))))
  /\ (forall cfg resp err,
         http_StatusCode resp < 400 ->
         exitError (fst (http_Lines resp)) (snd (http_Lines resp)) = Some err ->
         handleStreamingResponse cfg resp = inr ("error reading stream: " +:+ err))
  /\ (forall pre post line pending atEnd acc,
         classify line = Malformed ->
         streamLoop (pre ++ (line, pending) :: post) atEnd acc
         = streamLoop (pre ++ post) atEnd acc)
  /\ (forall cfg status,
         status < 400 ->
         @handleStreamingResponse Ref.runtime cfg
           {| http_StatusCode := status;
              http_Body := (EmptyString, None);
              http_Lines := (scanned transcript, None) |}
         = inl (streamed "Hi there")).
Proof.
  split; [|split; [|split]].
  - intros cfg resp. apply handleStreamingResponse_spec.
  - intros cfg resp err. apply handleStreamingResponse_read_error.
  - intros pre post line pending atEnd acc Hk. rewrite !streamLoop_spec.
    destruct (consumed_app_skip pre post line pending atEnd) as [E1 E2].
    + unfold terminal. rewrite Hk. reflexivity.
    + unfold fragment. rewrite Hk. reflexivity.
    + rewrite E1, E2. reflexivity.
  - intros cfg status Hs. unfold handleStreamingResponse. cbn [http_StatusCode http_Lines].
    destruct (Z.leb_spec 400 status); [lia|].
    assert (@streamLoop Ref.runtime (scanned transcript) None EmptyString
            = ("Hi there", None)) as ->
      by (vm_compute; reflexivity).
    reflexivity.
Qed.

End StreamClaim.

(** ** The conversation loop *)

Section QueryFacts.
Context `{Runtime} `{Host}.

Lemma runTools_spec (cfg : Config) (calls : list ToolCall)
      (messages fullMessages : list Message) (w : World) :
  runTools cfg calls messages fullMessages w
  = (messages ++ fst (dispatchAll cfg calls w),
     fullMessages ++ fst (dispatchAll cfg calls w),
     snd (dispatchAll cfg calls w)).
Proof.
  revert messages fullMessages w.
  induction calls as [|tc rest IH]; intros messages fullMessages w.
  - cbn. rewrite !List.app_nil_r. reflexivity.
  - cbn [runTools dispatchAll].
    destruct (dispatchToolCall cfg tc w) as [result w1].
    rewrite IH. destruct (dispatchAll cfg rest w1) as [results w2]. cbn [fst snd].
    rewrite <- !List.app_assoc. reflexivity.
Qed.

(** The two slices of [query] stay in step: what is sent is the system
    message followed by the history. *)
Lemma queryLoop_rounds (n : nat) (cfg : Config) (h : list Message) (w : World) :
  queryLoop n cfg h (systemMessage cfg :: h) w = rounds n cfg h w.
Proof.
  revert h w. induction n as [|n IH]; intros h w; [reflexivity|].
  cbn [queryLoop rounds]. unfold round.
  destruct (callOpenAI cfg (systemMessage cfg :: h) w) as [[resp|err] w1]; [|reflexivity].
  destruct (resp_Choices resp) as [|choice ?]; [reflexivity|].
  destruct (String.eqb (ch_FinishReason choice) "tool_calls"
            && (0 <? length (msg_ToolCalls (ch_Message choice)))%nat); [|reflexivity].
  rewrite runTools_spec.
  destruct (dispatchAll cfg (msg_ToolCalls (ch_Message choice)) w1) as [results w2].
  cbn [fst snd].
  change ((systemMessage cfg :: h) ++ [ch_Message choice])
    with (systemMessage cfg :: (h ++ [ch_Message choice])).
  change ((systemMessage cfg :: (h ++ [ch_Message choice])) ++ results)
    with (systemMessage cfg :: ((h ++ [ch_Message choice]) ++ results)).
  rewrite IH. rewrite <- List.app_assoc. reflexivity.
Qed.

Lemma query_rounds (cfg : Config) (h : list Message) (w : World) :
  query cfg h w = rounds maxAgentIterations cfg h w.
Proof. unfold query. apply queryLoop_rounds. Qed.




End QueryFacts.

(** ** The theorems at concrete inputs *)

(** Under the root ["/work"] of the simulated host, ["docs/../notes.txt"]
    resolves inside the root. *)
Lemma safePath_sandbox_witness :
  @safePath Sim.host "/work" " docs/../notes.txt " Sim.machine0 = ("/work/notes.txt", None)
  /\ filepath.IsAbs "/work/notes.txt" = true
  /\ exists workAbs,
      @filepath_Abs Sim.host "/work" Sim.machine0 = (workAbs, None)
      /\ ("/work/notes.txt" = workAbs
          \/ exists rest, rest <> EmptyString /\ "/work/notes.txt" = workAbs +:+ "/" +:+ rest).
Proof.
  assert (@safePath Sim.host "/work" " docs/../notes.txt " Sim.machine0
          = ("/work/notes.txt", None)) as E by (vm_compute; reflexivity).
  assert (@cwd_absolute Sim.host Sim.machine0) as Hcwd
    by (intros wd Hwd; injection Hwd as <-; reflexivity).
  destruct (proj1 (@safePath_sandbox Sim.host "/work" " docs/../notes.txt " Sim.machine0)
                  "/work/notes.txt" E) as (workAbs & Hw & _ & Hstrict).
  destruct (Hstrict Hcwd) as [Habs Hin].
  split; [exact E|]. split; [exact Habs|]. exists workAbs. split; [exact Hw|exact Hin].
Defined.

(** From the empty board, two items in progress are refused and the board
    stays empty. *)
Lemma Update_all_or_nothing_witness :
  exists err,
    @Update Ref.runtime {| tm_items := [] |}
      [Example.todo "1" "write the parser" "in_progress" "writing the parser";
       Example.todo "2" "write the tests" "in_progress" "writing the tests"]
    = ((EmptyString, Some err), {| tm_items := [] |}).
Proof.
  apply (proj1 (@Update_all_or_nothing Ref.runtime {| tm_items := [] |}
                  [Example.todo "1" "write the parser" "in_progress" "writing the parser";
                   Example.todo "2" "write the tests" "in_progress" "writing the tests"])).
  unfold violates. do 4 right. left. vm_compute. reflexivity.
Defined.

(** C2 (as stated) fails: the status ["Pending"] is none of the three
    tokens, yet [Update] returns no error and stores the item. *)
Lemma Update_accepts_other_case :
  let item := Example.todo "1" "write the parser" "Pending" "writing the parser" in
  ~ In (todo_Status item) ["pending"; "in_progress"; "completed"]
  /\ @Update Ref.runtime {| tm_items := [] |} [item]
     = ((Render {| tm_items := [item] |}, None), {| tm_items := [item] |}).
Proof.
  split; [|vm_compute; reflexivity].
  cbn. intros [Hc|[Hc|[Hc|[]]]]; discriminate Hc.
Qed.

(** An accepted list of two items satisfies the invariant. *)
Lemma Update_invariant_witness :
  let items := [Example.todo "1" "write the parser" "completed" "writing the parser";
                Example.todo "2" "write the tests" "in_progress" "writing the tests"] in
  @board_invariant items /\ @inProgressCount Ref.runtime items <= 1.
Proof.
  intros items.
  destruct (proj1 (@Update_invariant Ref.runtime) {| tm_items := [] |} items
                  (Render {| tm_items := items |}) {| tm_items := items |})
    as (Hinv & Hc & _); [vm_compute; reflexivity|].
  split; assumption.
Defined.

(** An item accepted with the status ["IN_PROGRESS"] is stored with it. *)
Lemma Update_stores_verbatim_witness :
  let items := [Example.todo "1" "write the parser" "IN_PROGRESS" "writing the parser"] in
  tm_items (snd (@Update Ref.runtime {| tm_items := [] |} items)) = items.
Proof.
  intros items.
  assert (@Update Ref.runtime {| tm_items := [] |} items
          = ((Render {| tm_items := items |}, None), {| tm_items := items |})) as E
    by (vm_compute; reflexivity).
  rewrite E.
  exact (proj1 (proj1 (@Update_stores_verbatim Ref.runtime) {| tm_items := [] |} items _ _ E)).
Defined.

(** On the simulated host, [ls] succeeds with its output, and [false] exits
    with status 1 and no output. *)
Lemma runBash_outcomes_witness :
  fst (@runBash Ref.runtime Sim.host Sim.config (bashInput "false") (exampleWorld []))
  = (clampText ("(no output)" +:+ LF +:+ "(exit error: exit status 1)") maxToolResultChars,
     None).
Proof.
  assert (@bashCommand Ref.runtime (bashInput "false") <> EmptyString) as Hc
    by (vm_compute; discriminate).
  assert (@isDangerousCommand Ref.runtime (@bashCommand Ref.runtime (bashInput "false")) = false)
    as Hd by (vm_compute; reflexivity).
  destruct (@runBash_outcomes Ref.runtime Sim.host Sim.config (bashInput "false")
              (exampleWorld []) Hc Hd) as (_ & _ & _ & Hexit & _).
  exact (Hexit "exit status 1" eq_refl eq_refl).
Defined.

(** C6 (as stated) fails: the command [false] exits with status 1 and prints
    nothing; its combined output is empty, and the result is not the text
    ["(no output)"] but that text followed by the exit suffix. *)
Lemma runBash_no_output_and_exit :
  let res := @bashRun Ref.runtime Sim.host Sim.config (bashInput "false") (exampleWorld []) in
  run_DeadlineExceeded res = false
  /\ combinedOutput res = EmptyString
  /\ fst (@runBash Ref.runtime Sim.host Sim.config (bashInput "false") (exampleWorld []))
     = ("(no output)" +:+ LF +:+ "(exit error: exit status 1)", None)
  /\ fst (@runBash Ref.runtime Sim.host Sim.config (bashInput "false") (exampleWorld []))
     <> ("(no output)", None).
Proof.
  split; [reflexivity|]. split; [reflexivity|].
  assert (fst (@runBash Ref.runtime Sim.host Sim.config (bashInput "false") (exampleWorld []))
          = ("(no output)" +:+ LF +:+ "(exit error: exit status 1)", None)) as E
    by (vm_compute; reflexivity).
  split; [exact E|]. rewrite E. vm_compute. discriminate.
Qed.

(** A call of [bash] that lists two files is answered with the trimmed
    output; a tool call with arguments that are no JSON text, and one for a
    tool that does not exist, are answered by a tool message too. *)
Lemma dispatchToolCall_total_witness :
  let good := {| tc_ID := "call_6"; tc_Type := "function";
                 tc_Function := {| fn_Name := "bash";
                                   fn_Arguments := Example.lsArguments |} |} in
  let bad := {| tc_ID := "call_7"; tc_Type := "function";
                tc_Function := {| fn_Name := "bash"; fn_Arguments := "{not json" |} |} in
  let unknown := {| tc_ID := "call_8"; tc_Type := "function";
                    tc_Function := {| fn_Name := "rm_all"; fn_Arguments := "{}" |} |} in
  @dispatchToolCall Ref.runtime Sim.host Sim.config good (exampleWorld [])
  = (toolMessage good ("a.txt" +:+ LF +:+ "b.txt"), exampleWorld [])
  /\ (exists err,
         @dispatchToolCall Ref.runtime Sim.host Sim.config bad Sim.world0
         = (toolMessage bad ("Error parsing arguments: " +:+ err), Sim.world0))
  /\ @dispatchToolCall Ref.runtime Sim.host Sim.config unknown Sim.world0
     = (toolMessage unknown (clampText "unknown tool: rm_all" defaultMaxTokens), Sim.world0).
Proof.
  intros good bad unknown. split; [|split].
  - destruct (@dispatchToolCall_total Ref.runtime Sim.host Sim.config good (exampleWorld []))
      as (_ & _ & _ & _ & _ & Hok).
    destruct (Hok (bashInput "ls")) as (_ & Hrun & _); [vm_compute; reflexivity|].
    rewrite (Hrun (@runBash Ref.runtime Sim.host)) by (left; reflexivity).
    vm_compute. reflexivity.
  - destruct (@dispatchToolCall_total Ref.runtime Sim.host Sim.config bad Sim.world0)
      as (_ & _ & _ & _ & Herr & _).
    eexists. apply (Herr ∅). vm_compute. reflexivity.
  - destruct (@dispatchToolCall_total Ref.runtime Sim.host Sim.config unknown Sim.world0)
      as (_ & _ & _ & _ & _ & Hok).
    destruct (Hok ∅) as (_ & _ & Hunknown); [vm_compute; reflexivity|].
    apply Hunknown. cbn. intros [Hc|[Hc|[Hc|[Hc|[Hc|[]]]]]]; discriminate Hc.
Defined.

(** The transcript of the specification, served with status 200; and the
    same lines when the connection breaks while the scanner still holds
    them: the loop leaves at the finish reason of the second line, with
    the read error pending. *)
Lemma handleStreamingResponse_decodes_witness :
  @handleStreamingResponse Ref.runtime Sim.config
    {| http_StatusCode := 200; http_Body := (EmptyString, None);
       http_Lines := (scanned transcript, None) |}
  = inl (streamed "Hi there")
  /\ @handleStreamingResponse Ref.runtime Sim.config
       {| http_StatusCode := 200; http_Body := (EmptyString, None);
          http_Lines := (map (fun line => (line, Some "unexpected EOF")) transcript,
                         Some "unexpected EOF") |}
     = inr "error reading stream: unexpected EOF".
Proof.
  split.
  - pose proof (proj1 (@handleStreamingResponse_decodes Ref.runtime) Sim.config
                  {| http_StatusCode := 200; http_Body := (EmptyString, None);
                     http_Lines := (scanned transcript, None) |}) as Hd.
    rewrite Hd.
    + vm_compute. reflexivity.
    + split; [cbn; lia|]. vm_compute. reflexivity.
  - apply (proj1 (proj2 (@handleStreamingResponse_decodes Ref.runtime))).
    + cbn. lia.
    + vm_compute. reflexivity.
Defined.


(** ** [filepath.Clean] on a rooted path is lexical resolution *)

Lemma sepFree_get (e : string) (i : nat) (c : ascii) :
  sepFree e = true -> String.get i e = Some c -> filepath.IsPathSeparator c = false.
Proof.
  revert i. induction e as [|d e IH]; intros i Hs Hg; [destruct i; discriminate|].
  cbn [sepFree] in Hs. apply andb_true_iff in Hs as [Hd He].
  destruct i as [|i]; cbn [String.get] in Hg.
  - injection Hg as <-. apply negb_true_iff. exact Hd.
  - eapply IH; eassumption.
Qed.

Lemma sepFree_app (a b : string) :
  sepFree (a +:+ b) = sepFree a && sepFree b.
Proof.
  induction a as [|c a IH]; [reflexivity|].
  rewrite sapp_cons. cbn [sepFree]. rewrite IH. apply andb_assoc.
Qed.

Lemma elemSplit_spec (path : string) :
  let '(e, rest) := elemSplit path in
  path = e +:+ rest /\ sepFree e = true /\ filepath.atBoundary rest = true
  /\ (String.length rest <= String.length path)%nat.
Proof.
  induction path as [|c p IH]; cbn [elemSplit].
  - repeat split; reflexivity || lia.
  - destruct (filepath.IsPathSeparator c) eqn:Hc.
    + repeat split; try reflexivity; try lia. cbn [filepath.atBoundary]. exact Hc.
    + destruct (elemSplit p) as [e rest]. destruct IH as (-> & Hs & Hb & Hl).
      split; [reflexivity|]. split; [cbn [sepFree]; rewrite Hc, Hs; reflexivity|].
      split; [exact Hb|]. cbn [String.length]. lia.
Qed.

(** The fields of a path: its first element, and the fields after the
    separator that ends it. *)
Definition fieldsAfter (rest : string) : list string :=
  match rest with
  | EmptyString => []
  | String _ r => strings.Split1 r filepath.Separator
  end.

Lemma Split1_nonempty (s : string) (sep : ascii) : strings.Split1 s sep <> [].
Proof.
  destruct s as [|c s]; cbn [strings.Split1]; [discriminate|].
  destruct (Ascii.eqb c sep); [discriminate|].
  destruct (strings.Split1 s sep); discriminate.
Qed.

Lemma Split1_elem (path : string) :
  strings.Split1 path filepath.Separator
  = fst (elemSplit path) :: fieldsAfter (snd (elemSplit path)).
Proof.
  induction path as [|c p IH]; [reflexivity|].
  cbn [strings.Split1 elemSplit]. unfold filepath.IsPathSeparator.
  destruct (Ascii.eqb c filepath.Separator) eqn:Hc; [reflexivity|].
  rewrite IH. destruct (elemSplit p) as [e rest]. reflexivity.
Qed.

Lemma resolve_boundary (stack : list string) (rest : string) :
  filepath.atBoundary rest = true ->
  resolve stack (strings.Split1 rest filepath.Separator) = resolve stack (fieldsAfter rest).
Proof.
  destruct rest as [|c r]; [reflexivity|].
  cbn [filepath.atBoundary strings.Split1 fieldsAfter]. unfold filepath.IsPathSeparator.
  intros ->. reflexivity.
Qed.

(** One element of the path is one step of the resolution. *)
Lemma resolve_elem (stack : list string) (path : string) :
  resolve stack (strings.Split1 path filepath.Separator)
  = resolve stack (fst (elemSplit path)
                   :: strings.Split1 (snd (elemSplit path)) filepath.Separator).
Proof.
  rewrite Split1_elem. pose proof (elemSplit_spec path) as Hs.
  destruct (elemSplit path) as [e rest]. destruct Hs as (_ & _ & Hb & _).
  cbn [fst snd resolve].
  rewrite !(resolve_boundary _ rest Hb). reflexivity.
Qed.

Lemma Join_snoc (es : list string) (e sep : string) :
  strings.Join (es ++ [e]) sep
  = match es with [] => e | _ => strings.Join es sep +:+ sep +:+ e end.
Proof.
  induction es as [|a es IH]; [reflexivity|].
  destruct es as [|b es]; [reflexivity|].
  change ((a :: b :: es) ++ [e]) with (a :: ((b :: es) ++ [e])).
  change (strings.Join (a :: (b :: es) ++ [e]) sep)
    with (a +:+ sep +:+ strings.Join ((b :: es) ++ [e]) sep).
  rewrite IH. change (strings.Join (a :: b :: es) sep)
    with (a +:+ sep +:+ strings.Join (b :: es) sep).
  rewrite !app_assoc_s. reflexivity.
Qed.

Lemma rootedPath_snoc (es : list string) (e : string) :
  rootedPath (es ++ [e])
  = match es with [] => "/" +:+ e | _ => rootedPath es +:+ "/" +:+ e end.
Proof.
  unfold rootedPath. rewrite Join_snoc. destruct es; [reflexivity|].
  rewrite !app_assoc_s. reflexivity.
Qed.

Lemma plainElem_nonempty (e : string) : plainElem e = true -> (1 <= String.length e)%nat.
Proof.
  destruct e; [discriminate|]. cbn [String.length]. lia.
Qed.

Lemma rootedPath_length (es : list string) :
  Forall (fun e => plainElem e = true) es ->
  (es = [] /\ String.length (rootedPath es) = 1%nat)
  \/ (es <> [] /\ (2 <= String.length (rootedPath es))%nat).
Proof.
  intros Hp. destruct es as [|a es] using rev_ind; [left; split; reflexivity|].
  right. split; [destruct es; discriminate|].
  apply Forall_app in Hp as [_ Ha]. apply Forall_inv in Ha.
  apply plainElem_nonempty in Ha.
  rewrite rootedPath_snoc. destruct es.
  - rewrite length_app_s. cbn [String.length]. lia.
  - rewrite !length_app_s. cbn [String.length]. lia.
Qed.

(** The backward scan of [Clean] steps over a run of bytes that are not
    separators. *)
Lemma backtrack_run (n : nat) (b : string) (lo d fuel : nat) :
  (d <= lo)%nat -> (n <= fuel)%nat ->
  (forall j, (lo < j <= lo + n)%nat ->
     exists c, String.get j b = Some c /\ filepath.IsPathSeparator c = false) ->
  (lo = d \/ String.get lo b = Some filepath.Separator) ->
  filepath.backtrack fuel {| filepath.buf := b; filepath.w := lo + n |} d
  = {| filepath.buf := b; filepath.w := lo |}.
Proof.
  revert fuel. induction n as [|n IH]; intros fuel Hd Hf Hrun Hstop.
  - rewrite Nat.add_0_r. destruct fuel as [|fuel]; [reflexivity|].
    cbn [filepath.backtrack filepath.w].
    destruct (Nat.ltb_spec d lo) as [Hlt|Hge]; [|reflexivity].
    destruct Hstop as [->|Hg]; [lia|].
    unfold filepath.lb_index. cbn [filepath.buf filepath.w]. rewrite Hg.
    unfold filepath.IsPathSeparator. rewrite Ascii.eqb_refl. reflexivity.
  - destruct fuel as [|fuel]; [lia|].
    cbn [filepath.backtrack filepath.w].
    destruct (Nat.ltb_spec d (lo + S n)) as [Hlt|Hge]; [|lia].
    destruct (Hrun (lo + S n)%nat) as (c & Hg & Hc); [lia|].
    unfold filepath.lb_index. cbn [filepath.buf filepath.w]. rewrite Hg, Hc.
    cbn [andb negb]. unfold filepath.lb_back. cbn [filepath.buf filepath.w].
    replace (Nat.pred (lo + S n)) with (lo + n)%nat by lia.
    apply IH; [lia|lia| |exact Hstop].
    intros j Hj. apply Hrun. lia.
Qed.

Lemma get_app_r (a b : string) (i : nat) :
  String.get (String.length a + i) (a +:+ b) = String.get i b.
Proof.
  induction a as [|c a IH]; [reflexivity|].
  rewrite sapp_cons. cbn [String.length Nat.add String.get]. exact IH.
Qed.

Lemma get_in_range (e : string) (i : nat) :
  (i < String.length e)%nat -> exists c, String.get i e = Some c.
Proof.
  revert i. induction e as [|d e IH]; intros i Hi; [simpl in Hi; lia|].
  destruct i as [|i]; [exists d; reflexivity|].
  cbn [String.get]. apply IH. simpl in Hi. lia.
Qed.

(** Backing up over the last element of the buffer. *)
Lemma backtrack_pop (out : filepath.lazybuf) (e : string) (stack : list string) :
  (filepath.w out <= String.length (filepath.buf out))%nat ->
  filepath.lb_string out = rootedPath (rev (e :: stack)) ->
  Forall (fun e => plainElem e = true) (e :: stack) ->
  let out' := filepath.backtrack (filepath.w (filepath.lb_back out)) (filepath.lb_back out) 1 in
  filepath.lb_string out' = rootedPath (rev stack)
  /\ (filepath.w out' <= String.length (filepath.buf out'))%nat.
Proof.
  intros Hw Hs Hp. apply Forall_cons in Hp as [He Hst].
  assert (sepFree e = true) as Hsf
    by (unfold plainElem in He; apply andb_true_iff in He as [_ He]; exact He).
  pose proof (plainElem_nonempty e He) as Hne.
  cbn [rev] in Hs. rewrite rootedPath_snoc in Hs.
  unfold filepath.lb_string in Hs.
  pose proof (length_stake _ _ Hw) as Hlen. rewrite Hs in Hlen.
  assert (forall j, (j < filepath.w out)%nat ->
            String.get j (filepath.buf out)
            = String.get j (stake (filepath.w out) (filepath.buf out))) as Hget
    by (intros j Hj; symmetry; apply get_stake; exact Hj).
  destruct out as [b w0]. unfold filepath.lb_back.
  cbn [filepath.buf filepath.w] in *.
  destruct (rootedPath_length (rev stack)) as [[Hnil Hl1]|[Hcons Hl2]].
  { apply Forall_rev. exact Hst. }
  - (* the only element: back to the root *)
    rewrite Hnil in *. rewrite length_app_s in Hlen. cbn [String.length] in Hlen.
    replace (Nat.pred w0) with (1 + (String.length e - 1))%nat by lia.
    rewrite (backtrack_run (String.length e - 1) b 1 1); [| lia | lia | | left; reflexivity].
    + unfold filepath.lb_string. cbn [filepath.buf filepath.w].
      split; [|lia].
      rewrite <- (stake_stake 1 w0 b) by lia. rewrite Hs. reflexivity.
    + intros j Hj. rewrite Hget by lia. rewrite Hs.
      replace j with (String.length "/" + (j - 1))%nat by (cbn [String.length]; lia).
      rewrite get_app_r.
      destruct (get_in_range e (j - 1)) as [c Hc]; [lia|].
      exists c. split; [exact Hc|]. eapply sepFree_get; eassumption.
  - (* more elements: back to the separator before the last one *)
    destruct (rev stack) as [|a l] eqn:Hr; [congruence|].
    rewrite <- Hr in *. clear Hr a l Hcons.
    rewrite !length_app_s in Hlen. cbn [String.length] in Hlen.
    set (P := rootedPath (rev stack)) in *.
    replace (Nat.pred w0) with (String.length P + String.length e)%nat by lia.
    rewrite (backtrack_run (String.length e) b (String.length P) 1); [| lia | lia | | right].
    + unfold filepath.lb_string. cbn [filepath.buf filepath.w].
      split; [|lia].
      rewrite <- (stake_stake (String.length P) w0 b) by lia. rewrite Hs.
      apply stake_app.
    + intros j Hj. rewrite Hget by lia. rewrite Hs.
      replace j with (String.length P + S (j - String.length P - 1))%nat by lia.
      rewrite get_app_r. cbn [append String.get].
      destruct (get_in_range e (j - String.length P - 1)) as [c Hc]; [lia|].
      exists c. split; [exact Hc|]. eapply sepFree_get; eassumption.
    + rewrite Hget by lia. rewrite Hs.
      replace (String.length P) with (String.length P + 0)%nat at 1 by lia.
      rewrite get_app_r. reflexivity.
Qed.

Lemma copyElem_elemSplit (path : string) (out : filepath.lazybuf) :
  (filepath.w out <= String.length (filepath.buf out))%nat ->
  let '(rest, out') := filepath.copyElem path out in
  rest = snd (elemSplit path)
  /\ filepath.lb_string out' = filepath.lb_string out +:+ fst (elemSplit path)
  /\ (filepath.w out' <= String.length (filepath.buf out'))%nat.
Proof.
  revert out. induction path as [|c p IH]; intros out Hw; cbn [filepath.copyElem elemSplit].
  - rewrite sapp_nil_r. auto.
  - destruct (filepath.IsPathSeparator c) eqn:Hc.
    + cbn [fst snd]. rewrite sapp_nil_r. auto.
    + destruct (append_buf out c Hw) as (Hlen & _ & _ & _ & Hstr).
      specialize (IH (filepath.lb_append out c)).
      destruct (filepath.copyElem p (filepath.lb_append out c)) as [rest out'].
      destruct (elemSplit p) as [e rest']. cbn [fst snd] in *.
      destruct IH as (-> & Hs & Hw'); [rewrite Hlen; cbn; lia|].
      split; [reflexivity|]. split; [|exact Hw'].
      rewrite Hs, Hstr, app_assoc_s. reflexivity.
Qed.

Lemma cleanLoop_rooted (fuel : nat) (path : string) (out : filepath.lazybuf)
      (stack : list string) :
  (String.length path <= fuel)%nat ->
  (filepath.w out <= String.length (filepath.buf out))%nat ->
  filepath.lb_string out = rootedPath (rev stack) ->
  Forall (fun e => plainElem e = true) stack ->
  let out' := filepath.cleanLoop fuel true path out 1 in
  filepath.lb_string out' = rootedPath (resolve stack (pathElements path))
  /\ (filepath.w out' <= String.length (filepath.buf out'))%nat.
Proof.
  unfold pathElements.
  revert path out stack. induction fuel as [|fuel IH]; intros path out stack Hf Hw Hs Hp.
  { destruct path; [|simpl in Hf; lia]. cbn. auto. }
  cbn [filepath.cleanLoop]. destruct path as [|c rest]; [cbn; auto|].
  cbn [String.length] in Hf.
  destruct (filepath.IsPathSeparator c) eqn:Hsep.
  { cbn [strings.Split1]. unfold filepath.IsPathSeparator in Hsep. rewrite Hsep.
    cbn [resolve String.eqb orb]. apply IH; [lia|assumption..]. }
  rewrite resolve_elem. pose proof (elemSplit_spec (String c rest)) as Hes.
  cbn [elemSplit] in *. rewrite Hsep in *.
  pose proof (elemSplit_spec rest) as Hes'.
  destruct (filepath.isDot c && filepath.atBoundary rest) eqn:Hdot.
  { (* [.] *)
    apply andb_true_iff in Hdot as [Hc Hb]. apply Ascii.eqb_eq in Hc. subst c.
    assert (elemSplit rest = (EmptyString, rest)) as E.
    { destruct rest as [|d r]; [reflexivity|]. cbn [filepath.atBoundary] in Hb.
      cbn [elemSplit]. rewrite Hb. reflexivity. }
    rewrite E. cbn [fst snd resolve String.eqb Ascii.eqb Bool.eqb orb andb].
    apply IH; [lia|assumption..]. }
  destruct (filepath.isDot c && strings.HasPrefix rest "."
            && filepath.atBoundary (sdrop 1 rest)) eqn:Hdd.
  { (* [..] *)
    apply andb_true_iff in Hdd as [Hdd Hb]. apply andb_true_iff in Hdd as [Hc Hpre].
    apply Ascii.eqb_eq in Hc. subst c.
    destruct rest as [|d r]; [discriminate Hpre|].
    cbn [strings.HasPrefix] in Hpre. apply andb_true_iff in Hpre as [Hd _].
    apply Ascii.eqb_eq in Hd. subst d. cbn [sdrop] in *.
    assert (elemSplit r = (EmptyString, r)) as E.
    { destruct r as [|d r']; [reflexivity|]. cbn [filepath.atBoundary] in Hb.
      cbn [elemSplit]. rewrite Hb. reflexivity. }
    cbn [elemSplit]. change (filepath.IsPathSeparator ".") with false. cbn iota.
    rewrite E. cbn [fst snd resolve String.eqb Ascii.eqb Bool.eqb orb andb].
    cbn [String.length] in Hf.
    destruct (Nat.ltb_spec 1 (filepath.w out)) as [Hlt|Hge].
    - destruct stack as [|e stack].
      { exfalso. cbn [rev] in Hs. unfold filepath.lb_string in Hs.
        pose proof (length_stake _ _ Hw) as Hl. rewrite Hs in Hl.
        change (String.length (rootedPath [])) with 1%nat in Hl. lia. }
      destruct (backtrack_pop out e stack Hw Hs Hp) as [Hs' Hw'].
      cbn [tl]. apply IH; [lia|exact Hw'|exact Hs'|].
      apply Forall_cons in Hp as [_ Hp]. exact Hp.
    - cbn [negb]. assert (stack = []) as ->.
      { destruct (rootedPath_length (rev stack)) as [[Hn _]|[_ Hl]];
          [apply Forall_rev; exact Hp| |].
        - apply (f_equal (@rev string)) in Hn. rewrite rev_involutive in Hn. exact Hn.
        - unfold filepath.lb_string in Hs.
          pose proof (length_stake _ _ Hw) as Hl'. rewrite Hs in Hl'. lia. }
      cbn [tl]. apply IH; [lia|assumption..]. }
  (* a name *)
  cbn [andb orb negb]. rewrite ?orb_false_r.
  set (out1 := if negb (filepath.w out =? 1)%nat
               then filepath.lb_append out filepath.Separator else out).
  destruct (elemSplit rest) as [e0 rest'] eqn:E. cbn [fst snd] in *.
  destruct Hes as (Hpath & Hsf & Hb & Hl).
  assert (plainElem (String c e0) = true) as Hplain.
  { unfold plainElem. rewrite Hsf. cbn [String.eqb negb andb].
    rewrite !andb_true_r.
    apply andb_true_iff. split; apply negb_true_iff.
    - (* not [.] *)
      destruct (Ascii.eqb c ".") eqn:Hc; [|reflexivity].
      destruct e0 as [|d e0]; [|reflexivity].
      exfalso. cbn [String.eqb] in *. unfold filepath.isDot in Hdot. rewrite Hc in Hdot.
      cbn [andb] in Hdot. destruct Hes' as (Hr & _ & Hb' & _).
      rewrite sapp_nil_l in Hr. subst rest'. congruence.
    - (* not [..] *)
      destruct (Ascii.eqb c ".") eqn:Hc; [|reflexivity].
      destruct e0 as [|d e0]; [reflexivity|]. cbn [String.eqb].
      destruct (Ascii.eqb d ".") eqn:Hd; [|reflexivity].
      destruct e0 as [|d' e0]; [|reflexivity].
      exfalso. unfold filepath.isDot in Hdd. rewrite Hc in Hdd. cbn [andb] in Hdd.
      destruct Hes' as (Hr & _ & Hb' & _). subst rest.
      rewrite sapp_cons, sapp_nil_l in Hdd. cbn [strings.HasPrefix sdrop] in Hdd.
      rewrite Hd in Hdd. cbn [andb] in Hdd.
      destruct rest'; cbn [strings.HasPrefix andb] in Hdd; congruence. }
  assert ((filepath.w out1 <= String.length (filepath.buf out1))%nat
          /\ filepath.lb_string out1 +:+ String c e0 = rootedPath (rev (String c e0 :: stack)))
    as [Hw1 Hs1].
  { subst out1. cbn [rev]. rewrite rootedPath_snoc.
    pose proof (length_stake _ _ Hw) as Hlen. fold (filepath.lb_string out) in Hlen.
    destruct (rootedPath_length (rev stack)) as [[Hn Hl1]|[Hc Hl2]];
      [apply Forall_rev; exact Hp| |].
    - rewrite Hs, Hl1 in Hlen. rewrite <- Hlen. cbn [Nat.eqb negb].
      split; [lia|]. rewrite Hs, Hn. reflexivity.
    - rewrite Hs in Hlen.
      destruct (Nat.eqb_spec (filepath.w out) 1) as [H1|H1]; [lia|]. cbn [negb].
      destruct (append_buf out filepath.Separator Hw) as (Hla & _ & _ & _ & Hstr).
      split; [rewrite Hla; cbn; lia|].
      rewrite Hstr, Hs. destruct (rev stack); [congruence|].
      rewrite !app_assoc_s. reflexivity. }
  pose proof (copyElem_elemSplit (String c rest) out1 Hw1) as Hce.
  cbn [filepath.copyElem elemSplit] in Hce. rewrite Hsep, E in Hce.
  cbn [filepath.copyElem]. rewrite Hsep.
  destruct (filepath.copyElem rest (filepath.lb_append out1 c)) as [rest2 out3].
  cbn [fst snd] in Hce. destruct Hce as (-> & Hs3 & Hw3).
  assert (String.eqb (String c e0) EmptyString || String.eqb (String c e0) "." = false) as N1.
  { unfold plainElem in Hplain. cbn [String.eqb orb].
    apply andb_true_iff in Hplain as [Hplain _]. apply andb_true_iff in Hplain as [Hplain _].
    apply andb_true_iff in Hplain as [_ Hplain]. apply negb_true_iff in Hplain. exact Hplain. }
  assert (String.eqb (String c e0) ".." = false) as N2.
  { unfold plainElem in Hplain.
    apply andb_true_iff in Hplain as [Hplain _]. apply andb_true_iff in Hplain as [_ Hplain].
    apply negb_true_iff in Hplain. exact Hplain. }
  cbn [resolve]. rewrite N1, N2.
  apply IH; [lia|exact Hw3|rewrite Hs3; exact Hs1|].
  apply Forall_cons. split; [exact Hplain|exact Hp].
Qed.

Lemma Clean_rooted (path : string) :
  filepath.IsAbs path = true ->
  filepath.Clean path = rootedPath (resolve [] (pathElements path)).
Proof.
  unfold filepath.IsAbs. intros Ha. apply HasPrefix_spec in Ha as [rest ->].
  rewrite sapp_cons, sapp_nil_l.
  assert (Ascii.eqb "/" "/" = true) as Hc by reflexivity. set (c := "/"%char) in *.
  unfold filepath.Clean. unfold filepath.IsPathSeparator, filepath.Separator. fold c. rewrite Hc.
  set (out0 := filepath.lb_append {| filepath.buf := ""; filepath.w := 0 |} "/").
  destruct (cleanLoop_rooted (String.length (String c rest)) rest out0 [])
    as [Hs Hw]; [cbn [String.length]; lia|subst out0 c; vm_compute; lia|reflexivity|constructor|].
  unfold pathElements. cbn [strings.Split1]. unfold filepath.Separator. fold c. rewrite Hc.
  cbn [resolve String.eqb orb].
  set (out' := filepath.cleanLoop _ _ _ _ _) in *.
  assert (filepath.w out' <> 0)%nat as Hnz.
  { intros Hz. unfold filepath.lb_string in Hs. rewrite Hz in Hs. discriminate Hs. }
  destruct (Nat.eqb_spec (filepath.w out') 0); [contradiction|]. exact Hs.
Qed.
(** ** Fields and elements *)

Lemma Split1_app_sep (a t : string) (sep : ascii) :
  strings.Split1 (a +:+ String sep t) sep = strings.Split1 a sep ++ strings.Split1 t sep.
Proof.
  induction a as [|c a IH].
  - rewrite sapp_nil_l. cbn [strings.Split1]. rewrite Ascii.eqb_refl. reflexivity.
  - rewrite sapp_cons. cbn [strings.Split1]. rewrite IH.
    destruct (Ascii.eqb c sep); [reflexivity|].
    pose proof (Split1_nonempty a sep) as Hn.
    destruct (strings.Split1 a sep); [congruence|reflexivity].
Qed.

Lemma Split1_sepFree (e : string) :
  sepFree e = true -> strings.Split1 e filepath.Separator = [e].
Proof.
  induction e as [|c e IH]; [reflexivity|].
  cbn [sepFree strings.Split1]. intros H. apply andb_true_iff in H as [Hc He].
  apply negb_true_iff in Hc. unfold filepath.IsPathSeparator in Hc. rewrite Hc, (IH He).
  reflexivity.
Qed.

Lemma Split1_fields_sepFree (s : string) :
  Forall (fun e => sepFree e = true) (strings.Split1 s filepath.Separator).
Proof.
  induction s as [|c s IH]; [repeat constructor|].
  cbn [strings.Split1]. destruct (Ascii.eqb c filepath.Separator) eqn:Hc.
  - constructor; [reflexivity|exact IH].
  - destruct (strings.Split1 s filepath.Separator) as [|f fs]; [repeat constructor; cbn [sepFree];
      unfold filepath.IsPathSeparator; rewrite Hc; reflexivity|].
    apply Forall_cons in IH as [Hf Hfs]. constructor; [|exact Hfs].
    cbn [sepFree]. unfold filepath.IsPathSeparator. rewrite Hc, Hf. reflexivity.
Qed.

Lemma plainElem_sepFree (e : string) : plainElem e = true -> sepFree e = true.
Proof. unfold plainElem. intros H. apply andb_true_iff in H as [_ H]. exact H. Qed.

Lemma Join_cons2 (a b : string) (es : list string) (sep : string) :
  strings.Join (a :: b :: es) sep = a +:+ sep +:+ strings.Join (b :: es) sep.
Proof. reflexivity. Qed.

Lemma Split1_Join (es : list string) :
  es <> [] -> Forall (fun e => sepFree e = true) es ->
  strings.Split1 (strings.Join es "/") filepath.Separator = es.
Proof.
  induction es as [|a es IH]; [congruence|]. intros _ Hp.
  apply Forall_cons in Hp as [Ha Hes].
  destruct es as [|b es]; [apply Split1_sepFree; exact Ha|].
  rewrite Join_cons2. change ("/" +:+ strings.Join (b :: es) "/")
    with (String filepath.Separator (strings.Join (b :: es) "/")).
  rewrite Split1_app_sep, (Split1_sepFree a Ha), IH; [reflexivity|discriminate|exact Hes].
Qed.

(** Splitting at a separator and joining with it gives the text back. *)
Lemma Join_Split1 (s : string) (sep : ascii) :
  strings.Join (strings.Split1 s sep) (String sep EmptyString) = s.
Proof.
  induction s as [|c s IH]; [reflexivity|].
  cbn [strings.Split1]. pose proof (Split1_nonempty s sep) as Hn.
  destruct (Ascii.eqb_spec c sep) as [->|Hc].
  - destruct (strings.Split1 s sep) as [|f fs] eqn:E; [congruence|].
    rewrite Join_cons2, IH. reflexivity.
  - destruct (strings.Split1 s sep) as [|f fs] eqn:E; [congruence|].
    destruct fs as [|g fs].
    + cbn [strings.Join] in *. rewrite IH. reflexivity.
    + rewrite Join_cons2 in *. rewrite sapp_cons, IH. reflexivity.
Qed.

Lemma Join_app_nonempty (a b : list string) (sep : string) :
  a <> [] -> b <> [] ->
  strings.Join (a ++ b) sep = strings.Join a sep +:+ sep +:+ strings.Join b sep.
Proof.
  induction a as [|x a IH]; [congruence|]. intros _ Hb.
  destruct a as [|y a].
  - destruct b as [|z b]; [congruence|]. reflexivity.
  - change ((x :: y :: a) ++ b) with (x :: ((y :: a) ++ b)).
    change ((y :: a) ++ b) with (y :: (a ++ b)) at 1.
    rewrite Join_cons2. change (y :: a ++ b) with ((y :: a) ++ b).
    rewrite IH by (discriminate || exact Hb). rewrite Join_cons2, !app_assoc_s. reflexivity.
Qed.

(** ** Resolution *)

Lemma plainElem_step (e : string) :
  plainElem e = true ->
  String.eqb e EmptyString || String.eqb e "." = false /\ String.eqb e ".." = false.
Proof.
  unfold plainElem. intros H.
  apply andb_true_iff in H as [H _]. apply andb_true_iff in H as [H H3].
  apply andb_true_iff in H as [H1 H2]. apply negb_true_iff in H1, H2, H3.
  rewrite H1, H2, H3. split; reflexivity.
Qed.

Lemma resolve_plain (stack es : list string) :
  Forall (fun e => plainElem e = true) es -> resolve stack es = rev stack ++ es.
Proof.
  revert stack. induction es as [|e es IH]; intros stack Hp; cbn [resolve].
  - rewrite List.app_nil_r. reflexivity.
  - apply Forall_cons in Hp as [He Hes]. destruct (plainElem_step e He) as [-> ->].
    rewrite (IH _ Hes). cbn [rev]. rewrite <- List.app_assoc. reflexivity.
Qed.

Lemma resolve_app (stack a b : list string) :
  resolve stack (a ++ b) = resolve (rev (resolve stack a)) b.
Proof.
  revert stack. induction a as [|e a IH]; intros stack.
  - cbn [app resolve]. rewrite rev_involutive. reflexivity.
  - cbn [app resolve].
    destruct (String.eqb e EmptyString || String.eqb e "."); [apply IH|].
    destruct (String.eqb e ".."); apply IH.
Qed.

Lemma resolve_keeps_plain (stack es : list string) :
  Forall (fun e => plainElem e = true) stack ->
  Forall (fun e => sepFree e = true) es ->
  Forall (fun e => plainElem e = true) (resolve stack es).
Proof.
  revert stack. induction es as [|e es IH]; intros stack Hs He; cbn [resolve].
  - apply Forall_rev. exact Hs.
  - apply Forall_cons in He as [He Hes].
    destruct (String.eqb e EmptyString || String.eqb e ".") eqn:E1; [apply IH; assumption|].
    destruct (String.eqb e "..") eqn:E2.
    + apply IH; [|exact Hes]. destruct stack; [constructor|].
      apply Forall_cons in Hs as [_ Hs]. exact Hs.
    + apply IH; [|exact Hes]. constructor; [|exact Hs].
      apply orb_false_iff in E1 as [E0 E1]. unfold plainElem. rewrite E0, E1, E2, He. reflexivity.
Qed.

Lemma pathElements_plain (stack : list string) (path : string) :
  Forall (fun e => plainElem e = true) stack ->
  Forall (fun e => plainElem e = true) (resolve stack (pathElements path)).
Proof. intros Hs. apply resolve_keeps_plain; [exact Hs|apply Split1_fields_sepFree]. Qed.

(** The fields of a rooted path in normal form. *)
Lemma Split1_rootedPath (es : list string) :
  Forall (fun e => plainElem e = true) es ->
  strings.Split1 (rootedPath es) filepath.Separator
  = EmptyString :: match es with [] => [EmptyString] | _ => es end.
Proof.
  intros Hp. unfold rootedPath.
  change ("/" +:+ strings.Join es "/") with (String filepath.Separator (strings.Join es "/")).
  cbn [strings.Split1]. rewrite Ascii.eqb_refl. f_equal.
  destruct es as [|e es]; [reflexivity|].
  apply Split1_Join; [discriminate|]. eapply Forall_impl; [exact Hp|].
  intros a. apply plainElem_sepFree.
Qed.

Lemma rootedPath_inj (a b : list string) :
  Forall (fun e => plainElem e = true) a -> Forall (fun e => plainElem e = true) b ->
  rootedPath a = rootedPath b -> a = b.
Proof.
  intros Ha Hb E. apply (f_equal (fun s => strings.Split1 s filepath.Separator)) in E.
  rewrite !Split1_rootedPath in E by assumption. injection E as E.
  destruct a as [|x a], b as [|y b]; try reflexivity; try exact E.
  - injection E as <- _. apply Forall_cons in Hb as [Hb _]. discriminate Hb.
  - injection E as -> _. apply Forall_cons in Ha as [Ha _]. discriminate Ha.
Qed.

Lemma Clean_rootedPath (es : list string) :
  Forall (fun e => plainElem e = true) es -> filepath.Clean (rootedPath es) = rootedPath es.
Proof.
  intros Hp.
  rewrite Clean_rooted by (apply HasPrefix_spec; eexists; reflexivity). f_equal.
  unfold pathElements. rewrite Split1_rootedPath by exact Hp.
  cbn [resolve String.eqb orb]. destruct es as [|e es]; [reflexivity|].
  apply (resolve_plain [] (e :: es) Hp).
Qed.

Lemma isPrefix_spec (a b : list string) :
  isPrefix a b = true <-> exists rest, b = a ++ rest.
Proof.
  revert b. induction a as [|x a IH]; intros b; cbn [isPrefix].
  - split; [intros _; exists b; reflexivity|reflexivity].
  - destruct b as [|y b]; [split; [discriminate|intros [rest E]; discriminate E]|].
    rewrite andb_true_iff, String.eqb_eq, IH. split.
    + intros [-> [rest ->]]. exists rest. reflexivity.
    + intros [rest E]. injection E as -> ->. split; [reflexivity|exists rest; reflexivity].
Qed.

(** The string test of [safePath] is the test on the elements. *)
Lemma escape_test (root target : list string) :
  Forall (fun e => plainElem e = true) root ->
  Forall (fun e => plainElem e = true) target ->
  negb (strings.HasPrefix (rootedPath target)
          (rootedPath root +:+ String filepath.Separator EmptyString))
  && negb (String.eqb (rootedPath target) (rootedPath root))
  = negb (within root target).
Proof.
  intros Hr Ht.
  destruct (within root target) eqn:Hw; cbn [negb].
  - apply andb_false_iff. unfold within in Hw.
    destruct root as [|r root].
    + destruct target; [|discriminate]. right. reflexivity.
    + apply isPrefix_spec in Hw as [rest ->].
      destruct rest as [|s rest].
      * right. rewrite List.app_nil_r, String.eqb_refl. reflexivity.
      * left. apply negb_false_iff, HasPrefix_spec.
        exists (strings.Join (s :: rest) "/"). unfold rootedPath.
        rewrite Join_app_nonempty by discriminate. rewrite !app_assoc_s. reflexivity.
  - apply andb_true_iff. split; apply negb_true_iff.
    + destruct (strings.HasPrefix _ _) eqn:Hp; [exfalso|reflexivity].
      apply HasPrefix_spec in Hp as [t E].
      apply (f_equal (fun s => strings.Split1 s filepath.Separator)) in E.
      rewrite app_assoc_s, sapp_cons, sapp_nil_l, Split1_app_sep in E.
      rewrite !Split1_rootedPath in E by assumption. injection E as E.
      pose proof (Split1_nonempty t filepath.Separator) as Hn.
      destruct (strings.Split1 t filepath.Separator) as [|f fs]; [congruence|].
      unfold within in Hw. destruct root as [|r root].
      * destruct target as [|y target]; [discriminate E|].
        injection E as -> _. apply Forall_cons in Ht as [Ht _]. discriminate Ht.
      * destruct target as [|y target].
        { cbn [app] in E. injection E as _ E. destruct root; discriminate E. }
        assert (isPrefix (r :: root) (y :: target) = true) as Hp'
          by (apply isPrefix_spec; exists (f :: fs); exact E).
        congruence.
    + destruct (String.eqb_spec (rootedPath target) (rootedPath root)) as [E|]; [|reflexivity].
      apply rootedPath_inj in E; [|assumption..]. subst target.
      unfold within in Hw. destruct root; [discriminate|].
      assert (isPrefix (s :: root) (s :: root) = true) as Hp'
        by (apply isPrefix_spec; exists []; rewrite List.app_nil_r; reflexivity).
      congruence.
Qed.
(** ** [safePath] below a rooted directory *)

Section LexicalFacts.
Context `{Host}.

Lemma IsAbs_rootedPath (es : list string) : filepath.IsAbs (rootedPath es) = true.
Proof. apply HasPrefix_spec. eexists. reflexivity. Qed.

Lemma Abs_rooted (path : string) (x : Ext) :
  filepath.IsAbs path = true ->
  filepath_Abs path x = (rootedPath (resolve [] (pathElements path)), None).
Proof.
  intros Ha. unfold filepath_Abs. rewrite Ha, Clean_rooted by exact Ha. reflexivity.
Qed.

Lemma joined_rooted (workDir candidate : string) :
  filepath.IsAbs workDir = true ->
  (if filepath.IsAbs candidate then filepath.Clean candidate
   else filepath.Join [workDir; candidate])
  = rootedPath (lexicalTarget workDir candidate).
Proof.
  intros Hw. unfold lexicalTarget.
  destruct (filepath.IsAbs candidate) eqn:Hc; [apply Clean_rooted; exact Hc|].
  cbn [filepath.Join].
  destruct (String.eqb_spec workDir EmptyString) as [->|_]; [discriminate Hw|].
  change (strings.Join [workDir; candidate] "/")
    with (workDir +:+ String filepath.Separator candidate).
  rewrite Clean_rooted by (apply IsAbs_app; exact Hw).
  unfold pathElements. rewrite Split1_app_sep, resolve_app. reflexivity.
Qed.

Lemma lexicalTarget_plain (workDir candidate : string) :
  Forall (fun e => plainElem e = true) (lexicalTarget workDir candidate).
Proof.
  unfold lexicalTarget. destruct (filepath.IsAbs candidate).
  - apply pathElements_plain. constructor.
  - apply pathElements_plain. apply Forall_rev, pathElements_plain. constructor.
Qed.

(** With a rooted [workDir], [safePath] is a function of the two strings
    alone. *)
Lemma safePath_resolved (workDir p : string) (x : Ext) :
  filepath.IsAbs workDir = true ->
  strings.TrimSpace p <> EmptyString ->
  safePath workDir p x
  = if within (resolve [] (pathElements workDir))
              (lexicalTarget workDir (strings.TrimSpace p))
    then (rootedPath (lexicalTarget workDir (strings.TrimSpace p)), None)
    else (EmptyString, Some "path escapes workspace").
Proof.
  intros Hw Hp. unfold safePath.
  destruct (String.eqb_spec (strings.TrimSpace p) EmptyString) as [E|_]; [contradiction|].
  rewrite (joined_rooted _ _ Hw).
  pose proof (lexicalTarget_plain workDir (strings.TrimSpace p)) as Ht.
  set (target := lexicalTarget workDir (strings.TrimSpace p)) in *.
  rewrite (Abs_rooted (rootedPath target) x (IsAbs_rootedPath _)).
  rewrite (Abs_rooted workDir x Hw).
  assert (resolve [] (pathElements (rootedPath target)) = target) as ->.
  { apply (rootedPath_inj _ _ (pathElements_plain [] _ ltac:(constructor)) Ht).
    rewrite <- Clean_rooted by apply IsAbs_rootedPath. apply Clean_rootedPath. exact Ht. }
  rewrite escape_test; [|apply pathElements_plain; constructor|exact Ht].
  destruct (within _ target); reflexivity.
Qed.

End LexicalFacts.
Section SandboxExtras.
Context `{Host}.

Lemma within_inside (root target : list string) :
  within root target = true -> exists rest, target = root ++ rest.
Proof.
  unfold within. destruct root as [|r root].
  - destruct target; [|discriminate]. exists []. reflexivity.
  - apply isPrefix_spec.
Qed.

Lemma safePath_inside (workDir p abs : string) (x : Ext) :
  filepath.IsAbs workDir = true ->
  safePath workDir p x = (abs, None) -> insideWorkspace workDir abs.
Proof.
  intros Hw Hs.
  destruct (String.eqb_spec (strings.TrimSpace p) EmptyString) as [E|Hp].
  { unfold safePath in Hs. rewrite E in Hs. discriminate Hs. }
  rewrite (safePath_resolved _ _ _ Hw Hp) in Hs.
  pose proof (lexicalTarget_plain workDir (strings.TrimSpace p)) as Ht.
  destruct (within _ _) eqn:Hin; [|discriminate Hs]. injection Hs as <-.
  apply within_inside in Hin as [rest E]. exists rest. rewrite <- E. split; [|reflexivity].
  rewrite E in Ht. apply Forall_app in Ht as [_ Ht]. exact Ht.
Qed.

(** X1: below a rooted workspace directory [safePath] is lexical
    resolution.  The answer is decided by the elements of the two paths
    alone, whatever the state of the host: the elements of the request are
    resolved from left to right, starting from the workspace unless the
    request is rooted.  The request is granted exactly when the outcome is
    the workspace itself or, for a workspace that is not the root
    directory, lies below it; nothing below a workspace that is the root
    directory is granted.  The path returned is the outcome, which has no
    empty, [.] or [..] element. *)
Theorem safePath_lexical (workDir p : string) (x : Ext) :
  filepath.IsAbs workDir = true ->
  strings.TrimSpace p <> EmptyString ->
  let root := resolve [] (pathElements workDir) in
  let target := lexicalTarget workDir (strings.TrimSpace p) in
  Forall (fun e => plainElem e = true) target
  /\ (within root target = true -> safePath workDir p x = (rootedPath target, None))
  /\ (within root target = false ->
      safePath workDir p x = (EmptyString, Some "path escapes workspace"))
  /\ (within root target = true
      <-> target = root
          \/ (root <> [] /\ exists rest, rest <> [] /\ target = root ++ rest)).
Proof.
  intros Hw Hp root target. split; [apply lexicalTarget_plain|].
  pose proof (safePath_resolved workDir p x Hw Hp) as E. fold root target in E.
  split; [intros Hin; rewrite Hin in E; exact E|].
  split; [intros Hin; rewrite Hin in E; exact E|].
  unfold within. destruct root as [|r root].
  - split.
    + destruct target; [left; reflexivity|discriminate].
    + intros [->|[Hne _]]; [reflexivity|congruence].
  - rewrite isPrefix_spec. split.
    + intros [[|e rest] ->]; [left; rewrite List.app_nil_r; reflexivity|].
      right. split; [discriminate|]. exists (e :: rest). split; [discriminate|reflexivity].
    + intros [->|[_ (rest & _ & ->)]]; [exists []; rewrite List.app_nil_r; reflexivity|].
      exists rest. reflexivity.
Qed.

(** X2: a path that [safePath] returns for a rooted workspace is the
    workspace directory in normal form followed by names: no [..] is left
    in it, and it is rooted. *)
Theorem safePath_canonical (workDir p abs : string) (x : Ext) :
  filepath.IsAbs workDir = true ->
  safePath workDir p x = (abs, None) ->
  exists rest,
    abs = rootedPath (resolve [] (pathElements workDir) ++ rest)
    /\ Forall (fun e => plainElem e = true) (resolve [] (pathElements workDir) ++ rest)
    /\ ~ In ".." (pathElements abs)
    /\ ~ In "." (pathElements abs)
    /\ filepath.IsAbs abs = true
    /\ filepath.Clean abs = abs.
Proof.
  intros Hw Hs. destruct (safePath_inside _ _ _ _ Hw Hs) as (rest & Hrest & ->).
  exists rest. split; [reflexivity|].
  assert (Forall (fun e => plainElem e = true) (resolve [] (pathElements workDir) ++ rest))
    as Hall by (apply Forall_app; split; [apply pathElements_plain; constructor|exact Hrest]).
  split; [exact Hall|].
  set (es := resolve [] (pathElements workDir) ++ rest) in *.
  assert (forall e, In e (pathElements (rootedPath es)) -> e = EmptyString \/ plainElem e = true)
    as Hel.
  { unfold pathElements. rewrite Split1_rootedPath by exact Hall.
    intros e [<-|He]; [left; reflexivity|].
    destruct es as [|a es']; [destruct He as [<-|[]]; left; reflexivity|].
    right. revert e He. apply List.Forall_forall. exact Hall. }
  split; [intros Hi; destruct (Hel _ Hi) as [E|E]; discriminate E|].
  split; [intros Hi; destruct (Hel _ Hi) as [E|E]; discriminate E|].
  split; [apply IsAbs_rootedPath|apply Clean_rootedPath; exact Hall].
Qed.

Lemma Join_names_relative (es : list string) :
  es <> [] -> Forall (fun e => plainElem e = true) es ->
  filepath.IsAbs (strings.Join es "/") = false /\ strings.Join es "/" <> EmptyString.
Proof.
  intros Hn Hp. destruct es as [|e es]; [congruence|].
  apply Forall_cons in Hp as [He _].
  destruct e as [|c e]; [discriminate He|].
  assert (filepath.IsPathSeparator c = false) as Hc.
  { apply plainElem_sepFree in He. cbn [sepFree] in He.
    apply andb_true_iff in He as [He _]. apply negb_true_iff. exact He. }
  assert (exists t, strings.Join (String c e :: es) "/" = String c t) as [t ->].
  { destruct es; [exists e; reflexivity|]. rewrite Join_cons2, sapp_cons. eexists. reflexivity. }
  split; [|discriminate].
  unfold filepath.IsAbs. cbn [strings.HasPrefix].
  unfold filepath.IsPathSeparator, filepath.Separator in Hc. rewrite Hc. reflexivity.
Qed.

(** X3: a relative path made of names is always granted, and leads to the
    workspace directory followed by these names (the workspace is rooted and
    not the root directory; the path is written without white space around
    it). *)
Theorem safePath_accepts_names (workDir : string) (names : list string) (x : Ext) :
  filepath.IsAbs workDir = true ->
  resolve [] (pathElements workDir) <> [] ->
  names <> [] ->
  Forall (fun e => plainElem e = true) names ->
  strings.TrimSpace (strings.Join names "/") = strings.Join names "/" ->
  safePath workDir (strings.Join names "/") x
  = (rootedPath (resolve [] (pathElements workDir) ++ names), None).
Proof.
  intros Hw Hroot Hn Hp Htrim.
  destruct (Join_names_relative names Hn Hp) as [Hrel Hne].
  rewrite (safePath_resolved _ _ _ Hw) by (rewrite Htrim; exact Hne).
  rewrite Htrim. unfold lexicalTarget. rewrite Hrel.
  change (pathElements (strings.Join names "/"))
    with (strings.Split1 (strings.Join names "/") filepath.Separator).
  rewrite Split1_Join;
    [|exact Hn|eapply Forall_impl; [exact Hp|intros a; apply plainElem_sepFree]].
  rewrite (resolve_plain _ names Hp), rev_involutive.
  set (root := resolve [] (pathElements workDir)) in *.
  assert (within root (root ++ names) = true) as ->; [|reflexivity].
  unfold within. destruct root as [|r root]; [congruence|].
  apply isPrefix_spec. exists names. reflexivity.
Qed.

(** X4: a path that [safePath] has returned is granted again and comes
    back unchanged, as long as no white space surrounds it. *)
Theorem safePath_fixpoint (workDir p abs : string) (x y : Ext) :
  filepath.IsAbs workDir = true ->
  safePath workDir p x = (abs, None) ->
  strings.TrimSpace abs = abs ->
  safePath workDir abs y = (abs, None).
Proof.
  intros Hw Hs Htrim.
  destruct (String.eqb_spec (strings.TrimSpace p) EmptyString) as [E|Hp].
  { unfold safePath in Hs. rewrite E in Hs. discriminate Hs. }
  rewrite (safePath_resolved _ _ _ Hw Hp) in Hs.
  pose proof (lexicalTarget_plain workDir (strings.TrimSpace p)) as Ht.
  set (target := lexicalTarget workDir (strings.TrimSpace p)) in *.
  destruct (within _ target) eqn:Hin; [|discriminate Hs]. injection Hs as <-.
  assert (rootedPath target <> EmptyString) as Hne by discriminate.
  rewrite (safePath_resolved _ _ _ Hw) by (rewrite Htrim; exact Hne).
  rewrite Htrim. unfold lexicalTarget. rewrite IsAbs_rootedPath.
  assert (resolve [] (pathElements (rootedPath target)) = target) as ->.
  { apply (rootedPath_inj _ _ (pathElements_plain [] _ ltac:(constructor)) Ht).
    rewrite <- Clean_rooted by apply IsAbs_rootedPath. apply Clean_rootedPath. exact Ht. }
  rewrite Hin. reflexivity.
Qed.

(** X5: when the workspace is the root directory, [safePath] grants the
    root directory itself and nothing else: every name is refused as an
    escape, because the prefix tested for is then a doubled separator. *)
Theorem safePath_root_workspace (workDir : string) (x : Ext) :
  filepath.IsAbs workDir = true ->
  resolve [] (pathElements workDir) = [] ->
  (forall p abs, safePath workDir p x = (abs, None) -> abs = "/")
  /\ (forall name, plainElem name = true -> strings.TrimSpace name = name ->
        safePath workDir name x = (EmptyString, Some "path escapes workspace")).
Proof.
  intros Hw Hroot. split.
  - intros p abs Hs.
    destruct (String.eqb_spec (strings.TrimSpace p) EmptyString) as [E|Hp].
    { unfold safePath in Hs. rewrite E in Hs. discriminate Hs. }
    rewrite (safePath_resolved _ _ _ Hw Hp), Hroot in Hs.
    unfold within in Hs. destruct (lexicalTarget _ _); [|discriminate Hs].
    injection Hs as <-. reflexivity.
  - intros name Hp Htrim.
    destruct (Join_names_relative [name]) as [Hrel Hne]; [discriminate|repeat constructor; exact Hp|].
    cbn [strings.Join] in Hrel, Hne.
    rewrite (safePath_resolved _ _ _ Hw) by (rewrite Htrim; exact Hne).
    rewrite Htrim, Hroot. unfold lexicalTarget. rewrite Hrel, Hroot.
    unfold pathElements. rewrite (Split1_sepFree name (plainElem_sepFree _ Hp)).
    rewrite (resolve_plain _ [name]) by (repeat constructor; exact Hp).
    reflexivity.
Qed.

End SandboxExtras.

Lemma safePath_lexical_witness :
  @safePath Sim.host "/work/" " src/./../docs//a.txt " Sim.machine0 = ("/work/docs/a.txt", None)
  /\ @safePath Sim.host "/work/" "/work/../etc/passwd" Sim.machine0
     = (EmptyString, Some "path escapes workspace").
Proof.
  destruct (@safePath_lexical Sim.host "/work/" " src/./../docs//a.txt " Sim.machine0)
    as (_ & Hin & _); [reflexivity|vm_compute; discriminate|].
  destruct (@safePath_lexical Sim.host "/work/" "/work/../etc/passwd" Sim.machine0)
    as (_ & _ & Hout & _); [reflexivity|vm_compute; discriminate|].
  split; [exact (Hin eq_refl)|exact (Hout eq_refl)].
Defined.

Lemma safePath_canonical_witness :
  exists rest, "/work/docs/a.txt" = rootedPath (["work"] ++ rest)
               /\ ~ In ".." (pathElements "/work/docs/a.txt").
Proof.
  destruct (@safePath_canonical Sim.host "/work/" " src/./../docs//a.txt " "/work/docs/a.txt"
              Sim.machine0) as (rest & E & _ & Hdd & _); [reflexivity|reflexivity|].
  exists rest. split; [exact E|exact Hdd].
Defined.

Lemma safePath_accepts_names_witness :
  @safePath Sim.host "/work" "src/main.go" Sim.machine0 = ("/work/src/main.go", None).
Proof.
  apply (@safePath_accepts_names Sim.host "/work" ["src"; "main.go"] Sim.machine0);
    [reflexivity|discriminate|discriminate|repeat constructor|reflexivity].
Defined.

Lemma safePath_fixpoint_witness :
  @safePath Sim.host "/work" "/work/docs/a.txt" Sim.machine0 = ("/work/docs/a.txt", None).
Proof.
  apply (@safePath_fixpoint Sim.host "/work" " docs/./a.txt " "/work/docs/a.txt"
           Sim.machine0 Sim.machine0); reflexivity.
Defined.

Lemma safePath_root_workspace_witness :
  @safePath Sim.host "/" "etc" Sim.machine0 = (EmptyString, Some "path escapes workspace").
Proof.
  apply (proj2 (@safePath_root_workspace Sim.host "/" Sim.machine0 eq_refl eq_refl));
    reflexivity.
Defined.
(** ** The file tools *)

Lemma slice_all {A} (l : list A) : slice l 0 (Z.of_nat (length l)) = l.
Proof.
  unfold slice. cbn [Z.to_nat skipn]. rewrite Z.sub_0_r, Nat2Z.id. apply firstn_all.
Qed.

Lemma slice_length {A} (l : list A) (a b : Z) :
  0 <= a <= b -> b <= Z.of_nat (length l) ->
  Z.of_nat (length (slice l a b)) = b - a.
Proof.
  intros Hab Hb. unfold slice. rewrite length_firstn, length_skipn. lia.
Qed.

Lemma slice_empty {A} (l : list A) (a b : Z) : b <= a -> slice l a b = [].
Proof.
  intros Hab. unfold slice. replace (Z.to_nat (b - a)) with 0%nat by lia. reflexivity.
Qed.

Lemma slice_beyond {A} (l : list A) (a b : Z) :
  Z.of_nat (length l) <= a -> slice l a b = [].
Proof.
  intros Ha. unfold slice. rewrite skipn_all2 by lia. apply firstn_nil.
Qed.

Lemma slice_split {A} (l : list A) (a b : Z) :
  0 <= a <= b -> b <= Z.of_nat (length l) ->
  l = slice l 0 a ++ slice l a b ++ slice l b (Z.of_nat (length l)).
Proof.
  intros Hab Hb. unfold slice. cbn [Z.to_nat skipn]. rewrite Z.sub_0_r.
  rewrite <- (firstn_skipn (Z.to_nat a) l) at 1. f_equal.
  rewrite <- (firstn_skipn (Z.to_nat (b - a)) (skipn (Z.to_nat a) l)) at 1. f_equal.
  rewrite skipn_skipn. replace (Z.to_nat (b - a) + Z.to_nat a)%nat with (Z.to_nat b) by lia.
  symmetry. apply firstn_all2. rewrite length_skipn. lia.
Qed.

Ltac zcases :=
  repeat match goal with
         | |- context [Z.ltb ?a ?b] => destruct (Z.ltb_spec a b)
         | |- context [Z.leb ?a ?b] => destruct (Z.leb_spec a b)
         | H : context [Z.ltb ?a ?b] |- _ => destruct (Z.ltb_spec a b)
         | H : context [Z.leb ?a ?b] |- _ => destruct (Z.leb_spec a b)
         end.

Section ReadFacts.
Context `{Runtime} `{Host}.

(** X6: [read_file] shows a window of the lines of the file and changes
    nothing.  The window always lies inside the file, so the slice
    expression of the source cannot go out of range; [start_line] and
    [end_line] count lines from 1 and include both ends; without them the
    text comes back as it is; a window that starts after the end, or ends
    before it starts, is empty; a negative [end_line] means the last
    line. *)
Theorem runRead_window (cfg : Config) (input : gmap string jvalue) (w : World)
        (abs text : string) :
  safePath (cfg_WorkDir cfg) (getString input "path") (ext w) = (abs, None) ->
  os_ReadFile abs (ext w) = (text, None) ->
  let lines := strings.Split1 text "010"%char in
  let n := Z.of_nat (length lines) in
  let maxChars := getIntOrDefault input "max_chars" maxToolResultChars in
  let shows (l : list string) :=
    fst (runRead cfg input w) = (clampText (strings.Join l LF) maxChars, None) in
  snd (runRead cfg input w) = w
  /\ (exists start end_, 0 <= start <= end_ /\ end_ <= n /\ shows (slice lines start end_))
  /\ (forall a b,
        getOptionalInt input "start_line" = (a, true) ->
        getOptionalInt input "end_line" = (b, true) ->
        (1 <= a <= b -> b <= n ->
         shows (slice lines (a - 1) b)
         /\ Z.of_nat (length (slice lines (a - 1) b)) = b - a + 1)
        /\ (n < a \/ 0 <= b < a -> shows [])
        /\ (a <= 1 -> b < 0 -> fst (runRead cfg input w) = (clampText text maxChars, None)))
  /\ (snd (getOptionalInt input "start_line") = false ->
      snd (getOptionalInt input "end_line") = false ->
      fst (runRead cfg input w) = (clampText text maxChars, None)).
Proof.
  intros Hsafe Hread lines n maxChars shows.
  assert (1 <= n) as Hn.
  { subst n lines. pose proof (Split1_nonempty text "010"%char) as Hne.
    destruct (strings.Split1 text "010"%char); [congruence|]. cbn [length]. lia. }
  assert (strings.Join lines LF = text) as Hround by apply Join_Split1.
  unfold shows, runRead. rewrite Hsafe, Hread. fold lines n. cbn [fst snd].
  destruct (getOptionalInt input "start_line") as [a oka] eqn:Ea.
  destruct (getOptionalInt input "end_line") as [b okb] eqn:Eb.
  fold maxChars. cbn [fst snd].
  split; [reflexivity|].
  set (start0 := if oka then (if n <? (if a <? 1 then 1 else a) - 1 then n
                              else (if a <? 1 then 1 else a) - 1) else 0).
  set (end0 := if okb && (0 <=? b)
               then if b <? start0 then start0 else if n <? b then n else b else n).
  set (start1 := if end0 <? start0 then end0 else start0).
  assert (0 <= start0 <= n) as Hs0
    by (subst start0; destruct oka; zcases; lia).
  assert (start0 <= end0 <= n) as He0
    by (subst end0; destruct (okb && (0 <=? b)); zcases; lia).
  assert (start1 = start0) as Hs1 by (subst start1; zcases; lia).
  rewrite Hs1.
  split; [exists start0, end0; split; [lia|]; split; [lia|reflexivity]|].
  split.
  - intros a' b' [= -> ->] [= -> ->]. subst start0 end0. cbn [andb].
    split; [|split].
    + intros Hab Hb. zcases; try lia.
      split; [reflexivity|]. rewrite slice_length by lia. lia.
    + intros Hab. f_equal. f_equal. f_equal.
      destruct Hab as [Hab|Hab]; zcases; try lia;
        try (apply slice_beyond; fold lines; fold n; lia); apply slice_empty; lia.
    + intros Ha Hb.
      assert ((if a' <? 1 then 1 else a') = 1) as -> by (zcases; lia).
      change (1 - 1) with 0.
      zcases; try lia; subst n; rewrite slice_all, Hround; reflexivity.
  - intros Ha Hb. cbn [snd] in Ha, Hb. subst oka okb. subst start0 end0. cbn [andb].
    subst n. rewrite slice_all, Hround. reflexivity.
Qed.

End ReadFacts.

Lemma runRead_window_witness :
  fst (@runRead Ref.runtime Sim.host Sim.config Demo.readInput Demo.world)
  = ("two" +:+ LF +:+ "three", None).
Proof.
  destruct (@runRead_window Ref.runtime Sim.host Sim.config Demo.readInput Demo.world
              "/work/notes.txt" Demo.notes) as (_ & _ & Hab & _);
    [vm_compute; reflexivity|vm_compute; reflexivity|].
  destruct (Hab 2 3) as [Hin _]; [vm_compute; reflexivity|vm_compute; reflexivity|].
  destruct Hin as [Hshow _]; [lia|apply Z.leb_le; reflexivity|]. exact Hshow.
Defined.
(** ** [edit_text] *)

Lemma Split1_free (sep : ascii) (e : string) :
  charFree sep e = true -> strings.Split1 e sep = [e].
Proof.
  induction e as [|c e IH]; [reflexivity|].
  cbn [charFree strings.Split1]. intros Hf. apply andb_true_iff in Hf as [Hc He].
  apply negb_true_iff in Hc. rewrite Hc, (IH He). reflexivity.
Qed.

Lemma Split1_fields_free (sep : ascii) (s : string) :
  Forall (fun e => charFree sep e = true) (strings.Split1 s sep).
Proof.
  induction s as [|c s IH]; [repeat constructor|].
  cbn [strings.Split1]. destruct (Ascii.eqb c sep) eqn:Hc.
  - constructor; [reflexivity|exact IH].
  - destruct (strings.Split1 s sep) as [|f fs];
      [repeat constructor; cbn [charFree]; rewrite Hc; reflexivity|].
    apply Forall_cons in IH as [Hf Hfs]. constructor; [|exact Hfs].
    cbn [charFree]. rewrite Hc, Hf. reflexivity.
Qed.

Lemma Split1_Join_free (sep : ascii) (es : list string) :
  es <> [] -> Forall (fun e => charFree sep e = true) es ->
  strings.Split1 (strings.Join es (String sep EmptyString)) sep = es.
Proof.
  induction es as [|a es IH]; [congruence|]. intros _ Hp.
  apply Forall_cons in Hp as [Ha Hes].
  destruct es as [|b es]; [apply Split1_free; exact Ha|].
  rewrite Join_cons2, sapp_cons, sapp_nil_l.
  rewrite Split1_app_sep, (Split1_free sep a Ha), IH; [reflexivity|discriminate|exact Hes].
Qed.

Lemma Join_cons_nonempty (a : string) (es : list string) (sep : string) :
  es <> [] -> strings.Join (a :: es) sep = a +:+ sep +:+ strings.Join es sep.
Proof. destruct es; [congruence|reflexivity]. Qed.

Lemma slice_firstn {A} (l : list A) (k : Z) : slice l 0 k = firstn (Z.to_nat k) l.
Proof. unfold slice. cbn [Z.to_nat skipn]. rewrite Z.sub_0_r. reflexivity. Qed.

Lemma slice_skipn {A} (l : list A) (k : Z) :
  0 <= k -> slice l k (Z.of_nat (length l)) = skipn (Z.to_nat k) l.
Proof.
  intros Hk. unfold slice. apply firstn_all2. rewrite length_skipn. lia.
Qed.

(** [strings.ReplaceAll]: the bound of the embedding is never reached. *)
Lemma replace_fuel_enough (n m : nat) (s old new : string) :
  old <> EmptyString -> (String.length s <= n)%nat -> (String.length s <= m)%nat ->
  strings.replace_fuel n s old new = strings.replace_fuel m s old new.
Proof.
  intros Hold. revert m s. induction n as [|n IH]; intros m s Hn Hm.
  { destruct s; [|simpl in Hn; lia]. destruct m; reflexivity. }
  destruct m as [|m]; [destruct s; [reflexivity|simpl in Hm; lia]|].
  cbn [strings.replace_fuel]. destruct s as [|c s]; [reflexivity|].
  cbn [String.length] in Hn, Hm.
  assert (String.length (sdrop (String.length old) (String c s)) <= String.length s)%nat as Hd.
  { rewrite length_sdrop. destruct old; [congruence|]. cbn [String.length]. lia. }
  destruct (strings.HasPrefix (String c s) old); f_equal; apply IH; lia.
Qed.

Lemma replace_absent (fuel : nat) (s old new : string) :
  strings.Contains s old = false -> strings.replace_fuel fuel s old new = s.
Proof.
  revert s. induction fuel as [|fuel IH]; intros s Hc; [reflexivity|].
  cbn [strings.replace_fuel]. destruct s as [|c s]; [reflexivity|].
  cbn [strings.Contains] in Hc. apply orb_false_iff in Hc as [Hp Hc].
  rewrite Hp, (IH s Hc). reflexivity.
Qed.

Lemma replace_same (fuel : nat) (s old : string) :
  old <> EmptyString -> (String.length s <= fuel)%nat ->
  strings.replace_fuel fuel s old old = s.
Proof.
  intros Hold. revert s. induction fuel as [|fuel IH]; intros s Hf.
  { reflexivity. }
  cbn [strings.replace_fuel]. destruct s as [|c s]; [reflexivity|].
  cbn [String.length] in Hf.
  destruct (strings.HasPrefix (String c s) old) eqn:Hp.
  - apply HasPrefix_spec in Hp as [t E].
    assert (String.length t <= fuel)%nat as Ht.
    { apply (f_equal String.length) in E. rewrite length_app_s in E.
      cbn [String.length] in E. destruct old; [congruence|]. cbn [String.length] in E. lia. }
    rewrite E, sdrop_app, (IH t Ht). reflexivity.
  - rewrite IH by lia. reflexivity.
Qed.

Lemma charFree_app (sep : ascii) (a b : string) :
  charFree sep (a +:+ b) = charFree sep a && charFree sep b.
Proof.
  induction a as [|c a IH]; [reflexivity|].
  rewrite sapp_cons. cbn [charFree]. rewrite IH. apply andb_assoc.
Qed.

(** Replacing a single byte by a text without it leaves no occurrence. *)
Lemma replace_byte_free (fuel : nat) (s : string) (c : ascii) (new : string) :
  (String.length s <= fuel)%nat -> charFree c new = true ->
  charFree c (strings.replace_fuel fuel s (String c EmptyString) new) = true.
Proof.
  intros Hf Hnew. revert s Hf. induction fuel as [|fuel IH]; intros s Hf.
  { destruct s; [reflexivity|simpl in Hf; lia]. }
  cbn [strings.replace_fuel]. destruct s as [|d s]; [reflexivity|].
  cbn [String.length] in Hf. cbn [strings.HasPrefix String.length sdrop].
  destruct (Ascii.eqb d c) eqn:Hd.
  - assert (strings.HasPrefix s "" = true) as -> by (destruct s; reflexivity).
    cbn [andb]. rewrite charFree_app, Hnew, IH by lia. reflexivity.
  - cbn [andb charFree]. rewrite Hd, IH by lia. reflexivity.
Qed.

Section EditFacts.
Context `{Runtime} `{Host}.

(** X7: [edit_text] with action [insert] puts [new_text] after the first
    [insert_after + 1] lines: an index below [-1] prepends, an index from
    the number of lines on appends, so the slices of the source stay in
    range.  The other lines are kept in their order; when the new text is
    one line, the file that is written has exactly one line more.  The
    message repeats the index that was asked for, not the one used. *)
Theorem runEdit_insert (cfg : Config) (input : gmap string jvalue) (w : World)
        (abs text : string) :
  safePath (cfg_WorkDir cfg) (getString input "path") (ext w) = (abs, None) ->
  os_ReadFile abs (ext w) = (text, None) ->
  strings.ToLower unicode_ToLower (getString input "action") = "insert" ->
  let lines := strings.Split1 text "010"%char in
  let n := Z.of_nat (length lines) in
  let insertAfter := getIntOrDefault input "insert_after" (-1) in
  let newText := getString input "new_text" in
  let k := insertionPoint insertAfter n in
  let result := firstn (Z.to_nat k) lines ++ [newText] ++ skipn (Z.to_nat k) lines in
  let updated := strings.Join result LF in
  0 <= k <= n
  /\ runEdit cfg input w
     = writeBack abs updated ("inserted after line " +:+ itoa insertAfter) w
  /\ (k = 0 -> updated = newText +:+ LF +:+ text)
  /\ (k = n -> updated = text +:+ LF +:+ newText)
  /\ (charFree "010"%char newText = true ->
      strings.Split1 updated "010"%char = result
      /\ Z.of_nat (length result) = n + 1).
Proof.
  intros Hsafe Hread Haction lines n insertAfter newText k result updated.
  assert (1 <= n) as Hn.
  { subst n lines. pose proof (Split1_nonempty text "010"%char) as Hne.
    destruct (strings.Split1 text "010"%char); [congruence|]. cbn [length]. lia. }
  assert (strings.Join lines LF = text) as Hround by apply Join_Split1.
  assert (0 <= k <= n) as Hk by (subst k; unfold insertionPoint; zcases; lia).
  split; [exact Hk|]. split; [|split; [|split]].
  - unfold runEdit. rewrite Hsafe, Hread, Haction.
    cbn [String.eqb Ascii.eqb Bool.eqb andb]. fold lines n insertAfter newText.
    f_equal. subst updated result. f_equal.
    subst k. unfold insertionPoint.
    destruct (Z.ltb_spec insertAfter (-1)).
    + destruct (Z.leb_spec n (-1)); [lia|]. destruct (Z.leb_spec 0 (-1)); [lia|].
      reflexivity.
    + destruct (Z.leb_spec n insertAfter).
      * destruct (Z.leb_spec 0 (n - 1)); [|lia].
        replace (n - 1 + 1) with n by lia.
        rewrite slice_firstn. subst n. rewrite slice_skipn by lia. reflexivity.
      * destruct (Z.leb_spec 0 insertAfter).
        -- rewrite slice_firstn. subst n. rewrite slice_skipn by lia. reflexivity.
        -- assert (insertAfter = -1) as -> by lia. reflexivity.
  - intros Hz. subst updated result. rewrite Hz.
    change (Z.to_nat 0) with 0%nat. rewrite take_0, drop_0. cbn [app].
    rewrite Join_cons_nonempty, Hround; [reflexivity|].
    subst lines. apply Split1_nonempty.
  - intros Hz. subst updated result. rewrite Hz. subst n.
    rewrite Nat2Z.id, firstn_all, skipn_all. cbn [app].
    rewrite Join_snoc, Hround. destruct lines eqn:E; [|reflexivity].
    cbn [length] in Hn. lia.
  - intros Hfree. split.
    + apply Split1_Join_free; [destruct (firstn _ _); discriminate|].
      apply Forall_app. split; [apply Forall_take, Split1_fields_free|].
      constructor; [exact Hfree|]. apply Forall_drop, Split1_fields_free.
    + subst result. rewrite !length_app, length_firstn, length_skipn. cbn [length]. lia.
Qed.

(** X8: [edit_text] with action [delete_range] removes the lines from
    index [start] up to, not including, index [end] (lines counted from
    0), after both were clamped to the number of lines; what is removed is
    what lies between the kept parts, an empty range rewrites the file as
    it is, and the message names the clamped range.  A range that is not a
    pair, starts below 0 or ends before it starts is refused and nothing
    is written. *)
Theorem runEdit_delete_range (cfg : Config) (input : gmap string jvalue) (w : World)
        (abs text : string) :
  safePath (cfg_WorkDir cfg) (getString input "path") (ext w) = (abs, None) ->
  os_ReadFile abs (ext w) = (text, None) ->
  strings.ToLower unicode_ToLower (getString input "action") = "delete_range" ->
  let lines := strings.Split1 text "010"%char in
  let n := Z.of_nat (length lines) in
  let refused := ((EmptyString, Some "edit_text.delete_range invalid range"), w) in
  (forall r0 r1,
      input !! "range" = Some (JArray [r0; r1]) ->
      0 <= toInt r0 <= toInt r1 ->
      let start := Z.min (toInt r0) n in
      let end_ := Z.min (toInt r1) n in
      let kept := firstn (Z.to_nat start) lines ++ skipn (Z.to_nat end_) lines in
      runEdit cfg input w
      = writeBack abs (strings.Join kept LF)
                  ("deleted lines [" +:+ itoa start +:+ ", " +:+ itoa end_ +:+ ")") w
      /\ lines = firstn (Z.to_nat start) lines ++ slice lines start end_
                 ++ skipn (Z.to_nat end_) lines
      /\ Z.of_nat (length kept) = n - (end_ - start)
      /\ (start = end_ -> strings.Join kept LF = text))
  /\ (forall r0 r1,
        input !! "range" = Some (JArray [r0; r1]) ->
        toInt r0 < 0 \/ toInt r1 < toInt r0 ->
        runEdit cfg input w = refused)
  /\ ((forall r0 r1, input !! "range" <> Some (JArray [r0; r1])) ->
      runEdit cfg input w = refused).
Proof.
  intros Hsafe Hread Haction lines n refused.
  assert (strings.Join lines LF = text) as Hround by apply Join_Split1.
  split; [|split].
  - intros r0 r1 Hr Hrange start end_ kept.
    assert (0 <= start <= end_ /\ end_ <= n) as Hb by (subst start end_; lia).
    split; [|split; [|split]].
    + unfold runEdit. rewrite Hsafe, Hread, Haction, Hr.
      cbn [String.eqb Ascii.eqb Bool.eqb andb]. fold lines n.
      destruct (Z.ltb_spec (toInt r0) 0); [lia|].
      destruct (Z.ltb_spec (toInt r1) (toInt r0)); [lia|]. cbn [orb].
      assert ((if n <? toInt r0 then n else toInt r0) = start) as ->
        by (subst start; zcases; lia).
      assert ((if n <? toInt r1 then n else toInt r1) = end_) as ->
        by (subst end_; zcases; lia).
      rewrite slice_firstn. subst n. rewrite slice_skipn by lia. reflexivity.
    + rewrite (slice_split lines start end_) at 1 by lia.
      rewrite slice_firstn. subst n. rewrite slice_skipn by lia. reflexivity.
    + subst kept. rewrite length_app, length_firstn, length_skipn. subst n. lia.
    + intros E. subst kept. rewrite <- E, firstn_skipn. exact Hround.
  - intros r0 r1 Hr Hbad. unfold runEdit. rewrite Hsafe, Hread, Haction, Hr.
    cbn [String.eqb Ascii.eqb Bool.eqb andb].
    destruct (Z.ltb_spec (toInt r0) 0); [reflexivity|].
    destruct (Z.ltb_spec (toInt r1) (toInt r0)); [reflexivity|lia].
  - intros Hno. unfold runEdit. rewrite Hsafe, Hread, Haction.
    cbn [String.eqb Ascii.eqb Bool.eqb andb].
    destruct (input !! "range") as [[| | | |l|]|] eqn:E; try reflexivity.
    destruct l as [|r0 [|r1 [|r2 l]]]; try reflexivity.
    exfalso. exact (Hno r0 r1 eq_refl).
Qed.

(** X9: [edit_text] with action [replace] writes the text with every
    occurrence of [find] replaced, from left to right, and reports its
    length in bytes; an empty [find] is refused and nothing is written.
    When [find] does not occur, or is replaced by itself, the file is
    rewritten as it is; when [find] is a single byte and the replacement
    does not contain it, no occurrence is left. *)
Theorem runEdit_replace (cfg : Config) (input : gmap string jvalue) (w : World)
        (abs text : string) :
  safePath (cfg_WorkDir cfg) (getString input "path") (ext w) = (abs, None) ->
  os_ReadFile abs (ext w) = (text, None) ->
  strings.ToLower unicode_ToLower (getString input "action") = "replace" ->
  let findStr := getString input "find" in
  let replaceStr := getString input "replace" in
  let updated := strings.replace_fuel (String.length text) text findStr replaceStr in
  (findStr = EmptyString ->
   runEdit cfg input w = ((EmptyString, Some "edit_text.replace missing find"), w))
  /\ (findStr <> EmptyString ->
      runEdit cfg input w
      = writeBack abs updated ("replace done (" +:+ itoa (len updated) +:+ " bytes)") w
      /\ (forall fuel, (String.length text <= fuel)%nat ->
            strings.replace_fuel fuel text findStr replaceStr = updated)
      /\ (strings.Contains text findStr = false -> updated = text)
      /\ (replaceStr = findStr -> updated = text)
      /\ (forall c, findStr = String c EmptyString -> charFree c replaceStr = true ->
            charFree c updated = true)).
Proof.
  intros Hsafe Hread Haction findStr replaceStr updated. split.
  - intros E. unfold runEdit. rewrite Hsafe, Hread, Haction.
    cbn [String.eqb Ascii.eqb Bool.eqb andb]. fold findStr. rewrite E. reflexivity.
  - intros Hne. split; [|split; [|split; [|split]]].
    + unfold runEdit. rewrite Hsafe, Hread, Haction.
      cbn [String.eqb Ascii.eqb Bool.eqb andb]. fold findStr.
      destruct (String.eqb_spec findStr EmptyString) as [E|_]; [contradiction|].
      reflexivity.
    + intros fuel Hf. apply replace_fuel_enough; [exact Hne|exact Hf|lia].
    + intros Hc. apply replace_absent. exact Hc.
    + intros E. subst updated. rewrite E. apply replace_same; [exact Hne|lia].
    + intros c Ec Hfree. subst updated. rewrite Ec. apply replace_byte_free; [lia|exact Hfree].
Qed.

End EditFacts.

Lemma runEdit_insert_witness :
  let r := @runEdit Ref.runtime Sim.host Sim.config DemoEdit.insertInput Demo.world in
  fst r = ("inserted after line 0", None)
  /\ Sim.files (ext (snd r)) !! "/work/notes.txt"
     = Some ("one" +:+ LF +:+ "1.5" +:+ LF +:+ "two" +:+ LF +:+ "three").
Proof.
  destruct (@runEdit_insert Ref.runtime Sim.host Sim.config DemoEdit.insertInput Demo.world
              "/work/notes.txt" Demo.notes) as (_ & Hrun & _);
    [vm_compute; reflexivity..|].
  cbv zeta. rewrite Hrun. split; vm_compute; reflexivity.
Defined.

Lemma runEdit_delete_range_witness :
  let r := @runEdit Ref.runtime Sim.host Sim.config DemoEdit.deleteInput Demo.world in
  fst r = ("deleted lines [1, 2)", None)
  /\ Sim.files (ext (snd r)) !! "/work/notes.txt" = Some ("one" +:+ LF +:+ "three").
Proof.
  destruct (@runEdit_delete_range Ref.runtime Sim.host Sim.config DemoEdit.deleteInput
              Demo.world "/work/notes.txt" Demo.notes) as (Hdel & _);
    [vm_compute; reflexivity..|].
  destruct (Hdel (JString "1") (JString "2")) as (Hrun & _);
    [vm_compute; reflexivity|vm_compute; split; discriminate|].
  cbv zeta. rewrite Hrun. split; vm_compute; reflexivity.
Defined.

Lemma runEdit_replace_witness :
  let r := @runEdit Ref.runtime Sim.host Sim.config DemoEdit.replaceInput Demo.world in
  fst r = ("replace done (13 bytes)", None)
  /\ Sim.files (ext (snd r)) !! "/work/notes.txt" = Some ("one" +:+ LF +:+ "Two" +:+ LF +:+ "Three").
Proof.
  destruct (@runEdit_replace Ref.runtime Sim.host Sim.config DemoEdit.replaceInput
              Demo.world "/work/notes.txt" Demo.notes) as (_ & Hrep);
    [vm_compute; reflexivity..|].
  destruct Hrep as (Hrun & _); [vm_compute; discriminate|].
  cbv zeta. rewrite Hrun. split; vm_compute; reflexivity.
Defined.
(** ** The agent keeps to the workspace *)

Lemma lastSep_elem (a e : string) :
  sepFree e = true ->
  filepath.lastSep (a +:+ String filepath.Separator e) = Some (String.length a).
Proof.
  intros He. induction a as [|c a IH].
  - rewrite sapp_nil_l. cbn [filepath.lastSep String.length].
    assert (filepath.lastSep e = None) as ->.
    { clear -He. induction e as [|d e IH]; [reflexivity|].
      cbn [sepFree] in He. apply andb_true_iff in He as [Hd He].
      cbn [filepath.lastSep]. rewrite (IH He). apply negb_true_iff in Hd. rewrite Hd.
      reflexivity. }
    reflexivity.
  - rewrite sapp_cons. cbn [filepath.lastSep String.length]. rewrite IH. reflexivity.
Qed.

Lemma removelast_snoc {A} (l : list A) (x : A) : removelast (l ++ [x]) = l.
Proof. apply removelast_last. Qed.

(** [filepath.Dir] of a rooted path in normal form drops its last name. *)
Lemma Dir_rootedPath (es : list string) :
  Forall (fun e => plainElem e = true) es ->
  filepath.Dir (rootedPath es) = rootedPath (removelast es).
Proof.
  intros Hp. destruct es as [|e es] using rev_ind; [reflexivity|]. clear IHes.
  rewrite removelast_snoc.
  apply Forall_app in Hp as [Hes He]. apply Forall_inv in He.
  pose proof (plainElem_sepFree _ He) as Hsf.
  rewrite rootedPath_snoc. unfold filepath.Dir.
  destruct es as [|a es'].
  - change ("/" +:+ e) with ("" +:+ String filepath.Separator e).
    rewrite lastSep_elem by exact Hsf. reflexivity.
  - set (P := rootedPath (a :: es')) in *.
    change (P +:+ "/" +:+ e) with (P +:+ String filepath.Separator e).
    rewrite lastSep_elem by exact Hsf.
    assert (stake (S (String.length P)) (P +:+ String filepath.Separator e)
            = P +:+ String filepath.Separator EmptyString) as ->.
    { clear. induction P as [|c P IH]; [reflexivity|].
      rewrite !sapp_cons. cbn [String.length stake]. f_equal. exact IH. }
    rewrite Clean_rooted by (apply IsAbs_app, IsAbs_rootedPath). f_equal.
    unfold pathElements. rewrite Split1_app_sep. subst P.
    rewrite Split1_rootedPath by exact Hes. cbn [strings.Split1].
    change (("" :: a :: es') ++ [""]) with ("" :: ((a :: es') ++ [""])).
    cbn [resolve String.eqb orb]. rewrite resolve_app, (resolve_plain [] _ Hes).
    remember (a :: es') as l. cbn [rev app resolve String.eqb orb]. apply rev_involutive.
Qed.

Lemma isPrefix_app (a b : list string) : isPrefix a (a ++ b) = true.
Proof. apply isPrefix_spec. exists b. reflexivity. Qed.

Lemma inside_insideb (workDir abs : string) :
  insideWorkspace workDir abs -> insideb workDir abs = true.
Proof.
  intros (rest & Hrest & ->). unfold insideb.
  assert (Forall (fun e => plainElem e = true) (resolve [] (pathElements workDir) ++ rest))
    as Hall by (apply Forall_app; split; [apply pathElements_plain; constructor|exact Hrest]).
  rewrite IsAbs_rootedPath, (Clean_rootedPath _ Hall), String.eqb_refl. cbn [andb].
  assert (resolve [] (pathElements (rootedPath (resolve [] (pathElements workDir) ++ rest)))
          = resolve [] (pathElements workDir) ++ rest) as ->.
  { apply (rootedPath_inj _ _ (pathElements_plain [] _ ltac:(constructor)) Hall).
    rewrite <- Clean_rooted by apply IsAbs_rootedPath. apply Clean_rootedPath. exact Hall. }
  apply isPrefix_app.
Qed.

Section WatchFacts.
Context `{Runtime}.
Variable h : Host.
Variable cfg : Config.
Hypothesis rooted : filepath.IsAbs (cfg_WorkDir cfg) = true.

Lemma watch_write (path data : string) (s : watched h) :
  clean h s = true -> okWrite cfg path = true ->
  clean h (snd (@os_WriteFile (watch h cfg) path data s)) = true.
Proof. intros Hc Hok. cbn. rewrite Hc, Hok. reflexivity. Qed.

Lemma watch_append (path data : string) (s : watched h) :
  clean h s = true -> okWrite cfg path = true ->
  clean h (snd (@os_AppendFile (watch h cfg) path data s)) = true.
Proof. intros Hc Hok. cbn. rewrite Hc, Hok. reflexivity. Qed.

Lemma watch_mkdir (path : string) (s : watched h) :
  clean h s = true -> okMkdir cfg path = true ->
  clean h (snd (@os_MkdirAll (watch h cfg) path s)) = true.
Proof. intros Hc Hok. cbn. rewrite Hc, Hok. reflexivity. Qed.

Lemma watch_run (dir command : string) (timeout : Z) (s : watched h) :
  clean h s = true -> okRun cfg dir command = true ->
  clean h (snd (@exec_Run (watch h cfg) dir command timeout s)) = true.
Proof. intros Hc Hok. cbn. rewrite Hc, Hok. reflexivity. Qed.

Lemma watch_post (req : Request) (s : watched h) :
  clean h s = true -> okPost cfg req = true ->
  clean h (snd (@http_Do (watch h cfg) req s)) = true.
Proof. intros Hc Hok. cbn. rewrite Hc, Hok. reflexivity. Qed.

Lemma safePath_okWrite (p abs : string) (x : watched h) :
  @safePath (watch h cfg) (cfg_WorkDir cfg) p x = (abs, None) ->
  okWrite cfg abs = true.
Proof.
  intros Hs. apply inside_insideb.
  exact (@safePath_inside (watch h cfg) _ _ _ _ rooted Hs).
Qed.

Lemma safePath_okMkdir (p abs : string) (x : watched h) :
  @safePath (watch h cfg) (cfg_WorkDir cfg) p x = (abs, None) ->
  okMkdir cfg (filepath.Dir abs) = true.
Proof.
  intros Hs. destruct (@safePath_inside (watch h cfg) _ _ _ _ rooted Hs) as (rest & Hrest & ->).
  pose proof (pathElements_plain [] (cfg_WorkDir cfg) ltac:(constructor)) as Hroot.
  set (root := resolve [] (pathElements (cfg_WorkDir cfg))) in *.
  assert (Forall (fun e => plainElem e = true) (root ++ rest)) as Hall
    by (apply Forall_app; split; assumption).
  rewrite (Dir_rootedPath _ Hall). unfold okMkdir. apply orb_true_iff.
  destruct rest as [|e rest] using rev_ind.
  - right. rewrite List.app_nil_r, Clean_rooted by exact rooted. fold root.
    rewrite (Dir_rootedPath _ Hroot). apply String.eqb_refl.
  - left. rewrite List.app_assoc, removelast_snoc. apply inside_insideb.
    exists rest. split; [|reflexivity]. apply Forall_app in Hrest as [Hr _]. exact Hr.
Qed.

Lemma runBash_clean (input : gmap string jvalue) (w : @World (watch h cfg)) :
  clean h (ext w) = true -> clean h (ext (snd (runBash cfg input w))) = true.
Proof.
  intros Hc. unfold runBash.
  destruct (String.eqb_spec (strings.TrimSpace (getString input "command")) EmptyString)
    as [E|Hne]; [exact Hc|].
  destruct (isDangerousCommand _) eqn:Hd; [exact Hc|].
  assert (okRun cfg (cfg_WorkDir cfg) (strings.TrimSpace (getString input "command")) = true)
    as Hok.
  { unfold okRun. rewrite String.eqb_refl, Hd.
    destruct (String.eqb_spec (strings.TrimSpace (getString input "command")) EmptyString);
      [contradiction|reflexivity]. }
  pose proof (watch_run (cfg_WorkDir cfg) _
                (wrap64 (getIntOrDefault input "timeout_ms" 30000 * 1000000)) _ Hc Hok) as Hr.
  destruct (exec_Run _ _ _ (ext w)) as [res x]. cbn [snd] in Hr.
  destruct (run_DeadlineExceeded res); [exact Hr|].
  destruct (run_Err res); exact Hr.
Qed.

Lemma runRead_clean (input : gmap string jvalue) (w : @World (watch h cfg)) :
  clean h (ext w) = true -> clean h (ext (snd (runRead cfg input w))) = true.
Proof.
  intros Hc. unfold runRead.
  destruct (safePath _ _ _) as [abs [e|]]; [exact Hc|].
  destruct (os_ReadFile abs (ext w)) as [text [e|]]; [exact Hc|].
  destruct (getOptionalInt input "start_line"), (getOptionalInt input "end_line").
  exact Hc.
Qed.

Lemma runWrite_clean (input : gmap string jvalue) (w : @World (watch h cfg)) :
  clean h (ext w) = true -> clean h (ext (snd (runWrite cfg input w))) = true.
Proof.
  intros Hc. unfold runWrite.
  destruct (safePath _ _ _) as [abs [e|]] eqn:Hs; [exact Hc|].
  pose proof (safePath_okWrite _ _ _ Hs) as Hw.
  pose proof (watch_mkdir _ _ Hc (safePath_okMkdir _ _ _ Hs)) as H1.
  destruct (os_MkdirAll (filepath.Dir abs) (ext w)) as [[e|] x1]; cbn [snd] in H1;
    [exact H1|].
  pose proof (watch_append abs (getString input "content") x1 H1 Hw) as Ha.
  pose proof (watch_write abs (getString input "content") x1 H1 Hw) as Hwr.
  destruct (String.eqb _ "append").
  - destruct (os_AppendFile abs _ x1) as [[e|] x2]; cbn [snd] in Ha; [exact Ha|].
    destruct (filepath_Rel _ abs) as [rel [e|]]; exact Ha.
  - destruct (os_WriteFile abs _ x1) as [[e|] x2]; cbn [snd] in Hwr; [exact Hwr|].
    destruct (filepath_Rel _ abs) as [rel [e|]]; exact Hwr.
Qed.

Lemma writeBack_clean (abs updated msg : string) (w : @World (watch h cfg)) :
  okWrite cfg abs = true -> clean h (ext w) = true ->
  clean h (ext (snd (writeBack abs updated msg w))) = true.
Proof.
  intros Hw Hc. unfold writeBack.
  pose proof (watch_write abs updated _ Hc Hw) as H1.
  destruct (os_WriteFile abs updated (ext w)) as [[e|] x]; exact H1.
Qed.

Lemma runEdit_clean (input : gmap string jvalue) (w : @World (watch h cfg)) :
  clean h (ext w) = true -> clean h (ext (snd (runEdit cfg input w))) = true.
Proof.
  intros Hc. unfold runEdit.
  destruct (safePath _ _ _) as [abs [e|]] eqn:Hs; [exact Hc|].
  pose proof (safePath_okWrite _ _ _ Hs) as Hw.
  destruct (os_ReadFile abs (ext w)) as [text [e|]]; [exact Hc|].
  destruct (String.eqb _ "replace").
  { destruct (String.eqb _ EmptyString); [exact Hc|]. apply writeBack_clean; assumption. }
  destruct (String.eqb _ "insert"); [apply writeBack_clean; assumption|].
  destruct (String.eqb _ "delete_range"); [|exact Hc].
  destruct (input !! "range") as [[| | | |l|]|]; try exact Hc.
  destruct l as [|r0 [|r1 [|r2 l]]]; try exact Hc.
  destruct (_ || _); [exact Hc|]. apply writeBack_clean; assumption.
Qed.

Lemma runTodoUpdate_clean (input : gmap string jvalue) (w : @World (watch h cfg)) :
  clean h (ext w) = true -> clean h (ext (snd (runTodoUpdate cfg input w))) = true.
Proof.
  intros Hc. unfold runTodoUpdate.
  destruct (input !! "items") as [[| | | |l|]|]; try exact Hc.
  destruct (parseItems l 0 []) as [items|e]; [|exact Hc].
  destruct (Update (todoBoard w) items) as [[view [e|]] tm]; [exact Hc|].
  cbv zeta. destruct (negb _); exact Hc.
Qed.

Lemma dispatchToolCall_clean (tc : ToolCall) (w : @World (watch h cfg)) :
  clean h (ext w) = true -> clean h (ext (snd (dispatchToolCall cfg tc w))) = true.
Proof.
  intros Hc. unfold dispatchToolCall.
  destruct (json_Unmarshal_map _) as [input [e|]]; [exact Hc|].
  destruct (String.eqb _ "bash").
  { pose proof (runBash_clean input w Hc) as Hr.
    destruct (runBash cfg input w) as [[res err] w']. exact Hr. }
  destruct (String.eqb _ "read_file").
  { pose proof (runRead_clean input w Hc) as Hr.
    destruct (runRead cfg input w) as [[res err] w']. exact Hr. }
  destruct (String.eqb _ "write_file").
  { pose proof (runWrite_clean input w Hc) as Hr.
    destruct (runWrite cfg input w) as [[res err] w']. exact Hr. }
  destruct (String.eqb _ "edit_text").
  { pose proof (runEdit_clean input w Hc) as Hr.
    destruct (runEdit cfg input w) as [[res err] w']. exact Hr. }
  destruct (String.eqb _ "TodoWrite").
  { pose proof (runTodoUpdate_clean input w Hc) as Hr.
    destruct (runTodoUpdate cfg input w) as [[res err] w']. exact Hr. }
  exact Hc.
Qed.

Lemma dispatchAll_clean (calls : list ToolCall) (w : @World (watch h cfg)) :
  clean h (ext w) = true -> clean h (ext (snd (dispatchAll cfg calls w))) = true.
Proof.
  revert w. induction calls as [|tc calls IH]; intros w Hc; [exact Hc|].
  cbn [dispatchAll]. pose proof (dispatchToolCall_clean tc w Hc) as H1.
  destruct (dispatchToolCall cfg tc w) as [m w1]. cbn [snd] in H1.
  specialize (IH w1 H1). destruct (dispatchAll cfg calls w1) as [ms w2]. exact IH.
Qed.

Lemma callOpenAI_clean (hist : list Message) (w : @World (watch h cfg)) :
  clean h (ext w) = true ->
  clean h (ext (snd (callOpenAI cfg (systemMessage cfg :: hist) w))) = true.
Proof.
  intros Hc. unfold callOpenAI.
  destruct (json_Marshal _ _ _ _); [exact Hc|].
  destruct (http_NewRequest _); [exact Hc|].
  set (req := {| req_Endpoint := _ |}).
  assert (okPost cfg req = true) as Hok
    by (unfold okPost; subst req; cbn; rewrite !String.eqb_refl; reflexivity).
  pose proof (watch_post req _ Hc Hok) as H1.
  destruct (http_Do req (ext w)) as [[resp|e] x]; cbn [snd] in H1;
    [destruct (cfg_Stream cfg)|]; exact H1.
Qed.

Lemma ensureContextBlock_ext (text : string) (w : @World (watch h cfg)) :
  ext (ensureContextBlock text w) = ext w.
Proof. unfold ensureContextBlock. destruct (existsb _ _); reflexivity. Qed.

Lemma round_clean (hist : list Message) (w : @World (watch h cfg)) :
  clean h (ext w) = true -> clean h (ext (roundWorld (round cfg hist w))) = true.
Proof.
  intros Hc. unfold round. pose proof (callOpenAI_clean hist w Hc) as H1.
  destruct (callOpenAI cfg (systemMessage cfg :: hist) w) as [[resp|e] w1]; [|exact H1].
  cbn [snd] in H1. destruct (resp_Choices resp) as [|choice rest]; [exact H1|].
  destruct (_ && _).
  - pose proof (dispatchAll_clean (msg_ToolCalls (ch_Message choice)) w1 H1) as H2.
    destruct (dispatchAll cfg _ w1) as [ms w2]. exact H2.
  - cbn [roundWorld]. cbv zeta.
    destruct (10 <? _); [rewrite ensureContextBlock_ext|]; exact H1.
Qed.

Lemma rounds_clean (n : nat) (hist : list Message) (w : @World (watch h cfg)) :
  clean h (ext w) = true -> clean h (ext (snd (rounds n cfg hist w))) = true.
Proof.
  revert hist w. induction n as [|n IH]; intros hist w Hc; [exact Hc|].
  cbn [rounds]. pose proof (round_clean hist w Hc) as H1.
  destruct (round cfg hist w) as [e w1|h1 w1|h1 w1]; cbn [roundWorld] in H1;
    [exact H1|exact H1|apply IH; exact H1].
Qed.

(** X10: whatever the model and the host answer, a call of [query] keeps
    to the workspace (which is a rooted directory).  On a host that
    records whether an operation broke a rule, the record is still clean
    afterwards: every file written or appended to is a path in normal form
    inside the workspace, every directory made is inside it or is its
    parent, every command that is run is not empty, not flagged by the
    classifier, and is started in the workspace, and every request goes to
    the configured endpoint with the system message first. *)
Theorem query_confined (messages : list Message) (w : @World (watch h cfg)) :
  clean h (ext w) = true -> clean h (ext (snd (query cfg messages w))) = true.
Proof.
  intros Hc. rewrite query_rounds. apply rounds_clean. exact Hc.
Qed.

End WatchFacts.

(** The record is not vacuous: a write outside the workspace and a flagged
    command both spoil it. *)
Lemma watch_records :
  let s := Build_watched Sim.host Sim.machine0 true in
  clean Sim.host (snd (@os_WriteFile (@watch Ref.runtime Sim.host Sim.config) "/etc/passwd" "x" s)) = false
  /\ clean Sim.host (snd (@os_WriteFile (@watch Ref.runtime Sim.host Sim.config) "/work/../etc/passwd" "x" s))
     = false
  /\ clean Sim.host (snd (@exec_Run (@watch Ref.runtime Sim.host Sim.config) "/work"
                                    "sudo ls" 1000 s)) = false
  /\ clean Sim.host (snd (@os_WriteFile (@watch Ref.runtime Sim.host Sim.config) "/work/a/b.txt" "x" s))
     = true.
Proof. vm_compute. repeat split; reflexivity. Qed.

Lemma query_confined_witness :
  clean Sim.host
        (ext (snd (@query Ref.runtime (@watch Ref.runtime Sim.host Sim.config) Sim.config
                          [Example.userMessage] (DemoWatch.world scriptFailing)))) = true.
Proof.
  apply (@query_confined Ref.runtime Sim.host Sim.config); reflexivity.
Defined.
(** ** Start-up, the session and the reminders *)

Lemma Atoi_range (s : string) (n : Z) : Atoi s = Some n -> - 2 ^ 63 <= n < 2 ^ 63.
Proof.
  unfold Atoi. destruct (match s with
                        | String "-"%char s' => (true, s')
                        | String "+"%char s' => (false, s')
                        | _ => (false, s)
                        end) as [neg digits].
  destruct digits; [discriminate|].
  destruct (parseDigits _ 0) as [m|]; [|discriminate].
  destruct (inInt64 _) eqn:Hin; [|discriminate]. intros [= <-].
  unfold inInt64 in Hin. apply andb_true_iff in Hin as [H1 H2].
  apply Z.leb_le in H1. apply Z.ltb_lt in H2. lia.
Qed.

Section StartupFacts.
Context `{Runtime} `{Host}.
Variable os_Getenv : string -> string.

(** X11: a configuration that [loadConfig] returns is usable: the key,
    the base URL and the model are not empty, the limit is a positive
    64-bit integer, and the workspace is what [os.Getwd] answered.  The
    key is the trimmed variable, and so are the base URL and the model
    unless the variable is blank, when the defaults apply; the limit is the
    integer [OPENAI_MAX_TOKENS] holds when that is positive, and the
    default otherwise; streaming is off exactly when [OPENAI_STREAM],
    trimmed and in lower case, is [false], so it is on by default; the
    debug output is on exactly when [DEBUG], trimmed and in lower case, is
    [true]; a blank key stops the program. *)
Theorem loadConfig_valid (x : Ext) :
  (forall cfg, loadConfig os_Getenv x = Loaded cfg ->
     cfg_APIKey cfg <> EmptyString
     /\ cfg_BaseURL cfg <> EmptyString
     /\ cfg_Model cfg <> EmptyString
     /\ 0 < cfg_MaxResult cfg < 2 ^ 63
     /\ os_Getwd x = (cfg_WorkDir cfg, None)
     /\ (whitespace_only (os_Getenv "OPENAI_BASE_URL") ->
         cfg_BaseURL cfg = "https://api.openai.com")
     /\ (whitespace_only (os_Getenv "OPENAI_MODEL") -> cfg_Model cfg = "gpt-4")
     /\ (cfg_MaxResult cfg = defaultMaxTokens
         \/ Atoi (strings.TrimSpace (os_Getenv "OPENAI_MAX_TOKENS")) = Some (cfg_MaxResult cfg))
     /\ (whitespace_only (os_Getenv "OPENAI_MAX_TOKENS") ->
         cfg_MaxResult cfg = defaultMaxTokens)
     /\ (whitespace_only (os_Getenv "OPENAI_STREAM") -> cfg_Stream cfg = true)
     /\ (whitespace_only (os_Getenv "DEBUG") -> cfg_Debug cfg = false)
     /\ cfg_APIKey cfg = strings.TrimSpace (os_Getenv "OPENAI_API_KEY")
     /\ (strings.TrimSpace (os_Getenv "OPENAI_BASE_URL") <> EmptyString ->
         cfg_BaseURL cfg = strings.TrimSpace (os_Getenv "OPENAI_BASE_URL"))
     /\ (strings.TrimSpace (os_Getenv "OPENAI_MODEL") <> EmptyString ->
         cfg_Model cfg = strings.TrimSpace (os_Getenv "OPENAI_MODEL"))
     /\ (forall n, Atoi (strings.TrimSpace (os_Getenv "OPENAI_MAX_TOKENS")) = Some n ->
                   (0 < n -> cfg_MaxResult cfg = n)
                   /\ (n <= 0 -> cfg_MaxResult cfg = defaultMaxTokens))
     /\ (Atoi (strings.TrimSpace (os_Getenv "OPENAI_MAX_TOKENS")) = None ->
         cfg_MaxResult cfg = defaultMaxTokens)
     /\ (cfg_Stream cfg = false
         <-> strings.ToLower unicode_ToLower
               (strings.TrimSpace (os_Getenv "OPENAI_STREAM")) = "false")
     /\ (cfg_Debug cfg = true
         <-> strings.ToLower unicode_ToLower
               (strings.TrimSpace (os_Getenv "DEBUG")) = "true"))
  /\ (whitespace_only (os_Getenv "OPENAI_API_KEY") ->
      forall wd, os_Getwd x = (wd, None) ->
                 loadConfig os_Getenv x = Fatal "OPENAI_API_KEY required").
Proof.
  split.
  - intros cfg. unfold loadConfig.
    destruct (os_Getwd x) as [wd [e|]]; [discriminate|].
    cbn [cfg_APIKey].
    destruct (String.eqb_spec (strings.TrimSpace (os_Getenv "OPENAI_API_KEY")) EmptyString)
      as [E|Hkey]; [discriminate|].
    intros [= <-]. cbn [cfg_APIKey cfg_BaseURL cfg_Model cfg_MaxResult cfg_WorkDir
                        cfg_Stream cfg_Debug].
    split; [exact Hkey|].
    split; [destruct (String.eqb_spec (strings.TrimSpace (os_Getenv "OPENAI_BASE_URL"))
                        EmptyString); [discriminate|assumption]|].
    split; [destruct (String.eqb_spec (strings.TrimSpace (os_Getenv "OPENAI_MODEL"))
                        EmptyString); [discriminate|assumption]|].
    set (tok := strings.TrimSpace (os_Getenv "OPENAI_MAX_TOKENS")).
    split.
    { destruct (String.eqb tok EmptyString); cbn [negb]; [vm_compute; split; reflexivity|].
      destruct (Atoi tok) as [n|] eqn:Ea; [|vm_compute; split; reflexivity].
      destruct (Z.ltb_spec 0 n); [|vm_compute; split; reflexivity].
      pose proof (Atoi_range _ _ Ea). lia. }
    split; [reflexivity|].
    split; [intros Hw; rewrite (TrimSpace_whitespace _ Hw); reflexivity|].
    split; [intros Hw; rewrite (TrimSpace_whitespace _ Hw); reflexivity|].
    split.
    { destruct (String.eqb tok EmptyString); cbn [negb]; [left; reflexivity|].
      destruct (Atoi tok) as [n|] eqn:Ea; [|left; reflexivity].
      destruct (Z.ltb_spec 0 n); [right; reflexivity|left; reflexivity]. }
    split; [intros Hw; subst tok; rewrite (TrimSpace_whitespace _ Hw); reflexivity|].
    split; [intros Hw; rewrite (TrimSpace_whitespace _ Hw); reflexivity|].
    split; [intros Hw; rewrite (TrimSpace_whitespace _ Hw); reflexivity|].
    split; [reflexivity|].
    split; [intros Hne;
            destruct (String.eqb_spec (strings.TrimSpace (os_Getenv "OPENAI_BASE_URL"))
                        EmptyString); [contradiction|reflexivity]|].
    split; [intros Hne;
            destruct (String.eqb_spec (strings.TrimSpace (os_Getenv "OPENAI_MODEL"))
                        EmptyString); [contradiction|reflexivity]|].
    split.
    { intros n Ha. destruct (String.eqb_spec tok EmptyString) as [E|_];
        [rewrite E in Ha; discriminate Ha|].
      cbn [negb]. rewrite Ha. destruct (Z.ltb_spec 0 n); split; intros; try lia; reflexivity. }
    split.
    { intros Ha. destruct (String.eqb tok EmptyString); cbn [negb]; [reflexivity|].
      rewrite Ha. reflexivity. }
    split.
    { rewrite negb_false_iff. apply String.eqb_eq. }
    apply String.eqb_eq.
  - intros Hw wd Hwd. unfold loadConfig. rewrite Hwd. cbn [cfg_APIKey].
    rewrite (TrimSpace_whitespace _ Hw). reflexivity.
Qed.

End StartupFacts.

Section SessionFacts.
Context `{Runtime} `{Host}.

Lemma round_extends (cfg : Config) (hist : list Message) (w : World) :
  match round cfg hist w with
  | Failed _ _ => True
  | Stopped h' _ => exists m, h' = hist ++ [m]
  | Continues h' _ => exists added, h' = hist ++ added
  end.
Proof.
  unfold round. destruct (callOpenAI cfg (systemMessage cfg :: hist) w) as [[resp|e] w1];
    [|exact I].
  destruct (resp_Choices resp) as [|choice rest]; [exact I|].
  destruct (_ && _).
  - destruct (dispatchAll cfg _ w1) as [ms w2]. eexists. reflexivity.
  - eexists. reflexivity.
Qed.

Lemma rounds_extends (n : nat) (cfg : Config) (hist : list Message) (w : World) :
  exists added, fst (fst (rounds n cfg hist w)) = hist ++ added.
Proof.
  revert hist w. induction n as [|n IH]; intros hist w.
  { exists []. cbn. rewrite List.app_nil_r. reflexivity. }
  cbn [rounds]. pose proof (round_extends cfg hist w) as Hr.
  destruct (round cfg hist w) as [e w1|h1 w1|h1 w1].
  - exists []. cbn. rewrite List.app_nil_r. reflexivity.
  - destruct Hr as [m ->]. exists [m]. reflexivity.
  - destruct Hr as [added ->]. destruct (IH (hist ++ added) w1) as [more E].
    exists (added ++ more). rewrite E, <- List.app_assoc. reflexivity.
Qed.

(** X12: the read loop of [main] ends at the first line that is [exit],
    [quit] or [q] once trimmed and put in lower case: nothing after it is
    read or sent.  A line of white space is skipped without any effect. *)
Theorem mainLoop_stops (cfg : Config) (pre post : list string) (line : string)
        (history : list Message) (w : World) :
  (isExitWord (strings.ToLower unicode_ToLower (strings.TrimSpace line)) = true ->
   mainLoop cfg (pre ++ line :: post) history w = mainLoop cfg pre history w)
  /\ (whitespace_only line ->
      mainLoop cfg (pre ++ line :: post) history w = mainLoop cfg (pre ++ post) history w).
Proof.
  split.
  - intros Hexit. revert history w. induction pre as [|l pre IH]; intros history w.
    + cbn [app mainLoop]. rewrite Hexit.
      destruct (String.eqb_spec (strings.TrimSpace line) EmptyString) as [E|_]; [|reflexivity].
      rewrite E in Hexit. discriminate Hexit.
    + cbn [app mainLoop].
      destruct (String.eqb (strings.TrimSpace l) EmptyString); [apply IH|].
      destruct (isExitWord (strings.ToLower unicode_ToLower (strings.TrimSpace l)));
        [reflexivity|].
      destruct (injectReminders l w) as [content w1].
      destruct (query cfg _ w1) as [[updated [e|]] w2]; apply IH.
  - intros Hblank. revert history w. induction pre as [|l pre IH]; intros history w.
    + cbn [app mainLoop]. rewrite (TrimSpace_whitespace _ Hblank). reflexivity.
    + cbn [app mainLoop].
      destruct (String.eqb (strings.TrimSpace l) EmptyString); [apply IH|].
      destruct (isExitWord (strings.ToLower unicode_ToLower (strings.TrimSpace l)));
        [reflexivity|].
      destruct (injectReminders l w) as [content w1].
      destruct (query cfg _ w1) as [[updated [e|]] w2]; apply IH.
Qed.

(** X13: over a session the history only grows: what [main] holds at the
    end starts with what it held before.  A line that is sent enters the
    history as it was typed, not trimmed; when [query] fails on it, the
    messages that [query] returned with the error are dropped and only the
    user message stays, while the effects of the tools on the world
    remain. *)
Theorem mainLoop_history (cfg : Config) (lines : list string) (history : list Message)
        (w : World) :
  (exists added, fst (mainLoop cfg lines history w) = history ++ added)
  /\ (forall line rest,
        lines = line :: rest ->
        strings.TrimSpace line <> EmptyString ->
        isExitWord (strings.ToLower unicode_ToLower (strings.TrimSpace line)) = false ->
        let sent := history ++ [userTurn (fst (injectReminders line w))] in
        let w1 := snd (injectReminders line w) in
        (forall partial err w2,
            query cfg sent w1 = ((partial, Some err), w2) ->
            mainLoop cfg lines history w = mainLoop cfg rest sent w2)
        /\ (forall updated w2,
              query cfg sent w1 = ((updated, None), w2) ->
              mainLoop cfg lines history w = mainLoop cfg rest updated w2
              /\ exists added, updated = sent ++ added)
        /\ (fst (injectReminders line w) = ContentString line
            \/ exists blocks, fst (injectReminders line w)
                              = ContentBlocks (blocks ++ [textBlock line]))).
Proof.
  split.
  - revert history w. induction lines as [|l lines IH]; intros history w.
    { exists []. cbn. rewrite List.app_nil_r. reflexivity. }
    cbn [mainLoop]. destruct (String.eqb _ EmptyString); [apply IH|].
    destruct (isExitWord _); [exists []; cbn; rewrite List.app_nil_r; reflexivity|].
    destruct (injectReminders l w) as [content w1].
    pose proof (rounds_extends maxAgentIterations cfg (history ++ [userTurn content]) w1) as Hq.
    rewrite <- query_rounds in Hq.
    destruct (query cfg _ w1) as [[updated [e|]] w2]; cbn [fst] in Hq.
    + destruct (IH (history ++ [userTurn content]) w2) as [added E].
      exists ([userTurn content] ++ added). rewrite E, <- List.app_assoc. reflexivity.
    + destruct Hq as [more ->]. destruct (IH ((history ++ [userTurn content]) ++ more) w2)
        as [added E].
      exists ([userTurn content] ++ more ++ added).
      rewrite E, <- !List.app_assoc. reflexivity.
  - intros line rest -> Hne Hexit sent w1.
    assert (mainLoop cfg (line :: rest) history w
            = match query cfg sent w1 with
              | ((_, Some _), w2) => mainLoop cfg rest sent w2
              | ((updated, None), w2) => mainLoop cfg rest updated w2
              end) as Hstep.
    { cbn [mainLoop]. destruct (String.eqb_spec (strings.TrimSpace line) EmptyString);
        [contradiction|]. rewrite Hexit. subst sent w1.
      destruct (injectReminders line w) as [content w1]. reflexivity. }
    split; [|split].
    + intros partial err w2 Hq. rewrite Hstep, Hq. reflexivity.
    + intros updated w2 Hq. split; [rewrite Hstep, Hq; reflexivity|].
      pose proof (rounds_extends maxAgentIterations cfg sent w1) as Hx.
      rewrite <- query_rounds, Hq in Hx. exact Hx.
    + unfold injectReminders. destruct (pendingContextBlocks w) as [|b bs]; [left; reflexivity|].
      right. exists (b :: bs). reflexivity.
Qed.

End SessionFacts.

Section SessionWatch.
Context `{Runtime}.
Variable h : Host.
Variable cfg : Config.
Hypothesis rooted : filepath.IsAbs (cfg_WorkDir cfg) = true.

Lemma injectReminders_ext (text : string) (w : @World (watch h cfg)) :
  ext (snd (injectReminders text w)) = ext w.
Proof. unfold injectReminders. destruct (pendingContextBlocks w); reflexivity. Qed.

(** X14: a whole session keeps to the workspace: whatever is typed, and
    whatever the model and the host answer, the record of the watched host
    is clean when the read loop of [main] ends, if it was clean when the
    loop began (the workspace being a rooted directory). *)
Theorem mainLoop_confined (lines : list string) (history : list Message)
        (w : @World (watch h cfg)) :
  clean h (ext w) = true ->
  clean h (ext (snd (mainLoop cfg lines history w))) = true.
Proof.
  revert history w. induction lines as [|l lines IH]; intros history w Hc; [exact Hc|].
  cbn [mainLoop]. destruct (String.eqb (strings.TrimSpace l) EmptyString); [apply IH; exact Hc|].
  destruct (isExitWord _); [exact Hc|].
  pose proof (injectReminders_ext l w) as He.
  destruct (injectReminders l w) as [content w1]. cbn [snd] in He.
  assert (clean h (ext w1) = true) as Hc1 by (rewrite He; exact Hc).
  pose proof (rounds_clean h cfg rooted maxAgentIterations (history ++ [userTurn content])
                           w1 Hc1) as Hq.
  rewrite <- query_rounds in Hq.
  destruct (query cfg _ w1) as [[updated [e|]] w2]; apply IH; exact Hq.
Qed.

End SessionWatch.

Lemma mainLoop_confined_witness :
  clean Sim.host
        (ext (snd (@mainLoop Ref.runtime (@watch Ref.runtime Sim.host Sim.config) Sim.config
                             ["list the files"; "quit"] []
                             (DemoWatch.world scriptFailing)))) = true.
Proof.
  apply (@mainLoop_confined Ref.runtime Sim.host Sim.config); reflexivity.
Defined.

Section StreamingFacts.
Context `{Runtime} `{Host}.

Lemma handleStreamingResponse_shape (cfg : Config) (resp : Response) (r : APIResponse) :
  handleStreamingResponse cfg resp = inl r -> exists content, r = streamed content.
Proof.
  unfold handleStreamingResponse.
  destruct (400 <=? http_StatusCode resp).
  { destruct (http_Body resp) as [data [e|]]; discriminate. }
  destruct (http_Lines resp) as [lines atEnd].
  destruct (streamLoop lines atEnd EmptyString) as [content [scanErr|]]; [discriminate|].
  intros [= <-]. exists content. reflexivity.
Qed.

(** X15: with streaming on, [query] never runs a tool.  The stream
    decoder always answers with one text message and the finish reason
    [stop], so the loop ends in its first round, after the one call of
    [callOpenAI]: a failure of that call, whether the request could not be
    built, could not be sent or was answered badly, returns the history as
    it was, with the error; otherwise the history gains exactly the text
    message, the round is counted, and the board and the files are as the
    call left them. *)
Theorem query_streaming (cfg : Config) (messages : list Message) (w : World) :
  cfg_Stream cfg = true ->
  forall reply w1,
    callOpenAI cfg (systemMessage cfg :: messages) w = (reply, w1) ->
    todoBoard w1 = todoBoard w
    /\ pendingContextBlocks w1 = pendingContextBlocks w
    /\ roundsWithoutTodo w1 = roundsWithoutTodo w
    /\ match reply with
       | inr err => query cfg messages w = ((messages, Some err), w1)
       | inl resp =>
         exists content,
           resp = streamed content
           /\ query cfg messages w
              = ((messages ++ [assistantText content], None), endOfTurn w1)
           /\ ext (endOfTurn w1) = ext w1
           /\ todoBoard (endOfTurn w1) = todoBoard w
       end.
Proof.
  intros Hstream reply w1 Hcall.
  assert (todoBoard w1 = todoBoard w /\ pendingContextBlocks w1 = pendingContextBlocks w
          /\ roundsWithoutTodo w1 = roundsWithoutTodo w
          /\ forall resp, reply = inl resp -> exists content, resp = streamed content)
    as (Hb & Hp & Hr & Hshape).
  { unfold callOpenAI in Hcall. rewrite Hstream in Hcall.
    destruct (json_Marshal _ _ _ _);
      [injection Hcall as <- <-; repeat split; try reflexivity; intros r [= E]|].
    destruct (http_NewRequest _);
      [injection Hcall as <- <-; repeat split; try reflexivity; intros r [= E]|].
    destruct (http_Do _ (ext w)) as [[resp|e] x]; injection Hcall as <- <-;
      repeat split; try reflexivity; intros r [= E].
    apply (handleStreamingResponse_shape cfg resp r E). }
  split; [exact Hb|]. split; [exact Hp|]. split; [exact Hr|].
  rewrite query_rounds. unfold maxAgentIterations. cbn [rounds]. unfold round. rewrite Hcall.
  destruct reply as [resp|err]; [|reflexivity].
  destruct (Hshape resp eq_refl) as [content ->]. exists content.
  split; [reflexivity|]. cbn [streamed resp_Choices ch_FinishReason String.eqb Ascii.eqb
                                Bool.eqb andb ch_Message].
  split; [reflexivity|].
  unfold endOfTurn. cbv zeta. destruct (10 <? _).
  - unfold ensureContextBlock. destruct (existsb _ _); split; cbn; solve [reflexivity|exact Hb].
  - split; cbn; [reflexivity|exact Hb].
Qed.

(** X16: a reminder is sent once.  Queuing a text that is already
    pending changes nothing, a text that is not pending is put last, and
    texts that were distinct stay distinct; the next user message then
    carries all pending blocks in their order with the text of the user
    last, and the message after it is the plain text again. *)
Theorem reminders_once (text userText nextText : string) (w : World) :
  let w1 := ensureContextBlock text w in
  let sent := injectReminders userText w1 in
  ensureContextBlock text w1 = w1
  /\ In text (pendingTexts w1)
  /\ (In text (pendingTexts w) -> w1 = w)
  /\ (~ In text (pendingTexts w) ->
      pendingContextBlocks w1 = pendingContextBlocks w ++ [textBlock text])
  /\ (NoDup (pendingTexts w) -> NoDup (pendingTexts w1))
  /\ fst sent = ContentBlocks (pendingContextBlocks w1 ++ [textBlock userText])
  /\ pendingContextBlocks (snd sent) = []
  /\ injectReminders nextText (snd sent) = (ContentString nextText, snd sent).
Proof.
  intros w1 sent.
  assert (existsb (fun b => String.eqb (cb_Text b) text) (pendingContextBlocks w) = true
          <-> In text (pendingTexts w)) as Hex.
  { unfold pendingTexts. rewrite existsb_exists, in_map_iff. split.
    - intros (b & Hb & E). apply String.eqb_eq in E. exists b. split; assumption.
    - intros (b & E & Hb). exists b. split; [exact Hb|apply String.eqb_eq; exact E]. }
  assert (In text (pendingTexts w1)) as Hin.
  { subst w1. unfold ensureContextBlock.
    destruct (existsb _ _) eqn:E; [apply Hex; reflexivity|].
    unfold pendingTexts. cbn [pendingContextBlocks]. rewrite map_app. apply in_or_app.
    right. left. reflexivity. }
  assert (In text (pendingTexts w) -> w1 = w) as Hsame.
  { intros Hi. subst w1. unfold ensureContextBlock. apply Hex in Hi. rewrite Hi. reflexivity. }
  assert (~ In text (pendingTexts w) ->
          pendingContextBlocks w1 = pendingContextBlocks w ++ [textBlock text]) as Hnew.
  { intros Hn. subst w1. unfold ensureContextBlock.
    destruct (existsb _ _) eqn:E; [exfalso; apply Hn, Hex; reflexivity|reflexivity]. }
  split.
  { unfold ensureContextBlock at 1.
    assert (existsb (fun b => String.eqb (cb_Text b) text) (pendingContextBlocks w1) = true)
      as ->; [|reflexivity].
    apply existsb_exists. apply in_map_iff in Hin as (b & E & Hb).
    exists b. split; [exact Hb|apply String.eqb_eq; exact E]. }
  split; [exact Hin|]. split; [exact Hsame|]. split; [exact Hnew|].
  split.
  { intros Hnd. destruct (in_dec string_dec text (pendingTexts w)) as [Hi|Hn].
    - rewrite (Hsame Hi). exact Hnd.
    - unfold pendingTexts. rewrite (Hnew Hn), map_app. cbn [map textBlock cb_Text].
      apply NoDup_app. split; [exact Hnd|]. split; [|apply NoDup_singleton].
      intros x Hx Hx'. apply list_elem_of_singleton in Hx'. subst x.
      apply list_elem_of_In in Hx. contradiction. }
  assert (pendingContextBlocks w1 <> []) as Hne.
  { intros E. unfold pendingTexts in Hin. rewrite E in Hin. destruct Hin. }
  subst sent. unfold injectReminders.
  destruct (pendingContextBlocks w1) as [|b bs]; [congruence|].
  cbn [fst snd pendingContextBlocks]. repeat split.
Qed.

End StreamingFacts.

Section NagFacts.
Context `{Runtime} `{Host}.

Lemma toolStep_refl (w : World) : toolStep w w.
Proof. split; [reflexivity|left; reflexivity]. Qed.

Lemma toolStep_trans (w w1 w2 : World) : toolStep w w1 -> toolStep w1 w2 -> toolStep w w2.
Proof.
  intros [Hp1 Hc1] [Hp2 Hc2]. split; [congruence|].
  destruct Hc2 as [E|E]; [rewrite E; exact Hc1|right; exact E].
Qed.

Lemma toolStep_ext (w : World) (x : Ext) : toolStep w (set_ext w x).
Proof. split; [reflexivity|left; reflexivity]. Qed.

Lemma runBash_toolStep (cfg : Config) (input : gmap string jvalue) (w : World) :
  toolStep w (snd (runBash cfg input w)).
Proof.
  unfold runBash. destruct (String.eqb _ EmptyString); [apply toolStep_refl|].
  destruct (isDangerousCommand _); [apply toolStep_refl|].
  destruct (exec_Run _ _ _ (ext w)) as [res x].
  destruct (run_DeadlineExceeded res); [apply toolStep_ext|].
  destruct (run_Err res); apply toolStep_ext.
Qed.

Lemma runRead_toolStep (cfg : Config) (input : gmap string jvalue) (w : World) :
  toolStep w (snd (runRead cfg input w)).
Proof.
  unfold runRead. destruct (safePath _ _ _) as [abs [e|]]; [apply toolStep_refl|].
  destruct (os_ReadFile abs (ext w)) as [text [e|]]; [apply toolStep_refl|].
  destruct (getOptionalInt input "start_line"), (getOptionalInt input "end_line").
  apply toolStep_refl.
Qed.

Lemma runWrite_toolStep (cfg : Config) (input : gmap string jvalue) (w : World) :
  toolStep w (snd (runWrite cfg input w)).
Proof.
  unfold runWrite. destruct (safePath _ _ _) as [abs [e|]]; [apply toolStep_refl|].
  destruct (os_MkdirAll (filepath.Dir abs) (ext w)) as [[e|] x1]; [apply toolStep_ext|].
  destruct (String.eqb _ "append").
  - destruct (os_AppendFile abs _ x1) as [[e|] x2]; [apply toolStep_ext|].
    destruct (filepath_Rel _ abs) as [rel [e|]]; apply toolStep_ext.
  - destruct (os_WriteFile abs _ x1) as [[e|] x2]; [apply toolStep_ext|].
    destruct (filepath_Rel _ abs) as [rel [e|]]; apply toolStep_ext.
Qed.

Lemma writeBack_toolStep (abs updated msg : string) (w : World) :
  toolStep w (snd (writeBack abs updated msg w)).
Proof.
  unfold writeBack. destruct (os_WriteFile abs updated (ext w)) as [[e|] x]; apply toolStep_ext.
Qed.

Lemma runEdit_toolStep (cfg : Config) (input : gmap string jvalue) (w : World) :
  toolStep w (snd (runEdit cfg input w)).
Proof.
  unfold runEdit. destruct (safePath _ _ _) as [abs [e|]]; [apply toolStep_refl|].
  destruct (os_ReadFile abs (ext w)) as [text [e|]]; [apply toolStep_refl|].
  destruct (String.eqb _ "replace").
  { destruct (String.eqb _ EmptyString); [apply toolStep_refl|apply writeBack_toolStep]. }
  destruct (String.eqb _ "insert"); [apply writeBack_toolStep|].
  destruct (String.eqb _ "delete_range"); [|apply toolStep_refl].
  destruct (input !! "range") as [[| | | |l|]|]; try apply toolStep_refl.
  destruct l as [|r0 [|r1 [|r2 l]]]; try apply toolStep_refl.
  destruct (_ || _); [apply toolStep_refl|apply writeBack_toolStep].
Qed.

Lemma runTodoUpdate_toolStep (cfg : Config) (input : gmap string jvalue) (w : World) :
  toolStep w (snd (runTodoUpdate cfg input w)).
Proof.
  unfold runTodoUpdate.
  destruct (input !! "items") as [[| | | |l|]|]; try apply toolStep_refl.
  destruct (parseItems l 0 []) as [items|e]; [|apply toolStep_refl].
  destruct (Update (todoBoard w) items) as [[view [e|]] tm]; [apply toolStep_refl|].
  cbv zeta. destruct (negb _); (split; [reflexivity|right; reflexivity]).
Qed.

Lemma dispatchToolCall_toolStep (cfg : Config) (tc : ToolCall) (w : World) :
  toolStep w (snd (dispatchToolCall cfg tc w)).
Proof.
  unfold dispatchToolCall.
  destruct (json_Unmarshal_map _) as [input [e|]]; [apply toolStep_refl|].
  destruct (String.eqb _ "bash").
  { pose proof (runBash_toolStep cfg input w) as Hr.
    destruct (runBash cfg input w) as [[res err] w']. exact Hr. }
  destruct (String.eqb _ "read_file").
  { pose proof (runRead_toolStep cfg input w) as Hr.
    destruct (runRead cfg input w) as [[res err] w']. exact Hr. }
  destruct (String.eqb _ "write_file").
  { pose proof (runWrite_toolStep cfg input w) as Hr.
    destruct (runWrite cfg input w) as [[res err] w']. exact Hr. }
  destruct (String.eqb _ "edit_text").
  { pose proof (runEdit_toolStep cfg input w) as Hr.
    destruct (runEdit cfg input w) as [[res err] w']. exact Hr. }
  destruct (String.eqb _ "TodoWrite").
  { pose proof (runTodoUpdate_toolStep cfg input w) as Hr.
    destruct (runTodoUpdate cfg input w) as [[res err] w']. exact Hr. }
  apply toolStep_refl.
Qed.

Lemma dispatchAll_toolStep (cfg : Config) (calls : list ToolCall) (w : World) :
  toolStep w (snd (dispatchAll cfg calls w)).
Proof.
  revert w. induction calls as [|tc calls IH]; intros w; [apply toolStep_refl|].
  cbn [dispatchAll]. pose proof (dispatchToolCall_toolStep cfg tc w) as H1.
  destruct (dispatchToolCall cfg tc w) as [m w1]. cbn [snd] in H1.
  specialize (IH w1). destruct (dispatchAll cfg calls w1) as [ms w2].
  exact (toolStep_trans _ _ _ H1 IH).
Qed.

Lemma callOpenAI_toolStep (cfg : Config) (msgs : list Message) (w : World) :
  toolStep w (snd (callOpenAI cfg msgs w)).
Proof.
  unfold callOpenAI.
  destruct (json_Marshal _ _ _ _); [apply toolStep_refl|].
  destruct (http_NewRequest _); [apply toolStep_refl|].
  destruct (http_Do _ (ext w)) as [[resp|e] x]; [|apply toolStep_ext].
  destruct (cfg_Stream cfg); apply toolStep_ext.
Qed.

Lemma endOfTurn_ended (w w1 : World) : toolStep w w1 -> turnEnded w (endOfTurn w1).
Proof.
  intros [Hp Hc]. unfold endOfTurn, turnEnded. cbv zeta. cbn [roundsWithoutTodo].
  destruct (Z.ltb_spec 10 (roundsWithoutTodo w1 + 1)) as [Hlt|Hge].
  - unfold ensureContextBlock. cbn [pendingContextBlocks].
    destruct (existsb _ (pendingContextBlocks w1)) eqn:E; cbn [roundsWithoutTodo].
    + split; [destruct Hc as [->| ->]; [left|right]; reflexivity|].
      split; [intros _|split; [left; exact Hp|lia]].
      unfold pendingTexts. cbn [pendingContextBlocks].
      apply existsb_exists in E as (b & Hb & E). apply String.eqb_eq in E.
      apply in_map_iff. exists b. split; assumption.
    + split; [destruct Hc as [->| ->]; [left|right]; reflexivity|].
      split; [intros _|split; [right; cbn [pendingContextBlocks]; rewrite Hp; reflexivity|lia]].
      unfold pendingTexts. cbn [pendingContextBlocks]. rewrite map_app.
      apply in_or_app. right. left. reflexivity.
  - cbn [roundsWithoutTodo pendingContextBlocks].
    split; [destruct Hc as [->| ->]; [left|right]; reflexivity|].
    split; [lia|]. split; [left; exact Hp|intros _; exact Hp].
Qed.

Lemma rounds_globals (n : nat) (cfg : Config) (hist : list Message) (w w1 : World) :
  toolStep w w1 ->
  match snd (fst (rounds n cfg hist w1)) with
  | None => turnEnded w (snd (rounds n cfg hist w1))
  | Some _ => toolStep w (snd (rounds n cfg hist w1))
  end.
Proof.
  revert hist w1. induction n as [|n IH]; intros hist w1 Hs; [exact Hs|].
  cbn [rounds]. unfold round.
  pose proof (callOpenAI_toolStep cfg (systemMessage cfg :: hist) w1) as H1.
  destruct (callOpenAI cfg (systemMessage cfg :: hist) w1) as [[resp|e] w2]; cbn [snd] in H1;
    [|exact (toolStep_trans _ _ _ Hs H1)].
  pose proof (toolStep_trans _ _ _ Hs H1) as H2.
  destruct (resp_Choices resp) as [|choice rest]; [exact H2|].
  destruct (_ && _).
  - pose proof (dispatchAll_toolStep cfg (msg_ToolCalls (ch_Message choice)) w2) as H3.
    destruct (dispatchAll cfg _ w2) as [ms w3]. cbn [snd] in H3.
    apply IH. exact (toolStep_trans _ _ _ H2 H3).
  - cbn [fst snd]. exact (endOfTurn_ended w w2 H2).
Qed.

Lemma sameGlobals_refl (w : World) : sameGlobals w w.
Proof. repeat split. Qed.

Lemma sameGlobals_ext (w : World) (x : Ext) : sameGlobals w (set_ext w x).
Proof. repeat split. Qed.

Lemma runBash_same (cfg : Config) (input : gmap string jvalue) (w : World) :
  sameGlobals w (snd (runBash cfg input w)).
Proof.
  unfold runBash. destruct (String.eqb _ EmptyString); [apply sameGlobals_refl|].
  destruct (isDangerousCommand _); [apply sameGlobals_refl|].
  destruct (exec_Run _ _ _ (ext w)) as [res x].
  destruct (run_DeadlineExceeded res); [apply sameGlobals_ext|].
  destruct (run_Err res); apply sameGlobals_ext.
Qed.

Lemma runRead_same (cfg : Config) (input : gmap string jvalue) (w : World) :
  sameGlobals w (snd (runRead cfg input w)).
Proof.
  unfold runRead. destruct (safePath _ _ _) as [abs [e|]]; [apply sameGlobals_refl|].
  destruct (os_ReadFile abs (ext w)) as [text [e|]]; [apply sameGlobals_refl|].
  destruct (getOptionalInt input "start_line"), (getOptionalInt input "end_line").
  apply sameGlobals_refl.
Qed.

Lemma runWrite_same (cfg : Config) (input : gmap string jvalue) (w : World) :
  sameGlobals w (snd (runWrite cfg input w)).
Proof.
  unfold runWrite. destruct (safePath _ _ _) as [abs [e|]]; [apply sameGlobals_refl|].
  destruct (os_MkdirAll (filepath.Dir abs) (ext w)) as [[e|] x1]; [apply sameGlobals_ext|].
  destruct (String.eqb _ "append").
  - destruct (os_AppendFile abs _ x1) as [[e|] x2]; [apply sameGlobals_ext|].
    destruct (filepath_Rel _ abs) as [rel [e|]]; apply sameGlobals_ext.
  - destruct (os_WriteFile abs _ x1) as [[e|] x2]; [apply sameGlobals_ext|].
    destruct (filepath_Rel _ abs) as [rel [e|]]; apply sameGlobals_ext.
Qed.

Lemma writeBack_same (abs updated msg : string) (w : World) :
  sameGlobals w (snd (writeBack abs updated msg w)).
Proof.
  unfold writeBack. destruct (os_WriteFile abs updated (ext w)) as [[e|] x];
    apply sameGlobals_ext.
Qed.

Lemma runEdit_same (cfg : Config) (input : gmap string jvalue) (w : World) :
  sameGlobals w (snd (runEdit cfg input w)).
Proof.
  unfold runEdit. destruct (safePath _ _ _) as [abs [e|]]; [apply sameGlobals_refl|].
  destruct (os_ReadFile abs (ext w)) as [text [e|]]; [apply sameGlobals_refl|].
  destruct (String.eqb _ "replace").
  { destruct (String.eqb _ EmptyString); [apply sameGlobals_refl|apply writeBack_same]. }
  destruct (String.eqb _ "insert"); [apply writeBack_same|].
  destruct (String.eqb _ "delete_range"); [|apply sameGlobals_refl].
  destruct (input !! "range") as [[| | | |l|]|]; try apply sameGlobals_refl.
  destruct l as [|r0 [|r1 [|r2 l]]]; try apply sameGlobals_refl.
  destruct (_ || _); [apply sameGlobals_refl|apply writeBack_same].
Qed.

Lemma callOpenAI_same (cfg : Config) (msgs : list Message) (w : World) :
  sameGlobals w (snd (callOpenAI cfg msgs w)).
Proof.
  unfold callOpenAI.
  destruct (json_Marshal _ _ _ _); [apply sameGlobals_refl|].
  destruct (http_NewRequest _); [apply sameGlobals_refl|].
  destruct (http_Do _ (ext w)) as [[resp|e] x]; [|apply sameGlobals_ext].
  destruct (cfg_Stream cfg); apply sameGlobals_ext.
Qed.

(** A todo update that goes through resets the counter; one that is
    refused leaves the world as it is. *)
Lemma runTodoUpdate_counts (cfg : Config) (input : gmap string jvalue) (w : World) :
  pendingContextBlocks (snd (runTodoUpdate cfg input w)) = pendingContextBlocks w
  /\ match snd (fst (runTodoUpdate cfg input w)) with
     | None => roundsWithoutTodo (snd (runTodoUpdate cfg input w)) = 0
     | Some _ => snd (runTodoUpdate cfg input w) = w
     end.
Proof.
  unfold runTodoUpdate.
  destruct (input !! "items") as [[| | | |l|]|]; try (split; reflexivity).
  destruct (parseItems l 0 []) as [items|e]; [|split; reflexivity].
  destruct (Update (todoBoard w) items) as [[view [e|]] tm]; [split; reflexivity|].
  cbv zeta. destruct (negb _); split; reflexivity.
Qed.

Lemma dispatchToolCall_counts (cfg : Config) (tc : ToolCall) (w : World) :
  pendingContextBlocks (snd (dispatchToolCall cfg tc w)) = pendingContextBlocks w
  /\ roundsWithoutTodo (snd (dispatchToolCall cfg tc w))
     = (if todoWritten cfg tc w then 0 else roundsWithoutTodo w)
  /\ (todoWritten cfg tc w = false ->
      todoBoard (snd (dispatchToolCall cfg tc w)) = todoBoard w).
Proof.
  unfold dispatchToolCall, todoWritten.
  destruct (json_Unmarshal_map _) as [input [e|]]; [repeat split|].
  destruct (String.eqb_spec (fn_Name (tc_Function tc)) "bash") as [E|_].
  { rewrite E. cbn [String.eqb Ascii.eqb Bool.eqb andb].
    destruct (runBash_same cfg input w) as (Hb & Hp & Hc).
    destruct (runBash cfg input w) as [[res err] w']. cbn [snd] in *. auto. }
  destruct (String.eqb_spec (fn_Name (tc_Function tc)) "read_file") as [E|_].
  { rewrite E. cbn [String.eqb Ascii.eqb Bool.eqb andb].
    destruct (runRead_same cfg input w) as (Hb & Hp & Hc).
    destruct (runRead cfg input w) as [[res err] w']. cbn [snd] in *. auto. }
  destruct (String.eqb_spec (fn_Name (tc_Function tc)) "write_file") as [E|_].
  { rewrite E. cbn [String.eqb Ascii.eqb Bool.eqb andb].
    destruct (runWrite_same cfg input w) as (Hb & Hp & Hc).
    destruct (runWrite cfg input w) as [[res err] w']. cbn [snd] in *. auto. }
  destruct (String.eqb_spec (fn_Name (tc_Function tc)) "edit_text") as [E|_].
  { rewrite E. cbn [String.eqb Ascii.eqb Bool.eqb andb].
    destruct (runEdit_same cfg input w) as (Hb & Hp & Hc).
    destruct (runEdit cfg input w) as [[res err] w']. cbn [snd] in *. auto. }
  destruct (String.eqb (fn_Name (tc_Function tc)) "TodoWrite"); [|repeat split].
  cbn [andb]. destruct (runTodoUpdate_counts cfg input w) as [Hp Hc].
  destruct (runTodoUpdate cfg input w) as [[res [err|]] w']; cbn [fst snd] in *.
  - subst w'. repeat split.
  - split; [exact Hp|]. split; [exact Hc|discriminate].
Qed.

Lemma dispatchAll_counts (cfg : Config) (calls : list ToolCall) (w : World) :
  pendingContextBlocks (snd (dispatchAll cfg calls w)) = pendingContextBlocks w
  /\ roundsWithoutTodo (snd (dispatchAll cfg calls w))
     = (if anyWritten cfg calls w then 0 else roundsWithoutTodo w)
  /\ (anyWritten cfg calls w = false ->
      todoBoard (snd (dispatchAll cfg calls w)) = todoBoard w).
Proof.
  revert w. induction calls as [|tc calls IH]; intros w; [repeat split|].
  cbn [dispatchAll anyWritten].
  destruct (dispatchToolCall_counts cfg tc w) as (Hp & Hc & Hb).
  destruct (dispatchToolCall cfg tc w) as [m w1]. cbn [snd] in *.
  destruct (IH w1) as (Hp1 & Hc1 & Hb1).
  destruct (dispatchAll cfg calls w1) as [ms w2]. cbn [snd] in *.
  split; [congruence|]. split.
  - rewrite Hc1. destruct (anyWritten cfg calls w1); [rewrite orb_true_r; reflexivity|].
    rewrite orb_false_r. exact Hc.
  - intros Hn. apply orb_false_iff in Hn as [H1 H2]. rewrite (Hb1 H2). exact (Hb H1).
Qed.

Lemma rounds_counts (n : nat) (cfg : Config) (hist : list Message) (w : World) :
  match snd (fst (rounds n cfg hist w)) with
  | None => roundsWithoutTodo (snd (rounds n cfg hist w))
            = (if roundsWrote n cfg hist w then 1 else roundsWithoutTodo w + 1)
  | Some _ => roundsWithoutTodo (snd (rounds n cfg hist w))
              = (if roundsWrote n cfg hist w then 0 else roundsWithoutTodo w)
  end
  /\ (roundsWrote n cfg hist w = false ->
      todoBoard (snd (rounds n cfg hist w)) = todoBoard w).
Proof.
  revert hist w. induction n as [|n IH]; intros hist w; [split; reflexivity|].
  cbn [rounds roundsWrote]. unfold round, roundWrote.
  destruct (callOpenAI_same cfg (systemMessage cfg :: hist) w) as (Hb & _ & Hc).
  destruct (callOpenAI cfg (systemMessage cfg :: hist) w) as [[resp|e] w1]; cbn [snd] in *;
    [|split; [exact Hc|intros _; exact Hb]].
  destruct (resp_Choices resp) as [|choice rest]; [split; [exact Hc|intros _; exact Hb]|].
  destruct (String.eqb (ch_FinishReason choice) "tool_calls"
            && (0 <? length (msg_ToolCalls (ch_Message choice)))%nat).
  - cbn [andb].
    destruct (dispatchAll_counts cfg (msg_ToolCalls (ch_Message choice)) w1)
      as (_ & Hc2 & Hb2).
    destruct (dispatchAll cfg (msg_ToolCalls (ch_Message choice)) w1) as [ms w2].
    cbn [snd] in *.
    destruct (IH (hist ++ [ch_Message choice] ++ ms) w2) as [Hc3 Hb3].
    split.
    + destruct (snd (fst (rounds n cfg (hist ++ [ch_Message choice] ++ ms) w2)));
        rewrite Hc3, Hc2;
        destruct (anyWritten cfg (msg_ToolCalls (ch_Message choice)) w1),
                 (roundsWrote n cfg (hist ++ [ch_Message choice] ++ ms) w2);
        cbn [orb]; rewrite ?Hc; lia.
    + intros Hn. apply orb_false_iff in Hn as [H1 H2].
      rewrite (Hb3 H2), (Hb2 H1). exact Hb.
  - cbn [fst snd]. cbv zeta. split.
    + destruct (10 <? _); [unfold ensureContextBlock; destruct (existsb _ _)|];
        cbn [roundsWithoutTodo]; rewrite Hc; reflexivity.
    + intros _.
      destruct (10 <? _); [unfold ensureContextBlock; destruct (existsb _ _)|];
        cbn [todoBoard]; exact Hb.
Qed.

(** X17: the round counter and the reminder.  A tool call resets the
    counter to zero exactly when it is a todo update that goes through,
    and leaves the counter, the board and the pending blocks alone
    otherwise.  When [query] ends without an error, the counter is one if
    a todo update went through during the call, and one more than before
    otherwise; if the counter is then above ten the reminder is pending,
    put last unless it was pending already, and otherwise the pending
    blocks are as they were.  When [query] ends with an error, the counter
    is zero if a todo update went through and as before otherwise, and the
    pending blocks are as they were.  Without such an update the board is
    as it was. *)
Theorem query_counts_rounds (cfg : Config) (messages : list Message) (w : World) :
  let r := query cfg messages w in
  let wrote := roundsWrote maxAgentIterations cfg messages w in
  match snd (fst r) with
  | None =>
    roundsWithoutTodo (snd r) = (if wrote then 1 else roundsWithoutTodo w + 1)
    /\ turnEnded w (snd r)
  | Some _ =>
    roundsWithoutTodo (snd r) = (if wrote then 0 else roundsWithoutTodo w)
    /\ pendingContextBlocks (snd r) = pendingContextBlocks w
  end
  /\ (wrote = false -> todoBoard (snd r) = todoBoard w)
  /\ (forall tc w0,
         pendingContextBlocks (snd (dispatchToolCall cfg tc w0)) = pendingContextBlocks w0
         /\ roundsWithoutTodo (snd (dispatchToolCall cfg tc w0))
            = (if todoWritten cfg tc w0 then 0 else roundsWithoutTodo w0)
         /\ (todoWritten cfg tc w0 = false ->
             todoBoard (snd (dispatchToolCall cfg tc w0)) = todoBoard w0)).
Proof.
  intros r wrote. subst r wrote. rewrite query_rounds.
  destruct (rounds_counts maxAgentIterations cfg messages w) as [Hc Hb].
  pose proof (rounds_globals maxAgentIterations cfg messages w w (toolStep_refl w)) as Hg.
  split; [|split; [exact Hb|intros tc w0; apply dispatchToolCall_counts]].
  destruct (snd (fst (rounds maxAgentIterations cfg messages w))).
  - split; [exact Hc|apply Hg].
  - split; [exact Hc|exact Hg].
Qed.

End NagFacts.

Lemma loadConfig_valid_witness :
  (exists cfg, @loadConfig Ref.runtime Sim.host DemoStart.env Sim.machine0 = Loaded cfg
               /\ cfg_APIKey cfg = "sk-test" /\ cfg_Stream cfg = true
               /\ 0 < cfg_MaxResult cfg < 2 ^ 63)
  /\ (exists cfg, @loadConfig Ref.runtime Sim.host DemoStart.envNoStream Sim.machine0
                  = Loaded cfg
                  /\ cfg_Stream cfg = false).
Proof.
  split.
  - eexists. split; [vm_compute; reflexivity|]. split; [reflexivity|]. split; [reflexivity|].
    destruct (proj1 (@loadConfig_valid Ref.runtime Sim.host DemoStart.env Sim.machine0)
                    _ eq_refl) as (_ & _ & _ & Hmax & _).
    exact Hmax.
  - eexists. split; [vm_compute; reflexivity|].
    destruct (proj1 (@loadConfig_valid Ref.runtime Sim.host DemoStart.envNoStream
                                       Sim.machine0) _ eq_refl)
      as (_ & _ & _ & _ & _ & _ & _ & _ & _ & _ & _ & _ & _ & _ & _ & _ & Hstream & _).
    apply Hstream. vm_compute. reflexivity.
Defined.

Lemma mainLoop_stops_witness :
  @mainLoop Ref.runtime Sim.host Sim.config ["   "; " Quit "; "list the files"] []
            (exampleWorld scriptFailing)
  = ([], exampleWorld scriptFailing).
Proof.
  transitivity (@mainLoop Ref.runtime Sim.host Sim.config ["   "] []
                          (exampleWorld scriptFailing)).
  - exact (proj1 (@mainLoop_stops Ref.runtime Sim.host Sim.config ["   "] ["list the files"]
                    " Quit " [] (exampleWorld scriptFailing)) eq_refl).
  - refine (proj2 (@mainLoop_stops Ref.runtime Sim.host Sim.config [] [] "   " []
                     (exampleWorld scriptFailing)) _).
    repeat constructor.
Defined.

Lemma query_streaming_witness :
  fst (@query Ref.runtime Sim.host DemoStart.streaming [Example.userMessage]
              (exampleWorld [Sim.ok DemoStart.body]))
  = ([Example.userMessage; assistantText "Hi there"], None).
Proof.
  pose proof (@query_streaming Ref.runtime Sim.host DemoStart.streaming [Example.userMessage]
                (exampleWorld [Sim.ok DemoStart.body]) eq_refl _ _
                (surjective_pairing _)) as (_ & _ & _ & Hq).
  assert (fst (@callOpenAI Ref.runtime Sim.host DemoStart.streaming
                 (systemMessage DemoStart.streaming :: [Example.userMessage])
                 (exampleWorld [Sim.ok DemoStart.body]))
          = inl (streamed "Hi there")) as E by (vm_compute; reflexivity).
  rewrite E in Hq. destruct Hq as (content & Hc & Hq & _).
  injection Hc as <-. rewrite Hq. reflexivity.
Defined.

(** From a counter at ten: a turn without todo update gives eleven, a turn
    with one gives one and a board of one item. *)
Lemma query_counts_rounds_witness :
  roundsWithoutTodo (snd (@query Ref.runtime Sim.host Sim.config [Example.userMessage]
                                 DemoStart.tenRounds)) = 11
  /\ roundsWithoutTodo (snd (@query Ref.runtime Sim.host Sim.config [Example.userMessage]
                                    DemoStart.tenRoundsTodo)) = 1.
Proof.
  pose proof (@query_counts_rounds Ref.runtime Sim.host Sim.config [Example.userMessage]
                DemoStart.tenRounds) as (H1 & _).
  pose proof (@query_counts_rounds Ref.runtime Sim.host Sim.config [Example.userMessage]
                DemoStart.tenRoundsTodo) as (H2 & _).
  assert (snd (fst (@query Ref.runtime Sim.host Sim.config [Example.userMessage]
                           DemoStart.tenRounds)) = None) as E1 by (vm_compute; reflexivity).
  assert (snd (fst (@query Ref.runtime Sim.host Sim.config [Example.userMessage]
                           DemoStart.tenRoundsTodo)) = None) as E2 by (vm_compute; reflexivity).
  rewrite E1 in H1. rewrite E2 in H2. destruct H1 as [H1 _]. destruct H2 as [H2 _].
  split.
  - rewrite H1. vm_compute. reflexivity.
  - rewrite H2. vm_compute. reflexivity.
Defined.
From Stdlib Require DecimalPos DecimalN.

(** ** Reading integers *)

Lemma parseDigits_acc (d : Decimal.uint) (acc : positive) :
  parseDigits (NilEmpty.string_of_uint d) (Z.pos acc)
  = Some (Z.pos (Pos.of_uint_acc d acc)).
Proof.
  revert acc. induction d as [|d IH|d IH|d IH|d IH|d IH|d IH|d IH|d IH|d IH|d IH];
    intros acc; [reflexivity|..];
    cbn [NilEmpty.string_of_uint parseDigits Pos.of_uint_acc];
    match goal with
    | |- context [digitVal ?c] =>
      let v := eval vm_compute in (digitVal c) in change (digitVal c) with v
    end; cbn iota; rewrite <- IH; f_equal; lia.
Qed.

Lemma parseDigits_uint (d : Decimal.uint) :
  parseDigits (NilEmpty.string_of_uint d) 0 = Some (Z.of_N (Pos.of_uint d)).
Proof.
  induction d as [|d IH|d IH|d IH|d IH|d IH|d IH|d IH|d IH|d IH|d IH];
    [reflexivity|exact IH|..];
    cbn [NilEmpty.string_of_uint parseDigits Pos.of_uint];
    match goal with
    | |- context [digitVal ?c] =>
      let v := eval vm_compute in (digitVal c) in change (digitVal c) with v
    end; cbn iota; apply parseDigits_acc.
Qed.

Lemma to_uint_nonempty (p : positive) : NilEmpty.string_of_uint (Pos.to_uint p) <> EmptyString.
Proof.
  intros E. pose proof (DecimalPos.Unsigned.of_to p) as Hp.
  destruct (Pos.to_uint p); try discriminate E. discriminate Hp.
Qed.

Lemma to_uint_unsigned (p : positive) :
  match NilEmpty.string_of_uint (Pos.to_uint p) with
  | String "-"%char _ | String "+"%char _ => False
  | _ => True
  end.
Proof. destruct (Pos.to_uint p); exact I. Qed.

(** [strconv.Atoi] reads back what [strconv.Itoa] writes. *)
Lemma Atoi_itoa (n : Z) : - 2 ^ 63 <= n < 2 ^ 63 -> Atoi (itoa n) = Some n.
Proof.
  intros Hn. unfold itoa, Atoi.
  assert (inInt64 n = true) as Hin
    by (unfold inInt64; apply andb_true_iff; split; [apply Z.leb_le|apply Z.ltb_lt]; lia).
  destruct n as [|p|p]; cbn [Z.to_int NilEmpty.string_of_int].
  - reflexivity.
  - pose proof (to_uint_nonempty p) as Hne. pose proof (to_uint_unsigned p) as Hu.
    pose proof (parseDigits_uint (Pos.to_uint p)) as Hp.
    pose proof (DecimalPos.Unsigned.of_to p) as Hof.
    change (Pos.of_uint (Pos.to_uint p)) with (N.of_uint (Pos.to_uint p)) in Hp.
    assert (N.of_uint (Pos.to_uint p) = N.pos p) as Hval.
    { unfold N.of_uint. exact (DecimalN.Unsigned.of_to (N.pos p)). }
    rewrite Hval in Hp. cbn [Z.of_N] in Hp.
    destruct (NilEmpty.string_of_uint (Pos.to_uint p)) as [|c s] eqn:E; [congruence|].
    destruct c as [[] [] [] [] [] [] [] []]; cbv beta iota in Hu; try contradiction;
      cbv beta iota zeta; rewrite Hp, Hin; reflexivity.
  - pose proof (to_uint_nonempty p) as Hne.
    pose proof (parseDigits_uint (Pos.to_uint p)) as Hp.
    assert (Pos.of_uint (Pos.to_uint p) = N.pos p) as Hval
      by exact (DecimalN.Unsigned.of_to (N.pos p)).
    rewrite Hval in Hp. cbn [Z.of_N] in Hp.
    destruct (NilEmpty.string_of_uint (Pos.to_uint p)) as [|c s] eqn:E; [congruence|].
    rewrite Hp. cbv zeta. change (- Z.pos p) with (Z.neg p). rewrite Hin. reflexivity.
Qed.

Lemma rev_app_acc (s acc : string) : String.rev_app s acc = String.rev s +:+ acc.
Proof.
  unfold String.rev. revert acc. induction s as [|c s IH]; intros acc; [reflexivity|].
  cbn [String.rev_app]. rewrite (IH (String c acc)), (IH (String c EmptyString)).
  rewrite app_assoc_s. reflexivity.
Qed.

Lemma rev_cons_s (c : ascii) (s : string) :
  String.rev (String c s) = String.rev s +:+ String c EmptyString.
Proof. unfold String.rev at 1. cbn [String.rev_app]. apply rev_app_acc. Qed.

Lemma rev_app_s (a b : string) : String.rev (a +:+ b) = String.rev b +:+ String.rev a.
Proof.
  induction a as [|c a IH]; [rewrite sapp_nil_l, sapp_nil_r; reflexivity|].
  rewrite sapp_cons, !rev_cons_s, IH, app_assoc_s. reflexivity.
Qed.

Lemma rev_rev_s (s : string) : String.rev (String.rev s) = s.
Proof.
  induction s as [|c s IH]; [reflexivity|].
  rewrite rev_cons_s, rev_app_s, IH. reflexivity.
Qed.

Lemma rev_starts_with_last (s : string) (c : ascii) :
  lastChar s = Some c -> exists t, String.rev s = String c t.
Proof.
  intros Hl. apply lastChar_snoc_inv in Hl as [t ->].
  rewrite rev_app_s. eexists. reflexivity.
Qed.

Lemma asciiSpaces_rev (s : string) : asciiSpaces s = true -> asciiSpaces (String.rev s) = true.
Proof.
  induction s as [|c s IH]; [reflexivity|].
  rewrite rev_cons_s. cbn [asciiSpaces]. intros Hs. apply andb_true_iff in Hs as [Hc Hs].
  specialize (IH Hs). clear Hs. revert IH. generalize (String.rev s). intros r.
  induction r as [|d r IHr].
  - intros _. rewrite sapp_nil_l. cbn [asciiSpaces]. rewrite Hc. reflexivity.
  - rewrite sapp_cons. cbn [asciiSpaces]. intros Hr. apply andb_true_iff in Hr as [Hd Hr].
    rewrite Hd, (IHr Hr). reflexivity.
Qed.

Lemma asciiSpace_below (c : ascii) :
  strings.asciiSpace c = true -> (utf8.RuneSelf <=? byte_val c) = false.
Proof.
  unfold strings.asciiSpace, utf8.RuneSelf. intros Hs. apply Z.leb_gt.
  repeat (apply orb_true_iff in Hs as [Hs|Hs]); apply Z.eqb_eq in Hs; lia.
Qed.

Lemma trimStart_spaces (ws t : string) :
  asciiSpaces ws = true -> strings.trimStart (ws +:+ t) = strings.trimStart t.
Proof.
  induction ws as [|c ws IH]; [reflexivity|].
  cbn [asciiSpaces]. intros Hs. apply andb_true_iff in Hs as [Hc Hs].
  rewrite sapp_cons. cbn [strings.trimStart]. rewrite (asciiSpace_below c Hc), Hc.
  apply IH. exact Hs.
Qed.

Lemma trimStart_ink (c : ascii) (t : string) :
  inkByte c = true -> strings.trimStart (String c t) = strings.Stop (String c t).
Proof.
  unfold inkByte. intros Hi. apply andb_true_iff in Hi as [Hb Hs].
  apply Z.ltb_lt in Hb. apply negb_true_iff in Hs.
  cbn [strings.trimStart]. destruct (Z.leb_spec utf8.RuneSelf (byte_val c)); [lia|].
  rewrite Hs. reflexivity.
Qed.

(** [strings.TrimSpace] takes ASCII white space off both ends of a text
    that begins and ends with an ASCII byte that is not white space. *)
Lemma TrimSpace_core (ws1 ws2 core : string) (c0 cl : ascii) (t : string) :
  asciiSpaces ws1 = true -> asciiSpaces ws2 = true ->
  core = String c0 t -> inkByte c0 = true ->
  lastChar core = Some cl -> inkByte cl = true ->
  strings.TrimSpace (ws1 +:+ core +:+ ws2) = core.
Proof.
  intros H1 H2 Hcore H0 Hlast Hl. unfold strings.TrimSpace.
  rewrite (trimStart_spaces ws1 _ H1). rewrite Hcore at 1. rewrite sapp_cons.
  rewrite (trimStart_ink c0 _ H0). rewrite <- sapp_cons, <- Hcore.
  rewrite rev_app_s, (trimStart_spaces _ _ (asciiSpaces_rev _ H2)).
  destruct (rev_starts_with_last core cl Hlast) as [r Er].
  rewrite Er, (trimStart_ink cl r Hl), <- Er. apply rev_rev_s.
Qed.

Lemma string_of_uint_ink (d : Decimal.uint) :
  Forall (fun c => inkByte c = true) (list_ascii_of_string (NilEmpty.string_of_uint d)).
Proof.
  induction d; cbn [NilEmpty.string_of_uint list_ascii_of_string];
    [constructor|..]; (constructor; [reflexivity|assumption]).
Qed.

Lemma itoa_ink (n : Z) :
  Forall (fun c => inkByte c = true) (list_ascii_of_string (itoa n))
  /\ itoa n <> EmptyString.
Proof.
  unfold itoa. destruct n as [|p|p]; cbn [Z.to_int NilEmpty.string_of_int].
  - split; [repeat constructor|discriminate].
  - split; [apply string_of_uint_ink|apply to_uint_nonempty].
  - split; [|discriminate]. cbn [list_ascii_of_string].
    constructor; [reflexivity|apply string_of_uint_ink].
Qed.

Lemma lastChar_Forall (P : ascii -> Prop) (s : string) :
  Forall P (list_ascii_of_string s) -> s <> EmptyString -> exists c, lastChar s = Some c /\ P c.
Proof.
  induction s as [|c s IH]; [congruence|]. cbn [list_ascii_of_string lastChar].
  intros Hf _. apply Forall_cons in Hf as [Hc Hs].
  destruct s as [|d s]; [exists c; split; [reflexivity|exact Hc]|].
  destruct (IH Hs ltac:(discriminate)) as (e & -> & He). exists e. split; [reflexivity|exact He].
Qed.

Lemma TrimSpace_itoa (ws1 ws2 : string) (n : Z) :
  asciiSpaces ws1 = true -> asciiSpaces ws2 = true ->
  strings.TrimSpace (ws1 +:+ itoa n +:+ ws2) = itoa n.
Proof.
  intros H1 H2. destruct (itoa_ink n) as [Hink Hne].
  destruct (lastChar_Forall _ _ Hink Hne) as (cl & Hl & Hcl).
  destruct (itoa n) as [|c0 t] eqn:E; [congruence|].
  cbn [list_ascii_of_string] in Hink. apply Forall_cons in Hink as [H0 _].
  exact (TrimSpace_core ws1 ws2 (String c0 t) c0 cl t H1 H2 eq_refl H0 Hl Hcl).
Qed.

Section IntegerFacts.
Context `{Runtime}.

(** X18: how the tools read an integer parameter.  A string that holds
    the decimal text of a 64-bit integer, with or without ASCII white space
    around it, is read as that integer: writing a number and reading it
    back gives the number.  Whenever [getOptionalInt] finds a value,
    [toInt] reads the same value from it.  A missing key, a string that is
    no integer, [null], a boolean, an array or an object give the default
    (and [toInt] gives 0). *)
Theorem integers_read (m : gmap string jvalue) (key : string) (def : Z) :
  (forall n ws1 ws2,
      - 2 ^ 63 <= n < 2 ^ 63 -> asciiSpaces ws1 = true -> asciiSpaces ws2 = true ->
      Atoi (itoa n) = Some n
      /\ toInt (JString (ws1 +:+ itoa n +:+ ws2)) = n
      /\ (m !! key = Some (JString (ws1 +:+ itoa n +:+ ws2)) ->
          getOptionalInt m key = (n, true) /\ getIntOrDefault m key def = n))
  /\ (forall v, getOptionalInt m key = (v, true) ->
        exists x, m !! key = Some x /\ toInt x = v /\ getIntOrDefault m key def = v)
  /\ (m !! key = None -> getIntOrDefault m key def = def)
  /\ (forall s, m !! key = Some (JString s) -> Atoi (strings.TrimSpace s) = None ->
        getIntOrDefault m key def = def /\ toInt (JString s) = 0)
  /\ (forall x, m !! key = Some x ->
        match x with JNumber _ | JString _ => False | _ => True end ->
        getIntOrDefault m key def = def /\ toInt x = 0).
Proof.
  split; [|split; [|split; [|split]]].
  - intros n ws1 ws2 Hn H1 H2. pose proof (Atoi_itoa n Hn) as Ha.
    pose proof (TrimSpace_itoa ws1 ws2 n H1 H2) as Ht.
    destruct (itoa_ink n) as [_ Hne].
    split; [exact Ha|]. split; [cbn [toInt]; rewrite Ht, Ha; reflexivity|].
    intros Hm. unfold getIntOrDefault, getOptionalInt. rewrite Hm, Ht, Ha.
    destruct (String.eqb_spec (itoa n) EmptyString); [contradiction|]. split; reflexivity.
  - intros v. unfold getIntOrDefault, getOptionalInt.
    destruct (m !! key) as [[| |f|s| |]|]; try discriminate.
    + intros [= <-]. exists (JNumber f). repeat split.
    + destruct (String.eqb_spec (strings.TrimSpace s) EmptyString); [discriminate|].
      destruct (Atoi (strings.TrimSpace s)) as [parsed|] eqn:Ea; [|discriminate].
      intros [= <-]. exists (JString s). cbn [toInt]. rewrite Ea. repeat split.
  - intros Hm. unfold getIntOrDefault, getOptionalInt. rewrite Hm. reflexivity.
  - intros s Hm Ha. unfold getIntOrDefault, getOptionalInt. rewrite Hm, Ha. cbn [toInt].
    rewrite Ha. destruct (String.eqb _ EmptyString); split; reflexivity.
  - intros x Hm Hx. unfold getIntOrDefault, getOptionalInt. rewrite Hm.
    destruct x; try contradiction; split; reflexivity.
Qed.

End IntegerFacts.

Lemma integers_read_witness :
  let m : gmap string jvalue := {[ "timeout_ms" := JString (" " +:+ itoa 5000 +:+ LF) ]} in
  @getIntOrDefault Ref.runtime m "timeout_ms" 30000 = 5000.
Proof.
  cbv zeta.
  destruct (proj1 (@integers_read Ref.runtime
                     {[ "timeout_ms" := JString (" " +:+ itoa 5000 +:+ LF) ]}
                     "timeout_ms" 30000) 5000 " " LF)
    as (_ & _ & Hm); [lia|reflexivity|reflexivity|].
  destruct Hm as [_ Hd]; [reflexivity|]. exact Hd.
Defined.

(** ** The todo tool *)

Section TodoToolFacts.
Context `{Runtime} `{Host}.

Lemma parseItems_objects (maps : list (gmap string jvalue)) (i : Z) (acc : list TodoItem) :
  parseItems (map JObject maps) i acc
  = inl (acc ++ imap (fun k m => itemAt (i + Z.of_nat k) m) maps).
Proof.
  revert i acc. induction maps as [|m maps IH]; intros i acc.
  { cbn. rewrite List.app_nil_r. reflexivity. }
  cbn [map parseItems]. rewrite IH. cbn [imap]. f_equal.
  rewrite <- List.app_assoc. cbn [app]. f_equal. f_equal.
  - unfold itemAt. rewrite Z.add_0_r. reflexivity.
  - apply imap_ext. intros k x _. cbn. f_equal. lia.
Qed.

Lemma parseItems_stops (maps : list (gmap string jvalue)) (v : jvalue) (rest : list jvalue)
      (i : Z) (acc : list TodoItem) :
  isObject v = false ->
  parseItems (map JObject maps ++ v :: rest) i acc
  = inr ("item " +:+ itoa (i + Z.of_nat (length maps)) +:+ " is not an object").
Proof.
  intros Hv. revert i acc. induction maps as [|m maps IH]; intros i acc.
  - cbn [map app length Z.of_nat]. rewrite Z.add_0_r. destruct v; try reflexivity. discriminate Hv.
  - cbn [map app parseItems]. rewrite IH. cbn [length]. do 4 f_equal. lia.
Qed.

Lemma countStatus_spec (items : list TodoItem) (c p : Z) :
  countStatus items c p = (c + completedExact items, p + inProgressExact items).
Proof.
  unfold completedExact, inProgressExact.
  revert c p. induction items as [|it items IH]; intros c p.
  { cbn. f_equal; lia. }
  cbn [countStatus List.filter].
  destruct (String.eqb_spec (todo_Status it) "completed") as [E|Hn].
  - rewrite IH, E. cbn [String.eqb Ascii.eqb Bool.eqb andb length]. f_equal; lia.
  - destruct (String.eqb (todo_Status it) "in_progress"); rewrite IH; cbn [length]; f_equal; lia.
Qed.

Lemma stats_lookup (tm : TodoManager) :
  stats tm !! "total" = Some (Z.of_nat (length (tm_items tm)))
  /\ stats tm !! "completed" = Some (completedExact (tm_items tm))
  /\ stats tm !! "in_progress" = Some (inProgressExact (tm_items tm)).
Proof.
  unfold stats. rewrite countStatus_spec, !Z.add_0_l.
  split; [apply lookup_insert_eq|].
  split.
  - rewrite lookup_insert_ne by discriminate. apply lookup_insert_eq.
  - rewrite !lookup_insert_ne by discriminate. apply lookup_insert_eq.
Qed.

Lemma exact_counts (items : list TodoItem) :
  0 <= completedExact items /\ 0 <= inProgressExact items
  /\ completedExact items + inProgressExact items <= Z.of_nat (length items).
Proof.
  unfold completedExact, inProgressExact.
  induction items as [|it items IH]; [cbn; lia|].
  cbn [List.filter length].
  destruct (String.eqb_spec (todo_Status it) "completed") as [E|Hn].
  - rewrite E. cbn [String.eqb Ascii.eqb Bool.eqb andb length]. lia.
  - destruct (String.eqb (todo_Status it) "in_progress"); cbn [length]; lia.
Qed.

(** X19: the figures of [Stats] after an update that went through: the
    three keys are there; [total] is the number of items and at most 20;
    [completed] and [in_progress] count the items whose status is exactly
    that token, so together they never exceed the total; and at most one
    item is in progress. *)
Theorem Stats_after_Update (tm tm' : TodoManager) (items : list TodoItem) (view : string) :
  Update tm items = ((view, None), tm') ->
  let s := Stats tm' in
  s !! "total" = Some (Z.of_nat (length items))
  /\ s !! "completed" = Some (completedExact items)
  /\ s !! "in_progress" = Some (inProgressExact items)
  /\ 0 <= completedExact items
  /\ 0 <= inProgressExact items <= 1
  /\ completedExact items + inProgressExact items <= Z.of_nat (length items) <= 20
  /\ view = Render tm'.
Proof.
  intros Hu s.
  destruct (Update_cases tm items) as [[Hv E]|[_ [err E]]]; rewrite E in Hu; [|discriminate].
  injection Hu as <- <-. subst s. unfold Stats, Render.
  destruct (stats_lookup {| tm_items := items |}) as (H1 & H2 & H3). cbn [tm_items] in *.
  destruct (exact_counts items) as (Hc & Hp & Hsum).
  destruct Hv as (Hlen & _ & _ & Hin). pose proof (inProgressExact_le items) as Hle.
  unfold maxTodoItems in Hlen.
  repeat split; try assumption; lia.
Qed.

(** X20: the todo tool is all or nothing.  When it reports an error the
    world is as it was: board, round counter and pending blocks included.
    When it succeeds, the items came from an array of objects, the board
    holds exactly these items, the counter is back at zero, nothing outside
    was touched, and the answer is the board as rendered, an empty line and
    the summary.  Without the key [items] the error is
    [missing items parameter]; a value that is no array gives
    [items must be an array]. *)
Theorem runTodoUpdate_all_or_nothing (cfg : Config) (input : gmap string jvalue) (w : World) :
  let r := runTodoUpdate cfg input w in
  (forall res err, fst r = (res, Some err) -> res = EmptyString /\ snd r = w)
  /\ (forall view, fst r = (view, None) ->
        exists maps items,
          input !! "items" = Some (JArray (map JObject maps))
          /\ items = imap (fun k m => itemAt (Z.of_nat k) m) maps
          /\ valid_items items
          /\ todoBoard (snd r) = {| tm_items := items |}
          /\ roundsWithoutTodo (snd r) = 0
          /\ ext (snd r) = ext w
          /\ pendingContextBlocks (snd r) = pendingContextBlocks w
          /\ view = Render (todoBoard (snd r)) +:+ LF +:+ LF +:+ todoSummary items)
  /\ (input !! "items" = None ->
      r = ((EmptyString, Some "missing items parameter"), w))
  /\ (forall v, input !! "items" = Some v ->
        match v with JArray _ => False | _ => True end ->
        r = ((EmptyString, Some "items must be an array"), w)).
Proof.
  intros r. subst r. unfold runTodoUpdate.
  assert (forall l, (exists maps, l = map JObject maps)
                    \/ exists maps v rest, l = map JObject maps ++ v :: rest
                                           /\ isObject v = false) as Hshape.
  { induction l as [|v l IH]; [left; exists []; reflexivity|].
    destruct (isObject v) eqn:Hv0; [|right; exists [], v, l; split; [reflexivity|exact Hv0]].
    destruct v as [| | | | |m]; try discriminate Hv0.
    destruct IH as [[maps ->]|(maps & v & rest & -> & Hv)].
    - left. exists (m :: maps). reflexivity.
    - right. exists (m :: maps), v, rest. split; [reflexivity|exact Hv]. }
  destruct (input !! "items") as [v|] eqn:Hi.
  2: { split; [intros res err [= <- <-]; split; reflexivity|].
       split; [intros view Hv; discriminate Hv|].
       split; [intros _; reflexivity|intros v0 Hv0; discriminate Hv0]. }
  destruct v as [| | | |l|].
  1-4,6: (split; [intros res err [= <- <-]; split; reflexivity|];
          split; [intros view Hv; discriminate Hv|];
          split; [intros Hn; discriminate Hn|intros v0 [= <-] _; reflexivity]).
  split; [|split; [|split; [discriminate|intros v0 [= <-] []]]].
  - intros res err. destruct (parseItems l 0 []) as [items|e]; [|intros [= <- <-]; split; reflexivity].
    destruct (Update_cases (todoBoard w) items) as [[_ E]|[_ [e E]]]; rewrite E.
    + cbv zeta. destruct (negb _); discriminate.
    + intros [= <- <-]. split; reflexivity.
  - intros view. destruct (Hshape l) as [[maps ->]|(maps & v & rest & -> & Hv)].
    2: { rewrite (parseItems_stops maps v rest 0 [] Hv). discriminate. }
    rewrite parseItems_objects. cbn [app].
    set (items := imap (fun k m => itemAt (0 + Z.of_nat k) m) maps).
    assert (items = imap (fun k m => itemAt (Z.of_nat k) m) maps) as Hitems
      by (apply imap_ext; intros; reflexivity).
    destruct (Update_cases (todoBoard w) items) as [[Hv E]|[_ [e E]]]; rewrite E;
      [|discriminate].
    cbv zeta. cbn [todoBoard].
    destruct (stats_lookup {| tm_items := items |}) as (H1 & H2 & H3). cbn [tm_items] in *.
    unfold Stats. rewrite H1, H2, H3. cbn [default from_option]. unfold id.
    assert ((if Z.of_nat (length items) =? 0 then "No todos have been created."
             else "Status updated: " +:+ itoa (completedExact items) +:+ " completed, "
                  +:+ itoa (inProgressExact items) +:+ " in progress.")
            = todoSummary items) as ->.
    { destruct items; reflexivity. }
    assert (todoSummary items <> EmptyString) as Hs by (destruct items; discriminate).
    destruct (String.eqb_spec (todoSummary items) EmptyString); [contradiction|]. cbn [negb].
    intros [= <-]. exists maps, items. cbn [fst snd todoBoard roundsWithoutTodo ext
                                             pendingContextBlocks].
    rewrite <- Hitems. split; [reflexivity|]. split; [reflexivity|]. split; [exact Hv|].
    repeat split.
Qed.

(** X21: how the todo tool reads its items.  An array of objects gives
    one item for each object, in order; an item without an id gets its
    position counted from 1, one without a status is [pending], and the
    text of the active form is read from the key [activeForm].  The first
    element that is no object is named by its index counted from 0, and
    nothing is changed.  The ids given by position can clash with ids given
    by hand: when the first of two items has the id [2] and the second has
    none, the update is refused as a duplicate. *)
Theorem runTodoUpdate_items (cfg : Config) (input : gmap string jvalue) (w : World) :
  (forall maps,
      input !! "items" = Some (JArray (map JObject maps)) ->
      parseItems (map JObject maps) 0 []
      = inl (imap (fun k m => itemAt (Z.of_nat k) m) maps)
      /\ length (imap (fun k m => itemAt (Z.of_nat k) m) maps) = length maps
      /\ forall k m, maps !! k = Some m ->
           imap (fun k m => itemAt (Z.of_nat k) m) maps !! k
           = Some (itemAt (Z.of_nat k) m))
  /\ (forall maps v rest,
        input !! "items" = Some (JArray (map JObject maps ++ v :: rest)) ->
        isObject v = false ->
        runTodoUpdate cfg input w
        = ((EmptyString,
            Some ("item " +:+ itoa (Z.of_nat (length maps)) +:+ " is not an object")), w))
  /\ (forall m1 m2,
        input !! "items" = Some (JArray [JObject m1; JObject m2]) ->
        getString m1 "id" = "2" -> getString m2 "id" = EmptyString ->
        item_ok (itemAt 0 m1) ->
        runTodoUpdate cfg input w = ((EmptyString, Some "duplicate todo id: 2"), w)).
Proof.
  split; [|split].
  - intros maps _. split; [|split].
    + rewrite parseItems_objects. reflexivity.
    + apply length_imap.
    + intros k m Hk. rewrite list_lookup_imap, Hk. reflexivity.
  - intros maps v rest Hi Hv. unfold runTodoUpdate. rewrite Hi.
    rewrite (parseItems_stops maps v rest 0 [] Hv). reflexivity.
  - intros m1 m2 Hi H1 H2 (Hc & Ha & Hs). unfold runTodoUpdate. rewrite Hi.
    cbn [parseItems app]. rewrite H1, H2. cbn [String.eqb Ascii.eqb Bool.eqb andb].
    unfold Update. cbn [length]. change (maxTodoItems <? Z.of_nat 2) with false. cbn iota.
    cbn [validateItems todo_ID todo_Content todo_ActiveForm todo_Status].
    rewrite lookup_empty. cbn [default].
    unfold itemAt in Hc, Ha, Hs. cbn [todo_Content todo_ActiveForm] in Hc, Ha.
    unfold lowerStatus in Hs. cbn [todo_Status] in Hs.
    destruct (String.eqb_spec (strings.TrimSpace (getString m1 "content")) EmptyString);
      [contradiction|].
    destruct (String.eqb_spec (strings.TrimSpace (getString m1 "activeForm")) EmptyString);
      [contradiction|].
    rewrite Hs. cbn [negb].
    change (itoa (0 + 1 + 1)) with "2". rewrite lookup_insert_eq. reflexivity.
Qed.

End TodoToolFacts.

Lemma Stats_after_Update_witness :
  let items := [Example.todo "a" "write the parser" "completed" "writing";
                Example.todo "b" "test it" "in_progress" "testing";
                Example.todo "c" "ship it" "Completed" "shipping"] in
  let tm' := snd (@Update Ref.runtime {| tm_items := [] |} items) in
  @Stats tm' !! "total" = Some 3
  /\ @Stats tm' !! "completed" = Some 1
  /\ @Stats tm' !! "in_progress" = Some 1.
Proof.
  cbv zeta.
  set (items := [Example.todo "a" "write the parser" "completed" "writing";
                 Example.todo "b" "test it" "in_progress" "testing";
                 Example.todo "c" "ship it" "Completed" "shipping"]).
  destruct (@Stats_after_Update Ref.runtime {| tm_items := [] |}
              (snd (@Update Ref.runtime {| tm_items := [] |} items)) items
              (fst (fst (@Update Ref.runtime {| tm_items := [] |} items))))
    as (H1 & H2 & H3 & _); [vm_compute; reflexivity|].
  split; [exact H1|]. split; [exact H2|exact H3].
Defined.

Lemma runTodoUpdate_all_or_nothing_witness :
  let r := @runTodoUpdate Ref.runtime Sim.host Sim.config DemoTodo.input DemoStart.tenRounds in
  roundsWithoutTodo (snd r) = 0
  /\ exists items, todoBoard (snd r) = {| tm_items := items |}
                   /\ @valid_items Ref.runtime items /\ length items = 2%nat.
Proof.
  cbv zeta.
  destruct (proj1 (proj2 (@runTodoUpdate_all_or_nothing Ref.runtime Sim.host Sim.config
                            DemoTodo.input DemoStart.tenRounds))
                  (fst (fst (@runTodoUpdate Ref.runtime Sim.host Sim.config DemoTodo.input
                                            DemoStart.tenRounds))))
    as (maps & items & _ & _ & Hv & Hb & Hc & _); [vm_compute; reflexivity|].
  split; [exact Hc|]. exists items. split; [exact Hb|]. split; [exact Hv|].
  assert (length (tm_items (todoBoard (snd (@runTodoUpdate Ref.runtime Sim.host Sim.config
                                              DemoTodo.input DemoStart.tenRounds)))) = 2%nat)
    as Hl by (vm_compute; reflexivity).
  rewrite Hb in Hl. exact Hl.
Defined.

Lemma runTodoUpdate_items_witness :
  @runTodoUpdate Ref.runtime Sim.host Sim.config DemoTodo.clash Sim.world0
  = ((EmptyString, Some "duplicate todo id: 2"), Sim.world0).
Proof.
  apply (proj2 (proj2 (@runTodoUpdate_items Ref.runtime Sim.host Sim.config DemoTodo.clash
                         Sim.world0))
               {[ "id" := JString "2"; "content" := JString "write the parser";
                  "status" := JString "pending"; "activeForm" := JString "working" ]}
               {[ "content" := JString "test it"; "activeForm" := JString "testing" ]});
    [reflexivity|vm_compute; reflexivity|vm_compute; reflexivity|].
  split; [vm_compute; discriminate|]. split; [vm_compute; discriminate|vm_compute; reflexivity].
Defined.

(** ** The endpoint and the shell *)

Lemma stake_sdrop (k : nat) (s : string) : stake k s +:+ sdrop k s = s.
Proof.
  revert s. induction k as [|k IH]; intros s; [apply sapp_nil_l|].
  destruct s as [|c s]; [reflexivity|]. cbn [stake sdrop]. rewrite sapp_cons, IH. reflexivity.
Qed.

Lemma HasSuffix_spec (s suffix : string) :
  strings.HasSuffix s suffix = true <-> exists u, s = u +:+ suffix.
Proof.
  unfold strings.HasSuffix. rewrite andb_true_iff, Nat.leb_le, String.eqb_eq. split.
  - intros [_ E]. set (k := (String.length s - String.length suffix)%nat) in *.
    exists (stake k s). rewrite <- E. symmetry. apply stake_sdrop.
  - intros [u ->]. rewrite length_app_s. split; [lia|].
    replace (String.length u + String.length suffix - String.length suffix)%nat
      with (String.length u) by lia.
    apply sdrop_app.
Qed.

Lemma lastChar_app (u : string) (c : ascii) (t : string) :
  lastChar (u +:+ String c t) = lastChar (String c t).
Proof.
  induction u as [|d u IH]; [reflexivity|].
  rewrite sapp_cons. cbn [lastChar] in *. rewrite IH.
  destruct (lastChar t); reflexivity.
Qed.

Lemma HasSuffix_last (s suffix : string) (c : ascii) :
  strings.HasSuffix s suffix = true -> lastChar suffix = Some c -> lastChar s = Some c.
Proof.
  intros Hs Hl. apply HasSuffix_spec in Hs as [u ->].
  destruct suffix as [|d t]; [discriminate Hl|]. rewrite lastChar_app. exact Hl.
Qed.

Lemma HasSuffix_other (s suffix : string) (c d : ascii) :
  lastChar s = Some c -> lastChar suffix = Some d -> c <> d ->
  strings.HasSuffix s suffix = false.
Proof.
  intros Hs Hd Hne. destruct (strings.HasSuffix s suffix) eqn:E; [|reflexivity].
  pose proof (HasSuffix_last _ _ _ E Hd). congruence.
Qed.

Lemma TrimSuffix_app (u suffix : string) : strings.TrimSuffix (u +:+ suffix) suffix = u.
Proof.
  unfold strings.TrimSuffix.
  assert (strings.HasSuffix (u +:+ suffix) suffix = true) as ->
    by (apply HasSuffix_spec; exists u; reflexivity).
  rewrite length_app_s.
  replace (String.length u + String.length suffix - String.length suffix)%nat
    with (String.length u) by lia.
  apply stake_app.
Qed.

(** X22: the endpoint [callOpenAI] posts to.  A base URL that ends in
    [#] is used as it is, without the [#]; one that ends in [/v1] gets
    [/chat/completions]; one that ends in a slash gets [chat/completions],
    so that no [/v1] is put in unless it is there already; any other base
    URL gets [/v1/chat/completions].  Unless the base URL ends in [#], the
    endpoint starts with it and ends in [/chat/completions]. *)
Theorem endpointOf_forms (u : string) :
  endpointOf (u +:+ "#") = u
  /\ endpointOf (u +:+ "/v1") = u +:+ "/v1/chat/completions"
  /\ endpointOf (u +:+ "/") = u +:+ "/chat/completions"
  /\ endpointOf (u +:+ "/v1/") = u +:+ "/v1/chat/completions"
  /\ (strings.HasSuffix u "#" = false -> strings.HasSuffix u "/v1" = false ->
      strings.HasSuffix u "/" = false ->
      endpointOf u = u +:+ "/v1/chat/completions")
  /\ (strings.HasSuffix u "#" = false ->
      strings.HasPrefix (endpointOf u) u = true
      /\ strings.HasSuffix (endpointOf u) "/chat/completions" = true).
Proof.
  assert (forall v, endpointOf (v +:+ "/") = v +:+ "/chat/completions") as Hslash.
  { intros v. unfold endpointOf.
    rewrite (HasSuffix_other (v +:+ "/") "#" "/" "#") by
        (first [apply lastChar_app|reflexivity|discriminate]).
    rewrite (HasSuffix_other (v +:+ "/") "/v1" "/" "1") by
        (first [apply lastChar_app|reflexivity|discriminate]).
    assert (strings.HasSuffix (v +:+ "/") "/" = true) as ->
      by (apply HasSuffix_spec; exists v; reflexivity).
    rewrite app_assoc_s. reflexivity. }
  split; [|split; [|split; [|split; [|split]]]].
  - unfold endpointOf.
    assert (strings.HasSuffix (u +:+ "#") "#" = true) as ->
      by (apply HasSuffix_spec; exists u; reflexivity).
    apply TrimSuffix_app.
  - unfold endpointOf.
    rewrite (HasSuffix_other (u +:+ "/v1") "#" "1" "#") by
        (first [apply lastChar_app|reflexivity|discriminate]).
    assert (strings.HasSuffix (u +:+ "/v1") "/v1" = true) as ->
      by (apply HasSuffix_spec; exists u; reflexivity).
    rewrite app_assoc_s. reflexivity.
  - apply Hslash.
  - change (u +:+ "/v1/") with (u +:+ ("/v1" +:+ "/")). rewrite <- app_assoc_s, Hslash.
    rewrite app_assoc_s. reflexivity.
  - intros H1 H2 H3. unfold endpointOf. rewrite H1, H2, H3. reflexivity.
  - intros H1. unfold endpointOf. rewrite H1.
    destruct (strings.HasSuffix u "/v1") eqn:H2;
      [|destruct (strings.HasSuffix u "/") eqn:H3].
    + split; [apply HasPrefix_spec; eexists; reflexivity|].
      apply HasSuffix_spec. exists u. reflexivity.
    + split; [apply HasPrefix_spec; eexists; reflexivity|].
      apply HasSuffix_spec in H3 as [v ->]. apply HasSuffix_spec. exists v.
      rewrite app_assoc_s. reflexivity.
    + split; [apply HasPrefix_spec; eexists; reflexivity|].
      apply HasSuffix_spec. exists (u +:+ "/v1"). rewrite app_assoc_s. reflexivity.
Qed.

Section ShellFacts.
Context `{Runtime} `{Host}.

(** X23: what [runBash] asks of the shell.  A command that is empty once
    trimmed, or that the classifier flags, never reaches the shell: the
    world is as it was.  Any other command is run once, trimmed, with the
    workspace as its directory; the deadline is [timeout_ms] milliseconds
    exactly as long as that fits 64 bits in nanoseconds, the default being
    thirty seconds; beyond that the product wraps around. *)
Theorem runBash_invocation (cfg : Config) (input : gmap string jvalue) (w : World) :
  let command := strings.TrimSpace (getString input "command") in
  let timeout := getIntOrDefault input "timeout_ms" 30000 in
  (command = EmptyString ->
   runBash cfg input w = ((EmptyString, Some "missing bash.command"), w))
  /\ (command <> EmptyString -> isDangerousCommand command = true ->
      runBash cfg input w = ((EmptyString, Some "blocked dangerous command"), w))
  /\ (command <> EmptyString -> isDangerousCommand command = false ->
      forall nanos, nanos = wrap64 (timeout * 1000000) ->
      snd (runBash cfg input w)
      = set_ext w (snd (exec_Run (cfg_WorkDir cfg) command nanos (ext w)))
      /\ (- 9223372036854 <= timeout <= 9223372036854 -> nanos = timeout * 1000000)
      /\ (input !! "timeout_ms" = None -> nanos = 30000000000)
      /\ (timeout = 9223372036855 -> nanos < 0))
  /\ wrap64 (9223372036855 * 1000000) = -9223372036854551616.
Proof.
  intros command timeout. split; [|split; [|split]].
  - intros E. unfold runBash. fold command. rewrite E. reflexivity.
  - intros Hne Hd. unfold runBash. fold command.
    destruct (String.eqb_spec command EmptyString); [contradiction|]. rewrite Hd. reflexivity.
  - intros Hne Hd nanos ->. split; [|split; [|split]].
    + unfold runBash. fold command timeout.
      destruct (String.eqb_spec command EmptyString); [contradiction|]. rewrite Hd.
      destruct (exec_Run _ _ _ (ext w)) as [res x]. cbn [snd].
      destruct (run_DeadlineExceeded res); [reflexivity|].
      destruct (run_Err res); reflexivity.
    + intros Ht. unfold wrap64.
      rewrite Z.mod_small by (change (2 ^ 64) with 18446744073709551616;
                              change (2 ^ 63) with 9223372036854775808; lia).
      lia.
    + intros Hm. subst timeout. unfold getIntOrDefault, getOptionalInt. rewrite Hm.
      reflexivity.
    + intros ->. reflexivity.
  - reflexivity.
Qed.

End ShellFacts.

Lemma runBash_invocation_witness :
  @runBash Ref.runtime Sim.host Sim.config (bashInput "  SUDO ls ") Sim.world0
  = ((EmptyString, Some "blocked dangerous command"), Sim.world0).
Proof.
  apply (proj1 (proj2 (@runBash_invocation Ref.runtime Sim.host Sim.config
                         (bashInput "  SUDO ls ") Sim.world0)));
    [vm_compute; discriminate|vm_compute; reflexivity].
Defined.

(** ** Writing a file and reading it back *)

Section FileFacts.
Context `{Runtime} `{Host}.

Lemma safePath_any_state (workDir p : string) (x x' : Ext) :
  filepath.IsAbs workDir = true -> safePath workDir p x = safePath workDir p x'.
Proof.
  intros Hw. destruct (String.eqb_spec (strings.TrimSpace p) EmptyString) as [E|Hp].
  - unfold safePath. rewrite E. reflexivity.
  - rewrite !safePath_resolved by assumption. reflexivity.
Qed.

Lemma runRead_whole (cfg : Config) (input : gmap string jvalue) (w : World)
      (abs text : string) :
  safePath (cfg_WorkDir cfg) (getString input "path") (ext w) = (abs, None) ->
  os_ReadFile abs (ext w) = (text, None) ->
  input !! "start_line" = None -> input !! "end_line" = None ->
  runRead cfg input w
  = ((clampText text (getIntOrDefault input "max_chars" maxToolResultChars), None), w).
Proof.
  intros Hs Hr H1 H2. unfold runRead. rewrite Hs, Hr.
  assert (getOptionalInt input "start_line" = (0, false)) as ->
    by (unfold getOptionalInt; rewrite H1; reflexivity).
  assert (getOptionalInt input "end_line" = (0, false)) as ->
    by (unfold getOptionalInt; rewrite H2; reflexivity).
  cbn [andb].
  pose proof (Split1_nonempty text "010"%char) as Hne.
  set (lines := strings.Split1 text "010"%char) in *.
  assert ((Z.of_nat (length lines) <? 0) = false) as -> by (apply Z.ltb_ge; lia).
  assert (strings.Join lines LF = text) as Hround by apply Join_Split1.
  rewrite slice_all, Hround. reflexivity.
Qed.

(** X24: what [write_file] wrote, [read_file] reads.  On a file system
    that keeps what is written, after a [write_file] that succeeded a
    [read_file] without a line range of a path that [safePath] resolves
    to the same file answers with the content that was written, clamped to
    [max_chars]: the content itself when it has at most that many runes.
    In mode [append], when the file could be read before, the answer is
    the old text followed by the content.  The todo board, the pending
    blocks and the round counter are as before the write. *)
Theorem write_then_read (cfg : Config) (input input' : gmap string jvalue)
        (w w' : World) (msg : string) :
  keepsWrites -> appendsAtEnd -> mkdirKeepsFiles ->
  runWrite cfg input w = ((msg, None), w') ->
  safePath (cfg_WorkDir cfg) (getString input' "path") (ext w')
  = safePath (cfg_WorkDir cfg) (getString input "path") (ext w) ->
  input' !! "start_line" = None -> input' !! "end_line" = None ->
  let content := getString input "content" in
  let mode := strings.ToLower unicode_ToLower (getString input "mode") in
  let limit := getIntOrDefault input' "max_chars" maxToolResultChars in
  (mode <> "append" ->
   runRead cfg input' w' = ((clampText content limit, None), w')
   /\ (Z.of_nat (length (runes content)) <= limit ->
       runRead cfg input' w' = ((content, None), w')))
  /\ (mode = "append" ->
      forall abs old,
        safePath (cfg_WorkDir cfg) (getString input "path") (ext w) = (abs, None) ->
        os_ReadFile abs (ext w) = (old, None) ->
        runRead cfg input' w' = ((clampText (old +:+ content) limit, None), w'))
  /\ todoBoard w' = todoBoard w
  /\ pendingContextBlocks w' = pendingContextBlocks w
  /\ roundsWithoutTodo w' = roundsWithoutTodo w.
Proof.
  intros Hkeep Happ Hmk Hrun Hpath H1 H2 content mode limit.
  unfold runWrite in Hrun. fold content mode in Hrun.
  destruct (safePath (cfg_WorkDir cfg) (getString input "path") (ext w))
    as [abs [e|]] eqn:Hs; [discriminate Hrun|].
  destruct (os_MkdirAll (filepath.Dir abs) (ext w)) as [[e|] x1] eqn:Hm; [discriminate Hrun|].
  destruct (String.eqb_spec mode "append") as [Emode|Nmode].
  - destruct (os_AppendFile abs content x1) as [[e|] x2] eqn:Ha; [discriminate Hrun|].
    injection Hrun as _ <-. cbn [set_ext ext todoBoard pendingContextBlocks roundsWithoutTodo].
    split; [intros Hn; contradiction|]. split; [|repeat split].
    intros _ abs0 old [= <-] Hold.
    apply (runRead_whole cfg input' _ abs _ Hpath); [|assumption|assumption]. cbn [ext].
    apply (Happ abs content old x1 x2); [|exact Ha].
    rewrite (Hmk _ abs _ _ Hm). exact Hold.
  - destruct (os_WriteFile abs content x1) as [[e|] x2] eqn:Hwr; [discriminate Hrun|].
    injection Hrun as _ <-. cbn [set_ext ext todoBoard pendingContextBlocks roundsWithoutTodo].
    assert (runRead cfg input' (set_ext w x2) = ((clampText content limit, None), set_ext w x2))
      as Hread.
    { apply (runRead_whole cfg input' _ abs _ Hpath); [|assumption|assumption]. cbn [ext].
      apply (Hkeep abs content x1 x2 Hwr). }
    split; [|split; [intros E; contradiction|repeat split]].
    intros _. split; [exact Hread|].
    intros Hlen. rewrite Hread, clampText_short by exact Hlen. reflexivity.
Qed.

(** X25: [read_file] looks at the workspace only.  In a rooted workspace
    its answer is the same in two worlds whose files inside the workspace
    read the same, whatever else differs; and it leaves the world as it
    is. *)
Theorem runRead_confined (cfg : Config) (input : gmap string jvalue) (w1 w2 : World) :
  filepath.IsAbs (cfg_WorkDir cfg) = true ->
  (forall path, insideWorkspace (cfg_WorkDir cfg) path ->
                os_ReadFile path (ext w1) = os_ReadFile path (ext w2)) ->
  fst (runRead cfg input w1) = fst (runRead cfg input w2)
  /\ snd (runRead cfg input w1) = w1
  /\ snd (runRead cfg input w2) = w2.
Proof.
  intros Hw Hsame. unfold runRead.
  rewrite (safePath_any_state (cfg_WorkDir cfg) (getString input "path") (ext w2) (ext w1) Hw).
  destruct (safePath (cfg_WorkDir cfg) (getString input "path") (ext w1))
    as [abs [e|]] eqn:Hs; [repeat split|].
  rewrite <- (Hsame abs (safePath_inside _ _ _ _ Hw Hs)).
  destruct (os_ReadFile abs (ext w1)) as [text [e|]]; [repeat split|].
  destruct (getOptionalInt input "start_line"), (getOptionalInt input "end_line").
  repeat split.
Qed.

End FileFacts.

Lemma Sim_keepsWrites : @keepsWrites Sim.host.
Proof.
  intros path data x x' [= <-]. cbn. unfold Sim.readFile. cbn.
  rewrite lookup_insert_eq. reflexivity.
Qed.

Lemma Sim_appendsAtEnd : @appendsAtEnd Sim.host.
Proof.
  intros path data old x x' Hold [= <-]. cbn in *. unfold Sim.readFile in *. cbn.
  rewrite lookup_insert_eq. destruct (Sim.files x !! path); [|discriminate Hold].
  injection Hold as ->. reflexivity.
Qed.

Lemma Sim_mkdirKeepsFiles : @mkdirKeepsFiles Sim.host.
Proof. intros dir path x x' [= <-]. reflexivity. Qed.

Lemma write_then_read_witness :
  @runRead Ref.runtime Sim.host Sim.config DemoWrite.readInput
           (snd (@runWrite Ref.runtime Sim.host Sim.config DemoWrite.writeInput Demo.world))
  = (("alpha" +:+ LF +:+ "beta", None),
     snd (@runWrite Ref.runtime Sim.host Sim.config DemoWrite.writeInput Demo.world)).
Proof.
  refine (proj2 (proj1 (@write_then_read Ref.runtime Sim.host Sim.config
                          DemoWrite.writeInput DemoWrite.readInput Demo.world _
                          "wrote 10 bytes to notes.txt"
                          Sim_keepsWrites Sim_appendsAtEnd Sim_mkdirKeepsFiles
                          _ _ eq_refl eq_refl) _) _).
  - vm_compute. reflexivity.
  - vm_compute. reflexivity.
  - vm_compute. discriminate.
  - vm_compute. discriminate.
Defined.

Lemma runRead_confined_witness :
  fst (@runRead Ref.runtime Sim.host Sim.config Demo.readInput (Sim.world Demo.machine))
  = fst (@runRead Ref.runtime Sim.host Sim.config Demo.readInput
                  (Sim.world DemoWrite.machine')).
Proof.
  refine (proj1 (@runRead_confined Ref.runtime Sim.host Sim.config Demo.readInput
                   (Sim.world Demo.machine) (Sim.world DemoWrite.machine') eq_refl _)).
  intros path (rest & _ & ->). cbn. unfold Sim.readFile.
  change (Sim.files DemoWrite.machine')
    with (<["/etc/motd" := "hello"]> (Sim.files Demo.machine)).
  rewrite lookup_insert_ne; [reflexivity|].
  change (resolve [] (pathElements (cfg_WorkDir Sim.config))) with ["work"].
  cbn [app]. destruct rest as [|e rest]; [vm_compute; discriminate|].
  unfold rootedPath. intros E. 
  destruct e as [|c e]; vm_compute in E; discriminate E.
Defined.

(** ** The requests of a query *)

Section LogFacts.
Context `{Runtime}.
Variable h : Host.
Variable cfg : Config.

Lemma runBash_log (input : gmap string jvalue) (w : @World (logged h)) :
  snd (ext (snd (runBash cfg input w))) = snd (ext w).
Proof.
  unfold runBash.
  destruct (String.eqb _ EmptyString); [reflexivity|].
  destruct (isDangerousCommand _); [reflexivity|].
  assert (forall dir command timeout,
             snd (snd (@exec_Run (logged h) dir command timeout (ext w))) = snd (ext w))
    as Hr by reflexivity.
  specialize (Hr (cfg_WorkDir cfg) (strings.TrimSpace (getString input "command"))
                 (wrap64 (getIntOrDefault input "timeout_ms" 30000 * 1000000))).
  destruct (exec_Run _ _ _ (ext w)) as [res x]. cbn [snd] in Hr.
  destruct (run_DeadlineExceeded res); [exact Hr|].
  destruct (run_Err res); exact Hr.
Qed.

Lemma runRead_log (input : gmap string jvalue) (w : @World (logged h)) :
  snd (ext (snd (runRead cfg input w))) = snd (ext w).
Proof.
  unfold runRead.
  destruct (safePath _ _ _) as [abs [e|]]; [reflexivity|].
  destruct (os_ReadFile abs (ext w)) as [text [e|]]; [reflexivity|].
  destruct (getOptionalInt input "start_line"), (getOptionalInt input "end_line").
  reflexivity.
Qed.

Lemma runWrite_log (input : gmap string jvalue) (w : @World (logged h)) :
  snd (ext (snd (runWrite cfg input w))) = snd (ext w).
Proof.
  unfold runWrite.
  destruct (safePath _ _ _) as [abs [e|]]; [reflexivity|].
  assert (snd (snd (@os_MkdirAll (logged h) (filepath.Dir abs) (ext w))) = snd (ext w))
    as H1 by reflexivity.
  destruct (os_MkdirAll (filepath.Dir abs) (ext w)) as [[e|] x1]; cbn [snd] in H1;
    [exact H1|].
  assert (snd (snd (@os_AppendFile (logged h) abs (getString input "content") x1)) = snd x1)
    as Ha by reflexivity.
  assert (snd (snd (@os_WriteFile (logged h) abs (getString input "content") x1)) = snd x1)
    as Hw by reflexivity.
  destruct (String.eqb _ "append").
  - destruct (os_AppendFile abs _ x1) as [[e|] x2]; cbn [snd] in Ha;
      [|destruct (filepath_Rel _ abs) as [rel [e|]]]; cbn; congruence.
  - destruct (os_WriteFile abs _ x1) as [[e|] x2]; cbn [snd] in Hw;
      [|destruct (filepath_Rel _ abs) as [rel [e|]]]; cbn; congruence.
Qed.

Lemma writeBack_log (abs updated msg : string) (w : @World (logged h)) :
  snd (ext (snd (writeBack abs updated msg w))) = snd (ext w).
Proof.
  unfold writeBack.
  assert (snd (snd (@os_WriteFile (logged h) abs updated (ext w))) = snd (ext w))
    as H1 by reflexivity.
  destruct (os_WriteFile abs updated (ext w)) as [[e|] x]; exact H1.
Qed.

Lemma runEdit_log (input : gmap string jvalue) (w : @World (logged h)) :
  snd (ext (snd (runEdit cfg input w))) = snd (ext w).
Proof.
  unfold runEdit.
  destruct (safePath _ _ _) as [abs [e|]]; [reflexivity|].
  destruct (os_ReadFile abs (ext w)) as [text [e|]]; [reflexivity|].
  destruct (String.eqb _ "replace").
  { destruct (String.eqb _ EmptyString); [reflexivity|]. apply writeBack_log. }
  destruct (String.eqb _ "insert"); [apply writeBack_log|].
  destruct (String.eqb _ "delete_range"); [|reflexivity].
  destruct (input !! "range") as [[| | | |l|]|]; try reflexivity.
  destruct l as [|r0 [|r1 [|r2 l]]]; try reflexivity.
  destruct (_ || _); [reflexivity|]. apply writeBack_log.
Qed.

Lemma runTodoUpdate_log (input : gmap string jvalue) (w : @World (logged h)) :
  snd (ext (snd (runTodoUpdate cfg input w))) = snd (ext w).
Proof.
  unfold runTodoUpdate.
  destruct (input !! "items") as [[| | | |l|]|]; try reflexivity.
  destruct (parseItems l 0 []) as [items|e]; [|reflexivity].
  destruct (Update (todoBoard w) items) as [[view [e|]] tm]; [reflexivity|].
  cbv zeta. destruct (negb _); reflexivity.
Qed.

Lemma dispatchToolCall_log (tc : ToolCall) (w : @World (logged h)) :
  snd (ext (snd (dispatchToolCall cfg tc w))) = snd (ext w).
Proof.
  unfold dispatchToolCall.
  destruct (json_Unmarshal_map _) as [input [e|]]; [reflexivity|].
  destruct (String.eqb _ "bash").
  { pose proof (runBash_log input w) as Hr.
    destruct (runBash cfg input w) as [[res err] w']. exact Hr. }
  destruct (String.eqb _ "read_file").
  { pose proof (runRead_log input w) as Hr.
    destruct (runRead cfg input w) as [[res err] w']. exact Hr. }
  destruct (String.eqb _ "write_file").
  { pose proof (runWrite_log input w) as Hr.
    destruct (runWrite cfg input w) as [[res err] w']. exact Hr. }
  destruct (String.eqb _ "edit_text").
  { pose proof (runEdit_log input w) as Hr.
    destruct (runEdit cfg input w) as [[res err] w']. exact Hr. }
  destruct (String.eqb _ "TodoWrite").
  { pose proof (runTodoUpdate_log input w) as Hr.
    destruct (runTodoUpdate cfg input w) as [[res err] w']. exact Hr. }
  reflexivity.
Qed.

Lemma dispatchAll_log (calls : list ToolCall) (w : @World (logged h)) :
  snd (ext (snd (dispatchAll cfg calls w))) = snd (ext w).
Proof.
  revert w. induction calls as [|tc calls IH]; intros w; [reflexivity|].
  cbn [dispatchAll]. pose proof (dispatchToolCall_log tc w) as H1.
  destruct (dispatchToolCall cfg tc w) as [m w1]. cbn [snd] in H1.
  specialize (IH w1). destruct (dispatchAll cfg calls w1) as [ms w2].
  cbn [snd] in *. congruence.
Qed.

Lemma callOpenAI_log (hist : list Message) (w : @World (logged h)) :
  if requestBuilt cfg (systemMessage cfg :: hist)
  then exists req, roundRequest cfg hist req
                   /\ snd (ext (snd (callOpenAI cfg (systemMessage cfg :: hist) w)))
                      = snd (ext w) ++ [req]
  else exists err, callOpenAI cfg (systemMessage cfg :: hist) w = (inr err, w).
Proof.
  unfold callOpenAI, requestBuilt.
  destruct (json_Marshal _ _ _ _) as [e|]; [exists e; reflexivity|].
  destruct (http_NewRequest _) as [e|]; [exists e; reflexivity|].
  set (req := {| req_Endpoint := _ |}).
  exists req. split; [unfold roundRequest; repeat split|].
  assert (snd (snd (@http_Do (logged h) req (ext w))) = snd (ext w) ++ [req]) as H1
    by reflexivity.
  destruct (http_Do req (ext w)) as [[resp|e] x]; cbn [snd] in H1;
    [destruct (cfg_Stream cfg)|]; exact H1.
Qed.

Lemma round_log (hist : list Message) (w : @World (logged h)) :
  (if requestBuilt cfg (systemMessage cfg :: hist)
   then exists req, roundRequest cfg hist req
                    /\ snd (ext (roundWorld (round cfg hist w))) = snd (ext w) ++ [req]
   else exists err, round cfg hist w = Failed err w)
  /\ match round cfg hist w with
     | Continues h' _ => exists added, added <> [] /\ h' = hist ++ added
     | _ => True
     end.
Proof.
  pose proof (callOpenAI_log hist w) as Hcall. unfold round.
  destruct (requestBuilt cfg (systemMessage cfg :: hist)).
  - destruct Hcall as (req & Hreq & Hlog).
    destruct (callOpenAI cfg (systemMessage cfg :: hist) w) as [[resp|e] w1];
      cbn [snd] in Hlog; [|split; [exists req; split; assumption|exact I]].
    destruct (resp_Choices resp) as [|choice rest];
      [split; [exists req; split; assumption|exact I]|].
    destruct (_ && _).
    + pose proof (dispatchAll_log (msg_ToolCalls (ch_Message choice)) w1) as H2.
      destruct (dispatchAll cfg _ w1) as [ms w2]. cbn [snd roundWorld] in *.
      split; [exists req; split; [exact Hreq|congruence]|].
      exists ([ch_Message choice] ++ ms). split; [discriminate|reflexivity].
    + cbn [roundWorld]. cbv zeta. split; [|exact I]. exists req. split; [exact Hreq|].
      destruct (10 <? _); [unfold ensureContextBlock; destruct (existsb _ _)|]; exact Hlog.
  - destruct Hcall as [err ->]. split; [exists err; reflexivity|exact I].
Qed.

Lemma rounds_log (n : nat) (hist : list Message) (w : @World (logged h)) :
  exists sent,
    snd (ext (snd (rounds n cfg hist w))) = snd (ext w) ++ sent
    /\ (length sent <= n)%nat
    /\ match sent with
       | [] =>
         n = 0%nat
         \/ (requestBuilt cfg (systemMessage cfg :: hist) = false
             /\ exists err, rounds n cfg hist w = ((hist, Some err), w))
       | first :: later =>
         requestBuilt cfg (systemMessage cfg :: hist) = true
         /\ roundRequest cfg hist first
         /\ Forall (fun req =>
                      exists seen rest,
                        seen <> [] /\ roundRequest cfg (hist ++ seen) req
                        /\ fst (fst (rounds n cfg hist w)) = hist ++ seen ++ rest) later
       end.
Proof.
  revert hist w. induction n as [|n IH]; intros hist w.
  { exists []. cbn. rewrite List.app_nil_r. split; [reflexivity|]. split; [lia|].
    left. reflexivity. }
  cbn [rounds]. destruct (round_log hist w) as (Hsend & Hh).
  destruct (requestBuilt cfg (systemMessage cfg :: hist)) eqn:Hbuilt.
  - destruct Hsend as (req & Hreq & Hlog).
    destruct (round cfg hist w) as [e w1|h1 w1|h1 w1]; cbn [roundWorld] in Hlog.
    + exists [req]. cbn [snd length].
      split; [exact Hlog|]. split; [lia|]. split; [reflexivity|].
      split; [exact Hreq|constructor].
    + exists [req]. cbn [snd length].
      split; [exact Hlog|]. split; [lia|]. split; [reflexivity|].
      split; [exact Hreq|constructor].
    + destruct Hh as (added & Hne & ->).
      destruct (IH (hist ++ added) w1) as (sent & Hs & Hlen & Hshape).
      destruct (rounds_extends n cfg (hist ++ added) w1) as [more Hmore].
      exists (req :: sent). split; [|split; [|split; [|split]]].
      * rewrite Hs, Hlog, <- List.app_assoc. reflexivity.
      * cbn [length]. lia.
      * reflexivity.
      * exact Hreq.
      * destruct sent as [|first later]; [constructor|].
        destruct Hshape as (_ & Hfirst & Hlater). constructor.
        -- exists added, more. split; [exact Hne|]. split; [exact Hfirst|].
           rewrite Hmore, <- List.app_assoc. reflexivity.
        -- eapply List.Forall_impl; [|exact Hlater]. cbn beta.
           intros r (seen & rest & Hn & Hr & Hf). exists (added ++ seen), rest.
           split; [destruct added; [congruence|discriminate]|].
           rewrite List.app_assoc. split; [exact Hr|].
           rewrite Hf, <- !List.app_assoc. reflexivity.
  - destruct Hsend as [err ->]. exists []. cbn [snd length].
    split; [rewrite List.app_nil_r; reflexivity|]. split; [lia|].
    right. split; [reflexivity|]. exists err. reflexivity.
Qed.

(** X26: what [query] sends.  On a host that keeps the requests it is
    sent, a call of [query] adds at most twenty requests to the log, and
    the tools add none.  It adds none exactly when the first request
    cannot be built, and then [query] fails with the history it was given.
    Every request goes to the configured endpoint with the configured key,
    model, limit and stream flag; the first carries the system message and
    the history [query] was given; each later one carries the system
    message and a longer part of the history that [query] returns, so
    nothing that was sent is missing from what is returned. *)
Theorem query_requests (messages : list Message) (w : @World (logged h)) :
  let r := query cfg messages w in
  exists sent,
    snd (ext (snd r)) = snd (ext w) ++ sent
    /\ (length sent <= 20)%nat
    /\ match sent with
       | [] =>
         requestBuilt cfg (systemMessage cfg :: messages) = false
         /\ exists err, r = ((messages, Some err), w)
       | first :: later =>
         requestBuilt cfg (systemMessage cfg :: messages) = true
         /\ roundRequest cfg messages first
         /\ Forall (fun req =>
                      exists seen rest,
                        seen <> [] /\ roundRequest cfg (messages ++ seen) req
                        /\ fst (fst r) = messages ++ seen ++ rest) later
       end.
Proof.
  intros r. subst r. rewrite query_rounds.
  destruct (rounds_log maxAgentIterations messages w) as (sent & Hs & Hlen & Hshape).
  exists sent. split; [exact Hs|]. split; [exact Hlen|].
  destruct sent as [|first later]; [|exact Hshape].
  destruct Hshape as [Hn|Hshape]; [discriminate Hn|exact Hshape].
Qed.

End LogFacts.

(** ** The rendered board *)

Lemma renderLine_shape (todo : TodoItem) :
  exists head, renderLine todo = head +:+ todo_Content todo +:+ reset
               /\ charFree "010"%char head = true.
Proof.
  unfold renderLine.
  destruct (String.eqb (todo_Status todo) "completed");
    [|destruct (String.eqb (todo_Status todo) "in_progress")];
    eexists; (split; [rewrite <- !app_assoc_s; reflexivity|]); reflexivity.
Qed.

Lemma renderLine_free (todo : TodoItem) :
  charFree "010"%char (todo_Content todo) = true ->
  charFree "010"%char (renderLine todo) = true.
Proof.
  intros Hc. destruct (renderLine_shape todo) as (head & -> & Hh).
  rewrite !charFree_app, Hh, Hc. reflexivity.
Qed.

(** X27: the rendered board has one line for each item, in the order of
    the items, as long as no content holds a line feed; each line ends in
    the content of its item and the reset code, and the mark is the
    crossed box exactly for the status [completed].  An empty board is
    rendered as the one line [No todos yet], which is also how a board
    with the single pending item [No todos yet] is rendered: the rendering
    does not tell the two apart. *)
Theorem Render_lines (tm : TodoManager) :
  (tm_items tm <> [] ->
   Forall (fun todo => charFree "010"%char (todo_Content todo) = true) (tm_items tm) ->
   strings.Split1 (Render tm) "010"%char = map renderLine (tm_items tm)
   /\ length (strings.Split1 (Render tm) "010"%char) = length (tm_items tm))
  /\ (forall todo,
        exists head, renderLine todo = head +:+ todo_Content todo +:+ reset
                     /\ (strings.Contains head "☒" = true
                         <-> todo_Status todo = "completed"))
  /\ (tm_items tm = [] -> Render tm = todoPendingColor +:+ "☐ No todos yet" +:+ reset)
  /\ Render {| tm_items := [] |}
     = Render {| tm_items := [ {| todo_ID := "1"; todo_Content := "No todos yet";
                                  todo_Status := "pending";
                                  todo_ActiveForm := "Waiting" |} ] |}.
Proof.
  split; [|split; [|split]].
  - intros Hne Hfree. unfold Render, render.
    destruct (tm_items tm) as [|a l] eqn:E; [congruence|].
    assert (strings.Split1 (strings.Join (map renderLine (a :: l)) LF) "010"%char
            = map renderLine (a :: l)) as Hs.
    { apply Split1_Join_free; [discriminate|].
      apply Forall_map. eapply List.Forall_impl; [|exact Hfree]. apply renderLine_free. }
    rewrite Hs. split; [reflexivity|]. apply length_map.
  - intros todo. unfold renderLine.
    destruct (String.eqb_spec (todo_Status todo) "completed") as [E|Hn].
    + eexists. split; [rewrite <- !app_assoc_s; reflexivity|].
      split; [intros _; exact E|intros _; vm_compute; reflexivity].
    + destruct (String.eqb (todo_Status todo) "in_progress");
        (eexists; split; [rewrite <- !app_assoc_s; reflexivity|]);
        (split; [intros Hc; vm_compute in Hc; discriminate Hc|intros E; contradiction]).
  - intros E. unfold Render, render. rewrite E. reflexivity.
  - vm_compute. reflexivity.
Qed.

(** The bound is reached: a model that asks for a tool in every round is
    sent twenty requests. *)
Lemma query_requests_tight :
  length (snd (ext (snd (@query Ref.runtime (logged Sim.host) Sim.config
                                [Example.userMessage] (DemoWrite.world scriptLooping)))))
  = 20%nat.
Proof. vm_compute. reflexivity. Qed.

(** With a base URL that holds a line feed no request can be made:
    nothing is sent. *)
Lemma query_requests_witness :
  (exists first later,
      snd (ext (snd (@query Ref.runtime (logged Sim.host) Sim.config
                            [Example.userMessage] (DemoWrite.world scriptFailing))))
      = first :: later
      /\ req_Messages first = [systemMessage Sim.config; Example.userMessage])
  /\ snd (ext (snd (@query Ref.runtime (logged Sim.host) DemoStart.brokenURL
                           [Example.userMessage] (DemoWrite.world scriptFailing))))
     = [].
Proof.
  split.
  - destruct (@query_requests Ref.runtime Sim.host Sim.config [Example.userMessage]
                              (DemoWrite.world scriptFailing))
      as ([|first later] & Hlog & _ & Hshape).
    + destruct Hshape as [Hb _]. vm_compute in Hb. discriminate Hb.
    + destruct Hshape as (_ & Hfirst & _).
      exists first, later. split; [exact Hlog|]. apply Hfirst.
  - destruct (@query_requests Ref.runtime Sim.host DemoStart.brokenURL [Example.userMessage]
                              (DemoWrite.world scriptFailing))
      as ([|first later] & Hlog & _ & Hshape).
    + exact Hlog.
    + destruct Hshape as (Hb & _). vm_compute in Hb. discriminate Hb.
Defined.

Lemma Render_lines_witness :
  strings.Split1 (Render {| tm_items := [Example.todo "1" "write" "completed" "Writing";
                                         Example.todo "2" "test" "pending" "Testing"] |})
                 "010"%char
  = map renderLine [Example.todo "1" "write" "completed" "Writing";
                    Example.todo "2" "test" "pending" "Testing"].
Proof.
  refine (proj1 (proj1 (Render_lines _) _ _)); [discriminate|].
  repeat constructor.
Defined.
